(* ===== verification/_CoqProject ===== *)
-Q . S2P
Prelude.v
Config.v
CString.v
Memory.v
SysMem.v
Clock.v
Device.v
Ntoa.v
Ftoa.v
Vsprintf.v
Event.v
Lock.v
Regs.v
Cpu.v
Cache.v
Args.v
Thread.v
Sched.v
File.v
Timer.v
Syscall.v
Prci.v
Regfile.v
Intr.v
Boot.v
Clk.v
Uart.v
Console.v
Printk.v
Gpio.v
SysDev.v
Boards.v
Probe.v
Trap.v
Crt.v
Reset.v
Init.v
Leader.v
Harts.v
Calls.v
Locks.v
AuxTool.v
