(* ===== verification/Prelude.v ===== *)
(** * Baremetal CRT: a verified model of the run-time system

    The program under src/ is a C run-time system for RISC-V machines without an operating system.
    It starts the harts, initialises devices from tables that are compiled in, and
    then runs one program that is linked with it, against newlib or musl; the program asks for
    services with Linux system calls, which the trap handler hands to functions in C.  A host
    tool embeds the program headers of the linked file for the start of the program.

    ** How the parts work together

    A hart starts in start.S ([Reset.k_reset]).  All but the main one wait for their number in
    [k_boot_proc]; the main one calls [k_init_system] ([Init]), which clears and copies the static
    memory, initialises the heap ([Memory]), the drivers ([Boards.start], over the tree of [Device])
    and the process with its standard files ([File]).  [k_init_leader] ([Thread]) wakes up the other
    harts ([Boot]), puts the arguments on the stack of the main thread ([Args]), and makes the main thread
    and the idle threads.  A trap ([Trap.k_trap]) saves the registers of the thread and leads to a
    system call ([Calls.k_syscall]), an interrupt ([Intr]) or an exception, and then gives the registers
    of the thread of the CPU back.  [k_sys_clone], [k_sys_futex] and [k_sys_exit] ([Thread], [Cpu]) move
    threads between CPUs with inter-processor interrupts ([Intr.k_intc_raise_ipi]).

    ** Files of the development, in order, and what they model

    Prelude: outcomes of C code, integers of a width, loops with fuel, automation.
    Config: word size, configurations of the boards and the conditions the preprocessor checks.
    CString: sys/sys/string.c.  Memory: sys/memory.c.  SysMem: the calls on memory of sys/syscall.c.
    Clock: sys/clock.c.  Device: driver/device.c and driver/io.c.  Ntoa, Ftoa, Vsprintf: sys/vsprintf.c.
    Event: sys/event.c.  Lock: sys/lock.c and atomic.h.  Regs: arch/riscv/cpu.c and thread.c.
    Cpu, Cache: driver/cpu/cpu.c, driver/cpu/riscv.c, sys/smp.c.  Args: [init_args] of sys/init.c.
    Thread: sys/thread.c, the rest of sys/init.c and the calls on threads of sys/syscall.c; Sched has its properties.
    File: sys/file.c, sys/printk.c.  Timer: the drivers of timers.  Syscall: the remaining calls and sys/fini.c.
    Prci, Clk: driver/clk.  Regfile: the plainest hardware, for examples.  Intr: arch/riscv/intr.c, driver/intc.
    Boot: the concurrent parts of driver/cpu/riscv.c, start.S, sys/thread.c and driver/cpu/cpu.c.
    Uart: driver/uart; Console and Printk: its properties, with the formatted output of sys/printk.c.
    Gpio: driver/gpio.  SysDev: the devices of the system, driver/reset.  Boards: board/ and the drivers together.
    Probe: the probe of driver/device.c with all the drivers.
    Trap: isr.S, switch.S and arch/cpu.h.  Crt: arch/riscv/newlib and sys/newlib/crt.c.  Reset: start.S.
    Init: [k_init_system] of sys/init.c.  Leader: what [k_init_leader] leaves and the way to [main].
    Harts: what [k_init_child] leaves.  Calls: syscall.h, syscall_num.h, sys/libc and sys/newlib.
    Locks: the locks that the system calls take, over all of them.  AuxTool: tool/add_auxdata.c.

    Definitions have the names of the functions, macros and structures they model.  A function in C
    takes the state it changes and returns [exec] of its result and the new state: [Ret], [Undef] for
    undefined behaviour, [Hang] for a wait that does not end or fuel that runs out.  A static
    object that C refers to by pointers (device, driver, handler, thread, CPU) is a
    number, a null pointer [None] or 0; function pointers in tables of operations are options of functions, those
    in handlers are numbers ([FN_] constants).  State is a record for each file, and the records are joined by
    classes ([HasKern], [HasIrq], [HasUarts], [HasIo] and so on) of which [Boards.sys], the state of everything, is an instance.
    Code in assembly is a list of instructions with its own small-step function.

    ** What is shown

    - Mutual exclusion and interleaving: the spinlock ([Lock]); the start of the harts under every fair
      schedule, at the level of accesses ([Boot]) and of instructions ([Reset], by refinement); waiting in a futex; and
      two schedules in which the code goes wrong, the lost wake-up of the idle thread and the race of two
      calls of [k_thread_clone].
    - Locks: after every sequence of system calls that do not wait, all locks are free again, and no call hangs on one ([Locks]).
    - Traps: they do not show in the code they interrupt, a system call changes [a0] and the program counter only,
      a context switch resumes the thread of the CPU ([Trap]); the tables of calls agree with the numbers of Linux, and with
      compiled functions, what a program sees of a call is what the function of its number does ([Calls]).
    - Start: from reset to [k_init_system] ([Reset]), [k_init_system] with the drivers on every board ([Init]),
      and from there over [k_init_leader] and two context switches to [main] with its arguments ([Leader], by [Args]
      and [Crt]); the idle threads of all harts and the invariant of the scheduler ([Harts]); program headers from the linked file to the
      auxiliary vector ([AuxTool]).
    - Interrupts: the types of handlers in the lists of the controllers, the path of an interrupt through the PLIC, of an
      inter-processor interrupt through the CLINT, of the timer, and of the serial port on every board.
    - Devices: a probe finds its way through every tree, and the drivers keep it ([Probe]); what is printed leaves the serial port, the divisor of its baud rate, the lines of the GPIO, the
      counter that is read in halves, the dividers of the PLL.
    - The kernel's services: the allocator refines a bump allocator, and what [brk] does; the lists of event
      handlers refine lists; threads and CPUs keep [sched_ok]; formatting into every sink is the same
      sequence of characters; [k_memcpy].
    - Errors and bounds: [add_auxdata] on every file, the buffers of the conversions of integers.

    ** Assumptions

    - Accesses to shared memory interleave (sequential consistency); the code has fences for this, but for
      the loads of the stack pointers behind the poll of [k_boot_proc] in start.S.
    - Hardware is a state [W] with accesses ([Device.Mmio]); a theorem about a device states in a class what the device promises
      ([Counter], [Comparators], [Transmitter], [Latch], or is about registers that keep what is written) and has an instance in its example.
    - A function in C that assembly calls keeps to the calling convention ([Trap.c_function]), and for [Calls] computes
      what its definition says ([Calls.compiled]).
    - The write of an open file returns ([Locks]), as that of the standard files does on a port that takes characters.
    - start.S writes [k_boot_done] as a whole word; in Reset.v the variable is one.
    - A CPU holds a lock of the system while it runs a function: the functions of Cpu.v, Thread.v and of the
      drivers run alone, and Boot.v, Lock.v, Reset.v and [Sched.k_thread_clone_race] are where harts interleave.

    ** Fuel

    Loops that end have fuel computed from their input (the length of a list or of a string, the number of bytes), and a
    theorem on them shows that the result is [Ret].  Loops that poll hardware or memory take fuel as an argument:
    the theorems ask for more than the bound the device promises ([patience]), or, for schedules, for fairness.
    [k_device_probe_all] is given two rounds on the boards, and the theorem shows that it ends within them.

    ** Not modelled

    Test programs and benchmarks (src/test), Kconfig, CMake files and linker scripts (build descriptions, whose values are
    in [Config], [layout] and [linker]); what newlib and musl do (not in the repository); the texts of
    warnings; the debug output of add_auxdata, which is compiled out; the macros that declare tables of
    initialisation functions, which are the lists [initcalls] and [driver_init] here; values of hifive1 beyond its tables, since its
    configuration does not compile; and the order of memory accesses weaker than interleaving. *)

From Stdlib Require Export ZArith Lia.
From stdpp Require Export strings base numbers gmap option decidable list.

#[global] Open Scope Z_scope.

(** ** Outcomes of C code *)

(** A C function either returns, runs into behaviour the language leaves
    undefined (an access outside an array, a read past the end of a string, a
    missing variadic argument), or does not come back within the fuel given. *)
Inductive exec (A : Type) : Type :=
| Ret (a : A)
| Undef
| Hang.
Arguments Ret {A} a.
Arguments Undef {A}.
Arguments Hang {A}.

#[export] Instance exec_ret : MRet exec := fun A a => Ret a.
#[export] Instance exec_bind : MBind exec := fun A B f x =>
  match x with
  | Ret a => f a
  | Undef => Undef
  | Hang => Hang
  end.

(** A missing value of an array or a list is undefined behaviour. *)
Definition of_opt {A} (o : option A) : exec A :=
  match o with
  | Some a => Ret a
  | None => Undef
  end.

(** [while (cond) body], given [fuel] iterations. *)
Fixpoint while {S} (fuel : nat) (cond : S → bool) (body : S → exec S) (s : S) : exec S :=
  if cond s then
    match fuel with
    | O => Hang
    | Datatypes.S fuel => s' ← body s; while fuel cond body s'
    end
  else Ret s.

(** ** Integers of a fixed width *)

(** Value of an unsigned [w]-bit object that is assigned [z]. *)
Definition uwrap (w z : Z) : Z := z mod 2 ^ w.

(** Value of a signed [w]-bit object that is assigned [z] (two's complement). *)
Definition swrap (w z : Z) : Z := (z + 2 ^ (w - 1)) mod 2 ^ w - 2 ^ (w - 1).

Notation u8 := (uwrap 8).
Notation u16 := (uwrap 16).
Notation u32 := (uwrap 32).
Notation u64 := (uwrap 64).
Notation i32 := (swrap 32).
Notation i64 := (swrap 64).

(** Truth value of a C integer. *)
Definition truth (z : Z) : bool := negb (z =? 0).

(** [flags & m] used as a condition. *)
Definition has (flags m : Z) : bool := truth (Z.land flags m).

(** [flags &= ~m] on an object of non-negative value. *)
Definition clear (flags m : Z) : Z := Z.ldiff flags m.

(** [BIT(x)] *)
Definition BIT (x : Z) : Z := Z.shiftl 1 x.

(** [ALIGN_OF(x, align)] *)
Definition ALIGN_OF (x align : Z) : Z :=
  if x mod align =? 0 then x else (x / align + 1) * align.

(** ** Arrays: an access outside of the array is not defined *)

Definition zget {A} (l : list A) (i : Z) : option A :=
  if i <? 0 then None else l !! Z.to_nat i.

Definition zset {A} (l : list A) (i : Z) (v : A) : option (list A) :=
  if (i <? 0) || (Z.of_nat (length l) <=? i) then None
  else Some (<[Z.to_nat i := v]> l).

Notation zlen l := (Z.of_nat (length l)).

(** ** Error numbers *)

Definition EPERM : Z := 1.
Definition EIO : Z := 5.
Definition EBADF : Z := 9.
Definition EAGAIN : Z := 11.
Definition EWOULDBLOCK : Z := EAGAIN.
Definition ENOMEM : Z := 12.
Definition EFAULT : Z := 14.
Definition EBUSY : Z := 16.
Definition ENODEV : Z := 19.
Definition EINVAL : Z := 22.
Definition ENOTTY : Z := 25.
Definition ERANGE : Z := 34.
Definition ENOSYS : Z := 38.
Definition ENOTSUP : Z := 95.

(** [IS_ERROR(r)]: a probe that asks to be tried again is not an error. *)
Definition IS_ERROR (r : Z) : bool := negb (r =? 0) && negb (r =? - EAGAIN).

(** ** Automation *)

Create HintDb crt.

(** Split every boolean comparison of the goal and of the hypotheses into an
    arithmetic fact. *)
Ltac bsplit :=
  repeat match goal with
  | H : _ && _ = true |- _ => apply andb_true_iff in H as [? ?]
  | H : _ || _ = false |- _ => apply orb_false_iff in H as [? ?]
  | H : negb _ = true |- _ => apply negb_true_iff in H
  | H : negb _ = false |- _ => apply negb_false_iff in H
  | H : (_ =? _) = true |- _ => apply Z.eqb_eq in H
  | H : (_ =? _) = false |- _ => apply Z.eqb_neq in H
  | H : (_ <? _) = true |- _ => apply Z.ltb_lt in H
  | H : (_ <? _) = false |- _ => apply Z.ltb_ge in H
  | H : (_ <=? _) = true |- _ => apply Z.leb_le in H
  | H : (_ <=? _) = false |- _ => apply Z.leb_gt in H
  | H : (_ >? _) = _ |- _ => rewrite Z.gtb_ltb in H
  | H : (_ >=? _) = _ |- _ => rewrite Z.geb_leb in H
  end.

(** Case analysis on the conditions the goal branches on. *)
Ltac cases :=
  repeat (case_match; bsplit; simplify_eq/=).

(** The same for the branches taken in a hypothesis. *)
Ltac cases_in H :=
  repeat (case_match; bsplit; simplify_eq/=; try discriminate H).

(** Unfold a bind of the outcome monad. *)
Ltac run_exec := unfold mbind, mret, exec_bind, exec_ret in *; simpl in *.

(** Reduce the binds of known outcomes and nothing else. *)
Ltac mstep := cbn [mbind exec_bind of_opt].
Tactic Notation "mstep_in" hyp(H) := cbn [mbind exec_bind of_opt] in H.

(** Decide arithmetic with divisions and remainders by constants. *)
Ltac dlia := Z.to_euclidean_division_equations; lia.

(** ** Lemmas on outcomes *)

Lemma bind_ret {A B} (x : exec A) (f : A → exec B) b :
  (x ≫= f) = Ret b → ∃ a, x = Ret a ∧ f a = Ret b.
Proof. destruct x; simpl; [eauto | discriminate | discriminate]. Qed.

Lemma of_opt_ret {A} (o : option A) a : of_opt o = Ret a ↔ o = Some a.
Proof. destruct o; simpl; split; intros; by simplify_eq. Qed.

(** Total correctness of a loop: an invariant that the body keeps and a measure
    that it decreases give an end state where the condition is false. *)
Lemma while_rule {S} (I : S → Prop) (μ : S → Z) fuel cond (body : S → exec S) s :
  (∀ s, I s → cond s = true → ∃ s', body s = Ret s' ∧ I s' ∧ 0 <= μ s' < μ s) →
  I s → μ s <= Z.of_nat fuel →
  ∃ s', while fuel cond body s = Ret s' ∧ I s' ∧ cond s' = false.
Proof.
  intros Hb. revert s. induction fuel as [|fuel IH]; intros s Hs Hf; simpl.
  - destruct (cond s) eqn:E; [|eauto].
    destruct (Hb s Hs E) as (s' & _ & _ & ?). lia.
  - destruct (cond s) eqn:E; [|eauto].
    destruct (Hb s Hs E) as (s' & Hs' & HI & ?).
    rewrite Hs'. simpl. apply IH; [done|lia].
Qed.

(** The same for a body that may also run into undefined behaviour, in states
    where [U] holds. *)
Lemma while_rule_undef {S} (I : S → Prop) (U : Prop) (μ : S → Z) fuel cond (body : S → exec S) s :
  (∀ s, I s → cond s = true → 0 < μ s ∧
     match body s with Ret s' => I s' ∧ μ s' < μ s | Undef => U | Hang => False end) →
  I s → μ s <= Z.of_nat fuel →
  match while fuel cond body s with
  | Ret s' => I s' ∧ cond s' = false
  | Undef => U
  | Hang => False
  end.
Proof.
  intros Hb. revert s. induction fuel as [|fuel IH]; intros s Hs Hf; simpl.
  - destruct (cond s) eqn:E; [|done]. destruct (Hb s Hs E). lia.
  - destruct (cond s) eqn:E; [|done]. destruct (Hb s Hs E) as [? Hm].
    destruct (body s) as [s'| |]; simpl; [|done..]. apply IH; [apply Hm|lia].
Qed.

(** Apply [while_rule] to the loop of the goal; four goals are left: the body,
    the start, the fuel, and the rest of the proof with [W] about the end state. *)
Ltac while_with I μ :=
  lazymatch goal with
  | |- context [while ?f ?c ?b ?s] =>
    let W := fresh "W" in
    assert (∃ s', while f c b s = Ret s' ∧ I s' ∧ c s' = false) as W;
    [apply (while_rule I μ f c b s) | ]
  end.

Lemma while_done {S} fuel cond (body : S → exec S) s :
  cond s = false → while fuel cond body s = Ret s.
Proof. intros E. destruct fuel; simpl; by rewrite E. Qed.

Lemma while_step {S} fuel cond (body : S → exec S) s s' :
  cond s = true → body s = Ret s' →
  while (Datatypes.S fuel) cond body s = while fuel cond body s'.
Proof. intros E1 E2. simpl. by rewrite E1, E2. Qed.

(** ** Lemmas on integers *)

Lemma uwrap_range w z : 0 <= w → 0 <= uwrap w z < 2 ^ w.
Proof. intros. apply Z.mod_pos_bound, Z.pow_pos_nonneg; lia. Qed.

Lemma uwrap_small w z : 0 <= z < 2 ^ w → uwrap w z = z.
Proof. apply Z.mod_small. Qed.

Lemma uwrap_idem w z : uwrap w (uwrap w z) = uwrap w z.
Proof. apply Zmod_mod. Qed.

(** [(size_t)-1] *)
Lemma uwrap_wrap_neg1 w : 0 <= w → uwrap w (0 - 1) = 2 ^ w - 1.
Proof.
  intros Hw. unfold uwrap. assert (0 < 2 ^ w) by (apply Z.pow_pos_nonneg; lia).
  replace (0 - 1) with (2 ^ w - 1 + -1 * 2 ^ w) by lia.
  rewrite Z_mod_plus_full. apply Z.mod_small. lia.
Qed.

Lemma swrap_small w z : 0 < w → - 2 ^ (w - 1) <= z < 2 ^ (w - 1) → swrap w z = z.
Proof.
  intros Hw Hz. unfold swrap.
  assert (2 ^ w = 2 * 2 ^ (w - 1)) as Hp.
  { rewrite <- Z.pow_succ_r by lia. f_equal. lia. }
  rewrite Z.mod_small; lia.
Qed.

Lemma swrap_range w z : 0 < w → - 2 ^ (w - 1) <= swrap w z < 2 ^ (w - 1).
Proof.
  intros Hw. unfold swrap.
  assert (2 ^ w = 2 * 2 ^ (w - 1)) as Hp.
  { rewrite <- Z.pow_succ_r by lia. f_equal. lia. }
  pose proof (Z.mod_pos_bound (z + 2 ^ (w - 1)) (2 ^ w)).
  assert (0 < 2 ^ (w - 1)) by (apply Z.pow_pos_nonneg; lia). lia.
Qed.

(** The low bits of a signed value are those of the integer it was made from. *)
Lemma swrap_low w n z : 0 <= n <= w → swrap w z mod 2 ^ n = z mod 2 ^ n.
Proof.
  intros Hn. unfold swrap.
  rewrite Zminus_mod, <- (Znumtheory.Zmod_div_mod (2 ^ n) (2 ^ w)).
  - rewrite <- Zminus_mod. f_equal. lia.
  - apply Z.pow_pos_nonneg; lia.
  - apply Z.pow_pos_nonneg; lia.
  - exists (2 ^ (w - n)). rewrite <- Z.pow_add_r by lia. f_equal. lia.
Qed.

Lemma land_ones_mod z n : 0 <= n → Z.land z (2 ^ n - 1) = z mod 2 ^ n.
Proof.
  intros. rewrite <- Z.land_ones by lia. f_equal.
  rewrite Z.ones_equiv. lia.
Qed.

(** Clearing bits that are not set. *)
Lemma clear_id flags m : has flags m = false → clear flags m = flags.
Proof.
  unfold has, truth, clear. intros E. bsplit. apply Z.bits_inj'. intros n _.
  apply (f_equal (fun z => Z.testbit z n)) in E. rewrite Z.land_spec, Z.testbit_0_l in E.
  rewrite Z.ldiff_spec. by destruct (Z.testbit flags n), (Z.testbit m n).
Qed.

Lemma truth_true z : truth z = true ↔ z ≠ 0.
Proof. unfold truth. rewrite negb_true_iff, Z.eqb_neq. done. Qed.
Lemma truth_false z : truth z = false ↔ z = 0.
Proof. unfold truth. rewrite negb_false_iff, Z.eqb_eq. done. Qed.

#[export] Hint Resolve uwrap_range swrap_range : crt.

(** ** Lemmas on arrays *)

Lemma zget_Some {A} (l : list A) i a :
  zget l i = Some a → 0 <= i < zlen l.
Proof.
  unfold zget. intros H. cases. apply lookup_lt_Some in H. lia.
Qed.

Lemma zget_is_Some {A} (l : list A) i :
  0 <= i < zlen l → ∃ a, zget l i = Some a.
Proof.
  intros H. unfold zget. cases; [lia|].
  apply lookup_lt_is_Some. lia.
Qed.

Lemma zget_None {A} (l : list A) i :
  zget l i = None ↔ i < 0 ∨ zlen l <= i.
Proof.
  unfold zget. destruct (i <? 0) eqn:E; bsplit.
  - split; [lia|done].
  - rewrite lookup_ge_None. lia.
Qed.

Lemma zset_Some {A} (l l' : list A) i v :
  zset l i v = Some l' → 0 <= i < zlen l ∧ l' = <[Z.to_nat i := v]> l.
Proof. unfold zset. intros H. cases. split; [lia|done]. Qed.

Lemma zset_in {A} (l : list A) i v :
  0 <= i < zlen l → zset l i v = Some (<[Z.to_nat i := v]> l).
Proof. intros H. unfold zset. cases; [|done]. destruct (i <? 0) eqn:?; bsplit; simpl in *; bsplit; lia. Qed.

Lemma zset_length {A} (l l' : list A) i v :
  zset l i v = Some l' → zlen l' = zlen l.
Proof. intros [_ ->]%zset_Some. by rewrite length_insert. Qed.

Lemma zget_zset {A} (l l' : list A) i j v :
  zset l i v = Some l' → zget l' j = if j =? i then Some v else zget l j.
Proof.
  intros [Hi ->]%zset_Some. unfold zget.
  destruct (j <? 0) eqn:Ej; bsplit.
  - cases; [lia|done].
  - destruct (j =? i) eqn:E; bsplit; subst.
    + apply list_lookup_insert_eq. lia.
    + apply list_lookup_insert_ne. lia.
Qed.
