(* ===== verification/Config.v ===== *)
(** * Build configuration

    The C code is compiled for a width of the machine word and for the values
    of the [CONFIG_] macros that the files under config/ set.  [Arch] is the
    width, [Config] the macros the modelled code reads, [ConfigOk] the
    conditions that the preprocessor checks of sys/memory.c, sys/init.c and
    include/bmetal/atomic.h enforce before the code is compiled at all.  The
    instances are the configurations of the boards. *)

From S2P Require Import Prelude.

(** Width of a pointer, of [long], of [size_t] and of [uintptr_t]. *)
Class Arch := {
  xlen : Z;
  xlen_cases : xlen = 32 ∨ xlen = 64
}.

(** [size_t] and [uintptr_t], and the signed types of the same width. *)
Notation usize := (uwrap xlen).
Notation isize := (swrap xlen).

(** [OPT_BYTES]: bytes of the word the string functions copy at a time. *)
Definition OPT_BYTES `{Arch} : Z := if xlen =? 64 then 8 else 4.

Definition PAGE_SIZE : Z := 4096.

Class Config := {
  CONFIG_ATOMIC : bool;
  CONFIG_NUM_CORES : Z;
  CONFIG_MAIN_CORE : Z;
  CONFIG_MAIN_PID : Z;
  CONFIG_MAX_FD : Z;
  CONFIG_MAX_EVENT_HANDLERS : Z;
  CONFIG_HEAP_SIZE : Z;
  CONFIG_BRK_SIZE : Z;
  CONFIG_BRK_CLEAR_AT_SHRINK : bool;
  CONFIG_INTR_STACK_SIZE : Z;
  CONFIG_IDLE_STACK_SIZE : Z;
  CONFIG_MAIN_STACK_SIZE : Z;
  CONFIG_COMM_MAX_ARGS : Z;
  CONFIG_COMM_MAX_ENVS : Z;
  CONFIG_SYSTEM_TIMER_HZ : Z
}.

(** [MAX_ARGV] of sys/init.c. *)
Definition MAX_ARGV `{Config} : Z := CONFIG_COMM_MAX_ARGS + 1 + CONFIG_COMM_MAX_ENVS + 1 + 10.

Class ConfigOk `{Arch} `(C : Config) : Prop := {
  cfg_cores : 0 < CONFIG_NUM_CORES;
  cfg_atomic : CONFIG_ATOMIC = false → CONFIG_NUM_CORES <= 1;
  cfg_heap_pages : CONFIG_HEAP_SIZE mod PAGE_SIZE = 0;
  cfg_brk_fits : 0 < CONFIG_BRK_SIZE <= CONFIG_HEAP_SIZE;
  cfg_heap_size : CONFIG_HEAP_SIZE < 2 ^ (xlen - 1);
  cfg_main_stack : 8 * MAX_ARGV <= CONFIG_MAIN_STACK_SIZE;
  cfg_comm : 0 <= CONFIG_COMM_MAX_ARGS ∧ 0 <= CONFIG_COMM_MAX_ENVS;
  cfg_fd : 3 < CONFIG_MAX_FD;
  cfg_hz : 0 < CONFIG_SYSTEM_TIMER_HZ
}.

Definition rv32 : Arch := {| xlen := 32; xlen_cases := or_introl eq_refl |}.
Definition rv64 : Arch := {| xlen := 64; xlen_cases := or_intror eq_refl |}.

(** config/riscv_qemu_virt_64 (and riscv_qemu_virt_32, with the other width). *)
Definition qemu_virt : Config := {|
  CONFIG_ATOMIC := true;
  CONFIG_NUM_CORES := 4;
  CONFIG_MAIN_CORE := 0;
  CONFIG_MAIN_PID := 1;
  CONFIG_MAX_FD := 64;
  CONFIG_MAX_EVENT_HANDLERS := 32;
  CONFIG_HEAP_SIZE := 0xf00000;
  CONFIG_BRK_SIZE := 0x800000;
  CONFIG_BRK_CLEAR_AT_SHRINK := true;
  CONFIG_INTR_STACK_SIZE := 4096;
  CONFIG_IDLE_STACK_SIZE := 4096;
  CONFIG_MAIN_STACK_SIZE := 65536;
  CONFIG_COMM_MAX_ARGS := 8;
  CONFIG_COMM_MAX_ENVS := 16;
  CONFIG_SYSTEM_TIMER_HZ := 250
|}.

(** config/riscv_nsitexe_ns31_arty *)
Definition ns31_arty : Config := {|
  CONFIG_ATOMIC := false;
  CONFIG_NUM_CORES := 1;
  CONFIG_MAIN_CORE := 0;
  CONFIG_MAIN_PID := 1;
  CONFIG_MAX_FD := 8;
  CONFIG_MAX_EVENT_HANDLERS := 8;
  CONFIG_HEAP_SIZE := 0x3000;
  CONFIG_BRK_SIZE := 0x3000;
  CONFIG_BRK_CLEAR_AT_SHRINK := true;
  CONFIG_INTR_STACK_SIZE := 1024;
  CONFIG_IDLE_STACK_SIZE := 1024;
  CONFIG_MAIN_STACK_SIZE := 4096;
  CONFIG_COMM_MAX_ARGS := 8;
  CONFIG_COMM_MAX_ENVS := 16;
  CONFIG_SYSTEM_TIMER_HZ := 250
|}.

(** config/riscv_sifive_hifive_unleashed: the leader is the second hart. *)
Definition unleashed : Config := {|
  CONFIG_ATOMIC := true;
  CONFIG_NUM_CORES := 5;
  CONFIG_MAIN_CORE := 1;
  CONFIG_MAIN_PID := 1;
  CONFIG_MAX_FD := 64;
  CONFIG_MAX_EVENT_HANDLERS := 32;
  CONFIG_HEAP_SIZE := 0x4000;
  CONFIG_BRK_SIZE := 0x2000;
  CONFIG_BRK_CLEAR_AT_SHRINK := true;
  CONFIG_INTR_STACK_SIZE := 2048;
  CONFIG_IDLE_STACK_SIZE := 2048;
  CONFIG_MAIN_STACK_SIZE := 4096;
  CONFIG_COMM_MAX_ARGS := 8;
  CONFIG_COMM_MAX_ENVS := 16;
  CONFIG_SYSTEM_TIMER_HZ := 250
|}.

(** config/riscv_sifive_hifive1: its heap is half a page. *)
Definition hifive1 : Config := {|
  CONFIG_ATOMIC := true;
  CONFIG_NUM_CORES := 1;
  CONFIG_MAIN_CORE := 0;
  CONFIG_MAIN_PID := 1;
  CONFIG_MAX_FD := 8;
  CONFIG_MAX_EVENT_HANDLERS := 8;
  CONFIG_HEAP_SIZE := 0x800;
  CONFIG_BRK_SIZE := 0x800;
  CONFIG_BRK_CLEAR_AT_SHRINK := true;
  CONFIG_INTR_STACK_SIZE := 1024;
  CONFIG_IDLE_STACK_SIZE := 512;
  CONFIG_MAIN_STACK_SIZE := 2048;
  CONFIG_COMM_MAX_ARGS := 8;
  CONFIG_COMM_MAX_ENVS := 16;
  CONFIG_SYSTEM_TIMER_HZ := 250
|}.

(** The preprocessor refuses that configuration. *)
Lemma hifive1_refused `{Arch} : ¬ ConfigOk hifive1.
Proof. intros [_ _ Hp _ _ _ _ _ _]. discriminate Hp. Qed.

#[export] Instance unleashed_ok : @ConfigOk rv64 unleashed.
Proof. split; vm_compute; repeat split; congruence. Qed.

#[export] Instance qemu_virt_64_ok : @ConfigOk rv64 qemu_virt.
Proof. split; vm_compute; repeat split; congruence. Qed.

#[export] Instance qemu_virt_32_ok : @ConfigOk rv32 qemu_virt.
Proof. split; vm_compute; repeat split; congruence. Qed.

#[export] Instance ns31_arty_ok : @ConfigOk rv32 ns31_arty.
Proof. split; vm_compute; repeat split; congruence. Qed.

Lemma xlen_ge `{Arch} : 32 <= xlen.
Proof. destruct xlen_cases as [-> | ->]; lia. Qed.

Lemma OPT_BYTES_cases `{Arch} : OPT_BYTES = 4 ∨ OPT_BYTES = 8.
Proof. unfold OPT_BYTES. cases; auto. Qed.

#[export] Hint Resolve xlen_ge : crt.
