(* ===== verification/CString.v ===== *)
(** * String and memory functions (sys/sys/string.c)

    The memory of the machine is a map from addresses to bytes; an address that
    was never written reads as zero, as the cleared [.bss] does.  [k_memset] and
    [k_memcpy] are written with the word loops of the source; a word is stored
    in the little-endian order of RISC-V.  A [char] is unsigned on RISC-V. *)

From S2P Require Import Prelude Config.

Notation mem := (gmap Z Z).

Definition load8 (m : mem) (a : Z) : Z := u8 (default 0 (m !! a)).
Definition store8 (m : mem) (a v : Z) : mem := <[a := u8 v]> m.

(** Little-endian access to [n] bytes. *)
Fixpoint load_le (n : nat) (m : mem) (a : Z) : Z :=
  match n with
  | O => 0
  | S n => load8 m a + 256 * load_le n m (a + 1)
  end.

Fixpoint store_le (n : nat) (m : mem) (a v : Z) : mem :=
  match n with
  | O => m
  | S n => store_le n (store8 m a v) (a + 1) (Z.shiftr v 8)
  end.

Definition is_aligned (p n : Z) : bool := p mod n =? 0.

Section Blocks.
Context `{Arch}.

(** Accesses through a pointer to [OPT_T]. *)
Definition load_opt (m : mem) (a : Z) : Z := load_le (Z.to_nat OPT_BYTES) m a.
Definition store_opt (m : mem) (a v : Z) : mem := store_le (Z.to_nat OPT_BYTES) m a v.

(** The byte [c] in every byte of an [OPT_T]. *)
Definition splat (c : Z) : Z :=
  let c2 := u8 c in
  let c2 := usize (Z.lor c2 (Z.shiftl c2 8)) in
  let c2 := usize (Z.lor c2 (Z.shiftl c2 16)) in
  if OPT_BYTES >? 4 then usize (Z.lor c2 (Z.shiftl (Z.shiftl c2 16) 16)) else c2.

Definition k_memset (m : mem) (s c n : Z) : exec (mem * Z) :=
  let s_org := s in
  let fuel := Z.to_nat n in
  '(m, s, n) ← while fuel
    (fun '(m, s, n) => negb (is_aligned s OPT_BYTES) && truth n)
    (fun '(m, s, n) => Ret (store8 m s c, s + 1, n - 1)) (m, s, n);
  '(m, s, n) ←
    (if is_aligned s OPT_BYTES then
      let c2 := splat c in
      st ← while fuel
        (fun '(m, s, n) => n >=? OPT_BYTES * 4)
        (fun '(m, s, n) =>
          let m := store_opt m s c2 in
          let m := store_opt m (s + OPT_BYTES) c2 in
          let m := store_opt m (s + OPT_BYTES * 2) c2 in
          let m := store_opt m (s + OPT_BYTES * 3) c2 in
          Ret (m, s + OPT_BYTES * 4, n - OPT_BYTES * 4)) (m, s, n);
      while fuel
        (fun '(m, s, n) => n >=? OPT_BYTES)
        (fun '(m, s, n) => Ret (store_opt m s c2, s + OPT_BYTES, n - OPT_BYTES)) st
    else Ret (m, s, n));
  '(m, s, n) ← while fuel
    (fun '(m, s, n) => truth n)
    (fun '(m, s, n) => Ret (store8 m s c, s + 1, n - 1)) (m, s, n);
  Ret (m, s_org).

Definition k_memcpy (m : mem) (dest src n : Z) : exec (mem * Z) :=
  let dest_org := dest in
  let fuel := Z.to_nat n in
  '(m, dest, src, n) ←
    (if is_aligned dest OPT_BYTES && is_aligned src OPT_BYTES then
      let step := OPT_BYTES * 4 in
      st ← while fuel
        (fun '(m, dest, src, n) => n >=? step)
        (fun '(m, dest, src, n) =>
          let m := store_opt m dest (load_opt m src) in
          let m := store_opt m (dest + OPT_BYTES) (load_opt m (src + OPT_BYTES)) in
          let m := store_opt m (dest + OPT_BYTES * 2) (load_opt m (src + OPT_BYTES * 2)) in
          let m := store_opt m (dest + OPT_BYTES * 3) (load_opt m (src + OPT_BYTES * 3)) in
          Ret (m, dest + step, src + step, n - step)) (m, dest, src, n);
      while fuel
        (fun '(m, dest, src, n) => n >=? OPT_BYTES)
        (fun '(m, dest, src, n) =>
          Ret (store_opt m dest (load_opt m src), dest + OPT_BYTES, src + OPT_BYTES, n - OPT_BYTES)) st
    else Ret (m, dest, src, n));
  '(m, dest, src, n) ← while fuel
    (fun '(m, dest, src, n) => truth n)
    (fun '(m, dest, src, n) => Ret (store8 m dest (load8 m src), dest + 1, src + 1, n - 1))
    (m, dest, src, n);
  Ret (m, dest_org).
End Blocks.

(** ** Strings: the loops take fuel, since nothing bounds a missing terminator *)

Definition k_strlen (fuel : nat) (m : mem) (s : Z) : exec Z :=
  p ← while fuel (fun p => truth (load8 m p)) (fun p => Ret (p + 1)) s;
  Ret (p - s).

Definition k_strcmp (fuel : nat) (m : mem) (s1 s2 : Z) : exec Z :=
  if s1 =? s2 then Ret 0 else
  '(p1, p2) ← while fuel
    (fun '(p1, p2) => truth (load8 m p1) && (load8 m p1 =? load8 m p2))
    (fun '(p1, p2) => Ret (p1 + 1, p2 + 1)) (s1, s2);
  Ret (load8 m p1 - load8 m p2).

(** The [break] of the source leaves the loop with [brk] set. *)
Definition k_strncmp (fuel : nat) (m : mem) (s1 s2 n : Z) : exec Z :=
  if s1 =? s2 then Ret 0 else
  '(p1, p2, n, brk) ← while fuel
    (fun '(p1, p2, n, brk) => negb brk && ((n >? 0) && (load8 m p1 =? load8 m p2)))
    (fun '(p1, p2, n, brk) =>
      if (n =? 0) || (load8 m p1 =? 0) then Ret (p1, p2, n, true)
      else Ret (p1 + 1, p2 + 1, n - 1, false)) (s1, s2, n, false);
  Ret (load8 m p1 - load8 m p2).

Definition k_isupper (c : Z) : bool := (65 <=? c) && (c <=? 90).
Definition k_tolower (c : Z) : Z := if k_isupper c then c - 65 + 97 else c.

Definition k_strcasecmp (fuel : nat) (m : mem) (s1 s2 : Z) : exec Z :=
  if s1 =? s2 then Ret 0 else
  '(s1, s2, d, brk) ← while fuel
    (fun '(s1, s2, d, brk) => negb brk)
    (fun '(s1, s2, d, brk) =>
      let c1 := k_tolower (load8 m s1) in
      let c2 := k_tolower (load8 m s2) in
      let d := c1 - c2 in
      if (c1 =? 0) || truth d then Ret (s1, s2, d, true)
      else Ret (s1 + 1, s2 + 1, d, false)) (s1, s2, 0, false);
  Ret d.

Definition k_strncasecmp (fuel : nat) (m : mem) (s1 s2 n : Z) : exec Z :=
  if s1 =? s2 then Ret 0 else
  '(s1, s2, n, d, brk) ← while fuel
    (fun '(s1, s2, n, d, brk) => negb brk && (n >? 0))
    (fun '(s1, s2, n, d, brk) =>
      let c1 := k_tolower (load8 m s1) in
      let c2 := k_tolower (load8 m s2) in
      let d := c1 - c2 in
      if (c1 =? 0) || truth d then Ret (s1, s2, n, d, true)
      else Ret (s1 + 1, s2 + 1, n - 1, d, false)) (s1, s2, n, 0, false);
  Ret d.

(** ** Reference definitions *)

(** The bytes [bs], none of them zero, and a terminator at [s]. *)
Fixpoint cstr (m : mem) (s : Z) (bs : list Z) : Prop :=
  match bs with
  | [] => load8 m s = 0
  | b :: bs => load8 m s = b ∧ b ≠ 0 ∧ cstr m (s + 1) bs
  end.

(** Difference of the first bytes where two strings differ, their terminators
    included. *)
Fixpoint str_diff (a b : list Z) : Z :=
  match a, b with
  | [], [] => 0
  | [], y :: _ => 0 - y
  | x :: _, [] => x - 0
  | x :: a, y :: b => if x =? y then str_diff a b else x - y
  end.

(** ** Lemmas on bytes and words *)

Lemma load8_range m a : 0 <= load8 m a < 256.
Proof. apply (uwrap_range 8). lia. Qed.

Lemma load8_store8 m p v a :
  load8 (store8 m p v) a = if a =? p then u8 v else load8 m a.
Proof.
  unfold load8, store8. destruct (a =? p) eqn:E; bsplit.
  - subst. rewrite lookup_insert_eq. simpl. apply uwrap_idem.
  - by rewrite lookup_insert_ne by lia.
Qed.

Lemma load8_store_le n m p v a :
  load8 (store_le n m p v) a =
  if (p <=? a) && (a <? p + Z.of_nat n) then u8 (Z.shiftr v (8 * (a - p))) else load8 m a.
Proof.
  revert m p v. induction n as [|n IH]; intros m p v; simpl store_le.
  - destruct (p <=? a) eqn:?, (a <? p + Z.of_nat 0) eqn:?; bsplit; simpl; done || lia.
  - rewrite IH, load8_store8.
    destruct (p + 1 <=? a) eqn:E1, (p <=? a) eqn:E2, (a =? p) eqn:E3; bsplit; try lia; simpl.
    + replace (p + 1 + Z.of_nat n) with (p + Z.of_nat (S n)) by lia.
      destruct (a <? p + Z.of_nat (S n)); [|done].
      rewrite Z.shiftr_shiftr by lia. do 2 f_equal. lia.
    + destruct (a <? p + Z.of_nat (S n)) eqn:E4; bsplit; [|lia].
      subst. by rewrite Z.sub_diag, Z.shiftr_0_r.
    + done.
Qed.

Lemma load_le_byte n m a i :
  0 <= i < Z.of_nat n → u8 (Z.shiftr (load_le n m a) (8 * i)) = load8 m (a + i).
Proof.
  revert a i. induction n as [|n IH]; intros a i Hi; [lia|]. simpl load_le.
  pose proof (load8_range m a) as Hr.
  destruct (decide (i = 0)) as [->|Hne].
  - rewrite Z.shiftr_0_r, Z.add_0_r. unfold uwrap.
    rewrite Z.mul_comm, Z_mod_plus_full, Z.mod_small; [done|lia].
  - replace (8 * i) with (8 + 8 * (i - 1)) by lia.
    rewrite <- Z.shiftr_shiftr by lia.
    replace (Z.shiftr (load8 m a + 256 * load_le n m (a + 1)) 8) with (load_le n m (a + 1)).
    + rewrite IH by lia. f_equal. lia.
    + rewrite Z.shiftr_div_pow2 by lia. change (2 ^ 8) with 256.
      rewrite Z.mul_comm, Z_div_plus, Z.div_small; lia.
Qed.

Section BlockProofs.
Context `{Arch}.

Lemma OPT_nat : Z.of_nat (Z.to_nat OPT_BYTES) = OPT_BYTES.
Proof. destruct OPT_BYTES_cases; lia. Qed.

Lemma OPT_pos : 0 < OPT_BYTES.
Proof. destruct OPT_BYTES_cases; lia. Qed.

Lemma splat_byte_fin :
  forallb (fun c => forallb (fun i => u8 (Z.shiftr (splat c) (8 * i)) =? c)
    (seqZ 0 OPT_BYTES)) (seqZ 0 256) = true.
Proof.
  destruct H as [x [-> | ->]]; vm_compute; reflexivity.
Qed.

Lemma splat_byte c i : 0 <= i < OPT_BYTES → u8 (Z.shiftr (splat c) (8 * i)) = u8 c.
Proof.
  intros Hi. pose proof splat_byte_fin as F.
  rewrite forallb_forall in F. specialize (F (u8 c)).
  pose proof (uwrap_range 8 c ltac:(lia)) as Hc.
  rewrite <- list_elem_of_In, elem_of_seqZ in F. specialize (F ltac:(lia)).
  rewrite forallb_forall in F. specialize (F i).
  rewrite <- list_elem_of_In, elem_of_seqZ in F. specialize (F ltac:(lia)).
  apply Z.eqb_eq in F. etrans; [|exact F].
  do 2 f_equal. unfold splat. by rewrite uwrap_idem.
Qed.

(** [m] is [m0] with the byte [c] in the addresses from [s0] up to [s]. *)
Definition filled (m0 : mem) (s0 c : Z) (m : mem) (s : Z) : Prop :=
  ∀ a, load8 m a = if (s0 <=? a) && (a <? s) then u8 c else load8 m0 a.

Lemma filled_byte m0 s0 c m s :
  s0 <= s → filled m0 s0 c m s → filled m0 s0 c (store8 m s c) (s + 1).
Proof.
  intros Hs F a. rewrite load8_store8, F.
  destruct (a =? s) eqn:?, (s0 <=? a) eqn:?, (a <? s) eqn:?, (a <? s + 1) eqn:?;
    bsplit; simpl; try done; lia.
Qed.

Lemma filled_word m0 s0 c m s :
  s0 <= s → filled m0 s0 c m s → filled m0 s0 c (store_opt m s (splat c)) (s + OPT_BYTES).
Proof.
  intros Hs F a. pose proof OPT_pos. unfold store_opt. rewrite load8_store_le, OPT_nat, F.
  destruct (s <=? a) eqn:E1, (a <? s + OPT_BYTES) eqn:E2; bsplit; simpl.
  - rewrite splat_byte by lia. by destruct (s0 <=? a) eqn:?; bsplit; [|lia].
  - destruct (s0 <=? a) eqn:?, (a <? s) eqn:?; bsplit; simpl; done || lia.
  - destruct (s0 <=? a) eqn:?, (a <? s) eqn:?; bsplit; simpl; done || lia.
  - destruct (s0 <=? a) eqn:?, (a <? s) eqn:?; bsplit; simpl; done || lia.
Qed.

(** Invariant of the loops of [k_memset]: the first bytes are set, the rest of
    the range is still to do. *)
Definition set_inv (m0 : mem) (s0 c n0 : Z) (st : mem * Z * Z) : Prop :=
  let '(m, s, n) := st in
  s0 <= s ∧ 0 <= n ∧ s + n = s0 + n0 ∧ filled m0 s0 c m s.

Lemma set_inv_loop m0 s0 c n0 (cond : mem * Z * Z → bool) k body st :
  0 < k → 0 <= n0 →
  (∀ m s n, 0 <= n → cond (m, s, n) = true → k <= n) →
  (∀ m s n, set_inv m0 s0 c n0 (m, s, n) → k <= n →
     ∃ m', body (m, s, n) = Ret (m', s + k, n - k) ∧ filled m0 s0 c m' (s + k)) →
  set_inv m0 s0 c n0 st →
  ∃ st', while (Z.to_nat n0) cond body st = Ret st' ∧ set_inv m0 s0 c n0 st' ∧ cond st' = false.
Proof.
  intros Hk Hn0 Hc Hb Hst.
  apply while_rule with (μ := fun st => st.2); [|done|].
  - intros [[m s] n] HI E. assert (k <= n) by (apply (Hc m s n); [apply HI|done]).
    destruct (Hb m s n HI) as (m' & Hb' & F); [done|].
    exists (m', s + k, n - k). destruct HI as (? & ? & ? & ?). simpl.
    repeat split; try lia; done.
  - destruct st as [[m s] n]. destruct Hst as (? & ? & ? & ?). simpl. lia.
Qed.

Lemma set_inv_byte_loop m0 s0 c n0 cond st :
  0 <= n0 → set_inv m0 s0 c n0 st →
  (∀ m s n, cond (m, s, n) = true → truth n = true) →
  ∃ st', while (Z.to_nat n0) cond
      (fun '(m, s, n) => Ret (store8 m s c, s + 1, n - 1)) st = Ret st'
    ∧ set_inv m0 s0 c n0 st' ∧ cond st' = false.
Proof.
  intros Hn I Hc. apply set_inv_loop with (k := 1); try lia; [| |done].
  - intros m s n ? E%Hc. unfold truth in E. bsplit. lia.
  - intros m s n (? & ? & ? & F) ?. eexists. split; [done|]. by apply filled_byte.
Qed.

Lemma set_inv_word_loop m0 s0 c n0 st :
  0 <= n0 → set_inv m0 s0 c n0 st →
  ∃ st', while (Z.to_nat n0) (fun '(m, s, n) => n >=? OPT_BYTES)
      (fun '(m, s, n) => Ret (store_opt m s (splat c), s + OPT_BYTES, n - OPT_BYTES)) st = Ret st'
    ∧ set_inv m0 s0 c n0 st'.
Proof.
  intros Hn I. pose proof OPT_pos.
  edestruct (set_inv_loop m0 s0 c n0 (fun '(m, s, n) => n >=? OPT_BYTES) OPT_BYTES)
    as (st' & E & I' & _); [lia|done| | |exact I|exists st'; split; [exact E|exact I']].
  - intros m s n ? Hc. lia.
  - intros m s n (? & ? & ? & F) ?. eexists. split; [done|]. by apply filled_word.
Qed.

Lemma set_inv_word4_loop m0 s0 c n0 st :
  0 <= n0 → set_inv m0 s0 c n0 st →
  ∃ st', while (Z.to_nat n0) (fun '(m, s, n) => n >=? OPT_BYTES * 4)
      (fun '(m, s, n) =>
          let m := store_opt m s (splat c) in
          let m := store_opt m (s + OPT_BYTES) (splat c) in
          let m := store_opt m (s + OPT_BYTES * 2) (splat c) in
          let m := store_opt m (s + OPT_BYTES * 3) (splat c) in
          Ret (m, s + OPT_BYTES * 4, n - OPT_BYTES * 4)) st = Ret st'
    ∧ set_inv m0 s0 c n0 st'.
Proof.
  intros Hn I. pose proof OPT_pos.
  edestruct (set_inv_loop m0 s0 c n0 (fun '(m, s, n) => n >=? OPT_BYTES * 4) (OPT_BYTES * 4))
    as (st' & E & I' & _); [lia|done| | |exact I|exists st'; split; [exact E|exact I']].
  - intros m s n ? Hc. lia.
  - intros m s n (? & ? & ? & F) ?. eexists. split; [done|].
    replace (s + OPT_BYTES * 4) with (s + OPT_BYTES * 3 + OPT_BYTES) by lia.
    apply filled_word; [lia|].
    replace (s + OPT_BYTES * 3) with (s + OPT_BYTES * 2 + OPT_BYTES) by lia.
    apply filled_word; [lia|].
    replace (s + OPT_BYTES * 2) with (s + OPT_BYTES + OPT_BYTES) by lia.
    apply filled_word; [lia|]. by apply filled_word.
Qed.

Lemma memset_tail m s c n st :
  0 <= n → set_inv m s c n st →
  ∃ m', ('(m, _, _) ← while (Z.to_nat n) (fun '(m, s, n) => truth n)
      (fun '(m, s, n) => Ret (store8 m s c, s + 1, n - 1)) st; Ret (m, s)) = Ret (m', s)
    ∧ filled m s c m' (s + n).
Proof.
  intros Hn I.
  destruct (set_inv_byte_loop m s c n (fun '(m, s, n) => truth n) _ Hn I)
    as ([[m3 s3] n3] & E3 & (? & ? & ? & F) & E3'); [done|].
  rewrite E3. exists m3. split; [done|].
  unfold truth in E3'. bsplit. replace (s + n) with s3 by lia. done.
Qed.

Lemma memset_filled m s c n :
  0 <= n → ∃ m', k_memset m s c n = Ret (m', s) ∧ filled m s c m' (s + n).
Proof.
  intros Hn. unfold k_memset.
  assert (set_inv m s c n (m, s, n)) as I0.
  { repeat split; try lia. intros a.
    destruct (s <=? a) eqn:?, (a <? s) eqn:?; bsplit; simpl; done || lia. }
  destruct (set_inv_byte_loop m s c n
    (fun '(m, s, n) => negb (is_aligned s OPT_BYTES) && truth n) _ Hn I0)
    as ([[m1 s1] n1] & E1 & I1 & _); [intros; by bsplit|].
  rewrite E1. cbn [mbind exec_bind].
  destruct (is_aligned s1 OPT_BYTES); [|by apply (memset_tail m s c n (m1, s1, n1))].
  destruct (set_inv_word4_loop m s c n _ Hn I1) as (st & E & I).
  destruct (set_inv_word_loop m s c n _ Hn I) as ([[m2 s2] n2] & E' & I').
  cbv zeta in E |- *. rewrite E. cbn [mbind exec_bind]. rewrite E'.
  by apply (memset_tail m s c n (m2, s2, n2)).
Qed.

(** [m] is [m0] with the bytes at [s0] copied to the addresses from [d0] up to [d]. *)
Definition copied (m0 : mem) (d0 s0 : Z) (m : mem) (d : Z) : Prop :=
  ∀ a, load8 m a = if (d0 <=? a) && (a <? d) then load8 m0 (s0 + (a - d0)) else load8 m0 a.

Definition cpy_inv (m0 : mem) (d0 s0 n0 : Z) (st : mem * Z * Z * Z) : Prop :=
  let '(m, d, s, n) := st in
  d0 <= d ∧ 0 <= n ∧ d + n = d0 + n0 ∧ s - s0 = d - d0 ∧ copied m0 d0 s0 m d.

(** The two ranges do not overlap, as the contract of [memcpy] asks. *)
Definition disjoint (d0 s0 n0 : Z) : Prop := d0 + n0 <= s0 ∨ s0 + n0 <= d0.

Lemma copied_byte m0 d0 s0 n0 m d s :
  disjoint d0 s0 n0 → d0 <= d < d0 + n0 → s - s0 = d - d0 →
  copied m0 d0 s0 m d → copied m0 d0 s0 (store8 m d (load8 m s)) (d + 1).
Proof.
  intros D Hd Hs F a. rewrite load8_store8, !F. unfold disjoint in D.
  rewrite (uwrap_small 8) by (pose proof (load8_range m0 s);
    pose proof (load8_range m0 (s0 + (s - d0))); case_match; lia).
  destruct (a =? d) eqn:?, (d0 <=? a) eqn:?, (a <? d) eqn:?, (a <? d + 1) eqn:?,
    (d0 <=? s) eqn:?, (s <? d) eqn:?; bsplit; simpl; subst; try done; try lia;
    do 2 f_equal; lia.
Qed.

Lemma copied_word m0 d0 s0 n0 m d s :
  disjoint d0 s0 n0 → d0 <= d → d + OPT_BYTES <= d0 + n0 → s - s0 = d - d0 →
  copied m0 d0 s0 m d →
  copied m0 d0 s0 (store_opt m d (load_opt m s)) (d + OPT_BYTES).
Proof.
  intros D Hd Hd' Hs F a. pose proof OPT_pos. unfold disjoint in D.
  unfold store_opt, load_opt. rewrite load8_store_le, OPT_nat, F.
  destruct (d <=? a) eqn:E1, (a <? d + OPT_BYTES) eqn:E2; bsplit; simpl.
  - rewrite load_le_byte by (rewrite OPT_nat; lia). rewrite F.
    destruct (d0 <=? a) eqn:?, (d0 <=? s + (a - d)) eqn:?, (s + (a - d) <? d) eqn:?;
      bsplit; simpl; try lia; f_equal; lia.
  - destruct (d0 <=? a) eqn:?, (a <? d) eqn:?; bsplit; simpl; done || lia.
  - destruct (d0 <=? a) eqn:?, (a <? d) eqn:?; bsplit; simpl; done || lia.
  - lia.
Qed.

Lemma cpy_inv_loop m0 d0 s0 n0 (cond : mem * Z * Z * Z → bool) k body st :
  0 < k → 0 <= n0 →
  (∀ m d s n, 0 <= n → cond (m, d, s, n) = true → k <= n) →
  (∀ m d s n, cpy_inv m0 d0 s0 n0 (m, d, s, n) → k <= n →
     ∃ m', body (m, d, s, n) = Ret (m', d + k, s + k, n - k) ∧ copied m0 d0 s0 m' (d + k)) →
  cpy_inv m0 d0 s0 n0 st →
  ∃ st', while (Z.to_nat n0) cond body st = Ret st' ∧ cpy_inv m0 d0 s0 n0 st' ∧ cond st' = false.
Proof.
  intros Hk Hn0 Hc Hb Hst.
  apply while_rule with (μ := fun st => st.2); [|done|].
  - intros [[[m d] s] n] HI E. assert (k <= n) by (apply (Hc m d s n); [apply HI|done]).
    destruct (Hb m d s n HI) as (m' & Hb' & F); [done|].
    exists (m', d + k, s + k, n - k). destruct HI as (? & ? & ? & ? & ?). simpl.
    repeat split; try lia; done.
  - destruct st as [[[m d] s] n]. destruct Hst as (? & ? & ? & ? & ?). simpl. lia.
Qed.

Lemma cpy_inv_word_loop m0 d0 s0 n0 st :
  0 <= n0 → disjoint d0 s0 n0 → cpy_inv m0 d0 s0 n0 st →
  ∃ st', while (Z.to_nat n0) (fun '(m, dest, src, n) => n >=? OPT_BYTES)
      (fun '(m, dest, src, n) => Ret (store_opt m dest (load_opt m src),
         dest + OPT_BYTES, src + OPT_BYTES, n - OPT_BYTES)) st = Ret st'
    ∧ cpy_inv m0 d0 s0 n0 st'.
Proof.
  intros Hn D I. pose proof OPT_pos.
  edestruct (cpy_inv_loop m0 d0 s0 n0 (fun '(m, dest, src, n) => n >=? OPT_BYTES) OPT_BYTES)
    as (st' & E & I' & _); [lia|done| | |exact I|exists st'; split; [exact E|exact I']].
  - intros m d s n ? Hc. lia.
  - intros m d s n (? & ? & ? & ? & F) ?. eexists. split; [done|].
    apply copied_word with n0; auto with lia.
Qed.

Lemma cpy_inv_word4_loop m0 d0 s0 n0 st :
  0 <= n0 → disjoint d0 s0 n0 → cpy_inv m0 d0 s0 n0 st →
  ∃ st', while (Z.to_nat n0) (fun '(m, dest, src, n) => n >=? OPT_BYTES * 4)
      (fun '(m, dest, src, n) =>
          let m := store_opt m dest (load_opt m src) in
          let m := store_opt m (dest + OPT_BYTES) (load_opt m (src + OPT_BYTES)) in
          let m := store_opt m (dest + OPT_BYTES * 2) (load_opt m (src + OPT_BYTES * 2)) in
          let m := store_opt m (dest + OPT_BYTES * 3) (load_opt m (src + OPT_BYTES * 3)) in
          Ret (m, dest + OPT_BYTES * 4, src + OPT_BYTES * 4, n - OPT_BYTES * 4)) st = Ret st'
    ∧ cpy_inv m0 d0 s0 n0 st'.
Proof.
  intros Hn D I. pose proof OPT_pos.
  edestruct (cpy_inv_loop m0 d0 s0 n0 (fun '(m, dest, src, n) => n >=? OPT_BYTES * 4)
    (OPT_BYTES * 4)) as (st' & E & I' & _);
    [lia|done| | |exact I|exists st'; split; [exact E|exact I']].
  - intros m d s n ? Hc. lia.
  - intros m d s n (? & ? & ? & ? & F) ?. eexists. split; [done|].
    replace (d + OPT_BYTES * 4) with (d + OPT_BYTES * 3 + OPT_BYTES) by lia.
    apply copied_word with n0; [done|lia..|].
    replace (d + OPT_BYTES * 3) with (d + OPT_BYTES * 2 + OPT_BYTES) by lia.
    apply copied_word with n0; [done|lia..|].
    replace (d + OPT_BYTES * 2) with (d + OPT_BYTES + OPT_BYTES) by lia.
    apply copied_word with n0; [done|lia..|]. apply copied_word with n0; auto with lia.
Qed.

Lemma memcpy_tail m d s n st :
  0 <= n → disjoint d s n → cpy_inv m d s n st →
  ∃ m', ('(m, _, _, _) ← while (Z.to_nat n) (fun '(m, dest, src, n) => truth n)
      (fun '(m, dest, src, n) => Ret (store8 m dest (load8 m src), dest + 1, src + 1, n - 1)) st;
      Ret (m, d)) = Ret (m', d)
    ∧ copied m d s m' (d + n).
Proof.
  intros Hn D I.
  edestruct (cpy_inv_loop m d s n (fun '(m, dest, src, n) => truth n) 1)
    as ([[[m3 d3] s3] n3] & E3 & (? & ? & ? & ? & F) & E3');
    [lia|done| | |exact I|rewrite E3; exists m3; split; [done|]].
  - intros m1 d1 s1 n1 ? Hc. unfold truth in Hc. bsplit. lia.
  - intros m1 d1 s1 n1 (? & ? & ? & ? & F) ?. eexists. split; [done|].
    apply copied_byte with n; auto with lia.
  - unfold truth in E3'. bsplit. replace (d + n) with d3 by lia. done.
Qed.

Lemma memcpy_copied m d s n :
  0 <= n → disjoint d s n →
  ∃ m', k_memcpy m d s n = Ret (m', d) ∧ copied m d s m' (d + n).
Proof.
  intros Hn D. unfold k_memcpy.
  assert (cpy_inv m d s n (m, d, s, n)) as I0.
  { repeat split; try lia. intros a.
    destruct (d <=? a) eqn:?, (a <? d) eqn:?; bsplit; simpl; done || lia. }
  destruct (is_aligned d OPT_BYTES && is_aligned s OPT_BYTES);
    [|by apply (memcpy_tail m d s n (m, d, s, n))].
  destruct (cpy_inv_word4_loop m d s n _ Hn D I0) as (st & E & I).
  destruct (cpy_inv_word_loop m d s n _ Hn D I) as ([[[m2 d2] s2] n2] & E' & I').
  cbv zeta in E |- *. rewrite E. cbn [mbind exec_bind]. rewrite E'.
  by apply (memcpy_tail m d s n (m2, d2, s2, n2)).
Qed.
End BlockProofs.

(** ** Lemmas on strings *)

Lemma cstr_inj m s a b : cstr m s a → cstr m s b → a = b.
Proof.
  revert s b. induction a as [|x a IH]; intros s [|y b]; simpl; try done.
  - intros ? (? & ? & ?). congruence.
  - intros (? & ? & ?) ?. congruence.
  - intros (-> & ? & Ha) (<- & ? & Hb). f_equal. by eapply IH.
Qed.

Lemma cstr_nonzero m s a : cstr m s a → Forall (fun b => 0 < b < 256) a.
Proof.
  revert s. induction a as [|x a IH]; intros s; simpl; [constructor|].
  intros (Hx & ? & Ha). pose proof (load8_range m s). constructor; [lia|eauto].
Qed.

Lemma str_diff_refl a : str_diff a a = 0.
Proof. induction a; simpl; [done|]. by rewrite Z.eqb_refl. Qed.

Lemma str_diff_zero a b :
  Forall (fun b => 0 < b) a → Forall (fun b => 0 < b) b → str_diff a b = 0 ↔ a = b.
Proof.
  intros Ha. revert b. induction Ha as [|x a Hx Ha IH]; intros b Hb; destruct Hb as [|y b Hy Hb]; simpl.
  - done.
  - split; [lia|done].
  - split; [lia|done].
  - destruct (x =? y) eqn:E; bsplit.
    + subst. rewrite IH by done. split; congruence.
    + split; [lia|congruence].
Qed.

Lemma str_diff_antisym a b : str_diff b a = - str_diff a b.
Proof.
  revert b. induction a as [|x a IH]; intros [|y b]; simpl; try lia.
  destruct (x =? y) eqn:E1, (y =? x) eqn:E2; bsplit; try lia. apply IH.
Qed.

Lemma tolower_zero c : 0 <= c → k_tolower c = 0 ↔ c = 0.
Proof. unfold k_tolower, k_isupper. intros. cases; lia. Qed.

Lemma strcmp_loop fuel m p1 p2 a b :
  cstr m p1 a → cstr m p2 b → (length a <= fuel)%nat →
  ∃ q1 q2, while fuel
      (fun '(p1, p2) => truth (load8 m p1) && (load8 m p1 =? load8 m p2))
      (fun '(p1, p2) => Ret (p1 + 1, p2 + 1)) (p1, p2) = Ret (q1, q2)
    ∧ load8 m q1 - load8 m q2 = str_diff a b.
Proof.
  revert fuel p1 p2 b. induction a as [|x a IH]; intros fuel p1 p2 [|y b];
    cbn [cstr str_diff length]; unfold truth; intros Ha Hb Hf.
  - exists p1, p2. rewrite while_done; [|rewrite Ha; done]. split; [done|lia].
  - destruct Hb as (Hb & ? & _). exists p1, p2.
    rewrite while_done; [|rewrite Ha; done]. split; [done|lia].
  - destruct Ha as (Ha & Hx & _). exists p1, p2.
    rewrite while_done; [split; [done|lia]|].
    rewrite Hb. apply andb_false_iff. right. apply Z.eqb_neq. lia.
  - destruct Ha as (Ha & Hx & Ha'), Hb as (Hb & Hy & Hb').
    destruct fuel as [|fuel]; [lia|].
    destruct (x =? y) eqn:E; bsplit.
    + destruct (IH fuel (p1 + 1) (p2 + 1) b) as (q1 & q2 & E1 & E2); try done; [lia|].
      exists q1, q2. split; [|done]. etrans; [apply while_step; [|done]|exact E1].
      apply andb_true_iff. split; [apply negb_true_iff, Z.eqb_neq; lia|apply Z.eqb_eq; lia].
    + exists p1, p2. rewrite while_done; [split; [done|lia]|].
      apply andb_false_iff. right. apply Z.eqb_neq. lia.
Qed.

Lemma strncmp_loop fuel m p1 p2 n a b :
  cstr m p1 a → cstr m p2 b → (n < fuel)%nat →
  ∃ q1 q2 k brk, while fuel
      (fun '(p1, p2, n, brk) => negb brk && ((n >? 0) && (load8 m p1 =? load8 m p2)))
      (fun '(p1, p2, n, brk) =>
        if (n =? 0) || (load8 m p1 =? 0) then Ret (p1, p2, n, true)
        else Ret (p1 + 1, p2 + 1, n - 1, false)) (p1, p2, Z.of_nat n, false) = Ret (q1, q2, k, brk)
    ∧ load8 m q1 - load8 m q2 = str_diff (take (S n) a) (take (S n) b).
Proof.
  revert fuel p1 p2 a b. induction n as [|n IH]; intros fuel p1 p2 a b Ha Hb Hf.
  - exists p1, p2, 0, false. rewrite while_done by done. split; [done|].
    destruct a as [|x a], b as [|y b]; simpl in *; naive_solver (try case_match; bsplit; lia).
  - destruct fuel as [|fuel]; [lia|].
    destruct a as [|x a], b as [|y b]; cbn [cstr] in Ha, Hb.
    + exists p1, p2, (Z.of_nat (S n)), true. split; [|simpl; lia].
      etrans; [apply while_step with (s' := (p1, p2, Z.of_nat (S n), true))|by apply while_done].
      * by rewrite Ha, Hb.
      * rewrite Ha, orb_true_r. done.
    + destruct Hb as (Hb & ? & _). exists p1, p2, (Z.of_nat (S n)), false.
      rewrite while_done; [simpl; split; [done|lia]|].
      rewrite Ha, Hb. rewrite andb_comm, (proj2 (Z.eqb_neq 0 y)) by lia. by rewrite andb_false_r.
    + destruct Ha as (Ha & ? & _). exists p1, p2, (Z.of_nat (S n)), false.
      rewrite while_done; [simpl; split; [done|lia]|].
      rewrite Ha, Hb. rewrite andb_comm, (proj2 (Z.eqb_neq x 0)) by lia. by rewrite andb_false_r.
    + destruct Ha as (Ha & Hx & Ha'), Hb as (Hb & Hy & Hb').
      cbn [take]. destruct (x =? y) eqn:E; bsplit; cbn [str_diff].
      * destruct (IH fuel (p1 + 1) (p2 + 1) a b Ha' Hb') as (q1 & q2 & k & brk & E1 & E2); [lia|].
        exists q1, q2, k, brk. rewrite (proj2 (Z.eqb_eq x y)) by lia. split; [|exact E2]. rewrite <- E1.
        apply while_step with (s' := (p1 + 1, p2 + 1, Z.of_nat n, false)).
        -- rewrite (proj2 (Z.eqb_eq (load8 m p1) _)) by lia. done.
        -- rewrite Ha, (proj2 (Z.eqb_neq x 0)), (proj2 (Z.eqb_neq (Z.of_nat (S n)) 0)) by lia.
           simpl orb. cbv iota. do 2 f_equal. f_equal. lia.
      * rewrite (proj2 (Z.eqb_neq x y)) by lia.
        exists p1, p2, (Z.of_nat (S n)), false. rewrite while_done; [split; [done|lia]|].
        rewrite Ha, Hb, (proj2 (Z.eqb_neq x y)) by lia. by rewrite andb_false_r.
Qed.

(** Case folding keeps the terminator apart from the other bytes. *)
Lemma tolower_nonzero x : 0 < x → 0 < k_tolower x.
Proof. unfold k_tolower, k_isupper. intros. cases; lia. Qed.

Lemma fold_nonzero m s a : cstr m s a → Forall (fun b => 0 < b) (k_tolower <$> a).
Proof.
  intros F%cstr_nonzero. apply Forall_fmap. eapply Forall_impl; [exact F|].
  intros x Hx. apply tolower_nonzero, Hx.
Qed.

Lemma cstr_head m p a :
  cstr m p a → 0 <= load8 m p ∧ k_tolower (load8 m p) = hd 0 (k_tolower <$> a).
Proof.
  intros Ha. pose proof (load8_range m p). split; [lia|].
  destruct a as [|x a]; simpl in *; [by rewrite Ha|]. destruct Ha as [-> _]. done.
Qed.

Lemma strcasecmp_loop fuel m p1 p2 a b d0 :
  cstr m p1 a → cstr m p2 b → (length a < fuel)%nat →
  ∃ q1 q2, while fuel (fun '(s1, s2, d, brk) => negb brk)
    (fun '(s1, s2, d, brk) =>
      let c1 := k_tolower (load8 m s1) in
      let c2 := k_tolower (load8 m s2) in
      let d := c1 - c2 in
      if (c1 =? 0) || truth d then Ret (s1, s2, d, true)
      else Ret (s1 + 1, s2 + 1, d, false)) (p1, p2, d0, false)
    = Ret (q1, q2, str_diff (k_tolower <$> a) (k_tolower <$> b), true).
Proof.
  revert fuel p1 p2 b d0. induction a as [|x a IH]; intros fuel p1 p2 b d0 Ha Hb Hf;
    (destruct fuel as [|fuel]; [simpl in Hf; lia|]);
    pose proof (cstr_head _ _ _ Ha) as [_ H1]; pose proof (cstr_head _ _ _ Hb) as [_ H2].
  - exists p1, p2. etrans; [apply while_step; [done|]|by apply while_done].
    rewrite H1, H2. simpl. do 3 f_equal. destruct b as [|y b]; simpl; lia.
  - pose proof (fold_nonzero _ _ _ Ha) as Na. pose proof (fold_nonzero _ _ _ Hb) as Nb.
    simpl in Ha. destruct Ha as (Ha & Hx & Ha').
    apply Forall_cons_1 in Na as [Hn Na]. simpl in H1.
    destruct b as [|y b].
    + exists p1, p2. etrans; [apply while_step; [done|]|by apply while_done].
      rewrite H1, H2. unfold truth. simpl.
      rewrite (proj2 (Z.eqb_neq (k_tolower x - 0) 0)) by lia. by rewrite orb_true_r.
    + simpl in Hb. destruct Hb as (Hb & Hy & Hb').
      apply Forall_cons_1 in Nb as [Hn' Nb]. simpl in H2. cbn [fmap list_fmap str_diff].
      destruct (k_tolower x =? k_tolower y) eqn:E; bsplit.
      * destruct (IH fuel (p1 + 1) (p2 + 1) b (k_tolower x - k_tolower y)) as (q1 & q2 & Eq); try done;
          [simpl in Hf; lia|].
        exists q1, q2. rewrite <- Eq. apply while_step; [done|].
        rewrite H1, H2. unfold truth.
        rewrite (proj2 (Z.eqb_neq (k_tolower x) 0)), (proj2 (Z.eqb_eq (_ - _) 0)) by lia. done.
      * exists p1, p2. etrans; [apply while_step; [done|]|by apply while_done].
        rewrite H1, H2. unfold truth.
        rewrite (proj2 (Z.eqb_neq (k_tolower x - k_tolower y) 0)) by lia. by rewrite orb_true_r.
Qed.

Lemma strlen_loop fuel m s bs :
  cstr m s bs → (length bs <= fuel)%nat →
  while fuel (fun p => truth (load8 m p)) (fun p => Ret (p + 1)) s = Ret (s + zlen bs).
Proof.
  revert fuel s. induction bs as [|b bs IH]; intros fuel s; cbn [cstr length].
  - intros Hb _. rewrite while_done by (rewrite Hb; done). f_equal. lia.
  - intros (Hb & Hn & Hbs) Hf. destruct fuel as [|fuel]; [lia|].
    etrans; [apply while_step; [|done]|]. 
    + unfold truth. apply negb_true_iff, Z.eqb_neq. lia.
    + rewrite IH by (done || lia). f_equal. lia.
Qed.

(** ** Properties *)

(** [k_memset] with its alignment prologue and its word loops terminates for
    every address and every length, returns the pointer it was given, and leaves
    memory as the byte-by-byte definition does: [c] truncated to a byte in
    [s, s + n), everything else as before. *)
Theorem k_memset_spec `{Arch} m s c n (Hn : 0 <= n) :
  ∃ m', k_memset m s c n = Ret (m', s) ∧
    ∀ a, load8 m' a = if (s <=? a) && (a <? s + n) then u8 c else load8 m a.
Proof. exact (memset_filled m s c n Hn). Qed.

Lemma k_memset_spec_witness :
  ∃ m', @k_memset rv64 ∅ 5 0x1ff 70 = Ret (m', 5) ∧ 
    ∀ a, load8 m' a = if (5 <=? a) && (a <? 5 + 70) then u8 0x1ff else load8 ∅ a.
Proof. apply (@k_memset_spec rv64 ∅ 5 0x1ff 70). lia. Defined.

(** C39: [k_memcpy], whichever of its word and byte loops run, terminates, returns
    [dest], copies the [n] bytes at [src] to [dest] and changes nothing else, for
    ranges that do not overlap. *)
Theorem k_memcpy_spec `{Arch} m dest src n
    (Hn : 0 <= n) (Hd : dest + n <= src ∨ src + n <= dest) :
  ∃ m', k_memcpy m dest src n = Ret (m', dest) ∧
    ∀ a, load8 m' a = if (dest <=? a) && (a <? dest + n) then load8 m (src + (a - dest))
                      else load8 m a.
Proof. exact (memcpy_copied m dest src n Hn Hd). Qed.

Lemma k_memcpy_spec_witness :
  ∃ m', @k_memcpy rv32 {[ 64 := 7; 100 := 9 ]} 128 64 41 = Ret (m', 128) ∧
    ∀ a, load8 m' a = if (128 <=? a) && (a <? 128 + 41)
                      then load8 {[ 64 := 7; 100 := 9 ]} (64 + (a - 128))
                      else load8 {[ 64 := 7; 100 := 9 ]} a.
Proof. apply (@k_memcpy_spec rv32 {[ 64 := 7; 100 := 9 ]} 128 64 41); lia. Defined.

(** On terminated strings [k_strcmp] and [k_strcasecmp] return, within as
    many iterations as the first string has bytes (plus one), the difference of
    the first bytes that differ, the latter after folding [A-Z] to lower case;
    so [k_strcmp] returns 0 exactly for equal strings, and the sign is reversed
    when the arguments are exchanged. *)
Theorem k_strcmp_spec fuel m s1 s2 a b
    (Ha : cstr m s1 a) (Hb : cstr m s2 b) (Hf : (length a < fuel)%nat) :
  k_strcmp fuel m s1 s2 = Ret (str_diff a b) ∧
  k_strcasecmp fuel m s1 s2 = Ret (str_diff (k_tolower <$> a) (k_tolower <$> b)) ∧
  (str_diff a b = 0 ↔ a = b) ∧ str_diff b a = - str_diff a b.
Proof.
  split; [|split; [|split; [|apply str_diff_antisym]]].
  - unfold k_strcmp. destruct (s1 =? s2) eqn:E; bsplit.
    + subst. by rewrite (cstr_inj _ _ _ _ Ha Hb), str_diff_refl.
    + destruct (strcmp_loop fuel m s1 s2 a b Ha Hb) as (q1 & q2 & E1 & E2); [lia|].
      rewrite E1. simpl. by f_equal.
  - unfold k_strcasecmp. destruct (s1 =? s2) eqn:E; bsplit.
    + subst. by rewrite (cstr_inj _ _ _ _ Ha Hb), str_diff_refl.
    + destruct (strcasecmp_loop fuel m s1 s2 a b 0 Ha Hb Hf) as (q1 & q2 & E1).
      cbv zeta in E1 |- *. by rewrite E1.
  - apply str_diff_zero; (eapply Forall_impl; [by eapply cstr_nonzero|]; simpl; lia).
Qed.

(** The two strings ["uArt0"] and ["uart1"] in a memory. *)
Definition two_strings : mem :=
  list_to_map (zip (seqZ 16 6) [117; 65; 114; 116; 48; 0] ++
               zip (seqZ 32 6) [117; 97; 114; 116; 49; 0]).

Lemma k_strcmp_spec_witness :
  k_strcmp 6 two_strings 16 32 = Ret (-32) ∧
  k_strcasecmp 6 two_strings 16 32 = Ret (-1) ∧
  (str_diff [117; 65; 114; 116; 48] [117; 97; 114; 116; 49] = 0 ↔
     [117; 65; 114; 116; 48] = [117; 97; 114; 116; 49]) ∧
  str_diff [117; 97; 114; 116; 49] [117; 65; 114; 116; 48] =
    - str_diff [117; 65; 114; 116; 48] [117; 97; 114; 116; 49].
Proof.
  apply (k_strcmp_spec 6 two_strings 16 32 [117; 65; 114; 116; 48] [117; 97; 114; 116; 49]);
    [vm_compute; repeat split; discriminate.. | simpl; lia].
Defined.

(** [k_strncmp] compares one byte more than it is asked to: on terminated
    strings it returns the difference of the prefixes of [n + 1] bytes, where the
    function it is named after compares prefixes of [n] bytes. *)
Theorem k_strncmp_one_too_many fuel m s1 s2 n a b
    (Ha : cstr m s1 a) (Hb : cstr m s2 b) (Hf : (n < fuel)%nat) :
  k_strncmp fuel m s1 s2 (Z.of_nat n) = Ret (str_diff (take (S n) a) (take (S n) b)).
Proof.
  unfold k_strncmp. destruct (s1 =? s2) eqn:E; bsplit.
  - subst. by rewrite (cstr_inj _ _ _ _ Ha Hb), str_diff_refl.
  - destruct (strncmp_loop fuel m s1 s2 n a b Ha Hb Hf) as (q1 & q2 & k & brk & E1 & E2).
    rewrite E1. simpl. by f_equal.
Qed.

(** The strings of [two_strings] agree on their first byte, yet the call that
    compares one byte reports a difference. *)
Lemma k_strncmp_one_too_many_witness :
  take 1 [117; 65; 114; 116; 48] = take 1 [117; 97; 114; 116; 49] ∧
  k_strncmp 2 two_strings 16 32 1 = Ret (-32).
Proof.
  split; [reflexivity|].
  apply (k_strncmp_one_too_many 2 two_strings 16 32 1 [117; 65; 114; 116; 48] [117; 97; 114; 116; 49]);
    [vm_compute; repeat split; discriminate.. | lia].
Defined.

Lemma k_strlen_spec fuel m s bs :
  cstr m s bs → (length bs <= fuel)%nat → k_strlen fuel m s = Ret (zlen bs).
Proof.
  intros Hs Hf. unfold k_strlen. rewrite (strlen_loop fuel m s bs Hs Hf). simpl.
  f_equal. lia.
Qed.
