(* ===== verification/Memory.v ===== *)
(** * Page allocator of the heap (sys/memory.c, include/bmetal/memory.h)

    A memory node is a range of pages with one status byte per page: zero for a
    free page, a number that tells allocations apart otherwise.  The functions
    take and return the node; an access outside [stat_page] is [Undef], a lock
    that is already held is [Hang].  Messages are not modelled. *)

From S2P Require Import Prelude Config CString.

Record k_mem_node := mk_mem_node {
  m_lock : Z;               (* [lock.val] of the spinlock *)
  m_paddr : Z;
  m_vaddr : Z;
  m_size : Z;
  page_total : Z;
  page_use : Z;
  stat_page : list Z
}.

(** The static variables of sys/memory.c. *)
Record mem_state := mk_mem_state {
  node_head : k_mem_node;
  dbg_heap_num : Z;
  brk_top : Z;
  brk_cur : Z
}.

Definition set_stat (m : k_mem_node) (l : list Z) : k_mem_node :=
  mk_mem_node (m_lock m) (m_paddr m) (m_vaddr m) (m_size m) (page_total m) (page_use m) l.
Definition set_use (m : k_mem_node) (u : Z) : k_mem_node :=
  mk_mem_node (m_lock m) (m_paddr m) (m_vaddr m) (m_size m) (page_total m) u (stat_page m).
Definition set_lock (m : k_mem_node) (v : Z) : k_mem_node :=
  mk_mem_node v (m_paddr m) (m_vaddr m) (m_size m) (page_total m) (page_use m) (stat_page m).

Definition with_node (g : mem_state) (m : k_mem_node) : mem_state :=
  mk_mem_state m (dbg_heap_num g) (brk_top g) (brk_cur g).

(** [for (i = off_page; i < page_total; i++, r++) if (stat_page[i] || r >= lim_page) break;] *)
Definition k_mem_node_count_cont_pages (m : k_mem_node) (off_page lim_page : Z) : exec Z :=
  '(i, r, brk) ← while (S := Z * Z * bool) (S (length (stat_page m)))
    (fun '(i, r, brk) => negb brk && (i <? page_total m))
    (fun '(i, r, brk) =>
      st ← of_opt (zget (stat_page m) i);
      if truth st || (r >=? lim_page) then Ret (i, r, true)
      else Ret (i + 1, r + 1, false)) (off_page, 1, false);
  Ret r.

(** [val] is stored into a [char]. *)
Definition k_mem_node_set_page_flag (m : k_mem_node) (off_page n_page val : Z) : exec k_mem_node :=
  '(l, i) ← while (S := list Z * Z) (Z.to_nat n_page)
    (fun '(l, i) => i <? off_page + n_page)
    (fun '(l, i) => l ← of_opt (zset l i (u8 val)); Ret (l, i + 1)) (stat_page m, off_page);
  Ret (set_stat m l).

(** Next value of [dbg_heap_num]: never a multiple of 256, so that its low byte
    marks a page as used. *)
Definition next_heap_num (num : Z) : Z :=
  let num := i32 (num + 1) in
  if Z.land num 0xff =? 0 then i32 (num + 1) else num.

Section Node.
Context `{Arch}.

(** Body of the search loop of [k_mem_node_alloc_pages_nolock]; [found] is set
    where the source returns. *)
Definition alloc_step (req_page : Z) (st : Z * bool * k_mem_node * Z)
    : exec (Z * bool * k_mem_node * Z) :=
  let '(i, found, m, num) := st in
  st ← of_opt (zget (stat_page m) i);
  if truth st then Ret (i + 1, false, m, num) else
  cnt_page ← k_mem_node_count_cont_pages m i req_page;
  if cnt_page >=? req_page then
    m ← k_mem_node_set_page_flag m i req_page num;
    Ret (i, true, set_use m (u64 (page_use m + req_page)), next_heap_num num)
  else Ret (i + cnt_page, false, m, num).

Definition k_mem_node_alloc_pages_nolock (m : k_mem_node) (num length : Z)
    : exec (Z * k_mem_node * Z) :=
  if length =? 0 then Ret (- EINVAL, m, num) else
  let pgsize := PAGE_SIZE in
  let req_page := usize (length + pgsize - 1) / pgsize in
  if req_page >? u64 (page_total m - page_use m) then Ret (- ENOMEM, m, num) else
  '(i, found, m, num) ← while (S := Z * bool * k_mem_node * Z) (S (Datatypes.length (stat_page m)))
    (fun '(i, found, m, num) => negb found && (i <? page_total m))
    (alloc_step req_page) (0, false, m, num);
  if (found : bool) then Ret (i, m, num) else Ret (-1, m, num).

(** Pages that a call on [start, start + length) covers, or [None] when [start]
    is outside of the node. *)
Definition page_range (m : k_mem_node) (start length : Z) : option (Z * Z) :=
  let pgsize := PAGE_SIZE in
  if (start <? m_vaddr m) || (m_vaddr m + m_size m <=? start) then None else
  let off_addr := start - m_vaddr m in
  let off_page := off_addr / pgsize in
  let n_page := length / pgsize in
  let n_page := if truth (Z.land off_addr (pgsize - 1)) then n_page + 1 else n_page in
  Some (off_page, n_page).

(** Whether a page of the range is free. *)
Definition any_free (m : k_mem_node) (off_page n_page : Z) : exec bool :=
  '(i, f) ← while (S := Z * bool) (Z.to_nat n_page)
    (fun '(i, f) => i <? off_page + n_page)
    (fun '(i, f) => st ← of_opt (zget (stat_page m) i); Ret (i + 1, f || negb (truth st)))
    (off_page, false);
  Ret f.

Definition k_mem_node_check_pages_nolock (m : k_mem_node) (start length : Z) : exec Z :=
  if length =? 0 then Ret (- EINVAL) else
  match page_range m start length with
  | None => Ret (- EINVAL)
  | Some (off_page, n_page) =>
    failed ← any_free m off_page n_page;
    if (failed : bool) then Ret (- EBADF) else Ret 0
  end.

Definition k_mem_node_free_pages_nolock (m : k_mem_node) (start length : Z)
    : exec (Z * k_mem_node) :=
  if length =? 0 then Ret (- EINVAL, m) else
  match page_range m start length with
  | None => Ret (- EINVAL, m)
  | Some (off_page, n_page) =>
    need_dump ← any_free m off_page n_page;
    m ← k_mem_node_set_page_flag m off_page n_page 0;
    Ret (0, set_use m (u64 (page_use m - n_page)))
  end.

(** The lock of the node around each operation. *)
Definition k_mem_node_lock (m : k_mem_node) : exec k_mem_node :=
  if truth (m_lock m) then Hang else Ret (set_lock m 1).
Definition k_mem_node_unlock (m : k_mem_node) : k_mem_node := set_lock m 0.

Definition k_mem_node_alloc_pages (m : k_mem_node) (num length : Z) : exec (Z * k_mem_node * Z) :=
  m ← k_mem_node_lock m;
  '(r, m, num) ← k_mem_node_alloc_pages_nolock m num length;
  Ret (r, k_mem_node_unlock m, num).

Definition k_mem_node_check_pages (m : k_mem_node) (start length : Z) : exec (Z * k_mem_node) :=
  m ← k_mem_node_lock m;
  r ← k_mem_node_check_pages_nolock m start length;
  Ret (r, k_mem_node_unlock m).

Definition k_mem_node_free_pages (m : k_mem_node) (start length : Z) : exec (Z * k_mem_node) :=
  m ← k_mem_node_lock m;
  '(r, m) ← k_mem_node_free_pages_nolock m start length;
  Ret (r, k_mem_node_unlock m).

(** ** The operations on the node of the heap *)

Definition k_mem_heap_area_start (g : mem_state) : Z := m_vaddr (node_head g).
Definition k_mem_heap_area_end (g : mem_state) : Z := m_vaddr (node_head g) + m_size (node_head g).

Definition k_mem_alloc_pages (g : mem_state) (length : Z) : exec (Z * mem_state) :=
  '(r, m, num) ← k_mem_node_alloc_pages (node_head g) (dbg_heap_num g) length;
  Ret (r, mk_mem_state m num (brk_top g) (brk_cur g)).

Definition k_mem_check_pages (g : mem_state) (start length : Z) : exec (Z * mem_state) :=
  '(r, m) ← k_mem_node_check_pages (node_head g) start length;
  Ret (r, with_node g m).

Definition k_mem_free_pages (g : mem_state) (start length : Z) : exec (Z * mem_state) :=
  '(r, m) ← k_mem_node_free_pages (node_head g) start length;
  Ret (r, with_node g m).

Context `{Config}.

Definition k_mem_brk_start (g : mem_state) : Z := brk_top g.
Definition k_mem_brk_end (g : mem_state) : Z := brk_top g + CONFIG_BRK_SIZE.
Definition k_mem_brk_get_cur (g : mem_state) : Z := brk_cur g.
Definition k_mem_brk_set_cur (g : mem_state) (p : Z) : mem_state :=
  mk_mem_state (node_head g) (dbg_heap_num g) (brk_top g) p.

(** The static variables before [k_mem_init]: cleared, but for [dbg_heap_num]. *)
Definition mem_state_reset : mem_state :=
  mk_mem_state
    (mk_mem_node 0 0 0 0 0 0 (replicate (Z.to_nat (CONFIG_HEAP_SIZE / PAGE_SIZE)) 0)) 1 0 0.

(** [heap_head_area] is the address the linker gives to the heap. *)
Definition k_mem_init (g : mem_state) (heap_head_area : Z) : exec (Z * mem_state) :=
  let pgsize := PAGE_SIZE in
  let mnode := mk_mem_node (m_lock (node_head g)) heap_head_area heap_head_area CONFIG_HEAP_SIZE
    (CONFIG_HEAP_SIZE / pgsize) 0 (stat_page (node_head g)) in
  '(off_page, mnode, num) ← k_mem_node_alloc_pages mnode (dbg_heap_num g) CONFIG_BRK_SIZE;
  if off_page <? 0 then Ret (- ENOMEM, mk_mem_state mnode num (brk_top g) (brk_cur g)) else
  let top := m_vaddr mnode + off_page * pgsize in
  Ret (0, mk_mem_state mnode num top top).
End Node.

(** ** Invariants and abstract states *)

Definition free_at (m : k_mem_node) (j : Z) : Prop := zget (stat_page m) j = Some 0.
Definition used_at (m : k_mem_node) (j : Z) : Prop :=
  ∃ v, zget (stat_page m) j = Some v ∧ v ≠ 0.

(** One status byte per page of the node, and sizes that the counters can hold. *)
Record node_wf `{Arch} (m : k_mem_node) : Prop := {
  wf_len : zlen (stat_page m) = page_total m;
  wf_size : m_size m = page_total m * PAGE_SIZE;
  wf_bound : m_size m < 2 ^ (xlen - 1);
  wf_use : 0 <= page_use m <= page_total m
}.

(** The number that the next allocation writes marks a page as used. *)
Definition num_ok (num : Z) : Prop := num mod 256 ≠ 0.

(** Number of pages in use. *)
Definition count_used (l : list Z) : Z := zlen (filter (fun v => v ≠ 0) l).

(** A node from which nothing was freed: the first [k] pages are in use. *)
Definition bump (m : k_mem_node) (k : Z) : Prop :=
  0 <= k <= page_total m ∧ page_use m = k ∧
  (∀ j, 0 <= j < k → used_at m j) ∧ (∀ j, k <= j < page_total m → free_at m j).

(** Pages that a request of [length] bytes takes. *)
Definition pages_for (length : Z) : Z := (length + PAGE_SIZE - 1) / PAGE_SIZE.

(** Abstract allocator: a mark that only grows. *)
Definition bump_spec (total k length : Z) : Z * Z :=
  if pages_for length >? total - k then (- ENOMEM, k) else (k, k + pages_for length).

(** State of the heap between two operations, while nothing was freed. *)
Record heap_inv `{Arch} (g : mem_state) (k : Z) : Prop := {
  hi_lock : m_lock (node_head g) = 0;
  hi_wf : node_wf (node_head g);
  hi_bump : bump (node_head g) k;
  hi_num : num_ok (dbg_heap_num g)
}.

(** [l'] is [l] with the pages [off, off + n) set to [v]. *)
Definition flagged (l l' : list Z) (off n v : Z) : Prop :=
  zlen l' = zlen l ∧
  ∀ j, zget l' j = if (off <=? j) && (j <? off + n) then Some v else zget l j.

(** ** Lemmas *)

Lemma next_heap_num_ok num : num_ok (next_heap_num num).
Proof.
  unfold num_ok, next_heap_num. change 0xff with (2 ^ 8 - 1).
  rewrite land_ones_mod by lia. change 256 with (2 ^ 8).
  destruct (_ =? 0) eqn:E; bsplit.
  - rewrite swrap_low, Zplus_mod, E by lia. done.
  - done.
Qed.

Lemma num_ok_byte num : num_ok num → u8 num ≠ 0.
Proof. done. Qed.

Lemma set_page_flag_in m off n v :
  0 <= off → 0 <= n → off + n <= zlen (stat_page m) →
  ∃ l, k_mem_node_set_page_flag m off n v = Ret (set_stat m l) ∧
    flagged (stat_page m) l off n (u8 v).
Proof.
  intros Ho Hn Hl. unfold k_mem_node_set_page_flag.
  while_with (fun st : list Z * Z =>
      off <= st.2 <= off + n ∧ flagged (stat_page m) st.1 off (st.2 - off) (u8 v))
    (fun st : list Z * Z => off + n - st.2).
  - intros [l i] [Hi [Hlen Hf]] Hc. simpl in *. bsplit.
    destruct (zset l i (u8 v)) as [l'|] eqn:E; cycle 1.
    { rewrite zset_in in E by lia. done. }
    exists (l', i + 1). split; [done|]. simpl. split; [|lia]. split; [lia|]. split.
    + by rewrite (zset_length _ _ _ _ E).
    + intros j. rewrite (zget_zset _ _ _ j _ E), Hf.
      destruct (j =? i) eqn:?, (off <=? j) eqn:?, (j <? off + (i - off)) eqn:?,
        (j <? off + (i + 1 - off)) eqn:?; bsplit; simpl; done || lia.
  - simpl. split; [lia|]. split; [done|]. intros j.
    destruct (off <=? j) eqn:?, (j <? off + (off - off)) eqn:?; bsplit; simpl; done || lia.
  - simpl. lia.
  - destruct W as ([l i] & E & [Hi Hf] & Hc).
    rewrite E. exists l. split; [done|]. simpl in *. bsplit.
    by replace n with (i - off) by lia.
Qed.

Lemma set_page_flag_ret m off n v m' :
  k_mem_node_set_page_flag m off n v = Ret m' → 0 <= off → 0 <= n →
  zlen (stat_page m) < off + n → n = 0.
Proof.
  unfold k_mem_node_set_page_flag. intros Hr Ho Hn Hlt.
  destruct (decide (n = 0)) as [|Hne]; [done|exfalso].
  assert (∀ fuel l i, off <= i < off + n → zlen l = zlen (stat_page m) →
    ∀ l' i', while fuel (fun '(l, i) => i <? off + n)
      (fun '(l, i) => l ← of_opt (zset l i (u8 v)); Ret (l, i + 1)) (l, i) ≠ Ret (l', i')) as Hw.
  { induction fuel as [|fuel IH]; intros l i Hi Hl l' i'; simpl.
    - by rewrite (proj2 (Z.ltb_lt i (off + n))) by lia.
    - rewrite (proj2 (Z.ltb_lt i (off + n))) by lia.
      destruct (zset l i (u8 v)) as [l2|] eqn:E; simpl; [|done].
      pose proof (zset_length _ _ _ _ E). apply zset_Some in E as [? _].
      apply IH; lia. }
  apply bind_ret in Hr as ([l i] & E & _). by eapply Hw in E; [| lia | done].
Qed.

Section NodeProofs.
Context `{Arch}.

Lemma wf_get m j : node_wf m → 0 <= j < page_total m → ∃ v, zget (stat_page m) j = Some v.
Proof. intros Wf Hj. apply zget_is_Some. rewrite (wf_len _ Wf). done. Qed.

Lemma wf_bound51 m : node_wf m → 0 <= page_total m < 2 ^ 51.
Proof.
  intros Wf. pose proof (wf_size _ Wf) as Hs. pose proof (wf_bound _ Wf) as Hb.
  pose proof (wf_use _ Wf). unfold PAGE_SIZE in Hs.
  destruct xlen_cases as [E|E]; rewrite E in Hb; simpl in Hb; lia.
Qed.

(** What [k_mem_node_count_cont_pages] returns: [r] is at most the limit, the
    pages before the [r]-th of the run are free, and the run stops at [r] because
    of the limit, the end of the node or a page in use. *)
Lemma count_cont_pages_spec m off lim :
  node_wf m → 0 <= off < page_total m → 1 <= lim →
  ∃ r, k_mem_node_count_cont_pages m off lim = Ret r ∧ 1 <= r <= lim ∧
    off + r - 1 <= page_total m ∧ (∀ j, off <= j < off + r - 1 → free_at m j) ∧
    (r = lim ∨ off + r - 1 = page_total m ∨ used_at m (off + r - 1)).
Proof.
  intros Wf Ho Hl. unfold k_mem_node_count_cont_pages.
  while_with (fun '(i, r, brk) => off <= i <= page_total m ∧ r = i - off + 1 ∧ r <= lim ∧
       (∀ j, off <= j < i → free_at m j) ∧ (brk = true → r = lim ∨ used_at m i))
    (fun '((i, r, brk) : Z * Z * bool) => (page_total m - i) + (if brk then 0 else 1)).
  - intros [[i r] brk] (Hi & Hr & Hrl & Hf & Hb) Hc. bsplit. subst brk.
    destruct (wf_get m i Wf) as [v Hv]; [lia|]. rewrite Hv. simpl.
    destruct (truth v || (r >=? lim)) eqn:E.
    + exists (i, r, true). split; [done|]. split; [|lia].
      split_and!; [lia|lia|lia|lia|done|]. intros _.
      apply orb_true_iff in E as [E|E]; [right|left; lia].
      unfold truth in E. bsplit. by exists v.
    + exists (i + 1, r + 1, false). apply orb_false_iff in E as [E1 E2].
      unfold truth in E1. bsplit. subst v. split; [done|]. split; [|lia].
      split_and!; [lia|lia|lia|lia| |done]. intros j Hj.
      destruct (decide (j = i)) as [->|]; [done|]. apply Hf. lia.
  - split_and!; [lia|lia|lia|lia| |done]. intros j Hj. lia.
  - simpl. pose proof (wf_len _ Wf). lia.
  - destruct W as ([[i r] brk] & E & (Hi & Hr & Hrl & Hf & Hb) & Hc).
    rewrite E. exists r. simpl. split; [done|].
    replace (off + r - 1) with i by lia. split_and!; [lia|lia|lia|done|].
    destruct brk; [naive_solver|]. simpl in Hc. bsplit. right. left. lia.
Qed.

Lemma req_page_eq length :
  0 < length < 2 ^ (xlen - 1) →
  usize (length + PAGE_SIZE - 1) / PAGE_SIZE = pages_for length.
Proof.
  intros Hl. unfold pages_for. rewrite (uwrap_small xlen); [done|].
  unfold PAGE_SIZE. destruct xlen_cases as [E|E]; rewrite E in Hl |- *; simpl in *; lia.
Qed.

Lemma pages_for_pos length : 0 < length → 1 <= pages_for length.
Proof. unfold pages_for, PAGE_SIZE. intros. dlia. Qed.

Lemma flagged_used m l off n v :
  flagged (stat_page m) l off n v → v ≠ 0 →
  ∀ j, off <= j < off + n → used_at (set_stat m l) j.
Proof.
  intros [_ F] Hv j Hj. exists v. simpl. rewrite F.
  destruct (off <=? j) eqn:?, (j <? off + n) eqn:?; bsplit; simpl; done || lia.
Qed.

Lemma flagged_other m l off n v j :
  flagged (stat_page m) l off n v → j < off ∨ off + n <= j →
  zget (stat_page (set_stat m l)) j = zget (stat_page m) j.
Proof.
  intros [_ F] Hj. simpl. rewrite F.
  destruct (off <=? j) eqn:?, (j <? off + n) eqn:?; bsplit; simpl; done || lia.
Qed.

(** One step of the search: past a page in use, past a free run that is too
    short, or the end of the search.  The last page that is taken need not be
    free, nor even be a page of the node. *)
Lemma alloc_step_spec m num i req :
  node_wf m → 0 <= i < page_total m → 1 <= req →
  (used_at m i ∧ alloc_step req (i, false, m, num) = Ret (i + 1, false, m, num)) ∨
  (free_at m i ∧ ∃ r, 1 <= r ∧ i + r - 1 <= page_total m ∧
    (∀ j, i <= j < i + r - 1 → free_at m j) ∧
    ((r < req ∧ (i + r - 1 = page_total m ∨ used_at m (i + r - 1)) ∧
       alloc_step req (i, false, m, num) = Ret (i + r, false, m, num)) ∨
     (r = req ∧ i + req <= page_total m ∧ ∃ l, flagged (stat_page m) l i req (u8 num) ∧
       alloc_step req (i, false, m, num) =
         Ret (i, true, set_use (set_stat m l) (u64 (page_use m + req)), next_heap_num num)) ∨
     (r = req ∧ i + req = page_total m + 1 ∧ alloc_step req (i, false, m, num) = Undef))).
Proof.
  intros Wf Hi Hr. destruct (wf_get m i Wf Hi) as [v Hv]. unfold alloc_step. rewrite Hv. simpl.
  destruct (truth v) eqn:Et; unfold truth in Et; bsplit.
  { left. split; [by exists v|done]. }
  right. subst v. split; [done|].
  destruct (count_cont_pages_spec m i req Wf Hi Hr) as (r & -> & Hr1 & Hr2 & Hf & Hs).
  exists r. split; [lia|]. split; [lia|]. split; [done|]. simpl.
  pose proof (wf_len _ Wf) as Hlen.
  destruct (r >=? req) eqn:E.
  - assert (r = req) as -> by lia. right.
    destruct (decide (i + req <= page_total m)).
    + left. destruct (set_page_flag_in m i req num) as (l2 & -> & Hl2); [lia..|].
      repeat split; [done|]. by exists l2.
    + right. repeat split; [lia|].
      destruct (k_mem_node_set_page_flag m i req num) eqn:Es; [|done|].
      * apply set_page_flag_ret in Es; lia.
      * exfalso. revert Es. unfold k_mem_node_set_page_flag.
        assert (∀ fuel l j, j <= i + req → i + req - j <= Z.of_nat fuel → while fuel
          (fun '(l, j) => j <? i + req)
          (fun '(l, j) => l ← of_opt (zset l j (u8 num)); Ret (l, j + 1)) (l, j) ≠ Hang) as Hw.
        { induction fuel as [|fuel IH]; intros l j Hj Hf'; simpl.
          - rewrite (proj2 (Z.ltb_ge j (i + req))) by lia. done.
          - destruct (j <? i + req) eqn:?; bsplit; [|done].
            destruct (zset l j (u8 num)); simpl; [|done]. apply IH; lia. }
        specialize (Hw (Z.to_nat req) (stat_page m) i ltac:(lia) ltac:(lia)).
        destruct (while _ _ _ _) as [[??]| |]; simpl; done.
  - left. repeat split; [lia|]. destruct Hs as [?|?]; [lia|done].
Qed.

(** The node after [req] pages from [i] were marked with [num]. *)
Definition taken (m : k_mem_node) (num i req : Z) (m' : k_mem_node) : Prop :=
  ∃ l, flagged (stat_page m) l i req (u8 num) ∧
    m' = set_use (set_stat m l) (u64 (page_use m + req)).

Lemma taken_wf m num i req m' :
  node_wf m → 0 <= req → page_use m + req <= page_total m → taken m num i req m' → node_wf m'.
Proof.
  intros Wf Hr Hu (l & [Hl _] & ->). pose proof (wf_bound51 m Wf). destruct Wf as [? ? ? ?].
  split; simpl; [congruence|done|done|]. rewrite (uwrap_small 64); lia.
Qed.

(** The search from the start of the node, for any node. *)
Lemma alloc_search m num req :
  node_wf m → 1 <= req →
  match while (S (Datatypes.length (stat_page m)))
      (fun '(i, found, m, num) => negb found && (i <? page_total m))
      (alloc_step req) (0, false, m, num) with
  | Ret (i, true, m', num') =>
      0 <= i ∧ i + req <= page_total m ∧ taken m num i req m' ∧ num' = next_heap_num num ∧
      ∀ j, i <= j < i + req - 1 → free_at m j
  | Ret (i, false, m', num') => m' = m ∧ num' = num
  | Undef => ∃ i, 0 <= i ∧ i + req = page_total m + 1 ∧ ∀ j, i <= j < page_total m → free_at m j
  | Hang => False
  end.
Proof.
  intros Wf Hr.
  pose proof (while_rule_undef (S := Z * bool * k_mem_node * Z)
    (fun '(i, found, m', num') =>
       if (found : bool) then
         0 <= i ∧ i + req <= page_total m ∧ taken m num i req m' ∧ num' = next_heap_num num ∧
         ∀ j, i <= j < i + req - 1 → free_at m j
       else 0 <= i ∧ m' = m ∧ num' = num)
    (∃ i, 0 <= i ∧ i + req = page_total m + 1 ∧ ∀ j, i <= j < page_total m → free_at m j)
    (fun '(i, found, m', num') => if (found : bool) then 0 else page_total m - i + 1)
    (S (Datatypes.length (stat_page m)))
    (fun '(i, found, m, num) => negb found && (i <? page_total m))
    (alloc_step req) (0, false, m, num)) as R.
  assert (zlen (stat_page m) = page_total m) by apply Wf.
  opose proof* R as R2; [ | done | lia | clear R ].
  - intros [[[i found] m'] num'] HI Hc. bsplit. destruct found; [done|].
    destruct HI as (Hi & -> & ->). split; [lia|].
    destruct (alloc_step_spec m num i req Wf) as
      [(_ & ->)|(_ & r & ? & ? & Hf & [(? & _ & ->)|[(-> & ? & l & Hl & ->)|(-> & ? & ->)]])]; [lia|done| | | |].
    + split; [|lia]. split_and!; [lia|done..].
    + split; [|lia]. split_and!; [lia|done..].
    + split; [|lia]. split_and!; [done|done| |done|done]. by exists l.
    + exists i. split_and!; [done|done|]. intros j Hj. apply Hf. lia.
  - destruct (while _ _ _ _) as [[[[i [|]] m'] num']| |]; [| |done|done]; naive_solver.
Qed.

(** The search ends at the first free page, when all pages that are asked for are free there, or all but the last. *)
Lemma alloc_search_first m num req k :
  node_wf m → 1 <= req → 0 <= k → k + req <= page_total m → (∀ j, 0 <= j < k → used_at m j) →
  free_at m k → (∀ j, k <= j < k + req - 1 → free_at m j) →
  ∃ m', while (S (Datatypes.length (stat_page m)))
      (fun '(i, found, m, num) => negb found && (i <? page_total m))
      (alloc_step req) (0, false, m, num) = Ret (k, true, m', next_heap_num num) ∧
    taken m num k req m'.
Proof.
  intros Wf Hr Hk Hfit Hused Hfk Hfree.
  assert (zlen (stat_page m) = page_total m) by apply Wf.
  while_with (fun '((i, found, m', num') : Z * bool * k_mem_node * Z) =>
      if found then i = k ∧ taken m num k req m' ∧ num' = next_heap_num num
      else 0 <= i <= k ∧ m' = m ∧ num' = num)
    (fun '((i, found, m', num') : Z * bool * k_mem_node * Z) => if found then 0 else page_total m - i + 1).
  - intros [[[i found] m'] num'] HI Hc. bsplit. destruct found; [done|].
    destruct HI as (Hi & -> & ->).
    assert (i = k ∨ i < k) as [->|Hlt] by lia.
    + destruct (alloc_step_spec m num k req Wf) as
        [([v [Hv ?]] & _)|(_ & r & ? & ? & Hf & [(? & Hs & ->)|[(-> & ? & l & Hl & ->)|(-> & ? & ->)]])];
        [lia|done|exfalso|exfalso| |lia].
      * unfold free_at in Hfk. congruence.
      * destruct Hs as [?|[v [Hv ?]]]; [lia|]. rewrite Hfree in Hv by lia. congruence.
      * eexists. split; [done|]. split; [|cbn -[Z.add Z.sub]; lia]. split_and!; [done| |done]. by exists l.
    + destruct (alloc_step_spec m num i req Wf) as [(_ & ->)|(Hv & _)]; [lia|done| |exfalso].
      * eexists. split; [done|]. split; [|cbn -[Z.add Z.sub]; lia]. split_and!; [lia|lia|done|done].
      * destruct (Hused i) as [v [Hv' ?]]; [lia|]. unfold free_at in Hv. congruence.
  - split_and!; [lia|lia|done|done].
  - lia.
  - destruct W as ([[[i found] m'] num'] & -> & HI & Hc).
    destruct found; [|destruct HI as (? & -> & ->); simpl in Hc; bsplit; lia].
    destruct HI as (-> & Ht & ->). by exists m'.
Qed.

(** An allocation at the first free page. *)
Lemma alloc_pages_first m num k length :
  node_wf m → 0 < length < 2 ^ (xlen - 1) → pages_for length <= page_total m - page_use m →
  0 <= k → k + pages_for length <= page_total m → (∀ j, 0 <= j < k → used_at m j) →
  free_at m k → (∀ j, k <= j < k + pages_for length - 1 → free_at m j) →
  ∃ m', k_mem_node_alloc_pages_nolock m num length = Ret (k, m', next_heap_num num) ∧ taken m num k (pages_for length) m'.
Proof.
  intros Wf Hl Hroom Hk Hfit Hused Hfk Hfree. pose proof (pages_for_pos length ltac:(lia)) as Hp.
  pose proof (wf_bound51 m Wf). pose proof (wf_use m Wf). unfold k_mem_node_alloc_pages_nolock.
  rewrite (proj2 (Z.eqb_neq length 0)) by lia. cbv zeta. rewrite req_page_eq by done.
  rewrite (uwrap_small 64) by lia.
  destruct (pages_for length >? page_total m - page_use m) eqn:E; [lia|].
  destruct (alloc_search_first m num _ k Wf Hp Hk Hfit Hused Hfk Hfree) as (m' & -> & Ht). by exists m'.
Qed.

Lemma bump_taken m num k req m' :
  node_wf m → num_ok num → 0 <= req → bump m k → k + req <= page_total m →
  taken m num k req m' → bump m' (k + req).
Proof.
  intros Wf Hn Hr (Hk & Hu & Hused & Hfree) Hfit (l & Hl & ->).
  pose proof (wf_bound51 m Wf). simpl.
  split; [simpl; lia|]. split; [simpl; rewrite (uwrap_small 64); lia|].
  split; intros j Hj; simpl in *.
  - destruct (decide (j < k)).
    + destruct (Hused j) as [v Hv]; [lia|]. exists v. simpl.
      pose proof (flagged_other m l k req (u8 num) j Hl) as E. simpl in E. rewrite E by lia. done.
    + eapply (flagged_used m l k req (u8 num)); [done|done|lia].
  - unfold free_at. simpl.
    pose proof (flagged_other m l k req (u8 num) j Hl) as E. simpl in E. rewrite E by lia.
    apply Hfree. lia.
Qed.

(** An allocation from a node from which nothing was freed. *)
Lemma alloc_pages_bump m num k length :
  node_wf m → num_ok num → bump m k → 0 < length < 2 ^ (xlen - 1) →
  k + pages_for length <= page_total m →
  ∃ m', k_mem_node_alloc_pages_nolock m num length = Ret (k, m', next_heap_num num) ∧
    taken m num k (pages_for length) m' ∧ node_wf m' ∧ bump m' (k + pages_for length).
Proof.
  intros Wf Hn Hb Hl Hfit. pose proof (pages_for_pos length ltac:(lia)) as Hp.
  pose proof Hb as (Hk & Hu & Hused & Hfree).
  destruct (alloc_pages_first m num k length Wf Hl) as (m' & E & Ht);
    [lia|lia|lia|done|apply Hfree; lia|intros j Hj; apply Hfree; lia|].
  exists m'. split; [done|]. split; [done|]. split.
  - apply (taken_wf m num k (pages_for length)); (done || lia).
  - apply (bump_taken m num); (done || lia).
Qed.

(** ** Free *)

Lemma any_free_spec m off n :
  0 <= off → 0 <= n → off + n <= zlen (stat_page m) →
  ∃ b, any_free m off n = Ret b ∧ (b = false ↔ ∀ j, off <= j < off + n → used_at m j).
Proof.
  intros Ho Hn Hl. unfold any_free.
  while_with (fun '((i, f) : Z * bool) => off <= i <= off + n ∧
      (f = false ↔ ∀ j, off <= j < i → used_at m j))
    (fun '((i, f) : Z * bool) => off + n - i).
  - intros [i f] [Hi Hf] Hc. bsplit. destruct (zget_is_Some (stat_page m) i) as [v Hv]; [lia|].
    rewrite Hv. simpl. eexists. split; [done|]. split; [|lia]. split; [lia|].
    rewrite orb_false_iff, Hf. unfold truth. rewrite negb_involutive, Z.eqb_neq. split.
    + intros [Hu Hv0] j Hj. destruct (decide (j = i)) as [->|]; [by exists v|]. apply Hu. lia.
    + intros Hu. split; [intros j Hj; apply Hu; lia|].
      destruct (Hu i) as [v' [Hv' ?]]; [lia|]. congruence.
  - split; [lia|]. split; [|done]. intros _ j Hj. lia.
  - lia.
  - destruct W as ([i f] & E & [Hi Hf] & Hc). rewrite E. exists f. split; [done|].
    bsplit. rewrite Hf. by replace i with (off + n) by lia.
Qed.

(** A call on whole pages of the node covers exactly these pages. *)
Lemma page_range_aligned m k n :
  node_wf m → 0 <= k → 1 <= n → k + n <= page_total m →
  page_range m (m_vaddr m + k * PAGE_SIZE) (n * PAGE_SIZE) = Some (k, n).
Proof.
  intros Wf Hk Hn Hkn. pose proof (wf_size m Wf). unfold page_range, PAGE_SIZE in *.
  destruct (m_vaddr m + k * 4096 <? m_vaddr m) eqn:?, (m_vaddr m + m_size m <=? _) eqn:?;
    bsplit; simpl; try lia.
  replace (m_vaddr m + k * 4096 - m_vaddr m) with (k * 4096) by lia.
  change (4096 - 1) with (2 ^ 12 - 1). rewrite land_ones_mod by lia. change (2 ^ 12) with 4096.
  rewrite Z_mod_mult, !Z_div_mult by lia. done.
Qed.

Lemma free_pages_aligned m k n :
  node_wf m → 0 <= k → 1 <= n → k + n <= page_total m → n <= page_use m →
  ∃ l, k_mem_node_free_pages_nolock m (m_vaddr m + k * PAGE_SIZE) (n * PAGE_SIZE) =
      Ret (0, set_use (set_stat m l) (page_use m - n)) ∧
    flagged (stat_page m) l k n 0.
Proof.
  intros Wf Hk Hn Hkn Hu. unfold k_mem_node_free_pages_nolock.
  rewrite (proj2 (Z.eqb_neq _ 0)) by (unfold PAGE_SIZE; lia).
  rewrite page_range_aligned by done. pose proof (wf_len m Wf).
  destruct (any_free_spec m k n) as (b & -> & _); [lia..|].
  destruct (set_page_flag_in m k n 0) as (l & -> & Hl); [lia..|].
  exists l. split; [|done]. simpl. do 4 f_equal. pose proof (wf_bound51 m Wf).
  pose proof (wf_use m Wf). apply uwrap_small. lia.
Qed.
End NodeProofs.

(** ** Properties *)

Section Claims.
Context `{Arch}.

Lemma k_mem_alloc_pages_unfold g length r m' num' :
  m_lock (node_head g) = 0 →
  k_mem_node_alloc_pages_nolock (set_lock (node_head g) 1) (dbg_heap_num g) length = Ret (r, m', num') →
  k_mem_alloc_pages g length =
    Ret (r, mk_mem_state (set_lock m' 0) num' (brk_top g) (brk_cur g)).
Proof.
  intros Hl E. unfold k_mem_alloc_pages, k_mem_node_alloc_pages, k_mem_node_lock.
  rewrite Hl. simpl. by rewrite E.
Qed.

Lemma node_wf_lock m v : node_wf m → node_wf (set_lock m v).
Proof. intros [? ? ? ?]. by split. Qed.

(** A request that does not fit leaves the node as it was. *)
Lemma alloc_pages_nomem m num length :
  node_wf m → 0 < length < 2 ^ (xlen - 1) → page_total m - page_use m < pages_for length →
  k_mem_node_alloc_pages_nolock m num length = Ret (- ENOMEM, m, num).
Proof.
  intros Wf Hl Hp. pose proof (wf_bound51 m Wf). pose proof (wf_use m Wf).
  unfold k_mem_node_alloc_pages_nolock.
  rewrite (proj2 (Z.eqb_neq length 0)) by lia. cbv zeta. rewrite req_page_eq by done.
  rewrite (uwrap_small 64) by lia.
  by rewrite (proj2 (Z.gtb_lt _ _)) by lia.
Qed.

(** C16: allocations refine an abstract allocator that only advances a mark. While
    nothing was freed, [k_mem_alloc_pages] terminates and returns what the mark
    says: the first free page and the pages of the request marked as used, or
    [-ENOMEM] with the heap unchanged when the pages left are too few. *)
Theorem k_mem_alloc_refines_bump g k length
    (Hi : heap_inv g k) (Hl : 0 < length < 2 ^ (xlen - 1)) :
  let (r, k') := bump_spec (page_total (node_head g)) k length in
  ∃ g', k_mem_alloc_pages g length = Ret (r, g') ∧ heap_inv g' k' ∧
    page_total (node_head g') = page_total (node_head g) ∧
    brk_top g' = brk_top g ∧ brk_cur g' = brk_cur g ∧
    (∀ j, k' <= j ∨ j < k → zget (stat_page (node_head g')) j = zget (stat_page (node_head g)) j).
Proof.
  destruct Hi as [Hlk Wf Hb Hn]. unfold bump_spec. pose proof (pages_for_pos length ltac:(lia)).
  pose proof (node_wf_lock _ 1 Wf) as Wf1.
  destruct (pages_for length >? _) eqn:E.
  - eexists. split; [apply k_mem_alloc_pages_unfold; [done|]|].
    + apply alloc_pages_nomem; [done|done|]. simpl. destruct Hb as (? & -> & _). lia.
    + simpl. split; [split; [done|by apply node_wf_lock..|done|done]|done].
  - destruct (alloc_pages_bump (set_lock (node_head g) 1) (dbg_heap_num g) k length)
      as (m' & E' & (l & Hf & ->) & Wf' & Hb'); [done|done|done|done|simpl; lia|].
    eexists. split; [by apply k_mem_alloc_pages_unfold|]. simpl. split_and!; [|done|done|done|].
    + split; [done|by apply (node_wf_lock _ 0)|done|apply next_heap_num_ok].
    + intros j Hj. destruct Hf as [_ Hf]. simpl in Hf. rewrite Hf.
      destruct (k <=? j) eqn:?, (j <? k + pages_for length) eqn:?; bsplit; simpl; done || lia.
Qed.

(** What an allocation does on any well-formed heap, freed pages included: it
    never hangs; it fails without a change, with [-ENOMEM] exactly when the pages
    that are left are too few and with [-1] when the search finds no run; it
    succeeds with a range inside the node, all of whose pages are marked and
    counted, and of which all pages but the last are known to have been free; or
    it writes one status byte past the array, when the free run at the end of the
    heap is one page too short. *)
Theorem k_mem_node_alloc_branches m num length
    (Wf : node_wf m) (Hl : 0 < length < 2 ^ (xlen - 1)) :
  let req := pages_for length in
  match k_mem_node_alloc_pages_nolock m num length with
  | Ret (r, m', num') =>
      (r < 0 ∧ m' = m ∧ num' = num ∧ (r = - ENOMEM ∨ r = -1) ∧
        (r = - ENOMEM ↔ page_total m - page_use m < req)) ∨
      (0 <= r ∧ r + req <= page_total m ∧ taken m num r req m' ∧ num' = next_heap_num num ∧
        ∀ j, r <= j < r + req - 1 → free_at m j)
  | Undef => ∃ i, 0 <= i ∧ i + req = page_total m + 1 ∧ ∀ j, i <= j < page_total m → free_at m j
  | Hang => False
  end.
Proof.
  intros req. pose proof (pages_for_pos length ltac:(lia)) as Hp. fold req in Hp.
  pose proof (wf_bound51 m Wf). pose proof (wf_use m Wf).
  destruct (decide (page_total m - page_use m < req)) as [Hno|Hfit].
  - rewrite alloc_pages_nomem by done. left. repeat split; auto.
  - unfold k_mem_node_alloc_pages_nolock.
    rewrite (proj2 (Z.eqb_neq length 0)) by lia. cbv zeta. rewrite req_page_eq by done.
    fold req. rewrite (uwrap_small 64) by lia.
    destruct (req >? page_total m - page_use m) eqn:E; [lia|].
    pose proof (alloc_search m num req Wf Hp) as S.
    destruct (while _ _ _ _) as [[[[i [|]] m'] num']| |]; simpl; [|left|done|done].
    + right. naive_solver.
    + destruct S as [-> ->]. repeat split; auto; unfold ENOMEM; lia.
Qed.

(** Round trip: pages that were allocated last and are freed as whole pages
    are free again, and the heap is in the state it was in, but for the number of
    the next allocation. *)
Theorem k_mem_alloc_free_roundtrip g k length
    (Hi : heap_inv g k) (Hl : 0 < length < 2 ^ (xlen - 1))
    (Hfit : k + pages_for length <= page_total (node_head g)) :
  ∃ g1 g2, k_mem_alloc_pages g length = Ret (k, g1) ∧
    k_mem_free_pages g1 (k_mem_heap_area_start g + k * PAGE_SIZE) (pages_for length * PAGE_SIZE)
      = Ret (0, g2) ∧
    heap_inv g2 k ∧ 
    (∀ j, zget (stat_page (node_head g2)) j = zget (stat_page (node_head g)) j).
Proof.
  destruct Hi as [Hlk Wf Hb Hn]. pose proof (pages_for_pos length ltac:(lia)) as Hp.
  pose proof (node_wf_lock _ 1 Wf) as Wf1. assert (page_use (node_head g) = k) as Hu by apply Hb.
  destruct (alloc_pages_bump (set_lock (node_head g) 1) (dbg_heap_num g) k length)
    as (m' & E' & (l & [Hlen Hf] & ->) & Wf' & Hb'); [done|done|done|done|simpl; lia|].
  assert (0 <= k) as Hk by apply Hb. pose proof (wf_bound51 _ Wf) as H51.
  destruct (free_pages_aligned (set_lock (set_lock (set_use (set_stat (set_lock (node_head g) 1) l)
      (u64 (page_use (node_head g) + pages_for length))) 0) 1) k (pages_for length))
    as (l2 & E2 & [Hlen2 Hf2]); [by apply (node_wf_lock _ 1), (node_wf_lock _ 0)|lia|lia|simpl; lia| |].
  { simpl. rewrite (uwrap_small 64); lia. }
  eexists _, _. split; [by apply k_mem_alloc_pages_unfold|].
  unfold k_mem_free_pages, k_mem_node_free_pages, k_mem_node_lock, k_mem_heap_area_start. simpl in E2 |- *. rewrite E2. simpl. split; [done|].
  assert (∀ j, zget l2 j = zget (stat_page (node_head g)) j) as Hsame.
  { intros j. simpl in Hf, Hf2. rewrite Hf2, Hf.
    destruct (k <=? j) eqn:?, (j <? k + pages_for length) eqn:?; bsplit; simpl; try done.
    symmetry. apply Hb. lia. }
  split; [|exact Hsame]. simpl in *.
  split; simpl; [done| | |apply next_heap_num_ok].
  - destruct Wf as [? ? ? ?]. split; simpl; [congruence|done|done|]. rewrite (uwrap_small 64); lia.
  - destruct Hb as (? & ? & Hus & Hfr). split; [done|].
    split; [simpl; rewrite (uwrap_small 64); lia|].
    split; intros j Hj; unfold used_at, free_at; simpl in *; rewrite Hsame; [by apply Hus|by apply Hfr].
Qed.

Context `{Config} `{!ConfigOk _}.

Lemma k_mem_init_start heap_head_area :
  ∃ g, k_mem_init mem_state_reset heap_head_area = Ret (0, g) ∧
    heap_inv g (pages_for CONFIG_BRK_SIZE) ∧
    brk_top g = heap_head_area ∧ brk_cur g = heap_head_area ∧
    k_mem_heap_area_start g = heap_head_area ∧
    k_mem_heap_area_end g = heap_head_area + CONFIG_HEAP_SIZE ∧
    page_total (node_head g) * PAGE_SIZE = CONFIG_HEAP_SIZE.
Proof.
  pose proof cfg_heap_pages as Hp. pose proof cfg_brk_fits as Hb. pose proof cfg_heap_size as Hs.
  unfold k_mem_init, k_mem_node_alloc_pages. cbn [mem_state_reset node_head m_lock dbg_heap_num].
  set (m := mk_mem_node _ _ _ _ _ _ _).
  assert (CONFIG_HEAP_SIZE / PAGE_SIZE * PAGE_SIZE = CONFIG_HEAP_SIZE) as Hd
    by (unfold PAGE_SIZE in *; dlia).
  assert (node_wf (set_lock m 1)) as Wf.
  { split; simpl; [rewrite length_replicate| | |]; unfold PAGE_SIZE in *; dlia. }
  assert (bump (set_lock m 1) 0) as Hbump.
  { split; [simpl; unfold PAGE_SIZE; dlia|]. split; [done|]. split; [lia|].
    intros j Hj. unfold free_at, zget. simpl in *. destruct (j <? 0) eqn:?; bsplit; [lia|].
    apply lookup_replicate. split; [done|]. lia. }
  destruct (alloc_pages_bump (set_lock m 1) 1 0 CONFIG_BRK_SIZE Wf)
    as (m' & E & (l & _ & ->) & Wf' & Hb'); [done|done|lia|simpl; unfold pages_for, PAGE_SIZE in *; dlia|].
  unfold k_mem_node_lock. simpl in E |- *. rewrite E. simpl.
  eexists. split; [done|]. simpl. rewrite Z.add_0_r.
  split_and!; try done. split; [done|by apply (node_wf_lock _ 0)|done|done].
Qed.

(** [k_mem_init] on the cleared static variables succeeds for every
    configuration that passes the checks of the source: the brk area is the first
    pages of the heap, both brk pointers are at its start, and the heap is ready
    for the allocations of [k_mem_alloc_refines_bump]. *)
Theorem k_mem_init_ok heap_head_area :
  ∃ g, k_mem_init mem_state_reset heap_head_area = Ret (0, g) ∧
    heap_inv g (pages_for CONFIG_BRK_SIZE) ∧
    brk_top g = heap_head_area ∧ brk_cur g = heap_head_area ∧
    k_mem_heap_area_start g = heap_head_area ∧
    k_mem_heap_area_end g = heap_head_area + CONFIG_HEAP_SIZE ∧
    page_total (node_head g) * PAGE_SIZE = CONFIG_HEAP_SIZE.
Proof. apply k_mem_init_start. Qed.
End Claims.

(** ** A heap with four pages left of the brk area, and what goes wrong there *)

(** The brk area takes two of eight pages. *)
Definition small_config : Config := {| CONFIG_ATOMIC := true;
  CONFIG_NUM_CORES := 1; CONFIG_MAIN_CORE := 0; CONFIG_MAIN_PID := 1; CONFIG_MAX_FD := 8;
  CONFIG_MAX_EVENT_HANDLERS := 8; CONFIG_HEAP_SIZE := 0x8000; CONFIG_BRK_SIZE := 0x2000;
  CONFIG_BRK_CLEAR_AT_SHRINK := true; CONFIG_INTR_STACK_SIZE := 1024;
  CONFIG_IDLE_STACK_SIZE := 1024; CONFIG_MAIN_STACK_SIZE := 4096;
  CONFIG_COMM_MAX_ARGS := 8; CONFIG_COMM_MAX_ENVS := 16; CONFIG_SYSTEM_TIMER_HZ := 250
|}.

#[export] Instance small_config_ok : @ConfigOk rv32 small_config.
Proof. split; vm_compute; repeat split; congruence. Qed.

(** The heap after [k_mem_init] at [heap]. *)
Definition heap_after_init (A : Arch) (C : Config) (heap : Z) : mem_state :=
  match k_mem_init mem_state_reset heap with
  | Ret (_, g) => g
  | _ => mem_state_reset
  end.

(** C37: two live allocations can share a page.  Whenever the first free pages of the heap are [n] in a row with a page
    in use behind them, a request of [n + 1] pages does not skip them, nor fail: it returns their first page, so that its last
    page is the one that is in use; this page is marked with the number of the new allocation, and counted twice.  (The
    counters have room for the request.) *)
Theorem k_mem_alloc_overlaps `{Arch} g k n length
    (Hlock : m_lock (node_head g) = 0) (Wf : node_wf (node_head g)) (Hl : 0 < length < 2 ^ (xlen - 1))
    (Hp : pages_for length = n + 1) (Hroom : n + 1 <= page_total (node_head g) - page_use (node_head g))
    (Hn : 1 <= n) (Hk : 0 <= k) (Hused : ∀ j, 0 <= j < k → used_at (node_head g) j)
    (Hfree : ∀ j, k <= j < k + n → free_at (node_head g) j) (Hbehind : used_at (node_head g) (k + n)) :
  ∃ g', k_mem_alloc_pages g length = Ret (k, g') ∧
    zget (stat_page (node_head g')) (k + n) = Some (u8 (dbg_heap_num g)) ∧
    page_use (node_head g') = page_use (node_head g) + n + 1.
Proof.
  assert (k + n < page_total (node_head g)).
  { destruct Hbehind as (v & Hv & _). apply zget_Some in Hv. pose proof (wf_len _ Wf). lia. }
  pose proof (wf_bound51 _ Wf). pose proof (wf_use _ Wf).
  destruct (alloc_pages_first (set_lock (node_head g) 1) (dbg_heap_num g) k length) as (m' & E & l & Hfl & ->);
    [by apply node_wf_lock|done|cbn; lia|lia|cbn; lia|done|apply Hfree; lia|intros j Hj; apply Hfree; lia|].
  eexists. split; [by eapply k_mem_alloc_pages_unfold|]. cbn [node_head set_lock set_use set_stat stat_page page_use]. split.
  - destruct Hfl as [_ Hfl]. rewrite Hfl, Hp. by rewrite (proj2 (Z.leb_le _ _)), (proj2 (Z.ltb_lt _ _)) by lia.
  - rewrite Hp, uwrap_small by lia. lia.
Qed.

(** Pages are lost when a range is freed with the length it was requested
    with: unless that is a whole number of pages, the last page of the allocation
    stays in use and counted, although the call reports success. *)
Theorem k_mem_free_leaks_last_page `{Arch} m k length
    (Wf : node_wf m) (Hk : 0 <= k) (Hl : 0 < length) (Hmod : length mod PAGE_SIZE ≠ 0)
    (Hr : k + pages_for length <= page_total m) (Hu : pages_for length <= page_use m)
    (Hused : used_at m (k + pages_for length - 1)) :
  ∃ m', k_mem_node_free_pages_nolock m (m_vaddr m + k * PAGE_SIZE) length = Ret (0, m') ∧
    used_at m' (k + pages_for length - 1) ∧
    page_use m' = page_use m - (pages_for length - 1).
Proof.
  assert (length / PAGE_SIZE = pages_for length - 1) as Hn
    by (unfold pages_for, PAGE_SIZE in *; dlia).
  pose proof (wf_size m Wf) as Hs. pose proof (wf_len m Wf). pose proof (wf_bound51 m Wf).
  pose proof (wf_use m Wf). pose proof (pages_for_pos length Hl).
  unfold k_mem_node_free_pages_nolock. rewrite (proj2 (Z.eqb_neq length 0)) by lia.
  assert (page_range m (m_vaddr m + k * PAGE_SIZE) length = Some (k, pages_for length - 1)) as ->.
  { pose proof (page_range_aligned m k (pages_for length) Wf ltac:(lia) ltac:(lia) ltac:(lia)) as E.
    unfold page_range in *. destruct ((_ <? _) || _); [done|]. rewrite Hn.
    destruct (truth _); simplify_eq; [|f_equal; f_equal; lia].
    unfold PAGE_SIZE in *. rewrite Z_div_mult in * by lia. lia. }
  destruct (any_free_spec m k (pages_for length - 1)) as (b & -> & _); [lia..|].
  destruct (set_page_flag_in m k (pages_for length - 1) 0) as (l & -> & Hf); [lia..|].
  eexists. split; [done|]. simpl. split; [|rewrite (uwrap_small 64); lia].
  destruct Hused as [v Hv]. exists v.
  pose proof (flagged_other m l k _ _ (k + pages_for length - 1) Hf ltac:(lia)) as E.
  simpl in E |- *. by rewrite E.
Qed.

(** ** Witnesses *)

Lemma small_heap_inv : @heap_inv rv32 (heap_after_init rv32 small_config 0x70000000) 2.
Proof.
  destruct (@k_mem_init_start rv32 small_config _ 0x70000000) as (g & E & Hi & _).
  unfold heap_after_init. rewrite E. exact Hi.
Qed.

(** The heap of [small_config] after initialisation, at 0x70000000. *)
Definition small_heap : mem_state := heap_after_init rv32 small_config 0x70000000.

Lemma k_mem_alloc_refines_bump_witness :
  ∃ g', @k_mem_alloc_pages rv32 small_heap 5000 = Ret (2, g') ∧ @heap_inv rv32 g' 4.
Proof.
  destruct (@k_mem_alloc_refines_bump rv32 small_heap 2 5000 small_heap_inv) as (g' & E & Hi & _).
  - vm_compute. split; congruence.
  - exists g'. split; [exact E|exact Hi].
Defined.

(** The pages of two allocations of one page each, and the heap when the first is freed. *)
Definition freed_run (A : Arch) (C : Config) (heap : Z) : exec (Z * Z * mem_state) :=
  '(p1, g) ← k_mem_alloc_pages (heap_after_init A C heap) 4096;
  '(p2, g) ← k_mem_alloc_pages g 4096;
  '(_, g) ← k_mem_free_pages g (k_mem_heap_area_start g + p1 * PAGE_SIZE) 4096;
  Ret (p1, p2, g).
Definition freed_heap : mem_state := match freed_run rv32 small_config 0x70000000 with Ret (_, _, g) => g | _ => heap_after_init rv32 small_config 0 end.
Definition freed_page : Z := match freed_run rv32 small_config 0x70000000 with Ret (p1, _, _) => p1 | _ => 0 end.

Lemma freed_run_eq : freed_run rv32 small_config 0x70000000 = Ret (freed_page, freed_page + 1, freed_heap).
Proof. vm_compute. reflexivity. Qed.
Lemma freed_heap_wf : @node_wf rv32 (node_head freed_heap).
Proof. split; vm_compute; try reflexivity. split; congruence. Qed.
Lemma used_prefix m k j : (k <=? zlen (stat_page m)) = true →
  forallb (fun v => negb (v =? 0)) (take (Z.to_nat k) (stat_page m)) = true → 0 <= j < k → used_at m j.
Proof.
  intros Hk%Z.leb_le Hall Hj. destruct (stat_page m !! Z.to_nat j) as [v|] eqn:Hv.
  - exists v. split; [unfold zget; by rewrite (proj2 (Z.ltb_ge j 0)) by lia|].
    rewrite forallb_forall in Hall. apply Z.eqb_neq, negb_true_iff, Hall.
    apply list_elem_of_In, (list_elem_of_lookup_2 _ (Z.to_nat j)). rewrite lookup_take_lt by lia. done.
  - apply lookup_ge_None in Hv. exfalso. lia.
Qed.

(** Two pages are asked for: the second page is that of the allocation that was not freed. *)
Lemma k_mem_alloc_overlaps_witness :
  freed_run rv32 small_config 0x70000000 = Ret (freed_page, freed_page + 1, freed_heap) ∧
  ∃ g', @k_mem_alloc_pages rv32 freed_heap 8192 = Ret (freed_page, g') ∧
    zget (stat_page (node_head freed_heap)) (freed_page + 1) = Some 3 ∧ zget (stat_page (node_head g')) (freed_page + 1) = Some 4.
Proof.
  split; [exact freed_run_eq|].
  destruct (@k_mem_alloc_overlaps rv32 freed_heap freed_page 1 8192) as (g' & E & Hs & _).
  - vm_compute. reflexivity.
  - exact freed_heap_wf.
  - vm_compute. split; reflexivity.
  - vm_compute. reflexivity.
  - vm_compute. congruence.
  - lia.
  - vm_compute. congruence.
  - intros j. apply used_prefix; vm_compute; reflexivity.
  - intros j Hj. assert (j = freed_page) as -> by lia. vm_compute. reflexivity.
  - exists 3. split; [vm_compute; reflexivity|lia].
  - exists g'. split; [exact E|]. split; [vm_compute; reflexivity|]. rewrite Hs. vm_compute. reflexivity.
Defined.

Lemma k_mem_init_ok_witness :
  ∃ g, @k_mem_init rv64 qemu_virt (@mem_state_reset qemu_virt) 0x80200000 = Ret (0, g) ∧
    @heap_inv rv64 g 2048 ∧ brk_cur g = 0x80200000.
Proof.
  destruct (@k_mem_init_ok rv64 qemu_virt qemu_virt_64_ok 0x80200000) as (g & E & Hi & _ & Hc & _).
  exists g. split; [exact E|]. split; [exact Hi|exact Hc].
Defined.

(** Four pages, the second of them in use. *)
Definition holed_node : k_mem_node := mk_mem_node 0 0x10000 0x10000 0x4000 4 1 [0; 1; 0; 0].

Lemma holed_node_wf : @node_wf rv32 holed_node.
Proof. split; vm_compute; repeat split; congruence. Qed.

Lemma k_mem_node_alloc_branches_witness :
  @node_wf rv32 holed_node ∧
  (∃ i, 0 <= i ∧ i + pages_for 12288 = page_total holed_node + 1 ∧
     ∀ j, i <= j < page_total holed_node → free_at holed_node j).
Proof.
  split; [exact holed_node_wf|].
  pose proof (@k_mem_node_alloc_branches rv32 holed_node 1 12288 holed_node_wf) as B.
  assert (0 < 12288 < 2 ^ (@xlen rv32 - 1)) as Hl by (vm_compute; split; congruence).
  specialize (B Hl). vm_compute in B |- *. exact B.
Defined.

Lemma k_mem_alloc_free_roundtrip_witness :
  ∃ g1 g2, @k_mem_alloc_pages rv32 small_heap 5000 = Ret (2, g1) ∧
    @k_mem_free_pages g1 (0x70000000 + 2 * 4096) 8192 = Ret (0, g2) ∧ @heap_inv rv32 g2 2.
Proof.
  destruct (@k_mem_alloc_free_roundtrip rv32 small_heap 2 5000 small_heap_inv)
    as (g1 & g2 & E1 & E2 & Hi & _).
  - vm_compute. split; congruence.
  - vm_compute. congruence.
  - exists g1, g2. split; [exact E1|]. split; [exact E2|exact Hi].
Defined.

(** Three pages in use. *)
Definition full_node : k_mem_node := mk_mem_node 0 0x10000 0x10000 0x4000 4 3 [1; 2; 2; 0].

Lemma k_mem_free_leaks_last_page_witness :
  ∃ m', k_mem_node_free_pages_nolock full_node (0x10000 + 1 * 4096) 5000 = Ret (0, m') ∧
    used_at m' 2 ∧ page_use m' = 2.
Proof.
  apply (@k_mem_free_leaks_last_page rv32 full_node 1 5000).
  - split; vm_compute; repeat split; congruence.
  - lia.
  - lia.
  - vm_compute. congruence.
  - vm_compute. congruence.
  - vm_compute. congruence.
  - exists 2. split; [reflexivity|lia].
Defined.
