(* ===== verification/SysMem.v ===== *)
(** * System calls on memory (sys/syscall.c: brk, mmap, munmap, madvise, mprotect)

    The state is the page allocator, the bytes of memory and the spinlock of the
    brk area.  A pointer is its address; what the calls return is converted to
    [intptr_t], as [PTR_TO_INT] does. *)

From S2P Require Import Prelude Config CString Memory.

Definition MAP_PRIVATE : Z := 0x0000.
Definition MAP_ANONYMOUS : Z := 0x0002.
Definition MAP_STACK : Z := 0x20000.
Definition MADV_DONTNEED : Z := 4.

Record sysmem := mk_sysmem {
  sm_g : mem_state;
  sm_mem : mem;
  sm_lock_brk : Z
}.

Definition with_g (s : sysmem) (g : mem_state) : sysmem := mk_sysmem g (sm_mem s) (sm_lock_brk s).
Definition with_mem (s : sysmem) (m : mem) : sysmem := mk_sysmem (sm_g s) m (sm_lock_brk s).

Definition k_mem_brk_lock (s : sysmem) : exec sysmem :=
  if truth (sm_lock_brk s) then Hang else Ret (mk_sysmem (sm_g s) (sm_mem s) 1).
Definition k_mem_brk_unlock (s : sysmem) : sysmem := mk_sysmem (sm_g s) (sm_mem s) 0.

Section Calls.
Context `{Arch} `{Config}.

Definition k_sys_brk (s : sysmem) (addr : Z) : exec (Z * sysmem) :=
  let caddr := addr in
  let brk_cur := k_mem_brk_get_cur (sm_g s) in
  s ← k_mem_brk_lock s;
  if addr =? 0 then Ret (isize brk_cur, k_mem_brk_unlock s) else
  if (addr <? k_mem_brk_start (sm_g s)) || (k_mem_brk_end (sm_g s) <? addr) then
    Ret (- ENOMEM, k_mem_brk_unlock s)
  else
  '(m, _) ←
    (if caddr >? brk_cur then
       k_memset (sm_mem s) brk_cur 0 (caddr - brk_cur)
     else if CONFIG_BRK_CLEAR_AT_SHRINK then
       k_memset (sm_mem s) addr 0 (brk_cur - caddr)
     else Ret (sm_mem s, addr));
  let s := mk_sysmem (k_mem_brk_set_cur (sm_g s) addr) m (sm_lock_brk s) in
  Ret (isize addr, k_mem_brk_unlock s).

(** [off_page] is a [size_t]: the error that [k_mem_alloc_pages] returns becomes a
    large page number, and the test [off_page < 0] is never true. *)
Definition k_sys_mmap (s : sysmem) (addr length prot flags fd offset : Z) : exec (Z * sysmem) :=
  let flags_req := Z.lor MAP_PRIVATE MAP_ANONYMOUS in
  let len := if length =? 0 then 4 else length in
  let flags := Z.land flags (Z.lnot MAP_STACK) in
  if negb (Z.land flags flags_req =? flags_req) || (negb (fd =? -1) || negb (offset =? 0)) then
    Ret (- EINVAL, s)
  else
  '(r, g) ← k_mem_alloc_pages (sm_g s) len;
  let s := with_g s g in
  let off_page := usize r in
  if off_page <? 0 then Ret (- ENOMEM, s) else
  let anon_ptr := usize (k_mem_heap_area_start (sm_g s) + usize (off_page * PAGE_SIZE)) in
  '(m, _) ← k_memset (sm_mem s) anon_ptr 0 len;
  Ret (isize anon_ptr, with_mem s m).

Definition k_sys_munmap (s : sysmem) (addr length : Z) : exec (Z * sysmem) :=
  if (addr <? k_mem_heap_area_start (sm_g s)) || (k_mem_heap_area_end (sm_g s) <? addr + length)
  then Ret (- EINVAL, s) else
  '(_, g) ← k_mem_free_pages (sm_g s) addr length;
  Ret (0, with_g s g).

Definition k_sys_madvise (s : sysmem) (addr length advice : Z) : exec (Z * sysmem) :=
  if advice =? MADV_DONTNEED then
    '(r, g) ← k_mem_check_pages (sm_g s) addr length;
    let s := with_g s g in
    if truth r then Ret (r, s) else
    '(m, _) ← k_memset (sm_mem s) addr length 0;
    Ret (0, with_mem s m)
  else Ret (- EINVAL, s).

Definition k_sys_mprotect (s : sysmem) (addr length prot : Z) : Z * sysmem := (0, s).
End Calls.

(** The brk pointers are inside the brk area and no lock is held. *)
Definition brk_inv `{Config} (s : sysmem) : Prop :=
  0 < k_mem_brk_start (sm_g s) ∧
  k_mem_brk_start (sm_g s) <= k_mem_brk_get_cur (sm_g s) <= k_mem_brk_end (sm_g s) ∧
  sm_lock_brk s = 0.

(** Two memories agree outside of [from, to) and the second is zero there. *)
Definition zeroed (m m' : mem) (from to : Z) : Prop :=
  ∀ a, load8 m' a = if (from <=? a) && (a <? to) then 0 else load8 m a.

(** Moving the break inside of the area keeps the invariant. *)
Lemma brk_inv_set `{Config} g (m m' : mem) lk addr :
  brk_inv (mk_sysmem g m lk) ∧ k_mem_brk_start g <= addr <= k_mem_brk_end g →
  brk_inv (mk_sysmem (k_mem_brk_set_cur g addr) m' lk).
Proof. intros [(? & ? & ?) ?]. split; [done|split; [|done]]. destruct g. simpl in *. done. Qed.

(** ** Properties *)

(** C38: every branch of [brk]. It terminates and keeps the brk pointers inside
    the brk area; a null address returns the current break and an address outside
    of the area returns [-ENOMEM], both without a change; any other address
    becomes the break and is returned, the bytes between the old and the new
    break read as zero after an expansion (and after a reduction, when the
    configuration asks for it), and no other byte changes. *)
Theorem k_sys_brk_spec `{Arch} `{Config} s addr (Hi : brk_inv s) :
  ∃ r s', k_sys_brk s addr = Ret (r, s') ∧ brk_inv s' ∧
    let cur := k_mem_brk_get_cur (sm_g s) in
    if addr =? 0 then r = isize cur ∧ s' = s
    else if (addr <? k_mem_brk_start (sm_g s)) || (k_mem_brk_end (sm_g s) <? addr)
    then r = - ENOMEM ∧ s' = s
    else r = isize addr ∧ sm_g s' = k_mem_brk_set_cur (sm_g s) addr ∧
      (if addr >? cur then zeroed (sm_mem s) (sm_mem s') cur addr
       else if CONFIG_BRK_CLEAR_AT_SHRINK then zeroed (sm_mem s) (sm_mem s') addr cur
       else sm_mem s' = sm_mem s).
Proof.
  destruct Hi as (Hpos & Hc & Hl). destruct s as [g m lk]. simpl in Hl. subst lk.
  unfold k_sys_brk, k_mem_brk_lock, k_mem_brk_unlock. simpl in *.
  destruct (addr =? 0) eqn:E0; bsplit.
  { eexists _, _. split; [done|]. split; [split; done|done]. }
  destruct ((addr <? _) || _) eqn:E1.
  { eexists _, _. split; [done|]. split; [split; done|done]. }
  bsplit. unfold k_mem_brk_start, k_mem_brk_end in *. simpl in *.
  destruct (addr >? k_mem_brk_get_cur g) eqn:E2; bsplit.
  - destruct (memset_filled m (k_mem_brk_get_cur g) 0 (addr - k_mem_brk_get_cur g))
      as (m' & -> & Hf); [lia|]. simpl.
    eexists _, _. split; [done|]. split; [by apply (brk_inv_set _ m); unfold brk_inv, k_mem_brk_start, k_mem_brk_end in *; simpl; lia|].
    repeat split. intros a. rewrite Hf. by rewrite Zplus_minus.
  - destruct CONFIG_BRK_CLEAR_AT_SHRINK.
    + destruct (memset_filled m addr 0 (k_mem_brk_get_cur g - addr)) as (m' & -> & Hf); [lia|]. simpl.
      eexists _, _. split; [done|]. split; [by apply (brk_inv_set _ m); unfold brk_inv, k_mem_brk_start, k_mem_brk_end in *; simpl; lia|].
      repeat split. intros a. rewrite Hf. by rewrite Zplus_minus.
    + simpl. eexists _, _. split; [done|].
      split; [by apply (brk_inv_set _ m); unfold brk_inv, k_mem_brk_start, k_mem_brk_end in *; simpl; lia|]. done.
Qed.

(** A break of a brk area at 0x80200000, before an expansion by eight bytes. *)
Definition brk_demo : sysmem :=
  mk_sysmem (mk_mem_state (mk_mem_node 0 0 0 0 0 0 []) 1 0x80200000 0x80200010)
    {[ 0x80200011 := 5 ]} 0.

Lemma k_sys_brk_spec_witness :
  ∃ r s', @k_sys_brk rv64 qemu_virt brk_demo 0x80200018 = Ret (r, s') ∧ r = 0x80200018 ∧
    zeroed (sm_mem brk_demo) (sm_mem s') 0x80200010 0x80200018.
Proof.
  destruct (@k_sys_brk_spec rv64 qemu_virt brk_demo 0x80200018) as (r & s' & E & _ & Hr & _ & Hz).
  - vm_compute. repeat split; congruence.
  - exists r, s'. split; [exact E|]. split; [rewrite Hr; vm_compute; reflexivity|exact Hz].
Defined.

(** The test of the flags, the descriptor and the offset of [mmap]. *)
Definition mmap_anon (flags fd offset : Z) : bool :=
  (Z.land (Z.land flags (Z.lnot MAP_STACK)) (Z.lor MAP_PRIVATE MAP_ANONYMOUS) =?
     Z.lor MAP_PRIVATE MAP_ANONYMOUS) && ((fd =? -1) && (offset =? 0)).

Lemma mmap_guard flags fd offset :
  mmap_anon flags fd offset = true →
  negb (Z.land (Z.land flags (Z.lnot MAP_STACK)) (Z.lor MAP_PRIVATE MAP_ANONYMOUS) =?
     Z.lor MAP_PRIVATE MAP_ANONYMOUS) || (negb (fd =? -1) || negb (offset =? 0)) = false.
Proof. unfold mmap_anon. intros E. apply andb_true_iff in E as [-> E]. by apply andb_true_iff in E as [-> ->]. Qed.

(** The heap lies inside the address space. *)
Definition heap_placed `{Arch} (g : mem_state) : Prop :=
  0 < k_mem_heap_area_start g ∧ k_mem_heap_area_end g <= 2 ^ xlen.

(** The heap after an allocation, in the terms of the system call. *)
Lemma alloc_for_mmap `{Arch} g k length :
  heap_inv g k → 0 < length < 2 ^ (xlen - 1) → k + pages_for length <= page_total (node_head g) →
  ∃ g', k_mem_alloc_pages g length = Ret (k, g') ∧ heap_inv g' (k + pages_for length) ∧
    m_vaddr (node_head g') = m_vaddr (node_head g).
Proof.
  intros [Hlk Wf Hb Hn] Hl Hfit.
  destruct (alloc_pages_bump (set_lock (node_head g) 1) (dbg_heap_num g) k length)
    as (m' & E' & (l & Hf & ->) & Wf' & Hb'); [by apply node_wf_lock|done|done|done|simpl; lia|].
  eexists. split; [by apply k_mem_alloc_pages_unfold|]. split; [|done].
  split; [done|by apply (node_wf_lock _ 0)|done|apply next_heap_num_ok].
Qed.

Section MmapProofs.
Context `{Arch}.

(** An anonymous [mmap] that fits returns the address of fresh pages of the
    heap, filled with zero bytes over the requested length (four bytes for a
    request of none), changes no other byte of memory and advances the heap. *)
Theorem k_sys_mmap_ok s k addr length prot flags fd offset
    (Hi : heap_inv (sm_g s) k) (Hp : heap_placed (sm_g s))
    (Hl : 0 <= length < 2 ^ (xlen - 1)) (Ha : mmap_anon flags fd offset = true)
    (Hfit : k + pages_for (Z.max 4 length) <= page_total (node_head (sm_g s))) :
  ∃ s' p, k_sys_mmap s addr length prot flags fd offset = Ret (isize p, s') ∧
    p = k_mem_heap_area_start (sm_g s) + k * PAGE_SIZE ∧
    (∀ a, p <= a < p + length → load8 (sm_mem s') a = 0) ∧
    (∀ a, a < p ∨ p + Z.max 4 length <= a → load8 (sm_mem s') a = load8 (sm_mem s) a) ∧
    (∃ k', k < k' ∧ heap_inv (sm_g s') k').
Proof.
  unfold k_sys_mmap. cbv zeta. rewrite mmap_guard by done.
  set (len := if length =? 0 then 4 else length).
  assert (0 < len < 2 ^ (xlen - 1) ∧ length <= len <= Z.max 4 length) as [Hlen Hle].
  { unfold len. destruct (length =? 0) eqn:?; bsplit; [|lia].
    destruct xlen_cases as [E|E]; rewrite E; simpl; lia. }
  assert (pages_for len <= pages_for (Z.max 4 length)) as Hpl.
  { unfold pages_for. apply Z.div_le_mono; unfold PAGE_SIZE; lia. }
  pose proof (pages_for_pos len ltac:(lia)) as Hpos.
  destruct (alloc_for_mmap (sm_g s) k len Hi Hlen ltac:(lia)) as (g' & -> & Hi' & Hv). simpl.
  destruct Hp as [Hp1 Hp2]. unfold k_mem_heap_area_start, k_mem_heap_area_end in *. simpl.
  pose proof (wf_size _ (hi_wf _ _ Hi)) as Hsz. pose proof (wf_bound _ (hi_wf _ _ Hi)) as Hbd.
  assert (0 <= k) as Hk by apply (hi_bump _ _ Hi).
  assert (k * PAGE_SIZE < m_size (node_head (sm_g s))) as Hkp.
  { rewrite Hsz. unfold PAGE_SIZE. lia. }
  unfold PAGE_SIZE in *. rewrite (uwrap_small xlen k), (uwrap_small xlen (k * 4096)) by lia.
  rewrite (proj2 (Z.ltb_ge k 0)) by lia. rewrite Hv.
  rewrite (uwrap_small xlen) by lia.
  destruct (memset_filled (sm_mem s) (m_vaddr (node_head (sm_g s)) + k * 4096) 0 len)
    as (m' & -> & Hf); [lia|]. simpl.
  eexists _, _. split; [done|]. split; [done|]. simpl. split_and!.
  - intros a Hr. rewrite Hf.
    destruct (_ <=? a) eqn:?, (a <? _) eqn:?; bsplit; simpl; done || lia.
  - intros a Hr. rewrite Hf.
    destruct (_ <=? a) eqn:?, (a <? _) eqn:?; bsplit; simpl; done || lia.
  - exists (k + pages_for len). split; [lia|done].
Qed.

(** An anonymous [mmap] that does not fit is not refused: the [-ENOMEM] of the
    allocator is taken for a page number, and the call returns an address twelve
    pages below the heap, after clearing [length] bytes there. *)
Theorem k_sys_mmap_exhausted s k addr length prot flags fd offset
    (Hi : heap_inv (sm_g s) k) (Hp : heap_placed (sm_g s))
    (Hb : ENOMEM * PAGE_SIZE <= k_mem_heap_area_start (sm_g s))
    (Hl : 0 < length < 2 ^ (xlen - 1)) (Ha : mmap_anon flags fd offset = true)
    (Hfull : page_total (node_head (sm_g s)) < k + pages_for length) :
  ∃ s' p, k_sys_mmap s addr length prot flags fd offset = Ret (isize p, s') ∧
    p = k_mem_heap_area_start (sm_g s) - ENOMEM * PAGE_SIZE ∧
    zeroed (sm_mem s) (sm_mem s') p (p + length).
Proof.
  unfold k_sys_mmap. cbv zeta. rewrite mmap_guard by done.
  rewrite (proj2 (Z.eqb_neq length 0)) by lia.
  destruct Hi as [Hlk Wf Hbm Hn].
  pose proof (node_wf_lock _ 1 Wf) as Wf1.
  erewrite k_mem_alloc_pages_unfold; [|done|apply alloc_pages_nomem; [done|done|]]; cycle 1.
  { simpl. destruct Hbm as (? & -> & _). lia. }
  simpl. destruct Hp as [Hp1 Hp2]. pose proof (wf_size _ Wf). pose proof (wf_use _ Wf).
  unfold k_mem_heap_area_start, k_mem_heap_area_end in *. simpl in *.
  unfold PAGE_SIZE, ENOMEM in *.
  assert (usize (-12) = 2 ^ xlen - 12) as Hu.
  { unfold uwrap. destruct xlen_cases as [E|E]; rewrite E; done. }
  change (- (12)) with (-12). rewrite Hu.
  assert (usize ((2 ^ xlen - 12) * 4096) = 2 ^ xlen - 49152) as Hm.
  { unfold uwrap. destruct xlen_cases as [E|E]; rewrite E; done. }
  rewrite Hm. assert (49152 < 2 ^ xlen) as Hx by (destruct xlen_cases as [E|E]; rewrite E; simpl; lia).
  rewrite (proj2 (Z.ltb_ge _ 0)) by lia.
  replace (usize (m_vaddr (node_head (sm_g s)) + (2 ^ xlen - 49152)))
    with (m_vaddr (node_head (sm_g s)) - 49152); cycle 1.
  { unfold uwrap. replace (m_vaddr (node_head (sm_g s)) + (2 ^ xlen - 49152))
      with (m_vaddr (node_head (sm_g s)) - 49152 + 1 * 2 ^ xlen) by lia.
    rewrite Z_mod_plus_full, Z.mod_small; lia. }
  destruct (memset_filled (sm_mem s) (m_vaddr (node_head (sm_g s)) - 49152) 0 length)
    as (m' & -> & Hf); [lia|]. simpl.
  eexists _, _. split; [done|]. split; [lia|]. simpl. intros a. rewrite Hf. done.
Qed.

(** [madvise(MADV_DONTNEED)] on whole pages of the heap that are in use
    reports success and leaves every byte as it was: the value and the length of
    its [k_memset] are exchanged, so nothing is cleared.  On a range with a free
    page it returns [-EBADF]. *)
Theorem k_sys_madvise_noop s k n
    (Hlk : m_lock (node_head (sm_g s)) = 0) (Wf : node_wf (node_head (sm_g s)))
    (Hk : 0 <= k) (Hn : 1 <= n) (Hkn : k + n <= page_total (node_head (sm_g s))) :
  ∃ r s', k_sys_madvise s (k_mem_heap_area_start (sm_g s) + k * PAGE_SIZE) (n * PAGE_SIZE)
      MADV_DONTNEED = Ret (r, s') ∧
    (r = 0 ↔ ∀ j, k <= j < k + n → used_at (node_head (sm_g s)) j) ∧ (r = 0 ∨ r = - EBADF) ∧
    (∀ a, load8 (sm_mem s') a = load8 (sm_mem s) a) ∧ sm_g s' = sm_g s.
Proof.
  unfold k_sys_madvise. cbn [Z.eqb MADV_DONTNEED Pos.eqb].
  unfold k_mem_check_pages, k_mem_node_check_pages, k_mem_node_lock. rewrite Hlk. simpl.
  unfold k_mem_node_check_pages_nolock.
  rewrite (proj2 (Z.eqb_neq _ 0)) by (unfold PAGE_SIZE; lia).
  unfold k_mem_heap_area_start.
  pose proof (page_range_aligned (set_lock (node_head (sm_g s)) 1) k n
    (node_wf_lock _ 1 Wf) Hk Hn Hkn) as E. simpl in E. rewrite E.
  destruct (any_free_spec (set_lock (node_head (sm_g s)) 1) k n) as (b & -> & Hb);
    [done|lia|pose proof (wf_len _ Wf); simpl; lia|].
  assert (with_node (sm_g s) (k_mem_node_unlock (set_lock (node_head (sm_g s)) 1)) = sm_g s) as Hg.
  { destruct s as [[[] ? ? ?] ? ?]. simpl in *. by subst. }
  destruct b; simpl.
  - eexists _, _. split; [done|]. simpl. split_and!; [|by right|done|done].
    split; [done|]. intros Hu. by apply Hb in Hu.
  - destruct (memset_filled (sm_mem s) (m_vaddr (node_head (sm_g s)) + k * PAGE_SIZE) (n * PAGE_SIZE) 0)
      as (m' & Em & Hf); [done|].
    rewrite Em. simpl. eexists _, _. split; [done|]. simpl. split_and!; [|by left| |done].
    + split; [|done]. intros _. by apply Hb.
    + intros a. rewrite Hf. destruct (_ <=? a) eqn:?, (a <? _) eqn:?; bsplit; simpl; done || lia.
Qed.
End MmapProofs.

(** [small_heap] with a byte in its third page. *)
Definition sysmem_demo : sysmem := mk_sysmem small_heap {[ 0x70002001 := 9 ]} 0.

Lemma heap_placed_demo : @heap_placed rv32 (sm_g sysmem_demo).
Proof. vm_compute. split; congruence. Qed.

Lemma k_sys_mmap_ok_witness :
  ∃ s' p, @k_sys_mmap rv32 sysmem_demo 0 100 3 0x22 (-1) 0 = Ret (i32 p, s') ∧
    p = 0x70002000 ∧ load8 (sm_mem s') 0x70002001 = 0.
Proof.
  destruct (@k_sys_mmap_ok rv32 sysmem_demo 2 0 100 3 0x22 (-1) 0 small_heap_inv heap_placed_demo)
    as (s' & p & E & Hp & Hz & _).
  - vm_compute. split; congruence.
  - reflexivity.
  - vm_compute. congruence.
  - exists s', p. split; [exact E|]. split; [rewrite Hp; reflexivity|].
    apply Hz. rewrite Hp. vm_compute. split; congruence.
Defined.

Lemma k_sys_mmap_exhausted_witness :
  ∃ s' p, @k_sys_mmap rv32 sysmem_demo 0 0x10000 3 0x22 (-1) 0 = Ret (i32 p, s') ∧
    p = 0x6fff4000 ∧ zeroed (sm_mem sysmem_demo) (sm_mem s') p (p + 0x10000).
Proof.
  destruct (@k_sys_mmap_exhausted rv32 sysmem_demo 2 0 0x10000 3 0x22 (-1) 0
    small_heap_inv heap_placed_demo) as (s' & p & E & Hp & Hz).
  - vm_compute. congruence.
  - vm_compute. split; congruence.
  - reflexivity.
  - vm_compute. reflexivity.
  - exists s', p. split; [exact E|]. split; [rewrite Hp; reflexivity|exact Hz].
Defined.

Lemma k_sys_madvise_noop_witness :
  ∃ r s', @k_sys_madvise rv32 sysmem_demo 0x70000000 4096 MADV_DONTNEED = Ret (r, s') ∧
    (∀ a, load8 (sm_mem s') a = load8 (sm_mem sysmem_demo) a).
Proof.
  destruct (@k_sys_madvise_noop rv32 sysmem_demo 0 1) as (r & s' & E & _ & _ & Hm & _).
  - reflexivity.
  - exact (hi_wf _ _ small_heap_inv).
  - lia.
  - lia.
  - vm_compute. congruence.
  - exists r, s'. split; [exact E|exact Hm].
Defined.
