(* ===== verification/Clock.v ===== *)
(** * Clocks (sys/clock.c, include/bmetal/sys/time.h)

    Conversion between the counts of a timer and a [timespec64], the real time
    as an offset to the monotonic time, and the tick that programs the next
    trigger.  The driver of the system timer is reached through its table of
    operations, [k_timer_driver_ops], over a world [W] that the hardware and the
    private data of the driver are part of; Timer.v has the instances. *)

From S2P Require Import Prelude Config.

Definition NSEC : Z := 1000000000.

Record timespec64 := mk_timespec64 { tv_sec : Z; tv_nsec : Z }.

#[export] Instance timespec64_eq_dec : EqDecision timespec64.
Proof. solve_decision. Defined.

Definition timespecadd (a b : timespec64) : timespec64 :=
  let sec := i64 (tv_sec a + tv_sec b) in
  let nsec := i64 (tv_nsec a + tv_nsec b) in
  if nsec >=? NSEC then mk_timespec64 (i64 (sec + 1)) (i64 (nsec - NSEC))
  else mk_timespec64 sec nsec.

Definition timespecsub (a b : timespec64) : timespec64 :=
  let sec := i64 (tv_sec a - tv_sec b) in
  let nsec := i64 (tv_nsec a - tv_nsec b) in
  if nsec <? 0 then mk_timespec64 (i64 (sec - 1)) (i64 (nsec + NSEC))
  else mk_timespec64 sec nsec.

(** A pointer argument that is written to is modelled as whether it is not null,
    with what was written as an option in the result. *)
Definition k_clock_raw_to_timespec (count freq : Z) (tsp : bool) : exec (Z * option timespec64) :=
  if negb tsp then Ret (- EFAULT, None) else
  if freq =? 0 then Undef else
  let sec := i64 (count / freq) in
  let count := u64 (count - u64 (sec * freq)) in
  let nsec := i64 (u64 (count * NSEC) / freq) in
  Ret (0, Some (mk_timespec64 sec nsec)).

Definition k_clock_timespec_to_raw (tsp : option timespec64) (freq : Z) (count : bool) : Z * option Z :=
  match tsp with
  | None => (- EFAULT, None)
  | Some ts =>
    let v := u64 (tv_sec ts * freq) in
    let v := u64 (v + u64 (tv_nsec ts * freq) / NSEC) in
    (0, if count then Some v else None)
  end.

(** The operations of a timer driver that the clock calls; an operation the
    driver does not have is [None], and a result that the driver did not write
    is [None]. *)
Record k_timer_driver_ops (W : Type) := mk_timer_ops {
  get_freq : option (Z → W → exec (Z * option Z * W));
  get_raw : option (Z → W → exec (Z * option Z * W));
  get_trigger : option (Z → W → exec (Z * option timespec64 * W));
  set_trigger : option (Z → option timespec64 → W → exec (Z * W))
}.
Arguments mk_timer_ops {W}.
Arguments get_freq {W}.
Arguments get_raw {W}.
Arguments get_trigger {W}.
Arguments set_trigger {W}.

Section Clock.
Context {W : Type} `{Config}.

(** [timer_default] and its driver: there may be no system timer, and a timer
    that was not probed has no driver. *)
Variable timer : option (option (k_timer_driver_ops W)).

(** [k_cpu_get_current_id_phys()] *)
Variable cur_id : Z.

Definition k_clock_get_monotonic (tsp : bool) (w : W) : exec (Z * option timespec64 * W) :=
  match timer with
  | None => Ret (- ENOTSUP, None, w)
  | Some None => Ret (0, None, w)
  | Some (Some ops) =>
    match get_freq ops, get_raw ops with
    | Some get_freq, Some get_raw =>
      '(r, cnt, w) ← get_raw cur_id w;
      if truth r then Ret (r, None, w) else
      '(r, freq, w) ← get_freq cur_id w;
      if truth r then Ret (r, None, w) else
      cnt ← of_opt cnt;
      freq ← of_opt freq;
      '(r, tmp) ← k_clock_raw_to_timespec cnt freq true;
      if truth r then Ret (r, None, w) else
      Ret (0, if tsp then tmp else None, w)
    | _, _ => Ret (0, None, w)
    end
  end.

(** The offset [ts_realtime_off] is the state of the real-time clock. *)
Definition k_clock_get_realtime (off : timespec64) (tsp : bool) (w : W) :
    exec (Z * option timespec64 * W) :=
  '(r, mono, w) ← k_clock_get_monotonic true w;
  if truth r then Ret (r, None, w) else
  if tsp then mono ← of_opt mono; Ret (0, Some (timespecadd off mono), w)
  else Ret (0, None, w).

Definition k_clock_set_realtime (off : timespec64) (tsp : option timespec64) (w : W) :
    exec (Z * timespec64 * W) :=
  match tsp with
  | None => Ret (- EFAULT, off, w)
  | Some ts =>
    '(r, mono, w) ← k_clock_get_monotonic true w;
    if truth r then Ret (r, off, w) else
    mono ← of_opt mono;
    Ret (0, timespecsub ts mono, w)
  end.

Definition k_clock_on_tick (w : W) : exec (Z * W) :=
  match timer with
  | None => Ret (- ENOTSUP, w)
  | Some None => Ret (0, w)
  | Some (Some ops) =>
    match set_trigger ops with
    | None => Ret (0, w)
    | Some set_trigger =>
      '(r, cur, w) ← k_clock_get_monotonic true w;
      if truth r then Ret (r, w) else
      cur ← of_opt cur;
      let hz := CONFIG_SYSTEM_TIMER_HZ in
      let tick := mk_timespec64 0 (NSEC / hz) in
      let next := timespecadd cur tick in
      set_trigger cur_id (Some next) w
    end
  end.
End Clock.

(** ** Times in nanoseconds *)

Definition ns (t : timespec64) : Z := tv_sec t * NSEC + tv_nsec t.

(** A time in its normal form, of at most 2^62 seconds either way. *)
Definition ts_ok (t : timespec64) : Prop :=
  - 2 ^ 62 <= tv_sec t < 2 ^ 62 ∧ 0 <= tv_nsec t < NSEC.

Lemma i64_small z : - 2 ^ 63 <= z < 2 ^ 63 → i64 z = z.
Proof. intros. apply swrap_small; lia. Qed.

(** Sums and differences of times are exact, and in normal form. *)
Lemma timespecadd_ns a b :
  ts_ok a → ts_ok b →
  ns (timespecadd a b) = ns a + ns b ∧ 0 <= tv_nsec (timespecadd a b) < NSEC.
Proof.
  intros [Ha1 Ha2] [Hb1 Hb2]. unfold timespecadd, ns, NSEC in *.
  rewrite !(i64_small (tv_sec a + _)), !(i64_small (tv_nsec a + _)) by lia.
  destruct (_ >=? _) eqn:E; bsplit; simpl; [|lia].
  rewrite !i64_small by lia. lia.
Qed.

Lemma timespecsub_ns a b :
  ts_ok a → ts_ok b →
  ns (timespecsub a b) = ns a - ns b ∧ 0 <= tv_nsec (timespecsub a b) < NSEC.
Proof.
  intros [Ha1 Ha2] [Hb1 Hb2]. unfold timespecsub, ns, NSEC in *.
  rewrite !(i64_small (tv_sec a - _)), !(i64_small (tv_nsec a - _)) by lia.
  destruct (_ <? _) eqn:E; bsplit; simpl; [|lia].
  rewrite !i64_small by lia. lia.
Qed.

(** The result of a conversion of a count. *)
Definition ts_of_raw (count freq : Z) : timespec64 :=
  mk_timespec64 (count / freq) (count mod freq * NSEC / freq).

Lemma raw_to_timespec_eq count freq :
  0 < freq <= NSEC → 0 <= count < 2 ^ 63 →
  k_clock_raw_to_timespec count freq true = Ret (0, Some (ts_of_raw count freq)).
Proof.
  intros Hf Hc. unfold k_clock_raw_to_timespec, ts_of_raw, NSEC in *. simpl.
  rewrite (proj2 (Z.eqb_neq freq 0)) by lia.
  assert (0 <= count / freq <= count) as Hq.
  { split; [apply Z.div_pos; lia|]. apply Z.div_le_upper_bound; [lia|]. nia. }
  pose proof (Z.mod_pos_bound count freq ltac:(lia)) as Hm.
  pose proof (Z.div_mod count freq ltac:(lia)) as Hdm.
  rewrite (i64_small (count / freq)) by lia.
  rewrite (uwrap_small _ (count / freq * freq)) by nia.
  replace (count - count / freq * freq) with (count mod freq) by lia.
  rewrite (uwrap_small _ (count mod freq)) by lia.
  rewrite (uwrap_small _ (count mod freq * _)) by nia.
  rewrite i64_small; [done|].
  split; [apply Z.le_trans with 0; [lia|apply Z.div_pos; lia]|].
  apply Z.div_lt_upper_bound; nia.
Qed.

(** The time of a count is its value in nanoseconds, rounded down. *)
Lemma ts_of_raw_ns count freq :
  0 < freq <= NSEC → 0 <= count < 2 ^ 63 →
  ns (ts_of_raw count freq) = count * NSEC / freq ∧
  0 <= tv_sec (ts_of_raw count freq) <= count ∧ 0 <= tv_nsec (ts_of_raw count freq) < NSEC.
Proof.
  intros Hf Hc. unfold ns, ts_of_raw, NSEC in *. simpl.
  pose proof (Z.mod_pos_bound count freq ltac:(lia)) as Hm.
  pose proof (Z.div_mod count freq ltac:(lia)) as Hdm.
  split_and!.
  - rewrite Hdm at 3.
    replace ((freq * (count / freq) + count mod freq) * 1000000000)
      with (count mod freq * 1000000000 + (count / freq * 1000000000) * freq) by lia.
    rewrite Z.div_add by lia. lia.
  - apply Z.div_pos; lia.
  - apply Z.div_le_upper_bound; nia.
  - apply Z.div_pos; lia.
  - apply Z.div_lt_upper_bound; nia.
Qed.

(** Conversion of a normal time to a count, when the count fits. *)
Lemma timespec_to_raw_eq t freq :
  0 < freq <= NSEC → 0 <= tv_sec t → 0 <= tv_nsec t < NSEC → (tv_sec t + 1) * freq < 2 ^ 64 →
  k_clock_timespec_to_raw (Some t) freq true = (0, Some (tv_sec t * freq + tv_nsec t * freq / NSEC)).
Proof.
  intros Hf Hs Hn Hb. unfold k_clock_timespec_to_raw, NSEC in *.
  assert (0 <= tv_nsec t * freq / 1000000000 <= freq) as Hd.
  { split; [apply Z.div_pos; nia|]. apply Z.div_le_upper_bound; nia. }
  assert (0 <= tv_nsec t * freq < 2 ^ 64) as Hm by nia.
  rewrite (uwrap_small _ (tv_sec t * freq)) by nia.
  rewrite (uwrap_small _ (tv_nsec t * freq)) by done.
  rewrite uwrap_small by nia. done.
Qed.

(** In general terms the count is the time times the frequency, rounded down. *)
Lemma raw_of_ns t freq :
  tv_sec t * freq + tv_nsec t * freq / NSEC = ns t * freq / NSEC.
Proof.
  unfold ns, NSEC.
  replace ((tv_sec t * 1000000000 + tv_nsec t) * freq)
    with (tv_nsec t * freq + tv_sec t * freq * 1000000000) by lia.
  rewrite Z.div_add by lia. lia.
Qed.

(** ** Properties *)

(** A count of a timer of at most 1 GHz becomes the time that is the count in
    nanoseconds, rounded down and in normal form; converting that time back
    gives the count or the count less one, never more. *)
Theorem k_clock_raw_roundtrip count freq
    (Hf : 0 < freq <= NSEC) (Hc : 0 <= count < 2 ^ 63) :
  ∃ t c, k_clock_raw_to_timespec count freq true = Ret (0, Some t) ∧
    ns t = count * NSEC / freq ∧ 0 <= tv_nsec t < NSEC ∧
    k_clock_timespec_to_raw (Some t) freq true = (0, Some c) ∧ count - 1 <= c <= count.
Proof.
  destruct (ts_of_raw_ns count freq Hf Hc) as (Hn & Hs & Hns).
  assert ((tv_sec (ts_of_raw count freq) + 1) * freq < 2 ^ 64) as Hb.
  { unfold ts_of_raw. simpl. pose proof (Z.mul_div_le count freq ltac:(lia)).
    unfold NSEC in *. nia. }
  exists (ts_of_raw count freq), (count * NSEC / freq * freq / NSEC).
  rewrite timespec_to_raw_eq, raw_of_ns, Hn by lia. split_and!; try done.
  - by apply raw_to_timespec_eq.
  - lia.
  - lia.
  - pose proof (Z.mul_succ_div_gt (count * NSEC) freq ltac:(lia)).
    apply Z.div_le_lower_bound; unfold NSEC in *; nia.
  - pose proof (Z.mul_div_le (count * NSEC) freq ltac:(lia)).
    apply Z.div_le_upper_bound; unfold NSEC in *; nia.
Qed.

Lemma k_clock_raw_roundtrip_witness :
  ∃ t c, k_clock_raw_to_timespec 40000001 32768 true = Ret (0, Some t) ∧
    k_clock_timespec_to_raw (Some t) 32768 true = (0, Some c) ∧ 40000000 <= c <= 40000001.
Proof.
  destruct (k_clock_raw_roundtrip 40000001 32768) as (t & c & E & _ & _ & E' & Hc);
    [vm_compute; split; congruence|vm_compute; split; congruence|].
  exists t, c. split; [exact E|]. split; [exact E'|lia].
Defined.

Section Realtime.
Context {W : Type} `{Config}.
Variable ops : k_timer_driver_ops W.
Variable cur_id : Z.

(** A reading of the driver at [w] is the count [c] of a counter of [freq] Hz. *)
Definition reads (freq c : Z) (w w' : W) : Prop :=
  ∃ f_raw f_freq w1, get_raw ops = Some f_raw ∧ get_freq ops = Some f_freq ∧
    f_raw cur_id w = Ret (0, Some c, w1) ∧ f_freq cur_id w1 = Ret (0, Some freq, w').

Lemma get_monotonic_reads freq c w w' :
  0 < freq <= NSEC → 0 <= c < 2 ^ 63 → reads freq c w w' →
  k_clock_get_monotonic (Some (Some ops)) cur_id true w = Ret (0, Some (ts_of_raw c freq), w').
Proof.
  intros Hf Hc (f1 & f2 & w1 & E1 & E2 & E3 & E4).
  unfold k_clock_get_monotonic. rewrite E1, E2, E3. simpl. rewrite E4. simpl.
  rewrite raw_to_timespec_eq by done. done.
Qed.

Lemma ts_of_raw_ok freq c : 0 < freq <= NSEC → 0 <= c < 2 ^ 62 → ts_ok (ts_of_raw c freq).
Proof.
  intros Hf Hc. destruct (ts_of_raw_ns c freq Hf ltac:(lia)) as (_ & ? & ?). split; lia.
Qed.

(** The real-time clock keeps time. After the time [t] was set, when the
    counter of the timer stood at [c0], reading it when the counter stands at [c1]
    gives [t] plus the nanoseconds that passed, in normal form. *)
Theorem k_clock_realtime_keeps_time freq off t c0 c1 w0 w1 w2 w3
    (Hf : 0 < freq <= NSEC) (Hc0 : 0 <= c0 < 2 ^ 61) (Hc1 : 0 <= c1 < 2 ^ 61)
    (Ht : - 2 ^ 60 <= tv_sec t < 2 ^ 60 ∧ 0 <= tv_nsec t < NSEC)
    (R0 : reads freq c0 w0 w1) (R1 : reads freq c1 w2 w3) :
  ∃ off' t', k_clock_set_realtime (Some (Some ops)) cur_id off (Some t) w0 = Ret (0, off', w1) ∧
    k_clock_get_realtime (Some (Some ops)) cur_id off' true w2 = Ret (0, Some t', w3) ∧
    ns t' = ns t + (c1 * NSEC / freq - c0 * NSEC / freq) ∧ 0 <= tv_nsec t' < NSEC.
Proof.
  unfold k_clock_set_realtime, k_clock_get_realtime.
  rewrite (get_monotonic_reads freq c0 _ w1), (get_monotonic_reads freq c1 _ w3) by (done || lia). simpl.
  eexists _, _. split; [done|]. split; [done|].
  destruct (ts_of_raw_ns c0 freq) as (N0 & S0 & M0); [done|lia|].
  destruct (ts_of_raw_ns c1 freq) as (N1 & S1 & M1); [done|lia|].
  rewrite <- N0, <- N1.
  destruct (timespecsub_ns t (ts_of_raw c0 freq)) as [D1 D2]; [split; lia|split; lia|].
  destruct (timespecadd_ns (timespecsub t (ts_of_raw c0 freq)) (ts_of_raw c1 freq)) as [A1 A2].
  - split; [|done]. unfold ns, NSEC in *. lia.
  - split; lia.
  - split; [lia|done].
Qed.
End Realtime.

(** A timer whose counter is the world, at the 32768 Hz of a watch crystal. *)
Definition demo_ops : k_timer_driver_ops Z :=
  mk_timer_ops (Some (fun _ w => Ret (0, Some 32768, w)))
    (Some (fun _ w => Ret (0, Some w, w))) None None.

Lemma k_clock_realtime_keeps_time_witness :
  ∃ off' t', k_clock_set_realtime (Some (Some demo_ops)) 0 (mk_timespec64 0 0)
      (Some (mk_timespec64 1000 5)) 65536 = Ret (0, off', 65536) ∧
    k_clock_get_realtime (Some (Some demo_ops)) 0 off' true 98304 = Ret (0, Some t', 98304) ∧
    ns t' = 1001000000005.
Proof.
  destruct (k_clock_realtime_keeps_time demo_ops 0 32768 (mk_timespec64 0 0)
    (mk_timespec64 1000 5) 65536 98304 65536 65536 98304 98304) as (o & t & E1 & E2 & E3 & _).
  - vm_compute. split; congruence.
  - vm_compute. split; congruence.
  - vm_compute. split; congruence.
  - vm_compute. repeat split; congruence.
  - repeat eexists.
  - repeat eexists.
  - exists o, t. split; [exact E1|]. split; [exact E2|]. rewrite E3. reflexivity.
Defined.
