(* ===== verification/Device.v ===== *)
(** * Devices, buses and drivers (driver/device.c, driver/io.c, device.h, io.h)

    The objects of the device tree are static C objects that point to each
    other: a driver, a device and a bus is a number here, and [devtree] holds
    their fields.  A null pointer is [None].  What a driver does in its [add]
    and [mmap] functions is a parameter, its table of operations; a world [W]
    stands for the hardware and the private data that those functions change.

    Names are compared as values: [CString] shows that [k_strcmp] returns zero
    exactly for equal strings. *)

From S2P Require Import Prelude Config CString.

(** ** Memory-mapped I/O *)

(** The hardware behind the registers: what a volatile access of a width in bits
    at an address reads or does.  A read may change the world. *)
Class Mmio (W : Type) := {
  io_read : Z → Z → W → Z * W;
  io_write : Z → Z → Z → W → W
}.

(** A larger system that the registers are part of. *)
Class HasIo (St W : Type) := {
  io_get : St → W;
  io_put : W → St → St
}.

Section Io.
Context {W : Type} `{Mmio W}.

Definition k_io_read8 (ptr : Z) (w : W) : Z * W := let '(v, w) := io_read 8 ptr w in (u8 v, w).
Definition k_io_read16 (ptr : Z) (w : W) : Z * W := let '(v, w) := io_read 16 ptr w in (u16 v, w).
Definition k_io_read32 (ptr : Z) (w : W) : Z * W := let '(v, w) := io_read 32 ptr w in (u32 v, w).
Definition k_io_read64 (ptr : Z) (w : W) : Z * W := let '(v, w) := io_read 64 ptr w in (u64 v, w).
Definition k_io_write8 (dat ptr : Z) (w : W) : W := io_write 8 (u8 dat) ptr w.
Definition k_io_write16 (dat ptr : Z) (w : W) : W := io_write 16 (u16 dat) ptr w.
Definition k_io_write32 (dat ptr : Z) (w : W) : W := io_write 32 (u32 dat) ptr w.
Definition k_io_write64 (dat ptr : Z) (w : W) : W := io_write 64 (u64 dat) ptr w.
End Io.

(** ** The objects *)

Record k_driver := mk_driver {
  drv_vendor : option string;
  drv_device : option string;
  drv_next : option Z
}.

(** An entry of a configuration, [PROP(name, ...)]: [count] and [val[32]]. A word
    of [val] is a number or the address of a string. *)
Inductive conf_val :=
| CNum (z : Z)
| CStr (s : string).

Record k_device_config := mk_conf {
  conf_name : string;
  conf_count : Z;
  conf_vals : list conf_val
}.

Record k_device := mk_device {
  dev_name : option string;
  dev_vendor : string;
  dev_device : string;
  dev_conf : option (list k_device_config);
  dev_drv : option Z;
  dev_bus_parent : option Z;
  dev_bus_child : option Z;
  dev_next : option Z;
  dev_io_addr : Z;
  dev_io_size : Z;
  dev_virt : Z;
  dev_probed : bool;
  dev_failed : bool
}.

Record k_bus := mk_bus {
  bus_name : option string;
  bus_vendor : string;
  bus_device : string;
  bus_drv : option Z;
  bus_dev_parent : option Z;
  bus_dev_child : option Z;
  bus_next : option Z;
  bus_probed : bool;
  bus_failed : bool
}.

#[export] Instance k_driver_eq_dec : EqDecision k_driver.
Proof. solve_decision. Defined.
#[export] Instance conf_val_eq_dec : EqDecision conf_val.
Proof. solve_decision. Defined.
#[export] Instance k_device_config_eq_dec : EqDecision k_device_config.
Proof. solve_decision. Defined.
#[export] Instance k_device_eq_dec : EqDecision k_device.
Proof. solve_decision. Defined.
#[export] Instance k_bus_eq_dec : EqDecision k_bus.
Proof. solve_decision. Defined.

Record devtree := mk_tree {
  t_drivers : gmap Z k_driver;
  t_devices : gmap Z k_device;
  t_buses : gmap Z k_bus;
  t_probe_all_enabled : Z
}.

(** Updates of single fields. *)
Definition set_drv_next (d : k_driver) (n : option Z) : k_driver :=
  mk_driver (drv_vendor d) (drv_device d) n.
Definition set_dev_drv (d : k_device) (x : option Z) : k_device :=
  mk_device (dev_name d) (dev_vendor d) (dev_device d) (dev_conf d) x (dev_bus_parent d)
    (dev_bus_child d) (dev_next d) (dev_io_addr d) (dev_io_size d) (dev_virt d) (dev_probed d) (dev_failed d).
Definition set_dev_links (d : k_device) (parent child next : option Z) : k_device :=
  mk_device (dev_name d) (dev_vendor d) (dev_device d) (dev_conf d) (dev_drv d) parent
    child next (dev_io_addr d) (dev_io_size d) (dev_virt d) (dev_probed d) (dev_failed d).
Definition set_dev_flags (d : k_device) (probed failed : bool) : k_device :=
  mk_device (dev_name d) (dev_vendor d) (dev_device d) (dev_conf d) (dev_drv d) (dev_bus_parent d)
    (dev_bus_child d) (dev_next d) (dev_io_addr d) (dev_io_size d) (dev_virt d) probed failed.
Definition set_dev_io (d : k_device) (addr size virt : Z) : k_device :=
  mk_device (dev_name d) (dev_vendor d) (dev_device d) (dev_conf d) (dev_drv d) (dev_bus_parent d)
    (dev_bus_child d) (dev_next d) addr size virt (dev_probed d) (dev_failed d).
Definition set_bus_drv (b : k_bus) (x : option Z) : k_bus :=
  mk_bus (bus_name b) (bus_vendor b) (bus_device b) x (bus_dev_parent b) (bus_dev_child b)
    (bus_next b) (bus_probed b) (bus_failed b).
Definition set_bus_links (b : k_bus) (parent child next : option Z) : k_bus :=
  mk_bus (bus_name b) (bus_vendor b) (bus_device b) (bus_drv b) parent child next
    (bus_probed b) (bus_failed b).
Definition set_bus_flags (b : k_bus) (probed failed : bool) : k_bus :=
  mk_bus (bus_name b) (bus_vendor b) (bus_device b) (bus_drv b) (bus_dev_parent b) (bus_dev_child b)
    (bus_next b) probed failed.

Definition put_driver (t : devtree) (i : Z) (d : k_driver) : devtree :=
  mk_tree (<[i := d]> (t_drivers t)) (t_devices t) (t_buses t) (t_probe_all_enabled t).
Definition put_device (t : devtree) (i : Z) (d : k_device) : devtree :=
  mk_tree (t_drivers t) (<[i := d]> (t_devices t)) (t_buses t) (t_probe_all_enabled t).
Definition put_bus (t : devtree) (i : Z) (b : k_bus) : devtree :=
  mk_tree (t_drivers t) (t_devices t) (<[i := b]> (t_buses t)) (t_probe_all_enabled t).

(** Reading through a pointer that does not point to an object is not defined. *)
Definition get_driver (t : devtree) (i : Z) : exec k_driver := of_opt (t_drivers t !! i).
Definition get_device (t : devtree) (i : Z) : exec k_device := of_opt (t_devices t !! i).
Definition get_bus (t : devtree) (i : Z) : exec k_bus := of_opt (t_buses t !! i).

(** The static objects [head], [drv_root_dev], [drv_root_bus], [dev_root], [bus_root]. *)
Definition drv_head : Z := 0.
Definition drv_root_dev : Z := 1.
Definition drv_root_bus : Z := 2.
Definition dev_root : Z := 0.
Definition bus_root : Z := 0.

Definition device_of (name vendor device : string) (conf : option (list k_device_config)) : k_device :=
  mk_device (Some name) vendor device conf None None None None 0 0 0 false false.
Definition bus_of (name vendor device : string) : k_bus :=
  mk_bus (Some name) vendor device None None None None false false.

Definition tree_static : devtree :=
  mk_tree
    {[ drv_head := mk_driver (Some "none") (Some "none") None;
       drv_root_dev := mk_driver (Some "none") (Some "dev_root") None;
       drv_root_bus := mk_driver (Some "none") (Some "bus_root") None ]}%string
    {[ dev_root := device_of "root device" "none" "dev_root" None ]}%string
    {[ bus_root := bus_of "root bus" "none" "bus_root" ]}%string
    0.

(** ** Operations of drivers *)

Record k_device_driver_ops (W : Type) := mk_dev_ops {
  dop_add : option (Z → devtree → W → exec (Z * devtree * W));
  dop_mmap : option (Z → Z → Z → Z → Z → Z → devtree → exec Z);
  dop_read : Z → option (Z → W → Z * W);
  dop_write : Z → option (Z → Z → W → W)
}.
Record k_bus_driver_ops (W : Type) := mk_bus_ops {
  bop_add : option (Z → devtree → W → exec (Z * devtree * W));
  bop_mmap : option (Z → Z → Z → Z → Z → Z → devtree → exec Z)
}.
Arguments dop_add {W}.
Arguments dop_mmap {W}.
Arguments dop_read {W}.
Arguments dop_write {W}.
Arguments bop_add {W}.
Arguments bop_mmap {W}.

(** ** Registers of a device *)

Section Registers.
Context `{Arch} {W : Type} `{Mmio W}.
Variable ops : option (k_device_driver_ops W).
Variable dev : k_device.

(** An access goes to the mapped region, else to the operation of the driver for
    that width, else reads as all ones. *)
Definition dev_read (width : Z) (rd : Z → W → Z * W) (off : Z) (w : W) : Z * W :=
  if truth (dev_virt dev) then rd (usize (dev_virt dev + off)) w else
  match ops ≫= fun o => dop_read o width with
  | Some f => f off w
  | None => (uwrap width (-1), w)
  end.
Definition dev_write (width : Z) (wr : Z → Z → W → W) (dat off : Z) (w : W) : W :=
  if truth (dev_virt dev) then wr dat (usize (dev_virt dev + off)) w else
  match ops ≫= fun o => dop_write o width with
  | Some f => f dat off w
  | None => w
  end.

Definition k_device_read8 := dev_read 8 k_io_read8.
Definition k_device_read16 := dev_read 16 k_io_read16.
Definition k_device_read32 := dev_read 32 k_io_read32.
Definition k_device_read64 := dev_read 64 k_io_read64.
Definition k_device_write8 := dev_write 8 k_io_write8.
Definition k_device_write16 := dev_write 16 k_io_write16.
Definition k_device_write32 := dev_write 32 k_io_write32.
Definition k_device_write64 := dev_write 64 k_io_write64.
End Registers.

(** A function on the registers of a device, run in the system; [acc_ops] are the access
    functions of the drivers. *)
Definition with_regs `{HasIo St W} {A} (acc_ops : Z → option (k_device_driver_ops W)) (t : devtree) (dev : Z)
    (f : option (k_device_driver_ops W) → k_device → W → exec (A * W)) (s : St) : exec (A * St) :=
  x ← get_device t dev;
  '(a, w) ← f (dev_drv x ≫= acc_ops) x (io_get s);
  Ret (a, io_put w s).

(** ** The tree *)

(** Bytes of a name, and the comparison of [k_strcasecmp] on them. *)
Fixpoint bytes_of (s : string) : list Z :=
  match s with
  | EmptyString => []
  | String a s => Z.of_N (Ascii.N_of_ascii a) :: bytes_of s
  end.
Definition strcase_eq (s1 s2 : string) : bool :=
  bool_decide (map k_tolower (bytes_of s1) = map k_tolower (bytes_of s2)).

Definition k_device_get_drv (t : devtree) (dev : option Z) : exec (option Z) :=
  match dev with
  | None => Ret None
  | Some d => x ← get_device t d; Ret (dev_drv x)
  end.
Definition k_bus_get_drv (t : devtree) (bus : option Z) : exec (option Z) :=
  match bus with
  | None => Ret None
  | Some b => x ← get_bus t b; Ret (bus_drv x)
  end.

(** Both names of a driver are those given. *)
Definition drv_matches (d : k_driver) (vendor device : string) : exec bool :=
  v ← of_opt (drv_vendor d);
  if negb (String.eqb v vendor) then Ret false else
  x ← of_opt (drv_device d);
  Ret (String.eqb x device).

(** [for_each_driver] from [d], to the first driver with the names given. *)
Fixpoint find_driver (fuel : nat) (t : devtree) (d : option Z) (vendor device : string) :
    exec (option Z) :=
  match d with
  | None => Ret None
  | Some i =>
    match fuel with
    | O => Hang
    | S fuel =>
      drv ← get_driver t i;
      b ← drv_matches drv vendor device;
      if (b : bool) then Ret (Some i) else find_driver fuel t (drv_next drv) vendor device
    end
  end.

Definition list_fuel (t : devtree) : nat := S (size (t_drivers t)).
Arguments list_fuel : simpl never.

Definition bus_attach_driver (t : devtree) (bus : Z) : exec (Z * devtree) :=
  b ← get_bus t bus;
  drv ← find_driver (list_fuel t) t (Some drv_head) (bus_vendor b) (bus_device b);
  match drv with
  | None => Ret (- EAGAIN, t)
  | Some d =>
    if d =? drv_head then Ret (- EAGAIN, t) else Ret (0, put_bus t bus (set_bus_drv b (Some d)))
  end.

Definition device_attach_driver (t : devtree) (dev : Z) : exec (Z * devtree) :=
  x ← get_device t dev;
  drv ← find_driver (list_fuel t) t (Some drv_head) (dev_vendor x) (dev_device x);
  match drv with
  | None => Ret (- EAGAIN, t)
  | Some d =>
    if d =? drv_head then Ret (- EAGAIN, t) else Ret (0, put_device t dev (set_dev_drv x (Some d)))
  end.

Section Tree.
Context {W : Type}.

(** [drv->ops] of the device and bus drivers, by the number of the driver. *)
Variable dev_ops : Z → option (k_device_driver_ops W).
Variable bus_ops : Z → option (k_bus_driver_ops W).

(** The part of a probe that runs the [add] operation of the driver. *)
Definition device_add_op (dev drv : Z) (t : devtree) (w : W) : exec (Z * devtree * W) :=
  match dev_ops drv ≫= dop_add with
  | Some add =>
    '(r, t, w) ← add dev t w;
    x ← get_device t dev;
    let t :=
      if r =? 0 then put_device t dev (set_dev_flags x true (dev_failed x))
      else if r =? - EAGAIN then t
      else put_device t dev (set_dev_flags x (dev_probed x) true) in
    Ret (r, t, w)
  | None =>
    x ← get_device t dev;
    Ret (0, put_device t dev (set_dev_flags x true (dev_failed x)), w)
  end.

Definition bus_add_op (bus drv : Z) (t : devtree) (w : W) : exec (Z * devtree * W) :=
  match bus_ops drv ≫= bop_add with
  | Some add =>
    '(r, t, w) ← add bus t w;
    b ← get_bus t bus;
    let t :=
      if r =? 0 then put_bus t bus (set_bus_flags b true (bus_failed b))
      else if r =? - EAGAIN then t
      else put_bus t bus (set_bus_flags b (bus_probed b) true) in
    Ret (r, t, w)
  | None =>
    b ← get_bus t bus;
    Ret (0, put_bus t bus (set_bus_flags b true (bus_failed b)), w)
  end.

(** [device_probe], [bus_probe] and the loop of the latter over the devices of the
    bus, [probe_devices], which carries the result [r] so far. *)
Fixpoint device_probe (fuel : nat) (dev : option Z) (t : devtree) (w : W) {struct fuel} :
    exec (Z * devtree * W) :=
  match fuel with
  | O => Hang
  | S fuel =>
    match dev with
    | None => Ret (- EINVAL, t, w)
    | Some dev =>
      x ← get_device t dev;
      '(_, t) ← (if decide (dev_drv x = None) then device_attach_driver t dev else Ret (0, t));
      x ← get_device t dev;
      match dev_drv x with
      | None => Ret (- EAGAIN, t, w)
      | Some drv =>
        '(r, t, w) ← (if dev_probed x then Ret (0, t, w) else device_add_op dev drv t w);
        if truth r then Ret (r, t, w) else
        x ← get_device t dev;
        match dev_probed x, dev_bus_child x with
        | true, Some bus => bus_probe fuel (Some bus) t w
        | _, _ => Ret (0, t, w)
        end
      end
    end
  end
with bus_probe (fuel : nat) (bus : option Z) (t : devtree) (w : W) {struct fuel} :
    exec (Z * devtree * W) :=
  match fuel with
  | O => Hang
  | S fuel =>
    match bus with
    | None => Ret (- EINVAL, t, w)
    | Some bus =>
      b ← get_bus t bus;
      '(_, t) ← (if decide (bus_drv b = None) then bus_attach_driver t bus else Ret (0, t));
      b ← get_bus t bus;
      '(r, t, w) ←
        match bus_drv b with
        | Some drv => if bus_probed b then Ret (0, t, w) else bus_add_op bus drv t w
        | None => Ret (0, t, w)
        end;
      if truth r then Ret (r, t, w) else
      b ← get_bus t bus;
      probe_devices fuel (bus_dev_child b) r t w
    end
  end
with probe_devices (fuel : nat) (dev : option Z) (r : Z) (t : devtree) (w : W) {struct fuel} :
    exec (Z * devtree * W) :=
  match fuel with
  | O => Hang
  | S fuel =>
    match dev with
    | None => Ret (r, t, w)
    | Some dev =>
      '(s, t, w) ← device_probe fuel (Some dev) t w;
      if IS_ERROR s then Ret (s, t, w) else
      x ← get_device t dev;
      probe_devices fuel (dev_next x) (if s =? - EAGAIN then - EAGAIN else r) t w
    end
  end.

(** A walk over the tree enters every device and bus once, with three calls per
    device and two per bus. *)
Definition probe_fuel (t : devtree) : nat := 3 * size (t_devices t) + 3 * size (t_buses t) + 3.

Definition k_device_set_probe_all_enabled (t : devtree) (en : Z) : devtree :=
  mk_tree (t_drivers t) (t_devices t) (t_buses t) en.

Definition k_device_probe_all (t : devtree) (w : W) : exec (Z * devtree * W) :=
  if negb (truth (t_probe_all_enabled t)) then Ret (- EAGAIN, t, w)
  else device_probe (probe_fuel t) (Some dev_root) t w.

(** The loop of [k_driver_add]: whether a driver has the names, else the last one. *)
Fixpoint last_driver (fuel : nat) (t : devtree) (d : Z) (vendor device : string) :
    exec (option Z) :=
  match fuel with
  | O => Hang
  | S fuel =>
    drv ← get_driver t d;
    b ← drv_matches drv vendor device;
    if (b : bool) then Ret None else
    match drv_next drv with
    | None => Ret (Some d)
    | Some n => last_driver fuel t n vendor device
    end
  end.

Definition k_driver_add (driver : Z) (t : devtree) (w : W) : exec (Z * devtree * W) :=
  x ← get_driver t driver;
  match drv_vendor x, drv_device x with
  | Some vendor, Some device =>
    last ← last_driver (list_fuel t) t drv_head vendor device;
    match last with
    | None => Ret (- EINVAL, t, w)
    | Some d =>
      y ← get_driver t d;
      let t := put_driver t d (set_drv_next y (Some driver)) in
      '(_, t, w) ← k_device_probe_all t w;
      Ret (0, t, w)
    end
  | _, _ => Ret (- EINVAL, t, w)
  end.

Definition k_driver_remove (driver : Z) (t : devtree) (w : W) : exec (Z * devtree * W) :=
  Ret (- ENOTSUP, t, w).

(** The last device of a list of siblings. *)
Fixpoint last_device (fuel : nat) (t : devtree) (d : Z) : exec Z :=
  match fuel with
  | O => Hang
  | S fuel =>
    x ← get_device t d;
    match dev_next x with
    | None => Ret d
    | Some n => last_device fuel t n
    end
  end.

Definition k_device_add (dev parent : option Z) (t : devtree) (w : W) : exec (Z * devtree * W) :=
  match dev, parent with
  | Some dev, Some parent =>
    x ← get_device t dev;
    if decide (dev_name x = None) then Ret (- EINVAL, t, w) else
    if decide (dev_bus_parent x ≠ None) then Ret (- EINVAL, t, w) else
    p ← get_bus t parent;
    t ←
      match bus_dev_child p with
      | None => Ret (put_bus t parent (set_bus_links p (bus_dev_parent p) (Some dev) (bus_next p)))
      | Some c =>
        d ← last_device (S (size (t_devices t))) t c;
        y ← get_device t d;
        Ret (put_device t d (set_dev_links y (dev_bus_parent y) (dev_bus_child y) (Some dev)))
      end;
    x ← get_device t dev;
    let t := put_device t dev (set_dev_links x (Some parent) (dev_bus_child x) (dev_next x)) in
    '(_, t, w) ← k_device_probe_all t w;
    Ret (0, t, w)
  | _, _ => Ret (- EINVAL, t, w)
  end.

Definition k_device_remove (dev : option Z) (t : devtree) : Z * devtree :=
  match dev with
  | None => (- EINVAL, t)
  | Some _ => (- ENOTSUP, t)
  end.

Fixpoint last_bus (fuel : nat) (t : devtree) (b : Z) : exec Z :=
  match fuel with
  | O => Hang
  | S fuel =>
    x ← get_bus t b;
    match bus_next x with
    | None => Ret b
    | Some n => last_bus fuel t n
    end
  end.

Definition k_bus_add (bus parent : option Z) (t : devtree) (w : W) : exec (Z * devtree * W) :=
  match bus, parent with
  | Some bus, Some parent =>
    b ← get_bus t bus;
    if decide (bus_name b = None) then Ret (- EINVAL, t, w) else
    if decide (bus_dev_parent b ≠ None) then Ret (- EINVAL, t, w) else
    p ← get_device t parent;
    t ←
      match dev_bus_child p with
      | None => Ret (put_device t parent (set_dev_links p (dev_bus_parent p) (Some bus) (dev_next p)))
      | Some c =>
        l ← last_bus (S (size (t_buses t))) t c;
        y ← get_bus t l;
        Ret (put_bus t l (set_bus_links y (bus_dev_parent y) (bus_dev_child y) (Some bus)))
      end;
    b ← get_bus t bus;
    let t := put_bus t bus (set_bus_links b (Some parent) (bus_dev_child b) (bus_next b)) in
    '(_, t, w) ← k_device_probe_all t w;
    Ret (0, t, w)
  | _, _ => Ret (- EINVAL, t, w)
  end.

Definition k_bus_remove (bus : option Z) (t : devtree) : Z * devtree :=
  match bus with
  | None => (- EINVAL, t)
  | Some _ => (- ENOTSUP, t)
  end.

(** [bus_init], the first initialisation function of the file. *)
Definition bus_init (t : devtree) (w : W) : exec (Z * devtree * W) :=
  '(_, t, w) ← k_driver_add drv_root_bus t w;
  '(_, t, w) ← k_bus_add (Some bus_root) (Some dev_root) t w;
  '(_, t, w) ← k_driver_add drv_root_dev t w;
  Ret (0, t, w).

(** The mapping of the registers of a device, which its bus may translate. *)
Definition K_IO_MAP_FAILED `{Arch} : Z := usize (-1).

Definition k_device_driver_mmap `{Arch} (addr len prot flags : Z) (dev : option Z) (off : Z)
    (t : devtree) : exec Z :=
  match dev with
  | None => Ret K_IO_MAP_FAILED
  | Some dev =>
    x ← get_device t dev;
    drv ← k_bus_get_drv t (dev_bus_parent x);
    match drv ≫= (fun d => bus_ops d ≫= bop_mmap), dev_bus_parent x with
    | Some mmap, Some parent => mmap addr len prot flags parent off t
    | _, _ => Ret off
    end
  end.

Definition k_bus_driver_mmap `{Arch} (addr len prot flags : Z) (bus : option Z) (off : Z)
    (t : devtree) : exec Z :=
  match bus with
  | None => Ret K_IO_MAP_FAILED
  | Some bus =>
    b ← get_bus t bus;
    drv ← k_device_get_drv t (bus_dev_parent b);
    match drv ≫= (fun d => dev_ops d ≫= dop_mmap), bus_dev_parent b with
    | Some mmap, Some parent => mmap addr len prot flags parent off t
    | _, _ => Ret off
    end
  end.

(** ** Configuration of a device *)

(** Index of the entry of a name. *)
Fixpoint conf_index (l : list k_device_config) (name : string) (i : Z) : Z :=
  match l with
  | [] => -1
  | c :: l => if strcase_eq name (conf_name c) then i else conf_index l name (i + 1)
  end.

Definition device_find_conf (dev : option k_device) (name : option string) : Z :=
  match dev ≫= dev_conf, name with
  | Some conf, Some name => conf_index conf name 0
  | _, _ => - EINVAL
  end.

Definition conf_at (dev : option k_device) (i : Z) : exec k_device_config :=
  of_opt ((dev ≫= dev_conf) ≫= fun l => zget l i).

Definition k_device_get_conf_length (dev : option k_device) (name : option string) :
    exec (Z * option Z) :=
  let i := device_find_conf dev name in
  if i <? 0 then Ret (- EINVAL, None) else
  c ← conf_at dev i;
  Ret (0, Some (conf_count c)).

(** What the three functions that read an entry have in common. *)
Definition read_conf (dev : option k_device) (name : option string) (index : Z) :
    exec (Z * option conf_val) :=
  let i := device_find_conf dev name in
  if i <? 0 then Ret (- EINVAL, None) else
  c ← conf_at dev i;
  if index >=? conf_count c then Ret (- EINVAL, None) else
  v ← of_opt (zget (conf_vals c) index);
  Ret (0, Some v).

(** A number read as a string, or a string as a number, has no value here. *)
Definition k_device_read_conf_u64 (dev : option k_device) (name : option string) (index : Z) :
    exec (Z * option Z) :=
  '(r, v) ← read_conf dev name index;
  match v with
  | None => Ret (r, None)
  | Some (CNum z) => Ret (r, Some (u64 z))
  | Some (CStr _) => Undef
  end.
Definition k_device_read_conf_u32 (dev : option k_device) (name : option string) (index : Z) :
    exec (Z * option Z) :=
  '(r, v) ← read_conf dev name index;
  match v with
  | None => Ret (r, None)
  | Some (CNum z) => Ret (r, Some (u32 z))
  | Some (CStr _) => Undef
  end.
Definition k_device_read_conf_str (dev : option k_device) (name : option string) (index : Z) :
    exec (Z * option string) :=
  '(r, v) ← read_conf dev name index;
  match v with
  | None => Ret (r, None)
  | Some (CStr s) => Ret (r, Some s)
  | Some (CNum _) => Undef
  end.

Definition k_io_mmap_device `{Arch} (addr dev : Z) (t : devtree) : exec (Z * devtree) :=
  x ← get_device t dev;
  '(r, reg) ← k_device_read_conf_u64 (Some x) (Some "reg"%string) 0;
  if truth r then Ret (- EINVAL, t) else
  '(r, sz) ← k_device_read_conf_u64 (Some x) (Some "reg-size"%string) 0;
  if truth r then Ret (- EINVAL, t) else
  reg ← of_opt reg;
  sz ← of_opt sz;
  let x := set_dev_io x (usize reg) (usize sz) (dev_virt x) in
  let t := put_device t dev x in
  drv ← k_device_get_drv t (Some dev);
  virt ← match drv ≫= (fun d => dev_ops d ≫= dop_mmap) with
         | None => Ret K_IO_MAP_FAILED
         | Some mmap => mmap addr (usize sz) 0 0 dev (usize reg) t
         end;
  if virt =? K_IO_MAP_FAILED
  then Ret (- EIO, put_device t dev (set_dev_io x (dev_io_addr x) (dev_io_size x) 0))
  else Ret (0, put_device t dev (set_dev_io x (dev_io_addr x) (dev_io_size x) virt)).

Definition k_io_munmap_device (addr dev : Z) (t : devtree) : Z * devtree := (- ENOTSUP, t).

(** ** Start of the drivers (sys/init.c) *)

Definition initcall : Type := devtree → W → exec (Z * devtree * W).

(** The initialisation functions, all of them, with the last error as the result. *)
Fixpoint run_initcalls (l : list initcall) (res : Z) (t : devtree) (w : W) :
    exec (Z * devtree * W) :=
  match l with
  | [] => Ret (res, t, w)
  | f :: l =>
    '(r, t, w) ← f t w;
    run_initcalls l (if truth r then r else res) t w
  end.

(** [do probe while (r == -EAGAIN)], given a number of iterations. *)
Fixpoint probe_loop (fuel : nat) (res : Z) (t : devtree) (w : W) : exec (Z * devtree * W) :=
  match fuel with
  | O => Hang
  | S fuel =>
    '(r, t, w) ← k_device_probe_all t w;
    if IS_ERROR r then Ret (r, t, w) else
    if r =? - EAGAIN then probe_loop fuel res t w else Ret (res, t, w)
  end.

Definition init_drivers (fuel : nat) (initcalls : list initcall) (t : devtree) (w : W) :
    exec (Z * devtree * W) :=
  let t := k_device_set_probe_all_enabled t 0 in
  '(res, t, w) ← run_initcalls initcalls 0 t w;
  let t := k_device_set_probe_all_enabled t 1 in
  probe_loop fuel res t w.
End Tree.

(** ** Search of a device by its name *)

(** The loop of [k_bus_find_device] over the devices of a bus; the descent into the
    bus of a device returns what it finds there. *)
Fixpoint find_device (fuel : nat) (t : devtree) (d : option Z) (name : string) :
    exec (Z * option Z) :=
  match d with
  | None => Ret (- ENODEV, None)
  | Some i =>
    match fuel with
    | O => Hang
    | S fuel =>
      x ← get_device t i;
      nm ← of_opt (dev_name x);
      if strcase_eq name nm then
        if negb (dev_probed x) then Ret (- EAGAIN, None) else Ret (0, Some i)
      else
      match dev_probed x, dev_bus_child x with
      | true, Some b => b ← get_bus t b; find_device fuel t (bus_dev_child b) name
      | _, _ => find_device fuel t (dev_next x) name
      end
    end
  end.

Definition k_bus_find_device (t : devtree) (bus : option Z) (name : option string) :
    exec (Z * option Z) :=
  match bus, name with
  | Some b, Some name =>
    b ← get_bus t b;
    find_device (S (size (t_devices t))) t (bus_dev_child b) name
  | _, _ => Ret (- EINVAL, None)
  end.

(** ** The list of drivers as a registry *)

(** The drivers from [o] on, with their names. *)
Inductive drv_chain (t : devtree) : option Z → list (Z * (string * string)) → Prop :=
| drv_chain_nil : drv_chain t None []
| drv_chain_cons i d v x l :
    t_drivers t !! i = Some d → drv_vendor d = Some v → drv_device d = Some x →
    drv_chain t (drv_next d) l → drv_chain t (Some i) ((i, (v, x)) :: l).

(** A registry is the list from [head], with no two drivers of the same names. *)
Record registry (t : devtree) (l : list (Z * (string * string))) : Prop := {
  reg_chain : drv_chain t (Some drv_head) ((drv_head, ("none", "none")%string) :: l);
  reg_nodup : NoDup (snd <$> ((drv_head, ("none", "none")%string) :: l))
}.

(** The driver of a pair of names. *)
Fixpoint reg_lookup (l : list (Z * (string * string))) (k : string * string) : option Z :=
  match l with
  | [] => None
  | (i, k') :: l => if decide (k' = k) then Some i else reg_lookup l k
  end.

Lemma drv_chain_fun t o l1 l2 : drv_chain t o l1 → drv_chain t o l2 → l1 = l2.
Proof.
  intros H1. revert l2. induction H1 as [|i d v x l Hd Hv Hx _ IH]; intros l2 H2.
  - by inversion H2.
  - inversion H2; simplify_eq. f_equal. by apply IH.
Qed.

Lemma drv_chain_suffix t o l i k :
  drv_chain t o l → (i, k) ∈ l → ∃ l1 l2, l = l1 ++ l2 ∧ drv_chain t (Some i) l2.
Proof.
  intros H Hin. induction H as [|j d v x l Hd Hv Hx Hc IH]; [by apply elem_of_nil in Hin|].
  apply elem_of_cons in Hin as [E|Hin].
  - simplify_eq. exists [], ((j, (v, x)) :: l). split; [done|]. by econstructor.
  - destruct (IH Hin) as (l1 & l2 & -> & Hs). by exists ((j, (v, x)) :: l1), l2.
Qed.

(** A list that ends does not come back to a driver. *)
Lemma drv_chain_nodup t o l : drv_chain t o l → NoDup (fst <$> l).
Proof.
  intros H. induction H as [|i d v x l Hd Hv Hx Hc IH]; [constructor|].
  simpl. constructor; [|done]. intros ([j k] & Ej & Hin)%list_elem_of_fmap. simpl in Ej. subst j.
  destruct (drv_chain_suffix _ _ _ _ _ Hc Hin) as (l1 & l2 & El & Hs).
  assert (drv_chain t (Some i) ((i, (v, x)) :: l)) as Hfull by (by econstructor).
  pose proof (drv_chain_fun _ _ _ _ Hfull Hs) as E. subst l2.
  apply (f_equal length) in El. rewrite length_app in El. simpl in El. lia.
Qed.

Lemma drv_chain_dom t o l i k : drv_chain t o l → (i, k) ∈ l → is_Some (t_drivers t !! i).
Proof.
  intros H Hin. induction H as [|j d v x l Hd Hv Hx Hc IH]; [by apply elem_of_nil in Hin|].
  apply elem_of_cons in Hin as [E|Hin]; [simplify_eq; eauto|auto].
Qed.

Lemma drv_chain_length t o l : drv_chain t o l → (length l <= size (t_drivers t))%nat.
Proof.
  intros H. rewrite <- (length_fmap fst), <- (size_list_to_set (C := gset Z) (fst <$> l))
    by by eapply drv_chain_nodup.
  rewrite <- (size_dom (D := gset Z)). apply subseteq_size. intros i Hi.
  apply elem_of_list_to_set, list_elem_of_fmap in Hi as ([j k] & -> & Hin).
  apply elem_of_dom. by eapply drv_chain_dom.
Qed.

Lemma drv_matches_ok d v x vendor device :
  drv_vendor d = Some v → drv_device d = Some x →
  drv_matches d vendor device = Ret (bool_decide ((v, x) = (vendor, device))).
Proof.
  intros Hv Hx. unfold drv_matches. rewrite Hv, Hx. simpl.
  destruct (String.eqb_spec v vendor) as [->|Hn]; simpl.
  - f_equal. destruct (String.eqb_spec x device) as [->|Hn].
    + symmetry. by apply bool_decide_eq_true.
    + symmetry. apply bool_decide_eq_false. congruence.
  - f_equal. symmetry. apply bool_decide_eq_false. congruence.
Qed.

(** The search of the list is the lookup of the registry. *)
Lemma find_driver_lookup t o l vendor device fuel :
  drv_chain t o l → (length l <= fuel)%nat →
  find_driver fuel t o vendor device = Ret (reg_lookup l (vendor, device)).
Proof.
  intros H. revert fuel. induction H as [|i d v x l Hd Hv Hx Hc IH]; intros fuel Hf.
  - by destruct fuel.
  - destruct fuel as [|fuel]; simpl in Hf; [lia|]. simpl. unfold get_driver. rewrite Hd. simpl.
    rewrite (drv_matches_ok d v x) by done. simpl.
    destruct (decide ((v, x) = (vendor, device))) as [E|E].
    + by rewrite bool_decide_eq_true_2 by done.
    + rewrite bool_decide_eq_false_2 by done. apply IH. lia.
Qed.

(** The loop of [k_driver_add] finds a driver of the names, or the last one. *)
Lemma last_driver_ok t i l vendor device fuel :
  drv_chain t (Some i) l → (length l <= fuel)%nat →
  last_driver fuel t i vendor device =
    Ret (if decide ((vendor, device) ∈ snd <$> l) then None else fst <$> last l).
Proof.
  intros H. revert fuel. remember (Some i) as o eqn:Eo. revert i Eo.
  induction H as [|i d v x l Hd Hv Hx Hc IH]; intros j Eo fuel Hf; [done|]. simplify_eq.
  destruct fuel as [|fuel]; simpl in Hf; [lia|]. simpl. unfold get_driver. rewrite Hd. simpl.
  rewrite (drv_matches_ok d v x) by done. simpl.
  destruct (decide ((v, x) = (vendor, device))) as [E|E].
  - rewrite bool_decide_eq_true_2 by done. f_equal. rewrite decide_True; [done|].
    rewrite E. left.
  - rewrite bool_decide_eq_false_2 by done. destruct (drv_next d) as [n|] eqn:En.
    + rewrite (IH n) by (done || lia). f_equal.
      inversion Hc; subst.
      destruct (decide ((vendor, device) ∈ _)) as [Hin|Hin].
      * rewrite decide_True; [done|]. by right.
      * rewrite decide_False; [done|]. rewrite elem_of_cons. naive_solver.
    + inversion Hc; subst. simpl. rewrite decide_False; [done|].
      rewrite elem_of_cons. intros [?|?%elem_of_nil]; naive_solver.
Qed.

(** Linking a new driver behind the last one extends the list by it. *)
Lemma drv_chain_snoc t o l d kd y i x v n :
  drv_chain t o l → last l = Some (d, kd) → t_drivers t !! d = Some y →
  t_drivers t !! i = Some x → drv_vendor x = Some v → drv_device x = Some n →
  drv_next x = None → i ∉ fst <$> l →
  drv_chain (put_driver t d (set_drv_next y (Some i))) o (l ++ [(i, (v, n))]).
Proof.
  intros H Hl Hy Hx Hv Hn Hnx. pose proof (drv_chain_nodup _ _ _ H) as Hnd.
  induction H as [|j dj vj xj l Hd Hvj Hxj Hc IH]; [done|].
  intros Hni. simpl in *. apply NoDup_cons in Hnd as [Hj Hnd].
  apply not_elem_of_cons in Hni as [Hij Hni].
  destruct l as [|e l].
  - simpl in *. simplify_eq. inversion Hc; subst.
    econstructor; [simpl; by rewrite lookup_insert_eq|done|done|]. simpl.
    econstructor; [simpl; by rewrite lookup_insert_ne by done|done|done|].
    rewrite Hnx. constructor.
  - rewrite last_cons_cons in Hl. assert (j ≠ d) as Hjd.
    { intros ->. apply Hj, list_elem_of_fmap. exists (d, kd). split; [done|].
      by apply last_Some_elem_of. }
    econstructor; [simpl; rewrite lookup_insert_ne by done; exact Hd|done|done|].
    by apply IH.
Qed.

Lemma reg_lookup_app l1 l2 k :
  reg_lookup (l1 ++ l2) k = match reg_lookup l1 k with Some i => Some i | None => reg_lookup l2 k end.
Proof. induction l1 as [|[i k'] l1 IH]; simpl; [done|]. by case_decide. Qed.

Lemma reg_lookup_None l k : k ∉ snd <$> l → reg_lookup l k = None.
Proof.
  induction l as [|[i k'] l IH]; simpl; [done|]. intros [? ?]%not_elem_of_cons.
  rewrite decide_False by done. auto.
Qed.

(** What [device_attach_driver] finds: the driver of the registry, never [head]. *)
Lemma attach_lookup t l v n :
  registry t l → (v, n) ≠ ("none", "none")%string →
  find_driver (list_fuel t) t (Some drv_head) v n = Ret (reg_lookup l (v, n)).
Proof.
  intros [Hc _] Hk. rewrite (find_driver_lookup _ _ _ _ _ _ Hc).
  - simpl. rewrite decide_False; [done|]. congruence.
  - pose proof (drv_chain_length _ _ _ Hc). unfold list_fuel. lia.
Qed.

Lemma registry_no_head t l k : registry t l → reg_lookup l k ≠ Some drv_head.
Proof.
  intros [Hc _] E. apply drv_chain_nodup in Hc. simpl in Hc. apply NoDup_cons in Hc as [Hh _].
  apply Hh. clear Hh. induction l as [|[i k'] l IH]; simpl in *; [done|].
  case_decide; simplify_eq; [left|right; auto].
Qed.

Section Registry.
Context {W : Type}.
Variable dev_ops : Z → option (k_device_driver_ops W).
Variable bus_ops : Z → option (k_bus_driver_ops W).

(** Adding a driver while probing is off, given the list of drivers. *)
Lemma driver_add_eq t w l0 i x v n :
  drv_chain t (Some drv_head) l0 → t_probe_all_enabled t = 0 →
  t_drivers t !! i = Some x → drv_vendor x = Some v → drv_device x = Some n →
  k_driver_add dev_ops bus_ops i t w =
    match (if decide ((v, n) ∈ snd <$> l0) then None else fst <$> last l0) with
    | None => Ret (- EINVAL, t, w)
    | Some d => y ← get_driver t d; Ret (0, put_driver t d (set_drv_next y (Some i)), w)
    end.
Proof.
  intros Hc Hp Hx Hv Hn. unfold k_driver_add, get_driver. rewrite Hx.
  mstep. rewrite Hv, Hn.
  rewrite (last_driver_ok _ _ l0)
    by (done || (pose proof (drv_chain_length _ _ _ Hc); unfold list_fuel; lia)).
  mstep. case_decide; [done|]. destruct (fst <$> last l0); [|done].
  destruct (of_opt _); [|done..]. simpl. unfold k_device_probe_all. simpl. by rewrite Hp.
Qed.

(** The drivers are a registry of names. While probing is off, adding a driver
    with names that are taken is refused and changes nothing; adding any other
    extends the registry, so that afterwards a device is attached to the new
    driver when its names are those of the driver, and to the same driver as
    before, or to none with [-EAGAIN], when they are not. *)
Theorem k_driver_add_registry t w l i x v n
    (Hr : registry t l) (Hp : t_probe_all_enabled t = 0)
    (Hx : t_drivers t !! i = Some x) (Hv : drv_vendor x = Some v) (Hn : drv_device x = Some n)
    (Hnx : drv_next x = None) (Hi : i ∉ drv_head :: (fst <$> l)) :
  (if decide ((v, n) ∈ ("none", "none")%string :: (snd <$> l))
   then k_driver_add dev_ops bus_ops i t w = Ret (- EINVAL, t, w)
   else ∃ t', k_driver_add dev_ops bus_ops i t w = Ret (0, t', w) ∧
     registry t' (l ++ [(i, (v, n))]) ∧ t_devices t' = t_devices t ∧
     ∀ dev y, t_devices t !! dev = Some y → (dev_vendor y, dev_device y) ≠ ("none", "none")%string →
       device_attach_driver t' dev = Ret
         match reg_lookup l (dev_vendor y, dev_device y) with
         | Some d => (0, put_device t' dev (set_dev_drv y (Some d)))
         | None => if decide ((dev_vendor y, dev_device y) = (v, n))
                   then (0, put_device t' dev (set_dev_drv y (Some i)))
                   else (- EAGAIN, t')
         end).
Proof.
  set (l0 := (drv_head, ("none", "none")%string) :: l).
  change (("none", "none")%string :: (snd <$> l)) with (snd <$> l0).
  change (drv_head :: (fst <$> l)) with (fst <$> l0) in Hi.
  destruct Hr as [Hc Hnd]. change (_ :: l) with l0 in Hc, Hnd.
  rewrite (driver_add_eq t w l0 i x v n) by done.
  destruct (decide ((v, n) ∈ snd <$> l0)) as [Hin|Hin]; [done|]. simpl.
  destruct (last l0) as [[d kd]|] eqn:El; [|by apply last_None in El]. simpl.
  destruct (drv_chain_dom t _ l0 d kd Hc) as [y Hy]; [by apply last_Some_elem_of|].
  unfold get_driver. rewrite Hy. simpl.
  pose proof (drv_chain_snoc t _ l0 d kd y i x v n Hc El Hy Hx Hv Hn Hnx Hi) as Hc'.
  set (t' := put_driver t d (set_drv_next y (Some i))) in *.
  assert (registry t' (l ++ [(i, (v, n))])) as Hr'.
  { split; [done|]. change (_ :: l ++ ?r) with (l0 ++ r). rewrite fmap_app.
    apply NoDup_app. split; [done|]. split; [|apply NoDup_singleton].
    intros k Hk ->%list_elem_of_singleton. done. }
  exists t'. split; [done|]. split; [done|]. split; [done|].
  intros dev z Hz Hk. unfold device_attach_driver, get_device.
  change (t_devices t') with (t_devices t). rewrite Hz. mstep.
  rewrite (attach_lookup _ _ _ _ Hr' Hk). mstep.
  pose proof (registry_no_head _ _ (dev_vendor z, dev_device z) Hr') as Hnh.
  rewrite reg_lookup_app in *. simpl in *.
  destruct (reg_lookup l _) as [j|].
  - rewrite (proj2 (Z.eqb_neq j drv_head)) by congruence. done.
  - case_decide as E.
    + rewrite decide_True in * by done.
      rewrite (proj2 (Z.eqb_neq i drv_head)) by congruence. done.
    + rewrite decide_False; [done|]. congruence.
Qed.
End Registry.

(** ** Probing *)

(** What a probe may do to a device or a bus: attach a driver, set flags and the
    region; names and links stay. *)
Record dev_grows (x y : k_device) : Prop := {
  dg_names : dev_name y = dev_name x ∧ dev_vendor y = dev_vendor x ∧ dev_device y = dev_device x;
  dg_links : dev_bus_parent y = dev_bus_parent x ∧ dev_bus_child y = dev_bus_child x ∧ dev_next y = dev_next x;
  dg_drv : dev_drv x ≠ None → dev_drv y = dev_drv x;
  dg_probed : dev_probed x = true → dev_probed y = true
}.
Record bus_grows (x y : k_bus) : Prop := {
  bg_names : bus_vendor y = bus_vendor x ∧ bus_device y = bus_device x;
  bg_links : bus_dev_parent y = bus_dev_parent x ∧ bus_dev_child y = bus_dev_child x ∧ bus_next y = bus_next x
}.
Record grows (t t' : devtree) : Prop := {
  gr_drivers : t_drivers t' = t_drivers t;
  gr_enabled : t_probe_all_enabled t' = t_probe_all_enabled t;
  gr_devices : ∀ i x, t_devices t !! i = Some x → ∃ y, t_devices t' !! i = Some y ∧ dev_grows x y;
  gr_buses : ∀ i x, t_buses t !! i = Some x → ∃ y, t_buses t' !! i = Some y ∧ bus_grows x y
}.

#[export] Instance dev_grows_preorder : PreOrder dev_grows.
Proof.
  split; [done|]. intros x y z [[? [? ?]] [? [? ?]] D P] [[? [? ?]] [? [? ?]] D' P'].
  split; [intuition congruence..| |auto].
  intros Hx. rewrite D'; [by apply D|]. by rewrite D.
Qed.
#[export] Instance bus_grows_preorder : PreOrder bus_grows.
Proof.
  split; [done|]. intros x y z [[? ?] [? [? ?]]] [[? ?] [? [? ?]]].
  split; intuition congruence.
Qed.
#[export] Instance grows_preorder : PreOrder grows.
Proof.
  split.
  - intros t. split; [done|done| |]; intros i x ->; by exists x.
  - intros t1 t2 t3 [A1 B1 C1 D1] [A2 B2 C2 D2]. split; [congruence|congruence| |].
    + intros i x Hx. destruct (C1 i x Hx) as (y & Hy & ?). destruct (C2 i y Hy) as (z & Hz & ?).
      exists z. split; [done|]. by etransitivity.
    + intros i x Hx. destruct (D1 i x Hx) as (y & Hy & ?). destruct (D2 i y Hy) as (z & Hz & ?).
      exists z. split; [done|]. by etransitivity.
Qed.

Lemma grows_put_device t i x y :
  t_devices t !! i = Some x → dev_grows x y → grows t (put_device t i y).
Proof.
  intros Hx Hg. split; [done|done| |]; simpl.
  - intros j z Hz. destruct (decide (j = i)) as [->|].
    + rewrite lookup_insert_eq. simplify_eq. eauto.
    + rewrite lookup_insert_ne by done. by exists z.
  - intros j z ->. by exists z.
Qed.
Lemma grows_put_bus t i x y :
  t_buses t !! i = Some x → bus_grows x y → grows t (put_bus t i y).
Proof.
  intros Hx Hg. split; [done|done| |]; simpl.
  - intros j z ->. by exists z.
  - intros j z Hz. destruct (decide (j = i)) as [->|].
    + rewrite lookup_insert_eq. simplify_eq. eauto.
    + rewrite lookup_insert_ne by done. by exists z.
Qed.

(** The list of drivers does not depend on devices and buses. *)
Lemma drv_chain_drivers t t' o l :
  t_drivers t' = t_drivers t → drv_chain t o l → drv_chain t' o l.
Proof. intros E H. induction H; econstructor; eauto. by rewrite E. Qed.

Lemma registry_grows t t' l : grows t t' → registry t l → registry t' l.
Proof.
  intros G [Hc Hn]. split; [|done]. apply (drv_chain_drivers t); [apply G|done].
Qed.

(** The devices below a device, as a tree: its number, its bus, and the devices on
    that bus in their order. *)
Inductive dtree := DNode (i : Z) (bus : option Z) (kids : list dtree).

Definition droot (T : dtree) : Z := let 'DNode i _ _ := T in i.

(** A tree is what the links of [t] describe. *)
Fixpoint rep (t : devtree) (T : dtree) : Prop :=
  let 'DNode i bus kids := T in
  ∃ x, t_devices t !! i = Some x ∧ dev_bus_child x = bus ∧
    match bus with
    | None => kids = []
    | Some b => ∃ y, t_buses t !! b = Some y ∧
        (fix sibs (o : option Z) (ks : list dtree) : Prop :=
           match ks with
           | [] => o = None
           | k :: ks => o = Some (droot k) ∧ rep t k ∧
               ∃ z, t_devices t !! droot k = Some z ∧ sibs (dev_next z) ks
           end) (bus_dev_child y) kids
    end.

Fixpoint sibs (t : devtree) (o : option Z) (ks : list dtree) : Prop :=
  match ks with
  | [] => o = None
  | k :: ks => o = Some (droot k) ∧ rep t k ∧
      ∃ z, t_devices t !! droot k = Some z ∧ sibs t (dev_next z) ks
  end.

Lemma rep_eq t i bus kids :
  rep t (DNode i bus kids) ↔
  ∃ x, t_devices t !! i = Some x ∧ dev_bus_child x = bus ∧
    match bus with
    | None => kids = []
    | Some b => ∃ y, t_buses t !! b = Some y ∧ sibs t (bus_dev_child y) kids
    end.
Proof.
  cbn [rep]. f_equiv. intros x. do 2 f_equiv. destruct bus as [b|]; [|done].
  f_equiv. intros y. f_equiv. generalize (bus_dev_child y). 
  induction kids as [|k kids IH]; intros o; simpl; [done|].
  do 2 f_equiv. f_equiv. intros z. f_equiv. apply IH.
Qed.

(** Calls that a probe of the tree nests at most. *)
Fixpoint need (T : dtree) : nat :=
  let 'DNode _ bus kids := T in
  match bus with
  | None => 1
  | Some _ => 2 + (fix needs (ks : list dtree) : nat :=
                     match ks with [] => 1 | k :: ks => 1 + need k + needs ks end) kids
  end%nat.
Fixpoint needs (ks : list dtree) : nat :=
  match ks with [] => 1 | k :: ks => 1 + need k + needs ks end%nat.

(** Every device of the tree is probed. *)
Fixpoint all_probed (t : devtree) (T : dtree) : Prop :=
  let 'DNode i _ kids := T in
  (∃ x, t_devices t !! i = Some x ∧ dev_probed x = true) ∧
  (fix go (ks : list dtree) : Prop :=
     match ks with [] => True | k :: ks => all_probed t k ∧ go ks end) kids.
Fixpoint all_probed_list (t : devtree) (ks : list dtree) : Prop :=
  match ks with [] => True | k :: ks => all_probed t k ∧ all_probed_list t ks end.

Lemma all_probed_eq t i bus kids :
  all_probed t (DNode i bus kids) ↔
  (∃ x, t_devices t !! i = Some x ∧ dev_probed x = true) ∧ all_probed_list t kids.
Proof.
  cbn [all_probed]. f_equiv. induction kids as [|k kids IH]; simpl; [done|]. by f_equiv.
Qed.

(** Induction on trees with the hypothesis for every device of the bus. *)
Lemma dtree_ind' (P : dtree → Prop) :
  (∀ i bus kids, Forall P kids → P (DNode i bus kids)) → ∀ T, P T.
Proof.
  intros IH. fix go 1. intros [i bus kids]. apply IH.
  induction kids as [|k kids IHk]; constructor; [apply go|apply IHk].
Qed.

Lemma sibs_grows_aux t t' ks :
  grows t t' → Forall (fun k => rep t k → rep t' k) ks → ∀ o, sibs t o ks → sibs t' o ks.
Proof.
  intros G F. induction F as [|k ks Hk F IH]; intros o; simpl; [done|].
  intros (-> & Hr & z & Hz & Hs). split; [done|]. split; [auto|].
  destruct (gr_devices _ _ G _ _ Hz) as (z' & Hz' & [_ (_ & _ & El) _ _]).
  exists z'. split; [done|]. rewrite El. auto.
Qed.

(** A probe does not change the tree. *)
Lemma rep_grows t t' T : grows t t' → rep t T → rep t' T.
Proof.
  intros G. induction T as [i bus kids IH] using dtree_ind'. rewrite !rep_eq.
  intros (x & Hx & Eb & Hk). destruct (gr_devices _ _ G _ _ Hx) as (x' & Hx' & [_ (_ & El & _) _ _]).
  exists x'. split; [done|]. split; [congruence|]. destruct bus as [b|]; [|done].
  destruct Hk as (y & Hy & Hs). destruct (gr_buses _ _ G _ _ Hy) as (y' & Hy' & [_ (_ & Ec & _)]).
  exists y'. split; [done|]. rewrite Ec. by apply (sibs_grows_aux t).
Qed.

Lemma sibs_grows t t' ks o : grows t t' → sibs t o ks → sibs t' o ks.
Proof.
  intros G. apply sibs_grows_aux; [done|]. apply Forall_true. intros k. by apply rep_grows.
Qed.

Lemma all_probed_grows t t' T : grows t t' → all_probed t T → all_probed t' T.
Proof.
  intros G. induction T as [i bus kids IH] using dtree_ind'. simpl.
  intros [(x & Hx & Hp) Hk]. destruct (gr_devices _ _ G _ _ Hx) as (x' & Hx' & Hg).
  split; [exists x'; split; [done|by apply Hg]|].
  induction IH as [|k ks Hd _ IHk]; [done|]. destruct Hk as [H1 H2].
  split; [by apply Hd|by apply IHk].
Qed.

Lemma get_device_Some t i x : t_devices t !! i = Some x → get_device t i = Ret x.
Proof. unfold get_device. by intros ->. Qed.
Lemma get_bus_Some t i x : t_buses t !! i = Some x → get_bus t i = Ret x.
Proof. unfold get_bus. by intros ->. Qed.

(** The devices and the buses of a tree. *)
Fixpoint devs (T : dtree) : list Z :=
  let 'DNode i _ kids := T in i :: flat_map devs kids.
Fixpoint busses (T : dtree) : list Z :=
  let 'DNode _ bus kids := T in
  match bus with Some b => b :: flat_map busses kids | None => [] end.

Section Probing.
Context {W : Type}.
Variable dev_ops : Z → option (k_device_driver_ops W).
Variable bus_ops : Z → option (k_bus_driver_ops W).

(** Where they return, the [add] operations change the tree only as a probe may. *)
Record ops_keep : Prop := {
  ok_dev d add dev t w r t' w' :
    dev_ops d ≫= dop_add = Some add → add dev t w = Ret (r, t', w') → grows t t';
  ok_bus d add bus t w r t' w' :
    bus_ops d ≫= bop_add = Some add → add bus t w = Ret (r, t', w') → grows t t'
}.
Hypothesis Hops : ops_keep.

(** The outcome [e] is that of an [add] operation: of the driver that is attached to a device of [D], not yet probed, or
    to a bus of [B], when the probe has come to it from [t]. *)
Variables D B : list Z.
Inductive add_outcome (t : devtree) (e : exec (Z * devtree * W)) : Prop :=
| add_of_device i x d add t1 w1 (Hi : i ∈ D) (Hg : grows t t1) (Hx : t_devices t1 !! i = Some x)
    (Hd : dev_drv x = Some d) (Hp : dev_probed x = false) (Hadd : dev_ops d ≫= dop_add = Some add) (He : add i t1 w1 = e)
| add_of_bus i x d add t1 w1 (Hi : i ∈ B) (Hg : grows t t1) (Hx : t_buses t1 !! i = Some x)
    (Hd : bus_drv x = Some d) (Hp : bus_probed x = false) (Hadd : bus_ops d ≫= bop_add = Some add) (He : add i t1 w1 = e).

(** A part of a probe: it returns, with [Q], or it is an [add] operation that does not. *)
Definition probes (t : devtree) (e : exec (Z * devtree * W)) (Q : Z → devtree → Prop) : Prop :=
  match e with
  | Ret (r, t', w') => grows t t' ∧ Q r t'
  | e => add_outcome t e
  end.

Lemma add_outcome_grows t t1 e : grows t t1 → add_outcome t1 e → add_outcome t e.
Proof.
  intros G [i x d add t2 w2 Hi Hg|i x d add t2 w2 Hi Hg].
  - apply (add_of_device t e i x d add t2 w2); try done. by etransitivity.
  - apply (add_of_bus t e i x d add t2 w2); try done. by etransitivity.
Qed.
Lemma probes_grows t t1 e (Q : Z → devtree → Prop) : grows t t1 → probes t1 e Q → probes t e Q.
Proof.
  intros G. unfold probes. destruct e as [[[r t'] w']| |]; [|by apply add_outcome_grows..].
  intros [G' HQ]. split; [by etransitivity|done].
Qed.
Lemma probes_bind t e f (Q R : Z → devtree → Prop) :
  probes t e Q → (∀ r t1 w1, grows t t1 → Q r t1 → probes t1 (f (r, t1, w1)) R) → probes t (e ≫= f) R.
Proof.
  unfold probes at 1. destruct e as [[[r t1] w1]| |]; [|done..]. intros [G HQ] Hf. mstep. by eapply probes_grows, Hf.
Qed.
Lemma probes_post t e (Q R : Z → devtree → Prop) :
  probes t e Q → (∀ r t1, grows t t1 → Q r t1 → R r t1) → probes t e R.
Proof. unfold probes. destruct e as [[[r t1] w1]| |]; [|done..]. intros [G HQ] HR. auto. Qed.
Lemma probes_ret t r t1 w1 (Q : Z → devtree → Prop) : grows t t1 → Q r t1 → probes t (Ret (r, t1, w1)) Q.
Proof. done. Qed.

Variable l : list (Z * (string * string)).

Lemma find_driver_total t v n :
  registry t l → ∃ o, find_driver (list_fuel t) t (Some drv_head) v n = Ret o.
Proof.
  intros [Hc _]. eexists. apply (find_driver_lookup _ _ _ _ _ _ Hc).
  pose proof (drv_chain_length _ _ _ Hc). unfold list_fuel. lia.
Qed.

Lemma device_attach_ok t i x :
  registry t l → t_devices t !! i = Some x → dev_drv x = None →
  ∃ r t', device_attach_driver t i = Ret (r, t') ∧ grows t t'.
Proof.
  intros Hr Hx Hd. unfold device_attach_driver, get_device. rewrite Hx. mstep.
  destruct (find_driver_total t (dev_vendor x) (dev_device x) Hr) as [[d|] ->]; mstep; [|by eexists _, t].
  destruct (d =? drv_head); [by eexists _, t|].
  eexists _, _. split; [done|]. by apply (grows_put_device _ _ x).
Qed.

Lemma bus_attach_ok t i x :
  registry t l → t_buses t !! i = Some x →
  ∃ r t', bus_attach_driver t i = Ret (r, t') ∧ grows t t'.
Proof.
  intros Hr Hx. unfold bus_attach_driver, get_bus. rewrite Hx. mstep.
  destruct (find_driver_total t (bus_vendor x) (bus_device x) Hr) as [[d|] ->]; mstep; [|by eexists _, t].
  destruct (d =? drv_head); [by eexists _, t|].
  eexists _, _. split; [done|]. by apply (grows_put_bus _ _ x).
Qed.

Lemma device_add_op_ok t w i d x :
  i ∈ D → t_devices t !! i = Some x → dev_drv x = Some d → dev_probed x = false →
  probes t (device_add_op dev_ops i d t w) (fun r t' => r = 0 → ∃ x, t_devices t' !! i = Some x ∧ dev_probed x = true).
Proof.
  intros Hi Hx Hd Hp. unfold device_add_op. destruct (dev_ops d ≫= dop_add) as [add|] eqn:E.
  - destruct (add i t w) as [[[r t'] w']| |] eqn:Ea; [|by eapply add_of_device..]. mstep. pose proof (ok_dev Hops _ _ _ _ _ _ _ _ E Ea) as G.
    destruct (gr_devices _ _ G _ _ Hx) as (y & Hy & _). rewrite (get_device_Some _ _ _ Hy). mstep.
    destruct (r =? 0) eqn:E0; [|destruct (r =? - EAGAIN)]; bsplit.
    + apply probes_ret; [etransitivity; [done|by apply (grows_put_device _ _ y)]|]. intros _.
      eexists. split; [simpl; by rewrite lookup_insert_eq|done].
    + apply probes_ret; [done|lia].
    + apply probes_ret; [etransitivity; [done|by apply (grows_put_device _ _ y)]|lia].
  - rewrite (get_device_Some _ _ _ Hx). mstep. apply probes_ret; [by apply (grows_put_device _ _ x)|]. intros _.
    eexists. split; [simpl; by rewrite lookup_insert_eq|done].
Qed.

Lemma bus_add_op_ok t w i d x :
  i ∈ B → t_buses t !! i = Some x → bus_drv x = Some d → bus_probed x = false →
  probes t (bus_add_op bus_ops i d t w) (fun _ _ => True).
Proof.
  intros Hi Hx Hd Hp. unfold bus_add_op. destruct (bus_ops d ≫= bop_add) as [add|] eqn:E.
  - destruct (add i t w) as [[[r t'] w']| |] eqn:Ea; [|by eapply add_of_bus..]. mstep. pose proof (ok_bus Hops _ _ _ _ _ _ _ _ E Ea) as G.
    destruct (gr_buses _ _ G _ _ Hx) as (y & Hy & _). rewrite (get_bus_Some _ _ _ Hy). mstep.
    destruct (r =? 0); [|destruct (r =? - EAGAIN); [by apply probes_ret|]];
      (apply probes_ret; [etransitivity; [done|by apply (grows_put_bus _ _ y)]|done]).
  - rewrite (get_bus_Some _ _ _ Hx). mstep. apply probes_ret; [by apply (grows_put_bus _ _ x)|done].
Qed.

(** What the three functions of a probe promise, given enough fuel. *)
Definition dev_probe_ok (fuel : nat) : Prop := ∀ T t w,
  registry t l → rep t T → devs T ⊆ D → busses T ⊆ B → (need T <= fuel)%nat →
  probes t (device_probe dev_ops bus_ops fuel (Some (droot T)) t w) (fun r t' => r = 0 → all_probed t' T).
Definition bus_probe_ok (fuel : nat) : Prop := ∀ b y kids t w,
  registry t l → t_buses t !! b = Some y → sibs t (bus_dev_child y) kids →
  flat_map devs kids ⊆ D → b :: flat_map busses kids ⊆ B → (S (needs kids) <= fuel)%nat →
  probes t (bus_probe dev_ops bus_ops fuel (Some b) t w) (fun r t' => r = 0 → all_probed_list t' kids).
Definition devices_probe_ok (fuel : nat) : Prop := ∀ kids o r0 t w,
  registry t l → sibs t o kids → flat_map devs kids ⊆ D → flat_map busses kids ⊆ B → (needs kids <= fuel)%nat →
  probes t (probe_devices dev_ops bus_ops fuel o r0 t w) (fun r t' => r = 0 → r0 = 0 ∧ all_probed_list t' kids).

(** The equations of the three functions. *)
Lemma device_probe_S fuel dev t w :
  device_probe dev_ops bus_ops (S fuel) (Some dev) t w =
    (x ← get_device t dev;
     '(_, t) ← (if decide (dev_drv x = None) then device_attach_driver t dev else Ret (0, t));
     x ← get_device t dev;
     match dev_drv x with
     | None => Ret (- EAGAIN, t, w)
     | Some drv =>
       '(r, t, w) ← (if dev_probed x then Ret (0, t, w) else device_add_op dev_ops dev drv t w);
       if truth r then Ret (r, t, w) else
       x ← get_device t dev;
       match dev_probed x, dev_bus_child x with
       | true, Some bus => bus_probe dev_ops bus_ops fuel (Some bus) t w
       | _, _ => Ret (0, t, w)
       end
     end).
Proof. reflexivity. Qed.
Lemma bus_probe_S fuel bus t w :
  bus_probe dev_ops bus_ops (S fuel) (Some bus) t w =
    (b ← get_bus t bus;
     '(_, t) ← (if decide (bus_drv b = None) then bus_attach_driver t bus else Ret (0, t));
     b ← get_bus t bus;
     '(r, t, w) ←
       match bus_drv b with
       | Some drv => if bus_probed b then Ret (0, t, w) else bus_add_op bus_ops bus drv t w
       | None => Ret (0, t, w)
       end;
     if truth r then Ret (r, t, w) else
     b ← get_bus t bus;
     probe_devices dev_ops bus_ops fuel (bus_dev_child b) r t w).
Proof. reflexivity. Qed.
Lemma probe_devices_S fuel dev r t w :
  probe_devices dev_ops bus_ops (S fuel) (Some dev) r t w =
    ('(s, t, w) ← device_probe dev_ops bus_ops fuel (Some dev) t w;
     if IS_ERROR s then Ret (s, t, w) else
     x ← get_device t dev;
     probe_devices dev_ops bus_ops fuel (dev_next x) (if s =? - EAGAIN then - EAGAIN else r) t w).
Proof. reflexivity. Qed.

Lemma devices_probe_step fuel :
  dev_probe_ok fuel → devices_probe_ok fuel → devices_probe_ok (S fuel).
Proof.
  intros IHd IHs kids o r0 t w Hr Hs HD HB Hf. destruct kids as [|k kids]; simpl in Hs, Hf.
  - subst o. simpl. split; [done|]. done.
  - destruct Hs as (-> & Hk & z & Hz & Hs). cbn [flat_map] in HD, HB. rewrite probe_devices_S.
    eapply probes_bind; [apply (IHd k t w Hr Hk); [set_solver|set_solver|lia]|]. intros s t1 w1 G1 P1. cbv beta.
    destruct (IS_ERROR s) eqn:Es; [apply probes_ret; [done|by intros ->]|].
    destruct (gr_devices _ _ G1 _ _ Hz) as (z1 & Hz1 & [_ (_ & _ & El) _ _]).
    rewrite (get_device_Some _ _ _ Hz1). mstep. rewrite El.
    eapply probes_post; [apply (IHs kids); [by apply (registry_grows t)|by apply (sibs_grows t)|set_solver|set_solver|lia]|].
    intros r t2 G2 P2 E0. destruct (P2 E0) as [Er Hk2]. unfold IS_ERROR in Es.
    destruct (s =? - EAGAIN) eqn:Ea; [done|]. bsplit.
    assert (s = 0) as ->.
    { destruct (s =? 0) eqn:?; bsplit; [done|]. rewrite andb_false_iff in Es.
      destruct Es; bsplit; lia. }
    split; [done|]. split; [|done]. by apply (all_probed_grows t1), P1.
Qed.

Lemma bus_probe_step fuel : devices_probe_ok fuel → bus_probe_ok (S fuel).
Proof.
  intros IHs b y kids t w Hr Hy Hs HD HB Hf. rewrite bus_probe_S. rewrite (get_bus_Some _ _ _ Hy). mstep.
  assert (∃ r t1, (if decide (bus_drv y = None) then bus_attach_driver t b else Ret (0, t)) = Ret (r, t1)
    ∧ grows t t1) as (r1 & t1 & -> & G1).
  { case_decide; [by apply (bus_attach_ok _ _ y)|by eexists _, t]. }
  mstep. apply (probes_grows _ t1); [done|]. destruct (gr_buses _ _ G1 _ _ Hy) as (y1 & Hy1 & [_ (_ & Ec1 & _)]).
  rewrite (get_bus_Some _ _ _ Hy1). mstep. eapply (probes_bind _ _ _ (fun _ _ => True)).
  { destruct (bus_drv y1) as [d|] eqn:Ed; [|by apply probes_ret]. destruct (bus_probed y1) eqn:Ep; [by apply probes_ret|].
    apply (bus_add_op_ok _ _ _ _ y1); [set_solver|done..]. }
  intros r2 t2 w2 G2 _. cbv beta. assert (grows t t2) as G by (by etransitivity).
  destruct (truth r2) eqn:E2; [apply probes_ret; [done|by intros ->]|].
  destruct (gr_buses _ _ G2 _ _ Hy1) as (y2 & Hy2 & [_ (_ & Ec2 & _)]).
  rewrite (get_bus_Some _ _ _ Hy2). mstep. rewrite Ec2, Ec1.
  eapply probes_post; [apply (IHs kids); [by apply (registry_grows t)|by apply (sibs_grows t)|done|set_solver|lia]|].
  intros r t3 _ P3 E0. by apply P3.
Qed.

Lemma dev_probe_step fuel : bus_probe_ok fuel → dev_probe_ok (S fuel).
Proof.
  intros IHb [i bus kids] t w Hr HR HD HB Hf. pose proof HR as HR0. simpl droot.
  apply rep_eq in HR as (x & Hx & _ & _). rewrite device_probe_S. rewrite (get_device_Some _ _ _ Hx). mstep.
  assert (∃ r t1, (if decide (dev_drv x = None) then device_attach_driver t i else Ret (0, t)) = Ret (r, t1)
    ∧ grows t t1) as (r1 & t1 & -> & G1).
  { case_decide; [by apply (device_attach_ok _ _ x)|by eexists _, t]. }
  mstep. apply (probes_grows _ t1); [done|]. destruct (gr_devices _ _ G1 _ _ Hx) as (x1 & Hx1 & _).
  rewrite (get_device_Some _ _ _ Hx1). mstep. cbn [devs] in HD.
  destruct (dev_drv x1) as [drv|] eqn:Ed; [|by apply probes_ret].
  eapply (probes_bind _ _ _ (fun r t2 => r = 0 → ∃ x, t_devices t2 !! i = Some x ∧ dev_probed x = true)).
  { destruct (dev_probed x1) eqn:Ep; [|apply (device_add_op_ok _ _ _ _ x1); [set_solver|done..]]. apply probes_ret; [done|eauto]. }
  intros r2 t2 w2 G2 P2. cbv beta. assert (grows t t2) as G by (by etransitivity).
  destruct (truth r2) eqn:E2; [apply probes_ret; [done|by intros ->]|].
  unfold truth in E2. bsplit. destruct (P2 E2) as (x2 & Hx2 & Hp2).
  rewrite (get_device_Some _ _ _ Hx2). mstep. rewrite Hp2.
  apply (rep_grows _ _ _ G), rep_eq in HR0 as (x2' & Hx2' & Eb & Hk).
  rewrite Hx2 in Hx2'. injection Hx2' as <-. subst bus.
  destruct (dev_bus_child x2) as [b|] eqn:Ec.
  - destruct Hk as (y & Hy & Hs). cbn [busses] in HB.
    eapply probes_post; [apply (IHb b y kids); [by apply (registry_grows t)|done|done|set_solver|done|exact (le_S_n _ _ Hf)]|].
    intros r t3 G3 P3 E0. destruct (gr_devices _ _ G3 _ _ Hx2) as (x3 & Hx3 & [_ _ _ Hp3]).
    apply all_probed_eq. split; [eauto|]. exact (P3 E0).
  - subst kids. apply probes_ret; [done|]. intros _. split; [eauto|done].
Qed.

Lemma probe_ok fuel : dev_probe_ok fuel ∧ bus_probe_ok fuel ∧ devices_probe_ok fuel.
Proof.
  induction fuel as [|fuel (IHd & IHb & IHs)].
  - split_and!; repeat intro.
    + destruct T as [? [?|] ?]; simpl in *; lia.
    + lia.
    + destruct kids; simpl in *; lia.
  - split_and!; [by apply dev_probe_step|by apply bus_probe_step|by apply devices_probe_step].
Qed.
End Probing.

Lemma need_bound T : (S (need T) <= 2 * length (devs T) + 3 * length (busses T))%nat.
Proof.
  induction T as [i bus kids IH] using dtree_ind'. destruct bus as [b|]; [|simpl; lia].
  change (need (DNode i (Some b) kids)) with (2 + needs kids)%nat. cbn [devs busses length].
  enough (needs kids <= 1 + 2 * length (flat_map devs kids) + 3 * length (flat_map busses kids))%nat by lia.
  induction IH as [|k kids Hk _ IHk]; simpl; [lia|]. rewrite !length_app. lia.
Qed.

Lemma sibs_Forall t o ks : sibs t o ks → Forall (rep t) ks.
Proof.
  revert o. induction ks as [|k ks IH]; intros o; simpl; [constructor|].
  intros (_ & Hk & z & _ & Hs). constructor; eauto.
Qed.

Lemma rep_dom t T :
  rep t T → (∀ i, i ∈ devs T → is_Some (t_devices t !! i)) ∧
            (∀ b, b ∈ busses T → is_Some (t_buses t !! b)).
Proof.
  induction T as [i bus kids IH] using dtree_ind'. rewrite rep_eq. intros (x & Hx & _ & Hk).
  assert (Forall (rep t) kids) as Hr.
  { destruct bus; [destruct Hk as (? & _ & ?); by eapply sibs_Forall|by subst]. }
  split.
  - intros j. simpl. rewrite elem_of_cons. intros [->|Hj]; [eauto|].
    apply list_elem_of_In, in_flat_map in Hj as (k & Hin & Hj). apply list_elem_of_In in Hin, Hj.
    rewrite Forall_forall in IH, Hr. apply (IH k); auto.
  - intros b. simpl. destruct bus as [b'|]; [|by intros ?%elem_of_nil].
    destruct Hk as (y & Hy & _). rewrite elem_of_cons. intros [->|Hj]; [eauto|].
    apply list_elem_of_In, in_flat_map in Hj as (k & Hin & Hj). apply list_elem_of_In in Hin, Hj.
    rewrite Forall_forall in IH, Hr. apply (IH k); auto.
Qed.

Lemma length_le_size {A} (m : gmap Z A) (l : list Z) :
  NoDup l → (∀ i, i ∈ l → is_Some (m !! i)) → (length l <= size m)%nat.
Proof.
  intros Hn Hl. rewrite <- (size_list_to_set (C := gset Z) l) by done.
  rewrite <- (size_dom (D := gset Z)). apply subseteq_size. intros i Hi.
  apply elem_of_list_to_set in Hi. by apply elem_of_dom, Hl.
Qed.

(** Mapping the registers of a device changes their address and size, and nothing else of the tree. *)
Lemma mmap_grows `{Arch} {W} (dev_ops : Z → option (k_device_driver_ops W)) addr dev t r t' :
  k_io_mmap_device dev_ops addr dev t = Ret (r, t') → grows t t'.
Proof.
  unfold k_io_mmap_device, get_device. destruct (t_devices t !! dev) as [x|] eqn:Hx; [|done]. mstep.
  destruct (k_device_read_conf_u64 _ (Some "reg"%string) _) as [[r1 reg]| |]; mstep; [|done..]. destruct (truth r1); [by intros [= _ <-]|].
  destruct (k_device_read_conf_u64 _ _ _) as [[r2 sz]| |]; mstep; [|done..]. destruct (truth r2); [by intros [= _ <-]|].
  destruct reg as [reg|]; mstep; [|done]. destruct sz as [sz|]; mstep; [|done].
  set (x1 := set_dev_io x _ _ _). destruct (k_device_get_drv _ _) as [drv| |]; mstep; [|done..].
  assert (∀ a b c, grows t (put_device (put_device t dev x1) dev (set_dev_io x1 a b c))) as G.
  { intros a b c. transitivity (put_device t dev x1); [by apply (grows_put_device _ _ x)|].
    apply (grows_put_device _ _ x1); [cbn; by rewrite lookup_insert_eq|done]. }
  destruct (match _ with Some _ => _ | None => _ end) as [v| |]; mstep; [|done..].
  destruct (v =? _); intros [= _ <-]; apply G.
Qed.

(** A probe of all devices, for every tree of devices that the links describe (no device or bus occurs twice). *)
Lemma probe_all_ok {W} (dev_ops : Z → option (k_device_driver_ops W)) (bus_ops : Z → option (k_bus_driver_ops W)) l T t w :
  ops_keep dev_ops bus_ops → registry t l → rep t T → droot T = dev_root →
  NoDup (devs T) → NoDup (busses T) → truth (t_probe_all_enabled t) = true →
  probes dev_ops bus_ops (devs T) (busses T) t (k_device_probe_all dev_ops bus_ops t w) (fun r t' => r = 0 → all_probed t' T).
Proof.
  intros Hops Hr HT Hroot Hd Hb Hen. unfold k_device_probe_all. rewrite Hen. cbn [negb]. rewrite <- Hroot.
  apply (probe_ok dev_ops bus_ops Hops (devs T) (busses T) l); [done..|].
  destruct (rep_dom _ _ HT) as [HD HB].
  pose proof (length_le_size _ _ Hd HD). pose proof (length_le_size _ _ Hb HB).
  pose proof (need_bound T). unfold probe_fuel. lia.
Qed.

(** ** A board with one device *)

(** The device [uart] with the names of driver 3, which is [present] or not. *)
Definition demo_tree : devtree :=
  mk_tree (<[3 := mk_driver (Some "acme") (Some "uart") None]> (t_drivers tree_static))%string
    (<[1 := device_of "uart0" "acme" "uart" (Some [mk_conf "reg" 1 [CNum 0x10000000]])]> (t_devices tree_static))%string
    (t_buses tree_static) 0.

Definition no_dev_ops (d : Z) : option (k_device_driver_ops unit) := None.
Definition no_bus_ops (d : Z) : option (k_bus_driver_ops unit) := None.

(** The initialisation functions of that board. *)
Definition demo_initcalls (present : bool) : list (initcall (W := unit)) :=
  bus_init no_dev_ops no_bus_ops ::
  (if present then [k_driver_add no_dev_ops no_bus_ops 3] else []) ++
  [k_device_add no_dev_ops no_bus_ops (Some 1) (Some bus_root)].

(** The tree after the initialisation functions. *)
Definition demo_up (present : bool) : devtree :=
  match run_initcalls (demo_initcalls present) 0 demo_tree tt with
  | Ret (_, t, _) => k_device_set_probe_all_enabled t 1
  | _ => demo_tree
  end.

(** The tree after a probe. *)
Definition after_probe (t : devtree) : devtree :=
  match k_device_probe_all no_dev_ops no_bus_ops t tt with
  | Ret (_, t, _) => t
  | _ => t
  end.

Definition demo_dtree : dtree := DNode 0 (Some 0) [DNode 1 None []].
Definition demo_registry : list (Z * (string * string)) :=
  [(2, ("none", "bus_root")); (1, ("none", "dev_root")); (3, ("acme", "uart"))]%string.

Lemma demo_registry_ok : registry (demo_up true) demo_registry.
Proof.
  split.
  - repeat (eapply drv_chain_cons; [vm_compute; reflexivity..|]). apply drv_chain_nil.
  - apply (bool_decide_unpack _). vm_compute. done.
Qed.

(** A device whose driver is not part of the build hangs the start-up: the loop
    of [init_drivers] never ends, for any number of iterations. With the driver
    the same start-up ends after one probe with the device probed. *)
Theorem init_drivers_orphan_hangs fuel :
  init_drivers no_dev_ops no_bus_ops fuel (demo_initcalls false) demo_tree tt = Hang ∧
  ∃ t, init_drivers no_dev_ops no_bus_ops (S fuel) (demo_initcalls true) demo_tree tt = Ret (0, t, tt) ∧
    all_probed t demo_dtree.
Proof.
  split.
  - assert (∀ n, probe_loop no_dev_ops no_bus_ops n 0 (after_probe (demo_up false)) tt = Hang) as HL.
    { induction n as [|n IH]; [done|]. cbn [probe_loop].
      assert (k_device_probe_all no_dev_ops no_bus_ops (after_probe (demo_up false)) tt =
        Ret (- EAGAIN, after_probe (demo_up false), tt)) as -> by (vm_compute; reflexivity).
      exact IH. }
    destruct fuel as [|fuel]; [vm_compute; reflexivity|].
    transitivity (probe_loop no_dev_ops no_bus_ops fuel 0 (after_probe (demo_up false)) tt); [|apply HL].
    unfold init_drivers.
    assert (run_initcalls (demo_initcalls false) 0 (k_device_set_probe_all_enabled demo_tree 0) tt =
      Ret (0, k_device_set_probe_all_enabled (demo_up false) 0, tt)) as -> by (vm_compute; reflexivity).
    mstep. cbn [probe_loop].
    assert (k_device_probe_all no_dev_ops no_bus_ops
        (k_device_set_probe_all_enabled (k_device_set_probe_all_enabled (demo_up false) 0) 1) tt =
      Ret (- EAGAIN, after_probe (demo_up false), tt)) as -> by (vm_compute; reflexivity).
    reflexivity.
  - exists (after_probe (demo_up true)). split; [vm_compute; reflexivity|].
    vm_compute. repeat eexists.
Qed.

(** The board before its driver is added. *)
Definition demo_early : devtree :=
  match bus_init no_dev_ops no_bus_ops demo_tree tt with
  | Ret (_, t, _) => t
  | _ => demo_tree
  end.

Lemma k_driver_add_registry_witness :
  ∃ t', k_driver_add no_dev_ops no_bus_ops 3 demo_early tt = Ret (0, t', tt) ∧
    registry t' demo_registry.
Proof.
  assert (registry demo_early [(2, ("none", "bus_root")); (1, ("none", "dev_root"))]%string) as Hr.
  { split.
    - repeat (eapply drv_chain_cons; [vm_compute; reflexivity..|]). apply drv_chain_nil.
    - apply (bool_decide_unpack _). vm_compute. done. }
  pose proof (k_driver_add_registry no_dev_ops no_bus_ops demo_early tt _ 3
    (mk_driver (Some "acme") (Some "uart") None)%string "acme" "uart" Hr) as P.
  destruct P as (t' & E & Hr' & _).
  - reflexivity.
  - reflexivity.
  - reflexivity.
  - reflexivity.
  - reflexivity.
  - apply (bool_decide_unpack _). vm_compute. done.
  - exists t'. split; [exact E|exact Hr'].
Defined.

(** ** Search *)

(** A device has a name, up to case. *)
Definition named (t : devtree) (name : string) (i : Z) : Prop :=
  ∃ x n, t_devices t !! i = Some x ∧ dev_name x = Some n ∧ strcase_eq name n = true.
Definition probed (t : devtree) (i : Z) : Prop :=
  ∃ x, t_devices t !! i = Some x ∧ dev_probed x = true.

(** A device without a bus of its own, that has a name. *)
Definition leaf (t : devtree) (T : dtree) : Prop :=
  ∃ i x n, T = DNode i None [] ∧ t_devices t !! i = Some x ∧ dev_name x = Some n.

(** What a search may answer. *)
Definition found (t : devtree) (name : string) (ids : list Z) (r : Z) (o : option Z) : Prop :=
  (r = 0 ∧ ∃ i, o = Some i ∧ i ∈ ids ∧ named t name i ∧ probed t i) ∨
  (r = - EAGAIN ∧ o = None ∧ ∃ i, i ∈ ids ∧ named t name i ∧ ¬ probed t i) ∨
  (r = - ENODEV ∧ o = None ∧ ∀ i, i ∈ ids → ¬ named t name i).

Lemma found_cons t name i ids r o :
  ¬ named t name i → found t name ids r o → found t name (i :: ids) r o.
Proof.
  intros Hn [(? & j & ? & ? & ? & ?)|[(? & ? & j & ? & ? & ?)|(? & ? & Hno)]].
  - left. split; [done|]. exists j. split_and!; [done|by right|done|done].
  - right. left. split_and!; [done|done|]. exists j. split_and!; [by right|done|done].
  - right. right. split_and!; [done|done|]. intros j [->|Hj]%elem_of_cons; [done|auto].
Qed.

Lemma find_device_flat t name kids : ∀ o fuel,
  sibs t o kids → Forall (leaf t) kids → (length kids <= fuel)%nat →
  ∃ r o', find_device fuel t o name = Ret (r, o') ∧ found t name (droot <$> kids) r o'.
Proof.
  induction kids as [|k kids IH]; intros o fuel Hs Hl Hf; simpl in Hs.
  - subst o. eexists _, _. split; [by destruct fuel|]. right. right. split_and!; [done|done|].
    by intros i ?%elem_of_nil.
  - destruct Hs as (-> & Hr & z & Hz & Hs). apply Forall_cons in Hl as [(i & x & n & -> & Hx & Hn) Hl].
    simpl in Hz, Hf |- *. destruct fuel as [|fuel]; [lia|]. simplify_eq.
    cbn [find_device]. rewrite (get_device_Some _ _ _ Hz). mstep. rewrite Hn. mstep.
    destruct (strcase_eq name n) eqn:E.
    + assert (named t name i) as Hnm by (by exists z, n).
      destruct (dev_probed z) eqn:Ep; simpl.
      * eexists _, _. split; [done|]. left. split; [done|]. exists i.
        split_and!; [done|left|done|by exists z].
      * eexists _, _. split; [done|]. right. left. split_and!; [done|done|]. exists i.
        split_and!; [left|done|]. intros (z' & ? & ?). simplify_eq. congruence.
    + apply rep_eq in Hr as (z' & Hz' & Ec & _).
      rewrite Hz in Hz'. injection Hz' as <-. rewrite Ec.
      destruct (IH (dev_next z) fuel Hs Hl) as (r & o' & Ef & Hfd); [lia|].
      exists r, o'. split; [by destruct (dev_probed z)|]. apply found_cons; [|done].
      intros (z' & n' & ? & ? & ?). simplify_eq. congruence.
Qed.

(** On a bus where no device has a bus of its own, [k_bus_find_device] returns,
    and answers 0 with a probed device of the name, [-EAGAIN] when a device of
    the name is not probed, or [-ENODEV] when no device has the name. *)
Theorem k_bus_find_device_flat t b y kids name
    (Hy : t_buses t !! b = Some y) (Hs : sibs t (bus_dev_child y) kids)
    (Hl : Forall (leaf t) kids) (Hd : NoDup (droot <$> kids)) :
  ∃ r o, k_bus_find_device t (Some b) (Some name) = Ret (r, o) ∧
    found t name (droot <$> kids) r o.
Proof.
  unfold k_bus_find_device. rewrite (get_bus_Some _ _ _ Hy). mstep.
  apply find_device_flat; [done|done|].
  enough (length (droot <$> kids) <= size (t_devices t))%nat by (rewrite length_fmap in *; lia).
  apply length_le_size; [done|]. intros i (k & -> & Hk)%list_elem_of_fmap.
  rewrite Forall_forall in Hl. destruct (Hl k Hk) as (j & x & n & -> & ? & _). simpl. eauto.
Qed.

Lemma k_bus_find_device_flat_witness :
  ∃ r o, k_bus_find_device (after_probe (demo_up true)) (Some 0) (Some "UART0"%string) = Ret (r, o) ∧
    found (after_probe (demo_up true)) "UART0"%string [1] r o.
Proof.
  eapply (k_bus_find_device_flat (after_probe (demo_up true)) 0 _ [DNode 1 None []]).
  - vm_compute. reflexivity.
  - vm_compute. repeat eexists.
  - constructor; [|constructor]. do 3 eexists. split; [reflexivity|]. vm_compute. split; reflexivity.
  - apply NoDup_singleton.
Defined.

(** Two probed devices on the root bus, the first of them with an empty bus. *)
Definition bridge_tree : devtree :=
  mk_tree (t_drivers tree_static)
    {[ 1 := mk_device (Some "bridge") "acme" "bridge" None (Some 4) (Some 0) (Some 1) (Some 2) 0 0 0 true false;
       2 := mk_device (Some "uart0") "acme" "uart" None (Some 3) (Some 0) None None 0 0 0 true false ]}%string
    {[ 0 := mk_bus (Some "root bus") "none" "bus_root" (Some 2) (Some 0) (Some 1) None true false;
       1 := mk_bus (Some "sub bus") "acme" "bus" None (Some 1) None None false false ]}%string
    1.

(** A device behind one that has a bus is never found, though it is on the bus
    that is searched and probed: the search returns what the inner bus answers. *)
Theorem k_bus_find_device_misses :
  sibs bridge_tree (Some 1) [DNode 1 (Some 1) []; DNode 2 None []] ∧
  named bridge_tree "uart0"%string 2 ∧ probed bridge_tree 2 ∧
  k_bus_find_device bridge_tree (Some 0) (Some "uart0"%string) = Ret (- ENODEV, None).
Proof.
  split_and!.
  - vm_compute. repeat eexists.
  - vm_compute. repeat eexists.
  - vm_compute. repeat eexists.
  - vm_compute. reflexivity.
Qed.

(** ** Configuration *)

(** A device configuration as [PROP] builds it: [count] values in an array of 32. *)
Definition conf_wf (c : k_device_config) : Prop :=
  0 <= conf_count c <= 32 ∧ length (conf_vals c) = 32%nat.

Lemma conf_index_spec l name j : 0 <= j →
  (conf_index l name j = -1 ∧ ∀ c, c ∈ l → strcase_eq name (conf_name c) = false) ∨
  (∃ i c, conf_index l name j = j + i ∧ zget l i = Some c ∧ strcase_eq name (conf_name c) = true ∧
    ∀ i' c', 0 <= i' < i → zget l i' = Some c' → strcase_eq name (conf_name c') = false).
Proof.
  revert j. induction l as [|c l IH]; intros j Hj; simpl.
  - left. split; [done|]. by intros c ?%elem_of_nil.
  - destruct (strcase_eq name (conf_name c)) eqn:E.
    + right. exists 0, c. split_and!; [lia|done|done|]. intros; lia.
    + destruct (IH (j + 1)) as [[-> Hn]|(i & c' & -> & Hg & He & Hb)]; [lia| |].
      * left. split; [done|]. intros c' [->|?]%elem_of_cons; auto.
      * right. exists (i + 1), c'. pose proof (zget_Some _ _ _ Hg).
        split_and!; [lia| |done|].
        { unfold zget in *. rewrite (proj2 (Z.ltb_ge (i + 1) 0)) by lia.
          rewrite (proj2 (Z.ltb_ge i 0)) in Hg by lia.
          replace (Z.to_nat (i + 1)) with (S (Z.to_nat i)) by lia. done. }
        { intros i' d Hi' Hd. destruct (decide (i' = 0)) as [->|]; [by injection Hd as <-|].
          apply (Hb (i' - 1) d); [lia|]. unfold zget in *.
          rewrite (proj2 (Z.ltb_ge i' 0)) in Hd by lia. rewrite (proj2 (Z.ltb_ge (i' - 1) 0)) by lia.
          replace (Z.to_nat i') with (S (Z.to_nat (i' - 1))) in Hd by lia. done. }
Qed.

(** Reading a value of a configuration. A name that the configuration has not
    (up to case) and an index from [count] on are [-EINVAL]; an index from 0 below
    [count] gives the value of the first entry of the name; a negative index, which
    the code does not refuse, reads outside of the array. *)
Theorem read_conf_spec dev conf name index
    (Hc : dev_conf dev = Some conf) (Hwf : Forall conf_wf conf) :
  (read_conf (Some dev) (Some name) index = Ret (- EINVAL, None) ∧
     ∀ c, c ∈ conf → strcase_eq name (conf_name c) = false) ∨
  ∃ c, c ∈ conf ∧ strcase_eq name (conf_name c) = true ∧
    if conf_count c <=? index then read_conf (Some dev) (Some name) index = Ret (- EINVAL, None)
    else if index <? 0 then read_conf (Some dev) (Some name) index = Undef
    else ∃ v, conf_vals c !! Z.to_nat index = Some v ∧
      read_conf (Some dev) (Some name) index = Ret (0, Some v).
Proof.
  unfold read_conf, device_find_conf, conf_at. simpl. rewrite Hc. simpl.
  destruct (conf_index_spec conf name 0) as [[-> Hn]|(i & c & -> & Hg & He & _)]; [done|by left|].
  right. exists c. pose proof (zget_Some _ _ _ Hg). rewrite (proj2 (Z.ltb_ge (0 + i) 0)) by lia.
  assert (c ∈ conf) as Hin.
  { unfold zget in Hg. destruct (i <? 0); [done|]. by eapply list_elem_of_lookup_2. }
  split; [done|]. split; [done|]. rewrite Z.add_0_l, Hg. mstep. rewrite Z.geb_leb.
  destruct (conf_count c <=? index) eqn:E; [done|]. bsplit.
  rewrite Forall_forall in Hwf. destruct (Hwf c Hin) as [Hw1 Hw2]. unfold zget.
  destruct (index <? 0) eqn:E2; bsplit; [done|].
  destruct (lookup_lt_is_Some_2 (conf_vals c) (Z.to_nat index)) as [v Hv]; [lia|].
  exists v. split; [done|]. by rewrite Hv.
Qed.

Definition demo_dev : k_device :=
  device_of "uart0" "acme" "uart" (Some [mk_conf "reg" 1 (replicate 32 (CNum 0x10000000))]).

Lemma read_conf_spec_witness :
  read_conf (Some demo_dev) (Some "reg"%string) (-1) = Undef ∧
  (read_conf (Some demo_dev) (Some "clk"%string) 0 = Ret (- EINVAL, None) ∨
   ∃ c, c ∈ [mk_conf "reg" 1 (replicate 32 (CNum 0x10000000))] ∧ strcase_eq "clk" (conf_name c) = true).
Proof.
  split; [vm_compute; reflexivity|].
  destruct (read_conf_spec demo_dev _ "clk"%string 0 eq_refl) as [[E _]|(c & Hc & He & _)].
  - constructor; [|constructor]. vm_compute. repeat split; congruence.
  - left. exact E.
  - right. exists c. split; assumption.
Defined.
