(* ===== verification/Ntoa.v ===== *)
(** * Formatted output: sinks and integers (sys/vsprintf.c, first part)

    An output function takes a character, the index it has in the output and the
    limit, and changes whatever it writes to: a sink is that state [S] with the
    function [out].  The state that the formatting functions thread is the sink
    and the index of the next character. *)

From S2P Require Import Prelude Config.

Definition PRINTF_NTOA_BUFFER_SIZE : Z := 32.

Definition FLAGS_ZEROPAD : Z := BIT 0.
Definition FLAGS_LEFT : Z := BIT 1.
Definition FLAGS_PLUS : Z := BIT 2.
Definition FLAGS_SPACE : Z := BIT 3.
Definition FLAGS_HASH : Z := BIT 4.
Definition FLAGS_UPPERCASE : Z := BIT 5.
Definition FLAGS_CHAR : Z := BIT 6.
Definition FLAGS_SHORT : Z := BIT 7.
Definition FLAGS_LONG : Z := BIT 8.
Definition FLAGS_LONG_LONG : Z := BIT 9.
Definition FLAGS_PRECISION : Z := BIT 10.
Definition FLAGS_ADAPT_EXP : Z := BIT 11.

(** Characters the code writes. *)
Definition ch_space : Z := 32.
Definition ch_0 : Z := 48.

(** [buf[len++] = c] *)
Definition buf_push (buf : list Z) (len c : Z) : exec (list Z * Z) :=
  buf ← of_opt (zset buf len c); Ret (buf, len + 1).

(** [while (cond(len)) buf[len++] = '0'] *)
Definition buf_zeros (cond : Z → bool) (buf : list Z) (len : Z) : exec (list Z * Z) :=
  while 64 (fun '(_, len) => cond len) (fun '(buf, len) => buf_push buf len ch_0) (buf, len).

(** The digits of a value, the lowest first, as long as the buffer has room. *)
Definition digit_char (flags digit : Z) : Z :=
  if digit <? 10 then ch_0 + digit else (if has flags FLAGS_UPPERCASE then 65 else 97) + digit - 10.

Definition ntoa_digits (value base flags : Z) : exec (list Z * Z) :=
  let body '(value, buf, len) :=
    '(buf, len) ← buf_push buf len (digit_char flags (u8 (value mod base)));
    Ret (value / base, buf, len) in
  st ← body (value, replicate 32 0, 0);
  '(_, buf, len) ← while 32 (fun '(value, _, len) => truth value && (len <? PRINTF_NTOA_BUFFER_SIZE)) body st;
  Ret (buf, len).

(** The parts of [_ntoa_format] that fill the buffer: the zeros, with the width that
    is left, the prefix of the base, and the sign. *)
Definition fill_pad (buf : list Z) (len : Z) (negative : bool) (prec width flags : Z) :
    exec (list Z * Z * Z) :=
  if negb (has flags FLAGS_LEFT) then
    let width :=
      if truth width && has flags FLAGS_ZEROPAD &&
         (negative || has flags (Z.lor FLAGS_PLUS FLAGS_SPACE)) then width - 1 else width in
    '(buf, len) ← buf_zeros (fun len => (len <? prec) && (len <? PRINTF_NTOA_BUFFER_SIZE)) buf len;
    '(buf, len) ← buf_zeros (fun len => has flags FLAGS_ZEROPAD && (len <? width) &&
                                        (len <? PRINTF_NTOA_BUFFER_SIZE)) buf len;
    Ret (buf, len, width)
  else Ret (buf, len, width).

Definition fill_hash (buf : list Z) (len base prec width flags : Z) : exec (list Z * Z) :=
  if has flags FLAGS_HASH then
    let len :=
      if negb (has flags FLAGS_PRECISION) && truth len && ((len =? prec) || (len =? width)) then
        let len := len - 1 in
        if truth len && (base =? 16) then len - 1 else len
      else len in
    '(buf, len) ←
      (if (base =? 16) && negb (has flags FLAGS_UPPERCASE) && (len <? PRINTF_NTOA_BUFFER_SIZE)
       then buf_push buf len 120
       else if (base =? 16) && has flags FLAGS_UPPERCASE && (len <? PRINTF_NTOA_BUFFER_SIZE)
       then buf_push buf len 88
       else if (base =? 2) && (len <? PRINTF_NTOA_BUFFER_SIZE)
       then buf_push buf len 98
       else Ret (buf, len));
    if len <? PRINTF_NTOA_BUFFER_SIZE then buf_push buf len ch_0 else Ret (buf, len)
  else Ret (buf, len).

Definition fill_sign (buf : list Z) (len : Z) (negative : bool) (flags : Z) : exec (list Z * Z) :=
  if len <? PRINTF_NTOA_BUFFER_SIZE then
    if negative then buf_push buf len 45
    else if has flags FLAGS_PLUS then buf_push buf len 43
    else if has flags FLAGS_SPACE then buf_push buf len ch_space
    else Ret (buf, len)
  else Ret (buf, len).

Definition ntoa_fill (buf : list Z) (len : Z) (negative : bool) (base prec width flags : Z) :
    exec (list Z * Z * Z) :=
  '(buf, len, width) ← fill_pad buf len negative prec width flags;
  '(buf, len) ← fill_hash buf len base prec width flags;
  '(buf, len) ← fill_sign buf len negative flags;
  Ret (buf, len, width).

(** The flags after [flags &= ~FLAGS_HASH] for a value of zero. *)
Definition ntoa_flags (value flags : Z) : Z :=
  if negb (truth value) then clear flags FLAGS_HASH else flags.

Section Sink.
Context `{Arch} {S : Type}.
Variable out : Z → Z → S → S.

(** [out(c, buffer, idx++, maxlen)] *)
Definition emit (c : Z) (st : S * Z) : S * Z := (out c (snd st) (fst st), usize (snd st + 1)).

Definition k_pri_out_rev (st : S * Z) (buf : list Z) (len width flags : Z) : exec (S * Z) :=
  let start_idx := snd st in
  st ←
    (if negb (has flags FLAGS_LEFT) && negb (has flags FLAGS_ZEROPAD) then
       '(_, st) ← while (Z.to_nat width) (fun '(i, _) => i <? width)
         (fun '(i, st) => Ret (i + 1, emit ch_space st)) (len, st);
       Ret st
     else Ret st);
  '(_, st) ← while (Z.to_nat len) (fun '(len, _) => truth len)
    (fun '(len, st) => c ← of_opt (zget buf (len - 1)); Ret (len - 1, emit c st)) (len, st);
  if has flags FLAGS_LEFT then
    while (Z.to_nat width) (fun st => usize (snd st - start_idx) <? width)
      (fun st => Ret (emit ch_space st)) st
  else Ret st.

Definition _ntoa_format (st : S * Z) (buf : list Z) (len : Z) (negative : bool)
    (base prec width flags : Z) : exec (S * Z) :=
  '(buf, len, width) ← ntoa_fill buf len negative base prec width flags;
  k_pri_out_rev st buf len width flags.

Definition ntoa (st : S * Z) (value : Z) (negative : bool) (base prec width flags : Z) :
    exec (S * Z) :=
  let flags := ntoa_flags value flags in
  '(buf, len) ←
    (if negb (has flags FLAGS_PRECISION) || truth value
     then ntoa_digits value base flags else Ret (replicate 32 0, 0));
  _ntoa_format st buf len negative base prec width flags.

(** The two functions differ in the type of the value only. *)
Definition _ntoa_long (st : S * Z) (value : Z) := ntoa st (usize value).
Definition _ntoa_long_long (st : S * Z) (value : Z) := ntoa st (u64 value).
End Sink.

(** ** Sinks *)

(** [k_pri_out_buffer]: the bytes of the buffer are a function of the index. *)
Definition k_pri_out_buffer (maxlen : Z) (c idx : Z) (buf : Z → Z) : Z → Z :=
  if idx <? maxlen then fun i => if i =? idx then u8 c else buf i else buf.
Definition k_pri_out_null (c idx : Z) (s : unit) : unit := s.
(** [k_pri_out_char]: what was put on the console so far. *)
Definition k_pri_out_char (c idx : Z) (con : list Z) : list Z :=
  if truth c then con ++ [c] else con.
(** A sink that keeps the characters. *)
Definition out_trace (c idx : Z) (l : list Z) : list Z := l ++ [c].

(** ** Every sink sees the same characters *)

(** Two outcomes agree up to a relation on the results. *)
Definition rel_exec {A B} (R : A → B → Prop) (x : exec A) (y : exec B) : Prop :=
  match x, y with
  | Ret a, Ret b => R a b
  | Undef, Undef => True
  | Hang, Hang => True
  | _, _ => False
  end.

Lemma rel_ret {A B} (R : A → B → Prop) a b : R a b → rel_exec R (Ret a) (Ret b).
Proof. done. Qed.

Lemma rel_bind {A B A' B'} (R : A → B → Prop) (R' : A' → B' → Prop) x y f g :
  rel_exec R x y → (∀ a b, R a b → rel_exec R' (f a) (g b)) → rel_exec R' (x ≫= f) (y ≫= g).
Proof. destruct x, y; simpl; auto; done. Qed.

(** The same outcome on both sides, in front of two continuations. *)
Lemma rel_bind_eq {A A' B'} (R' : A' → B' → Prop) (x : exec A) f g :
  (∀ a, rel_exec R' (f a) (g a)) → rel_exec R' (x ≫= f) (x ≫= g).
Proof. destruct x; simpl; auto. Qed.

Lemma rel_if {A B} (R : A → B → Prop) (c : bool) x y x' y' :
  rel_exec R x y → rel_exec R x' y' → rel_exec R (if c then x else x') (if c then y else y').
Proof. by destruct c. Qed.

Lemma rel_while {A B} (R : A → B → Prop) fuel cond cond' body body' a b :
  (∀ a b, R a b → cond a = cond' b) →
  (∀ a b, R a b → rel_exec R (body a) (body' b)) →
  R a b → rel_exec R (while fuel cond body a) (while fuel cond' body' b).
Proof.
  intros Hc Hb. revert a b. induction fuel as [|fuel IH]; intros a b Hab; simpl;
    rewrite (Hc _ _ Hab); destruct (cond' b); try done.
  apply (rel_bind R); auto.
Qed.

Section Replay.
Context `{Arch} {S : Type}.
Variable out : Z → Z → S → S.

Definition emit_all (l : list Z) (st : S * Z) : S * Z := foldl (fun st c => emit out c st) st l.

Lemma emit_all_cons c l st : emit_all (c :: l) st = emit_all l (emit out c st).
Proof. done. Qed.

Lemma emit_all_app l1 l2 st : emit_all (l1 ++ l2) st = emit_all l2 (emit_all l1 st).
Proof. apply foldl_app. Qed.

(** The sink after it was given the characters that [out_trace] has kept. *)
Definition sees (st0 : S * Z) (st : S * Z) (tr : list Z * Z) : Prop :=
  st = emit_all (fst tr) st0 ∧ snd tr = snd st.

Lemma sees_emit st0 st tr c : sees st0 st tr → sees st0 (emit out c st) (emit out_trace c tr).
Proof.
  intros [-> E]. split; simpl; [|by rewrite E].
  unfold out_trace. by rewrite emit_all_app.
Qed.

(** Pairs of a counter and a state. *)
Definition sees2 {A} (st0 : S * Z) (x : A * (S * Z)) (y : A * (list Z * Z)) : Prop :=
  fst x = fst y ∧ sees st0 (snd x) (snd y).

Lemma out_rev_sees st0 st tr buf len width flags :
  sees st0 st tr →
  rel_exec (sees st0) (k_pri_out_rev out st buf len width flags)
    (k_pri_out_rev out_trace tr buf len width flags).
Proof.
  intros Hs. unfold k_pri_out_rev. rewrite (proj2 Hs).
  apply (rel_bind (sees st0)); [apply rel_if; [|done]|intros st1 tr1 Hs1].
  { apply (rel_bind (sees2 st0)).
    - apply rel_while; [by intros [i a] [j b] [E _]; simpl in *; rewrite E| |done].
      intros [i a] [j b] [E Hab]. split; [by simpl in *; rewrite E|by apply sees_emit].
    - by intros [i a] [j b] [_ ?]. }
  apply (rel_bind (sees2 st0)).
  - apply rel_while; [by intros [i a] [j b] [E _]; simpl in *; rewrite E| |done].
    intros [i a] [j b] [E Hab]. simpl in E. subst j. apply rel_bind_eq. intros c.
    split; [done|by apply sees_emit].
  - intros [i st2] [j tr2] [_ Hs2]. apply rel_if; [|done]. apply rel_while; [| |done].
    + intros a b [_ E]. by rewrite E.
    + intros a b Hab. by apply sees_emit.
Qed.

Lemma ntoa_sees st0 st tr value negative base prec width flags :
  sees st0 st tr →
  rel_exec (sees st0) (ntoa out st value negative base prec width flags)
    (ntoa out_trace tr value negative base prec width flags).
Proof.
  intros Hs. unfold ntoa, _ntoa_format. apply rel_bind_eq. intros [buf len].
  apply rel_bind_eq. intros [[buf' len'] width']. by apply out_rev_sees.
Qed.
End Replay.

(** ** What an integer conversion writes *)

(** The first [len] bytes of the buffer are [cs]. *)
Definition buf_is (buf : list Z) (len : Z) (cs : list Z) : Prop :=
  length buf = 32%nat ∧ len = zlen cs ∧ take (length cs) buf = cs.

Lemma buf_push_is buf len cs c :
  buf_is buf len cs → len < 32 →
  ∃ buf', buf_push buf len c = Ret (buf', len + 1) ∧ buf_is buf' (len + 1) (cs ++ [c]).
Proof.
  intros (Hb & -> & Ht) Hl. unfold buf_push. rewrite zset_in by lia. mstep.
  eexists. split; [done|]. split; [by rewrite length_insert|]. rewrite length_app. simpl.
  split; [lia|]. rewrite Nat2Z.id, Nat.add_1_r.
  rewrite (take_S_r _ _ c) by (apply list_lookup_insert_eq; lia).
  by rewrite take_insert_ge, Ht by lia.
Qed.

Lemma buf_is_le buf len cs : buf_is buf len cs → 0 <= len <= 32.
Proof.
  intros (Hb & -> & Ht). apply (f_equal length) in Ht. rewrite length_take in Ht. lia.
Qed.

(** Dropping bytes from the end. *)
Lemma buf_is_drop buf len cs : buf_is buf len cs → 0 < len → ∃ cs', buf_is buf (len - 1) cs'.
Proof.
  intros Hb Hl. pose proof (buf_is_le _ _ _ Hb). destruct Hb as (Hb & _ & _).
  exists (take (Z.to_nat (len - 1)) buf). split; [done|]. rewrite length_take.
  split; [lia|]. f_equal. lia.
Qed.

(** Zeros up to a bound. *)
Lemma buf_zeros_is (bound : Z) cond buf len cs :
  buf_is buf len cs → bound <= 32 → (∀ n, 0 <= n <= 32 → cond n = (n <? bound)) →
  ∃ buf', buf_zeros cond buf len = Ret (buf', Z.max len bound) ∧
    buf_is buf' (Z.max len bound) (cs ++ replicate (Z.to_nat (bound - len)) ch_0).
Proof.
  intros Hb Hbd Hc. unfold buf_zeros.
  assert (∀ fuel buf len cs, buf_is buf len cs → bound - len <= Z.of_nat fuel →
    ∃ buf', while fuel (fun '(_, len) => cond len) (fun '(buf, len) => buf_push buf len ch_0) (buf, len)
      = Ret (buf', Z.max len bound) ∧
    buf_is buf' (Z.max len bound) (cs ++ replicate (Z.to_nat (bound - len)) ch_0)) as Hw.
  { clear buf len cs Hb. induction fuel as [|fuel IH]; intros buf len cs Hb Hf;
      pose proof (buf_is_le _ _ _ Hb); simpl; rewrite Hc by done.
    - rewrite (proj2 (Z.ltb_ge _ _)) by lia. exists buf. rewrite Z.max_l by lia.
      replace (Z.to_nat (bound - len)) with O by lia. simpl. by rewrite app_nil_r.
    - destruct (len <? bound) eqn:E; bsplit.
      + destruct (buf_push_is _ _ _ ch_0 Hb) as (b1 & -> & Hb1); [lia|]. mstep.
        destruct (IH b1 (len + 1) (cs ++ [ch_0]) Hb1) as (b2 & -> & Hb2); [lia|].
        replace (Z.max (len + 1) bound) with (Z.max len bound) in * by lia.
        exists b2. split; [done|]. rewrite <- app_assoc in Hb2.
        replace (Z.to_nat (bound - len)) with (S (Z.to_nat (bound - (len + 1)))) by lia. done.
      + exists buf. rewrite Z.max_l by lia.
        replace (Z.to_nat (bound - len)) with O by lia. simpl. by rewrite app_nil_r. }
  apply Hw; [done|]. pose proof (buf_is_le _ _ _ Hb). lia.
Qed.

(** The digits of a value, the lowest first: at most [n] of them. *)
Fixpoint digits_lo (n : nat) (value base flags : Z) : list Z :=
  match n with
  | O => []
  | S n => digit_char flags (value mod base) ::
           (if value / base =? 0 then [] else digits_lo n (value / base) base flags)
  end.

Lemma digits_lo_length n value base flags : (length (digits_lo n value base flags) <= n)%nat.
Proof.
  revert value. induction n as [|n IH]; intros value; simpl; [lia|].
  destruct (_ =? 0); simpl; [lia|]. specialize (IH (value / base)). lia.
Qed.

Lemma ntoa_digits_loop base flags : 1 < base <= 16 → ∀ n fuel value buf len cs,
  0 <= value → buf_is buf len cs → len = 32 - Z.of_nat n → (n <= fuel)%nat →
  ∃ v' buf' len', while fuel (fun '(value, _, len) => truth value && (len <? PRINTF_NTOA_BUFFER_SIZE))
    (fun '(value, buf, len) =>
       '(buf, len) ← buf_push buf len (digit_char flags (u8 (value mod base)));
       Ret (value / base, buf, len)) (value, buf, len) = Ret (v', buf', len') ∧
    buf_is buf' len' (cs ++ if value =? 0 then [] else digits_lo n value base flags).
Proof.
  intros Hbase. induction n as [|n IH]; intros fuel value buf len cs Hv Hb Hl Hf.
  - exists value, buf, len. split.
    + apply while_done. simpl. unfold PRINTF_NTOA_BUFFER_SIZE.
      rewrite (proj2 (Z.ltb_ge _ _)) by lia. apply andb_false_r.
    + destruct (value =? 0); simpl; by rewrite app_nil_r.
  - destruct (value =? 0) eqn:E; bsplit.
    + subst value. exists 0, buf, len. split; [by apply while_done|]. by rewrite app_nil_r.
    + destruct fuel as [|fuel]; [lia|]. simpl. unfold truth, PRINTF_NTOA_BUFFER_SIZE.
      rewrite (proj2 (Z.eqb_neq value 0)), (proj2 (Z.ltb_lt len 32)) by lia. simpl.
      pose proof (Z.mod_pos_bound value base ltac:(lia)).
      rewrite uwrap_small by lia.
      destruct (buf_push_is _ _ _ (digit_char flags (value mod base)) Hb) as (b1 & -> & Hb1); [lia|].
      mstep.
      destruct (IH fuel (value / base) b1 (len + 1) _ ltac:(apply Z.div_pos; lia) Hb1)
        as (v2 & b2 & l2 & Ew & Hb2); [lia|lia|].
      exists v2, b2, l2. split; [exact Ew|]. by rewrite <- app_assoc in Hb2.
Qed.

(** The conversion keeps the 32 lowest digits. *)
Lemma ntoa_digits_is value base flags :
  1 < base <= 16 → 0 <= value →
  ∃ buf len, ntoa_digits value base flags = Ret (buf, len) ∧
    buf_is buf len (digits_lo 32 value base flags).
Proof.
  intros Hb Hv. unfold ntoa_digits.
  pose proof (Z.mod_pos_bound value base ltac:(lia)). rewrite uwrap_small by lia.
  assert (buf_is (replicate 32 0) 0 []) as B0 by done.
  destruct (buf_push_is _ _ _ (digit_char flags (value mod base)) B0) as (b1 & -> & B1); [lia|].
  mstep.
  destruct (ntoa_digits_loop base flags Hb 31 32 (value / base) b1 (0 + 1) _
    ltac:(apply Z.div_pos; lia) B1) as (v & b2 & l2 & -> & B2); [lia|lia|].
  mstep. eexists _, _. split; [done|]. exact B2.
Qed.

(** *** The output in reverse *)

Section OutRev.
Context `{Arch} {S : Type}.
Variable out : Z → Z → S → S.

Lemma pad_loop c width : ∀ fuel i st, 0 <= i → width - i <= Z.of_nat fuel →
  while fuel (fun '(i, _) => i <? width) (fun '(i, st) => Ret (i + 1, emit out c st)) (i, st) =
  Ret (Z.max i width, emit_all out (replicate (Z.to_nat (width - i)) c) st).
Proof.
  induction fuel as [|fuel IH]; intros i st Hi Hf; simpl; destruct (i <? width) eqn:E; bsplit.
  - lia.
  - rewrite Z.max_l by lia. by replace (Z.to_nat (width - i)) with O by lia.
  - mstep. rewrite IH by lia. rewrite Z.max_r, Z.max_r by lia.
    replace (Z.to_nat (width - i)) with (Datatypes.S (Z.to_nat (width - (i + 1)))) by lia. done.
  - rewrite Z.max_l by lia. by replace (Z.to_nat (width - i)) with O by lia.
Qed.

Lemma rev_loop buf cs st : buf_is buf (zlen cs) cs →
  while (Z.to_nat (zlen cs)) (fun '(len, _) => truth len)
    (fun '(len, st) => c ← of_opt (zget buf (len - 1)); Ret (len - 1, emit out c st)) (zlen cs, st) =
  Ret (0, emit_all out (rev cs) st).
Proof.
  intros (Hb & _ & Ht). rewrite Nat2Z.id.
  assert (∀ k, (k <= length cs)%nat → zget buf (Z.of_nat k - 1) = if (k =? 0)%nat then None else cs !! (k - 1)%nat) as Hz.
  { intros k Hk. unfold zget. destruct k as [|k]; simpl; [done|].
    rewrite (proj2 (Z.ltb_ge _ _)) by lia. rewrite Nat.sub_0_r.
    replace (Z.to_nat _) with k by lia. 
    transitivity (take (length cs) buf !! k); [by rewrite lookup_take_lt by lia|by rewrite Ht]. }
  clear Hb Ht. revert st. induction cs as [|c cs IH] using rev_ind; intros st; [done|].
  rewrite length_app, Nat.add_1_r. simpl.
  rewrite Hz by (rewrite length_app; simpl; lia). simpl.
  rewrite Nat.sub_0_r, lookup_app_r, Nat.sub_diag by lia. simpl. mstep.
  replace (Z.of_nat (Datatypes.S (length cs)) - 1) with (zlen cs) by lia. rewrite IH.
  - by rewrite rev_unit.
  - intros k Hk. rewrite Hz by (rewrite length_app; simpl; lia).
    destruct (k =? 0)%nat eqn:E; [done|]. apply Nat.eqb_neq in E. rewrite lookup_app_l by lia. done.
Qed.

Lemma emit_all_idx l st : 0 <= snd st < 2 ^ xlen → snd (emit_all out l st) = usize (snd st + zlen l).
Proof.
  revert st. induction l as [|c l IH]; intros st Hs; simpl.
  - by rewrite Z.add_0_r, uwrap_small.
  - rewrite IH; simpl.
    + unfold uwrap. rewrite Zplus_mod_idemp_l. f_equal. lia.
    + apply uwrap_range. pose proof xlen_ge. lia.
Qed.

(** Characters written since an index, while they are fewer than the address space. *)
Lemma idx_since i n : 0 <= i → 0 <= n < 2 ^ xlen → usize (usize (i + n) - i) = n.
Proof.
  intros Hi Hn. unfold uwrap. rewrite Zminus_mod_idemp_l.
  replace (i + n - i) with n by lia. by apply Z.mod_small.
Qed.

Lemma width_xlen width : 0 <= width < 2 ^ 32 → width < 2 ^ xlen.
Proof. intros. destruct xlen_cases as [E|E]; rewrite E; lia. Qed.

Lemma left_pad width start l st0 : ∀ fuel,
  0 <= width < 2 ^ 32 → 0 <= start < 2 ^ xlen → snd st0 = start → zlen l < 2 ^ 32 →
  width - zlen l <= Z.of_nat fuel →
  while fuel (fun st => usize (snd st - start) <? width) (fun st => Ret (emit out ch_space st))
    (emit_all out l st0) = Ret (emit_all out (l ++ replicate (Z.to_nat (width - zlen l)) ch_space) st0).
Proof.
  intros fuel Hw Hs Es. revert l. pose proof (width_xlen _ Hw).
  assert (2 ^ 32 <= 2 ^ xlen) by (destruct xlen_cases as [E|E]; rewrite E; lia).
  induction fuel as [|fuel IH]; intros l Hl Hf; simpl;
    (rewrite emit_all_idx by (by rewrite Es)); rewrite Es, idx_since by lia;
    destruct (zlen l <? width) eqn:E; bsplit.
  - lia.
  - replace (Z.to_nat (width - zlen l)) with O by lia. by rewrite app_nil_r.
  - mstep. change (emit out ch_space (emit_all out l st0)) with (emit_all out [ch_space] (emit_all out l st0)).
    rewrite <- emit_all_app, IH by (rewrite length_app; simpl; lia).
    rewrite length_app, <- app_assoc. simpl. do 4 f_equal.
    replace (Z.to_nat (width - zlen l)) with (Datatypes.S (Z.to_nat (width - Z.of_nat (length l + 1)))) by lia.
    done.
  - replace (Z.to_nat (width - zlen l)) with O by lia. by rewrite app_nil_r.
Qed.

(** What [k_pri_out_rev] writes, for every combination of the flags. *)
Definition out_rev_chars (cs : list Z) (width flags : Z) : list Z :=
  let pad := replicate (Z.to_nat (width - zlen cs)) ch_space in
  if has flags FLAGS_LEFT then rev cs ++ pad
  else if has flags FLAGS_ZEROPAD then rev cs
  else pad ++ rev cs.

Lemma out_rev_eq st buf len cs width flags :
  buf_is buf len cs → 0 <= width < 2 ^ 32 → 0 <= snd st < 2 ^ xlen →
  k_pri_out_rev out st buf len width flags = Ret (emit_all out (out_rev_chars cs width flags) st).
Proof.
  intros Hb Hw Hst. pose proof (buf_is_le _ _ _ Hb) as Hle. pose proof Hb as (_ & -> & _).
  unfold k_pri_out_rev, out_rev_chars.
  destruct (has flags FLAGS_LEFT) eqn:EL; simpl.
  - rewrite (rev_loop buf cs st Hb). mstep.
    rewrite <- (length_rev cs) at 1. rewrite (left_pad width (snd st) (rev cs) st) by
      (done || (rewrite length_rev; lia)). by rewrite length_rev.
  - destruct (has flags FLAGS_ZEROPAD); simpl.
    + rewrite (rev_loop buf cs st Hb). done.
    + rewrite pad_loop by lia. mstep. rewrite (rev_loop buf cs _ Hb). mstep.
      by rewrite emit_all_app.
Qed.
End OutRev.

(** *** The buffer of a conversion *)

Definition sign_chars (negative : bool) (flags : Z) : list Z :=
  if negative then [45] else if has flags FLAGS_PLUS then [43]
  else if has flags FLAGS_SPACE then [ch_space] else [].

(** The width that is left after room for a sign was taken from it. *)
Definition fill_width (negative : bool) (width flags : Z) : Z :=
  if negb (has flags FLAGS_LEFT) then
    if truth width && has flags FLAGS_ZEROPAD &&
       (negative || has flags (Z.lor FLAGS_PLUS FLAGS_SPACE)) then width - 1 else width
  else width.

(** Zeros in front of [n] digits. *)
Definition fill_zeros (n : Z) (negative : bool) (prec width flags : Z) : list Z :=
  if has flags FLAGS_LEFT then [] else
  replicate (Z.to_nat (Z.max (Z.min prec 32)
    (if has flags FLAGS_ZEROPAD then Z.min (fill_width negative width flags) 32 else 0) - n)) ch_0.

Lemma fill_width_range negative width flags :
  0 <= width → 0 <= fill_width negative width flags <= width.
Proof.
  intros Hw. unfold fill_width, truth. destruct (negb (has flags FLAGS_LEFT)); [|lia].
  destruct (width =? 0) eqn:E; bsplit; simpl; [lia|]. destruct (_ && _); lia.
Qed.

(** The first step: zeros. *)
Lemma fill_zeros_is buf len cs negative prec width flags :
  buf_is buf len cs →
  ∃ buf' len', fill_pad buf len negative prec width flags = Ret (buf', len', fill_width negative width flags) ∧
    buf_is buf' len' (cs ++ fill_zeros len negative prec width flags).
Proof.
  intros Hb. unfold fill_pad, fill_zeros, fill_width. destruct (has flags FLAGS_LEFT); simpl.
  { eexists _, _. split; [done|]. by rewrite app_nil_r. }
  match goal with |- context [if ?c then width - 1 else width] =>
    set (width' := if c then width - 1 else width) end.
  destruct (buf_zeros_is (Z.min prec 32)
    (fun len => (len <? prec) && (len <? PRINTF_NTOA_BUFFER_SIZE)) buf len cs Hb)
    as (b1 & -> & B1); [lia| |].
  { intros n Hn. unfold PRINTF_NTOA_BUFFER_SIZE.
    destruct (n <? prec) eqn:?, (n <? 32) eqn:?, (n <? Z.min prec 32) eqn:?; bsplit; simpl; lia. }
  mstep.
  destruct (buf_zeros_is (if has flags FLAGS_ZEROPAD then Z.min width' 32 else 0)
    (fun len => has flags FLAGS_ZEROPAD && (len <? width') && (len <? PRINTF_NTOA_BUFFER_SIZE))
    b1 _ _ B1) as (b2 & -> & B2); [destruct (has flags FLAGS_ZEROPAD); lia| |].
  { intros n Hn. unfold PRINTF_NTOA_BUFFER_SIZE.
    destruct (has flags FLAGS_ZEROPAD); simpl;
    destruct (n <? width') eqn:?, (n <? 32) eqn:?, (n <? _) eqn:?; bsplit; simpl; lia. }
  mstep. eexists _, _. split; [done|]. rewrite <- app_assoc, <- replicate_add in B2.
  replace (Z.to_nat (Z.max (Z.min prec 32) (if has flags FLAGS_ZEROPAD then Z.min width' 32 else 0) - len))
    with (Z.to_nat (Z.min prec 32 - len) +
      Z.to_nat ((if has flags FLAGS_ZEROPAD then Z.min width' 32 else 0) - Z.max len (Z.min prec 32)))%nat;
    [done|].
  pose proof (buf_is_le _ _ _ Hb). destruct (has flags FLAGS_ZEROPAD); lia.
Qed.

(** The last step: the sign, when there is room for it. *)
Lemma fill_sign_is buf len cs (negative : bool) flags :
  buf_is buf len cs →
  ∃ buf' len', fill_sign buf len negative flags = Ret (buf', len') ∧
    buf_is buf' len' (cs ++ if len <? 32 then sign_chars negative flags else []).
Proof.
  intros Hb. unfold fill_sign, PRINTF_NTOA_BUFFER_SIZE, sign_chars.
  destruct (len <? 32) eqn:E; bsplit; [|eexists _, _; by rewrite app_nil_r].
  destruct negative; [|destruct (has flags FLAGS_PLUS); [|destruct (has flags FLAGS_SPACE)]];
    try (edestruct (buf_push_is buf len cs) as (b & -> & B); [done|done|]; by eexists _, _).
  eexists _, _. by rewrite app_nil_r.
Qed.

(** A push guarded by the size of the buffer. *)
Lemma push_room buf len cs c (g : bool) (k : exec (list Z * Z)) :
  buf_is buf len cs →
  (∃ b n cs', k = Ret (b, n) ∧ buf_is b n cs') →
  ∃ b n cs', (if g && (len <? PRINTF_NTOA_BUFFER_SIZE) then buf_push buf len c else k) = Ret (b, n) ∧
    buf_is b n cs'.
Proof.
  intros Hb Hk. destruct (g && _) eqn:E; [|done]. bsplit. unfold PRINTF_NTOA_BUFFER_SIZE in *.
  destruct (buf_push_is _ _ _ c Hb) as (b & -> & B); [lia|]. by eexists _, _, _.
Qed.

Lemma fill_hash_total buf len cs base prec width flags :
  buf_is buf len cs →
  ∃ b n cs', fill_hash buf len base prec width flags = Ret (b, n) ∧ buf_is b n cs' ∧
    (has flags FLAGS_HASH = false → b = buf ∧ n = len ∧ cs' = cs).
Proof.
  intros B1. unfold fill_hash. destruct (has flags FLAGS_HASH); [|by eexists _, _, _].
  match goal with |- context [if ?c then ?x else len] => set (l1 := if c then x else len) end.
  assert (∃ cs1, buf_is buf l1 cs1) as (cs1 & B1').
  { unfold l1, truth. pose proof (buf_is_le _ _ _ B1).
    destruct (negb (has flags FLAGS_PRECISION) && _ && _) eqn:E; [|eauto]. unfold truth in *. bsplit.
    destruct (buf_is_drop _ _ _ B1) as (cs1 & B2); [lia|].
    destruct (negb (len - 1 =? 0) && _) eqn:E2; [|eauto]. bsplit.
    eapply buf_is_drop; [done|]. pose proof (buf_is_le _ _ _ B2). lia. }
  edestruct (push_room buf l1 cs1) as (b2 & l2 & cs2 & E2 & B2); [done| |].
  { eapply push_room; [done|]. eapply push_room; [done|]. by eexists _, _, _. }
  rewrite E2. mstep.
  destruct (push_room b2 l2 cs2 ch_0 true (Ret (b2, l2)) B2) as (b3 & l3 & cs3 & E3 & B3);
    [by eexists _, _, _|]. simpl in E3. rewrite E3. by eexists _, _, _.
Qed.

(** Filling the buffer stays inside of it, whatever the flags. *)
Lemma ntoa_fill_total buf len cs negative base prec width flags :
  buf_is buf len cs →
  ∃ buf' len' cs', ntoa_fill buf len negative base prec width flags =
    Ret (buf', len', fill_width negative width flags) ∧ buf_is buf' len' cs' ∧
    (has flags FLAGS_HASH = false →
     cs' = (cs ++ fill_zeros len negative prec width flags) ++
           if zlen (cs ++ fill_zeros len negative prec width flags) <? 32
           then sign_chars negative flags else []).
Proof.
  intros Hb. unfold ntoa_fill.
  destruct (fill_zeros_is buf len cs negative prec width flags Hb) as (b1 & l1 & -> & B1). mstep.
  destruct (fill_hash_total b1 l1 _ base prec (fill_width negative width flags) flags B1)
    as (b2 & l2 & cs2 & -> & B2 & Hh). mstep.
  destruct (fill_sign_is b2 l2 _ negative flags B2) as (b4 & l4 & -> & B4). mstep.
  eexists _, _, _. split; [done|]. split; [done|]. intros E.
  destruct (Hh E) as (-> & -> & ->). pose proof B1 as (_ & -> & _). done.
Qed.

(** *** The value that digits denote *)

Definition digit_val (c : Z) : Z := if c <=? 57 then c - 48 else if c <=? 70 then c - 55 else c - 87.
Definition num_val (base : Z) (d : list Z) : Z := foldl (fun a c => a * base + digit_val c) 0 d.

Lemma digit_val_char flags n : 0 <= n < 16 → digit_val (digit_char flags n) = n.
Proof.
  intros Hn. unfold digit_val, digit_char, ch_0.
  destruct (n <? 10) eqn:E; bsplit.
  - rewrite (proj2 (Z.leb_le _ _)) by lia. lia.
  - destruct (has flags FLAGS_UPPERCASE).
    + rewrite (proj2 (Z.leb_gt _ _)), (proj2 (Z.leb_le _ _)) by lia. lia.
    + rewrite !(proj2 (Z.leb_gt _ _)) by lia. lia.
Qed.

Lemma num_val_digits base flags n value :
  1 < base <= 16 → 0 <= value < base ^ Z.of_nat n →
  num_val base (rev (digits_lo n value base flags)) = value.
Proof.
  intros Hb. unfold num_val. revert value. induction n as [|n IH]; intros value Hv.
  - simpl in *. lia.
  - pose proof (Z.mod_pos_bound value base ltac:(lia)) as Hm.
    pose proof (Z.div_mod value base ltac:(lia)) as Hd.
    assert (0 <= value / base) by (apply Z.div_pos; lia).
    simpl. rewrite foldl_app. simpl. rewrite digit_val_char by lia.
    destruct (value / base =? 0) eqn:E; bsplit; simpl; [lia|].
    rewrite IH; [lia|]. split; [done|]. apply Z.div_lt_upper_bound; [lia|].
    rewrite <- Z.pow_succ_r by lia. rewrite <- Nat2Z.inj_succ. lia.
Qed.

Lemma digits_lo_short base flags k n value :
  1 < base <= 16 → (0 < k)%nat → 0 <= value < base ^ Z.of_nat k →
  (length (digits_lo n value base flags) <= k)%nat.
Proof.
  intros Hb. revert k value. induction n as [|n IH]; intros k value Hk Hv; simpl; [lia|].
  assert (0 <= value / base) by (apply Z.div_pos; lia).
  destruct (value / base =? 0) eqn:E; bsplit; simpl; [lia|].
  destruct k as [|k]; [lia|]. rewrite Nat2Z.inj_succ, Z.pow_succ_r in Hv by lia.
  assert (value / base < base ^ Z.of_nat k) by (apply Z.div_lt_upper_bound; lia).
  destruct k as [|k]; [simpl in *; lia|].
  specialize (IH (S k) (value / base)). lia.
Qed.

(** Digits have no zero in front, but for the value zero itself. *)
Lemma digits_first base flags n value :
  1 < base <= 16 → 0 < value < base ^ Z.of_nat n →
  ∃ c l, rev (digits_lo n value base flags) = c :: l ∧ 0 < digit_val c.
Proof.
  intros Hb. revert value. induction n as [|n IH]; intros value Hv; [simpl in *; lia|].
  pose proof (Z.mod_pos_bound value base ltac:(lia)) as Hm.
  pose proof (Z.div_mod value base ltac:(lia)) as Hd.
  assert (0 <= value / base) by (apply Z.div_pos; lia). simpl.
  destruct (value / base =? 0) eqn:E; bsplit; simpl.
  - eexists _, []. split; [done|]. rewrite digit_val_char by lia. nia.
  - destruct (IH (value / base)) as (c & l & -> & Hc).
    + split; [lia|]. apply Z.div_lt_upper_bound; [lia|].
      rewrite <- Z.pow_succ_r by lia. rewrite <- Nat2Z.inj_succ. lia.
    + by eexists _, _.
Qed.

(** The digits of a conversion: none for a zero with an explicit precision. *)
Definition ntoa_num (value base flags : Z) : list Z :=
  if has flags FLAGS_PRECISION && (value =? 0) then [] else rev (digits_lo 32 value base flags).

(** Sign, zeros and digits, padded with spaces as the flags say. *)
Definition ntoa_layout (d : list Z) (negative : bool) (prec width flags : Z) : list Z :=
  let body := sign_chars negative flags ++ fill_zeros (zlen d) negative prec width flags ++ d in
  let pad := replicate (Z.to_nat (width - zlen body)) ch_space in
  if has flags FLAGS_LEFT then body ++ pad
  else if has flags FLAGS_ZEROPAD then body
  else pad ++ body.

Lemma rev_replicate {A} n (x : A) : rev (replicate n x) = replicate n x.
Proof.
  induction n as [|n IH]; simpl; [done|]. rewrite IH.
  change [x] with (replicate 1 x). rewrite <- replicate_add, Nat.add_1_r. done.
Qed.

Lemma rev_sign negative flags : rev (sign_chars negative flags) = sign_chars negative flags.
Proof. unfold sign_chars. destruct negative, (has flags FLAGS_PLUS), (has flags FLAGS_SPACE); done. Qed.

Lemma rev_fill_zeros n negative prec width flags :
  rev (fill_zeros n negative prec width flags) = fill_zeros n negative prec width flags.
Proof. unfold fill_zeros. destruct (has flags FLAGS_LEFT); [done|]. apply rev_replicate. Qed.

Lemma fill_width_plain negative width flags :
  has flags FLAGS_LEFT = true ∨ has flags FLAGS_ZEROPAD = false →
  fill_width negative width flags = width.
Proof.
  unfold fill_width. intros [-> | ->]; [done|]. rewrite andb_false_r. simpl.
  by destruct (negb _).
Qed.

(** The digits in the buffer. *)
Lemma ntoa_num_is value base flags :
  1 < base <= 16 → 0 <= value →
  ∃ buf len, (if negb (has flags FLAGS_PRECISION) || truth value
     then ntoa_digits value base flags else Ret (replicate 32 0, 0)) = Ret (buf, len) ∧
    buf_is buf len (rev (ntoa_num value base flags)).
Proof.
  intros Hb Hv. unfold ntoa_num, truth.
  destruct (has flags FLAGS_PRECISION && (value =? 0)) eqn:E.
  - apply andb_true_iff in E as [-> ->]. cbn [negb orb]. eexists _, _. by split.
  - assert (negb (has flags FLAGS_PRECISION) || negb (value =? 0) = true) as ->.
    { by rewrite <- negb_andb, E. }
    rewrite rev_involutive. by apply ntoa_digits_is.
Qed.

Lemma out_rev_chars_length cs width flags :
  0 <= width → zlen cs <= 32 → zlen (out_rev_chars cs width flags) <= Z.max 32 width.
Proof.
  intros Hw Hc. unfold out_rev_chars.
  destruct (has flags FLAGS_LEFT), (has flags FLAGS_ZEROPAD);
    rewrite ?length_app, ?length_rev, ?length_replicate; lia.
Qed.

Lemma layout_eq d negative prec width flags cs :
  cs = (rev d ++ fill_zeros (zlen d) negative prec width flags) ++ sign_chars negative flags →
  out_rev_chars cs (fill_width negative width flags) flags = ntoa_layout d negative prec width flags.
Proof.
  intros ->. unfold out_rev_chars, ntoa_layout.
  rewrite !rev_app_distr, rev_involutive, rev_sign, rev_fill_zeros.
  assert (zlen ((rev d ++ fill_zeros (zlen d) negative prec width flags) ++ sign_chars negative flags) =
    zlen (sign_chars negative flags ++ fill_zeros (zlen d) negative prec width flags ++ d)) as ->.
  { rewrite !length_app, length_rev. lia. }
  destruct (has flags FLAGS_LEFT) eqn:EL; [by rewrite fill_width_plain by auto|].
  destruct (has flags FLAGS_ZEROPAD) eqn:EZ; [done|]. by rewrite fill_width_plain by auto.
Qed.

Section NtoaClaims.
Context `{Arch} {S : Type}.
Variable out : Z → Z → S → S.

(** An integer conversion, in general. *)
Lemma ntoa_main st value negative base prec width flags
    (Hb : 1 < base <= 16) (Hv : 0 <= value) (Hw : 0 <= width < 2 ^ 32) (Hs : 0 <= snd st < 2 ^ xlen) :
  ∃ cs, ntoa out st value negative base prec width flags = Ret (emit_all out cs st) ∧
    zlen cs <= Z.max 32 width ∧
    let d := ntoa_num value base flags in
    (has flags FLAGS_HASH = false → value < base ^ 32 →
     zlen (fill_zeros (zlen d) negative prec width flags ++ d) < 32 →
     cs = ntoa_layout d negative prec width flags ∧
     (value = 0 ∨ num_val base d = value ∧ ∃ c l, d = c :: l ∧ 0 < digit_val c)).
Proof.
  unfold ntoa, _ntoa_format. set (fl := ntoa_flags value flags).
  destruct (ntoa_num_is value base fl Hb Hv) as (b1 & l1 & -> & B1). mstep.
  destruct (ntoa_fill_total b1 l1 _ negative base prec width fl B1) as (b2 & l2 & cs & -> & B2 & Hh).
  mstep. pose proof (fill_width_range negative width fl ltac:(lia)) as Hfw.
  exists (out_rev_chars cs (fill_width negative width fl) fl).
  rewrite (out_rev_eq out _ _ _ cs) by (done || lia).
  split; [done|]. split.
  { pose proof (out_rev_chars_length cs (fill_width negative width fl) fl ltac:(lia)) as Hl.
    pose proof (buf_is_le _ _ _ B2) as Hle. destruct B2 as (_ & E2 & _). lia. }
  set (d := ntoa_num value base flags). intros EH Hvb Hfit. assert (fl = flags) as Efl.
  { unfold fl, ntoa_flags. destruct (negb (truth value)); [by apply clear_id|done]. }
  rewrite Efl in *. split.
  - apply layout_eq. rewrite Hh by done. pose proof B1 as (_ & -> & _). rewrite length_rev. fold d.
    rewrite (proj2 (Z.ltb_lt _ _)); [done|]. rewrite !length_app, length_rev in *. lia.
  - destruct (decide (value = 0)) as [->|Hne]; [by left|]. right. unfold d, ntoa_num.
    rewrite (proj2 (Z.eqb_neq value 0)), andb_false_r by done.
    split; [apply num_val_digits|apply digits_first]; simpl; lia.
Qed.

(** C40: an integer conversion is defined for every value, flag, precision and width:
    it never leaves its buffer of 32 characters and writes at most
    [max(32, width)]. Without the [#] flag, and while the zeros and digits are
    fewer than 32, it writes the sign, the zeros and the digits, padded with
    spaces to the width as the flags say; the digits read back as the value and
    have no zero in front of them. *)
Theorem ntoa_ok st value negative base prec width flags
    (Hb : 1 < base <= 16) (Hv : 0 <= value) (Hw : 0 <= width < 2 ^ 32) (Hs : 0 <= snd st < 2 ^ xlen) :
  ∃ cs, ntoa out st value negative base prec width flags = Ret (emit_all out cs st) ∧
    zlen cs <= Z.max 32 width ∧
    let d := ntoa_num value base flags in
    (has flags FLAGS_HASH = false → value < base ^ 32 →
     zlen (fill_zeros (zlen d) negative prec width flags ++ d) < 32 →
     cs = ntoa_layout d negative prec width flags ∧
     (value = 0 ∨ num_val base d = value ∧ ∃ c l, d = c :: l ∧ 0 < digit_val c)).
Proof. by apply ntoa_main. Qed.
End NtoaClaims.

(** [%+05d] of -42, and the digits of 42. *)
Lemma ntoa_ok_witness :
  ∃ cs, @ntoa rv32 (list Z) out_trace ([], 0) 42 true 10 0 5 (Z.lor FLAGS_PLUS FLAGS_ZEROPAD) =
    Ret (@emit_all rv32 _ out_trace cs ([], 0)) ∧ cs = [45; 48; 48; 52; 50].
Proof.
  destruct (@ntoa_ok rv32 (list Z) out_trace ([], 0) 42 true 10 0 5 (Z.lor FLAGS_PLUS FLAGS_ZEROPAD))
    as (cs & E & _ & Hl).
  - lia.
  - lia.
  - lia.
  - vm_compute. split; congruence.
  - exists cs. split; [exact E|]. destruct Hl as [Hl _].
    + reflexivity.
    + vm_compute. reflexivity.
    + vm_compute. reflexivity.
    + rewrite Hl. vm_compute. reflexivity.
Defined.
