(* ===== verification/Ftoa.v ===== *)
(** * Formatted output: floating point (sys/vsprintf.c, second part)

    [double] is IEEE 754 binary64 as the Standard Library specifies it
    ([SpecFloat]), every operation rounded to nearest even and none contracted.
    A conversion to an integer type that does not have the value is undefined
    behaviour, and so is an index outside of [pow10]. *)

From Stdlib Require Import SpecFloat.
From S2P Require Import Prelude Config Ntoa.

Notation double := spec_float.

Definition fadd (x y : double) : double := SFadd 53 1024 x y.
Definition fsub (x y : double) : double := SFsub 53 1024 x y.
Definition fmul (x y : double) : double := SFmul 53 1024 x y.
Definition fdiv (x y : double) : double := SFdiv 53 1024 x y.
Definition flt (x y : double) : bool := SFltb x y.
Definition fgt (x y : double) : bool := SFltb y x.
Definition fge (x y : double) : bool := SFleb y x.

(** An integer as a double. *)
Definition of_int (z : Z) : double := binary_normalize 53 1024 z 0 false.

(** A literal, as its 53-bit significand and exponent. *)
Definition lit (m : positive) (e : Z) : double := S754_finite false m e.

Definition DBL_MAX : double := lit 9007199254740991 971.
Definition PRINTF_MAX_FLOAT : double := lit 8388608000000000 (-23).
Definition f_half : double := lit 4503599627370496 (-53).

(** The integer part, towards zero; none for infinities and for no number. *)
Definition ftrunc (x : double) : option Z :=
  match x with
  | S754_zero _ => Some 0
  | S754_finite s m e =>
    let v := if 0 <=? e then Z.pos m * 2 ^ e else Z.pos m / 2 ^ (- e) in
    Some (if s then - v else v)
  | _ => None
  end.

Definition to_int (x : double) : exec Z :=
  z ← of_opt (ftrunc x);
  if (- 2 ^ 31 <=? z) && (z <? 2 ^ 31) then Ret z else Undef.
Definition to_ulong `{Arch} (x : double) : exec Z :=
  z ← of_opt (ftrunc x);
  if (0 <=? z) && (z <? 2 ^ xlen) then Ret z else Undef.

(** The representation of a double, and back. *)
Definition bits_of (x : double) : Z :=
  match x with
  | S754_zero s => if s then 2 ^ 63 else 0
  | S754_infinity s => (if s then 2 ^ 63 else 0) + 2047 * 2 ^ 52
  | S754_nan => 2047 * 2 ^ 52 + 2 ^ 51
  | S754_finite s m e =>
    (if s then 2 ^ 63 else 0) +
    (if Z.pos m <? 2 ^ 52 then Z.pos m else (e + 1075) * 2 ^ 52 + (Z.pos m - 2 ^ 52))
  end.
Definition of_bits (u : Z) : double :=
  let s := Z.testbit u 63 in
  let e := Z.land (Z.shiftr u 52) 2047 in
  let m := Z.land u (2 ^ 52 - 1) in
  if e =? 2047 then if m =? 0 then S754_infinity s else S754_nan
  else if e =? 0 then match m with Z.pos p => S754_finite s p (-1074) | _ => S754_zero s end
  else match m + 2 ^ 52 with Z.pos p => S754_finite s p (e - 1075) | _ => S754_nan end.

Definition PRINTF_FTOA_BUFFER_SIZE : Z := 32.
Definition PRINTF_DEFAULT_FLOAT_PRECISION : Z := 6.

Definition pow10 : list double :=
  of_int <$> [1; 10; 100; 1000; 10000; 100000; 1000000; 10000000; 100000000; 1000000000].

(** The rounding of the fraction: the whole part and the fraction of a value that is
    not negative, for a precision of at most 9. *)
Definition ftoa_round `{Arch} (value : double) (prec : Z) : exec (Z * Z) :=
  whole ← to_int value;
  p10 ← of_opt (zget pow10 prec);
  let tmp := fmul (fsub value (of_int whole)) p10 in
  frac ← to_ulong tmp;
  let diff := fsub tmp (of_int frac) in
  let '(whole, frac) :=
    if fgt diff f_half then
      let frac := usize (frac + 1) in
      if fge (of_int frac) p10 then (i32 (whole + 1), 0) else (whole, frac)
    else if flt diff f_half then (whole, frac)
    else if (frac =? 0) || truth (Z.land frac 1) then (whole, usize (frac + 1))
    else (whole, frac) in
  Ret (whole, frac).

(** The digits of the fraction and the decimal point, for a precision other than 0. *)
Definition ftoa_frac (buf : list Z) (len frac prec : Z) : exec (list Z * Z) :=
  '(count, buf, len, _, _) ←
    while 33 (fun '(_, _, len, _, go) => (go : bool) && (len <? PRINTF_FTOA_BUFFER_SIZE))
      (fun '(count, buf, len, frac, _) =>
         let count := u32 (count - 1) in
         '(buf, len) ← buf_push buf len (u8 (48 + frac mod 10));
         let frac := frac / 10 in
         Ret (count, buf, len, frac, truth frac)) (prec, buf, len, frac, true);
  '(buf, len, _) ←
    while 33 (fun '(_, len, count) => (len <? PRINTF_FTOA_BUFFER_SIZE) && (0 <? count))
      (fun '(buf, len, count) =>
         '(buf, len) ← buf_push buf len ch_0; Ret (buf, len, count - 1)) (buf, len, count);
  if len <? PRINTF_FTOA_BUFFER_SIZE then buf_push buf len 46 else Ret (buf, len).

(** The digits of the whole part. *)
Definition ftoa_whole (buf : list Z) (len whole : Z) : exec (list Z * Z) :=
  '(buf, len, _, _) ←
    while 33 (fun '(_, len, _, go) => (go : bool) && (len <? PRINTF_FTOA_BUFFER_SIZE))
      (fun '(buf, len, whole, _) =>
         '(buf, len) ← buf_push buf len (u8 (48 + Z.rem whole 10));
         let whole := Z.quot whole 10 in
         Ret (buf, len, whole, truth whole)) (buf, len, whole, true);
  Ret (buf, len).

Section Sink.
Context `{Arch} {S : Type}.
Variable out : Z → Z → S → S.

(** [__ftoa] from the test for a negative value on. *)
Definition ftoa_fixed (st : S * Z) (value : double) (prec width flags : Z) : exec (S * Z) :=
  let negative := flt value (S754_zero false) in
  let value := if negative then fsub (S754_zero false) value else value in
  let prec := if negb (has flags FLAGS_PRECISION) then PRINTF_DEFAULT_FLOAT_PRECISION else prec in
  '(buf, len, prec) ←
    while 33 (fun '(_, len, prec) => (len <? PRINTF_FTOA_BUFFER_SIZE) && (prec >? 9))
      (fun '(buf, len, prec) =>
         '(buf, len) ← buf_push buf len ch_0; Ret (buf, len, prec - 1)) (replicate 32 0, 0, prec);
  '(whole, frac) ← ftoa_round value prec;
  '(buf, len, whole) ←
    (if prec =? 0 then
       let diff := fsub value (of_int whole) in
       let whole :=
         if (negb (flt diff f_half) || fgt diff f_half) && truth (Z.land whole 1)
         then i32 (whole + 1) else whole in
       Ret (buf, len, whole)
     else '(buf, len) ← ftoa_frac buf len frac prec; Ret (buf, len, whole));
  '(buf, len) ← ftoa_whole buf len whole;
  '(buf, len, width) ←
    (if negb (has flags FLAGS_LEFT) && has flags FLAGS_ZEROPAD then
       let width :=
         if truth width && (negative || has flags (Z.lor FLAGS_PLUS FLAGS_SPACE))
         then width - 1 else width in
       '(buf, len) ← buf_zeros (fun len => (len <? width) && (len <? PRINTF_FTOA_BUFFER_SIZE)) buf len;
       Ret (buf, len, width)
     else Ret (buf, len, width));
  '(buf, len) ← fill_sign buf len negative flags;
  k_pri_out_rev out st buf len width flags.

(** The decimal exponent of a positive value, and the power of ten to divide it by. *)
Definition etoa_scale (value : double) : exec (Z * double) :=
  let u := bits_of value in
  let exp2 := Z.land (Z.shiftr u 52) 0x7ff - 1023 in
  let F := of_bits (Z.lor (Z.land u (2 ^ 52 - 1)) (Z.shiftl 1023 52)) in
  expval ← to_int (fadd (fadd (lit 6344356229335219 (-55))
                              (fmul (of_int exp2) (lit 5422874305198587 (-54))))
                        (fmul (fsub F (lit 6755399441055744 (-52))) (lit 5215702578316129 (-54))));
  exp2 ← to_int (fadd (fmul (of_int expval) (lit 7480317065143153 (-51))) f_half);
  let z := fsub (fmul (of_int expval) (lit 5184960683398422 (-51)))
                (fmul (of_int exp2) (lit 6243314768165359 (-53))) in
  let z2 := fmul z z in
  let F := of_bits (u64 (Z.shiftl (u64 (i32 (exp2 + 1023))) 52)) in
  let F := fmul F (fadd (of_int 1)
    (fdiv (fmul (of_int 2) z)
          (fadd (fsub (of_int 2) z)
                (fdiv z2 (fadd (of_int 6) (fdiv z2 (fadd (of_int 10) (fdiv z2 (of_int 14))))))))) in
  if flt value F then Ret (expval - 1, fdiv F (of_int 10)) else Ret (expval, F).

(** [__ftoa] and [__etoa] call each other; the value that [__etoa] hands on is in
    the range that [__ftoa] prints itself, so a few calls are enough. *)
Fixpoint __ftoa (fuel : nat) (st : S * Z) (value : double) (prec width flags : Z) {struct fuel} :
    exec (S * Z) :=
  match fuel with
  | O => Hang
  | Datatypes.S fuel =>
    if negb (SFeqb value value) then k_pri_out_rev out st [110; 97; 110] 3 width flags
    else if flt value (SFopp DBL_MAX) then k_pri_out_rev out st [102; 110; 105; 45] 4 width flags
    else if fgt value DBL_MAX then
      if has flags FLAGS_PLUS then k_pri_out_rev out st [102; 110; 105; 43] 4 width flags
      else k_pri_out_rev out st [102; 110; 105] 3 width flags
    else if fgt value PRINTF_MAX_FLOAT || flt value (SFopp PRINTF_MAX_FLOAT)
    then __etoa fuel st value prec width flags
    else ftoa_fixed st value prec width flags
  end
with __etoa (fuel : nat) (st : S * Z) (value : double) (prec width flags : Z) {struct fuel} :
    exec (S * Z) :=
  match fuel with
  | O => Hang
  | Datatypes.S fuel =>
    if negb (SFeqb value value) || fgt value DBL_MAX || flt value (SFopp DBL_MAX)
    then __ftoa fuel st value prec width flags
    else
    let negative := flt value (S754_zero false) in
    let value := if negative then SFopp value else value in
    let prec := if negb (has flags FLAGS_PRECISION) then PRINTF_DEFAULT_FLOAT_PRECISION else prec in
    '(expval, F) ← etoa_scale value;
    let minwidth := if (expval <? 100) && (expval >? -100) then 4 else 5 in
    let '(prec, flags, minwidth, expval) :=
      if has flags FLAGS_ADAPT_EXP then
        if fge value (lit 7378697629483821 (-66)) && flt value (of_int 1000000) then
          let prec := if i32 prec >? expval then u32 (i32 prec - expval - 1) else 0 in
          (prec, Z.lor flags FLAGS_PRECISION, 0, 0)
        else
          (if (0 <? prec) && has flags FLAGS_PRECISION then prec - 1 else prec, flags, minwidth, expval)
      else (prec, flags, minwidth, expval) in
    let fwidth := if width >? minwidth then width - minwidth else 0 in
    let fwidth := if has flags FLAGS_LEFT && truth minwidth then 0 else fwidth in
    let value := if truth expval then fdiv value F else value in
    let start_idx := snd st in
    st ← __ftoa fuel st (if negative then SFopp value else value) prec fwidth (clear flags FLAGS_ADAPT_EXP);
    if truth minwidth then
      let st := emit out (if has flags FLAGS_UPPERCASE then 69 else 101) st in
      st ← _ntoa_long out st (if expval <? 0 then - expval else expval) (expval <? 0) 10 0
             (minwidth - 1) (Z.lor FLAGS_ZEROPAD FLAGS_PLUS);
      if has flags FLAGS_LEFT then
        while (Z.to_nat width) (fun st => usize (snd st - start_idx) <? width)
          (fun st => Ret (emit out ch_space st)) st
      else Ret st
    else Ret st
  end.
End Sink.

(** Calls that [__ftoa] and [__etoa] may nest. *)
Definition FLOAT_CALLS : nat := 8.

(** What a conversion writes, as text. *)
Definition ftoa_text `{Arch} (value : double) (prec width flags : Z) : exec (list Z) :=
  st ← __ftoa out_trace FLOAT_CALLS ([], 0) value prec width flags; Ret (fst st).
Definition etoa_text `{Arch} (value : double) (prec width flags : Z) : exec (list Z) :=
  st ← __etoa out_trace FLOAT_CALLS ([], 0) value prec width flags; Ret (fst st).

(** ** Every sink sees the same characters *)

Section Replay.
Context `{Arch} {S : Type}.
Variable out : Z → Z → S → S.

Lemma ftoa_fixed_sees st0 st tr value prec width flags :
  sees out st0 st tr →
  rel_exec (sees out st0) (ftoa_fixed out st value prec width flags)
    (ftoa_fixed out_trace tr value prec width flags).
Proof.
  intros Hs. unfold ftoa_fixed.
  apply rel_bind_eq. intros [[b1 l1] p1]. apply rel_bind_eq. intros [w1 f1].
  apply rel_bind_eq. intros [[b2 l2] w2]. apply rel_bind_eq. intros [b3 l3].
  apply rel_bind_eq. intros [[b4 l4] w4]. apply rel_bind_eq. intros [b5 l5].
  by apply out_rev_sees.
Qed.

Lemma left_pad_sees st0 st tr fuel start width :
  sees out st0 st tr →
  rel_exec (sees out st0)
    (while fuel (fun st => usize (snd st - start) <? width) (fun st => Ret (emit out ch_space st)) st)
    (while fuel (fun st => usize (snd st - start) <? width) (fun st => Ret (emit out_trace ch_space st)) tr).
Proof.
  intros Hs. apply rel_while; [| |done].
  - intros a b [_ E]. by rewrite E.
  - intros a b Hab. by apply sees_emit.
Qed.

Lemma float_sees fuel : ∀ st0 st tr value prec width flags, sees out st0 st tr →
  rel_exec (sees out st0) (__ftoa out fuel st value prec width flags)
    (__ftoa out_trace fuel tr value prec width flags) ∧
  rel_exec (sees out st0) (__etoa out fuel st value prec width flags)
    (__etoa out_trace fuel tr value prec width flags).
Proof.
  induction fuel as [|fuel IH]; intros st0 st tr value prec width flags Hs; [done|]. split.
  - cbn [__ftoa]. apply rel_if; [by apply out_rev_sees|].
    apply rel_if; [by apply out_rev_sees|].
    apply rel_if; [apply rel_if; by apply out_rev_sees|].
    apply rel_if; [by apply IH|by apply ftoa_fixed_sees].
  - cbn [__etoa]. apply rel_if; [by apply IH|]. cbv zeta.
    apply rel_bind_eq. intros [expval F].
    match goal with |- rel_exec _ (match ?x with _ => _ end) _ => destruct x as [[[p fl] mw] ev] end.
    apply (rel_bind (sees out st0)); [by apply IH|]. intros st1 tr1 Hs1.
    apply rel_if; [|done].
    apply (rel_bind (sees out st0)); [by apply ntoa_sees, sees_emit|]. intros st2 tr2 Hs2.
    apply rel_if; [|done]. rewrite (proj2 Hs). by apply left_pad_sees.
Qed.
End Replay.

(** ** Properties *)

(** Characters of a string. *)
Fixpoint text (s : string) : list Z :=
  match s with
  | EmptyString => []
  | String a s => Z.of_N (Ascii.N_of_ascii a) :: text s
  end.

(** Conversions of floating-point numbers that go wrong. [%.1f] of 0.95 writes 32
    digits and no decimal point, since a fraction that is rounded up at exactly a
    half is not carried into the whole part; [%.42f] reads outside of the table of
    powers of ten, since the precision is cut down only while the buffer has room;
    and [%e] of 0 has the exponent -308. *)
Theorem float_conversion_defects `{Arch} :
  ftoa_text (lit 8556839292003942 (-53)) 1 0 FLAGS_PRECISION =
    Ret (text "00000000000000000000000000000010") ∧
  ftoa_text (of_int 1) 42 0 FLAGS_PRECISION = Undef ∧
  etoa_text (S754_zero false) 2 0 FLAGS_PRECISION = Ret (text "0.00e-308").
Proof.
  destruct H as [w [E|E]]; subst w; split_and!; vm_compute; reflexivity.
Qed.
