(* ===== verification/Vsprintf.v ===== *)
(** * Formatted output: the format string (sys/vsprintf.c, third part)

    The format is the list of its bytes; the byte behind the last is the
    terminator, and reading behind the terminator is undefined behaviour.  The
    variadic arguments are a list of typed values; taking an argument that is
    missing or of another type is undefined behaviour. *)

From Stdlib Require Import SpecFloat.
From S2P Require Import Prelude Config Ntoa Ftoa.

Inductive va_value :=
| VInt (z : Z)
| VLong (z : Z)
| VLongLong (z : Z)
| VStr (s : list Z)
| VPtr (p : Z)
| VDouble (d : double).

(** [va_arg] at each type, with the rest of the arguments. *)
Definition va_int (va : list va_value) : exec (Z * list va_value) :=
  match va with VInt z :: va => Ret (z, va) | _ => Undef end.
Definition va_long (va : list va_value) : exec (Z * list va_value) :=
  match va with VLong z :: va => Ret (z, va) | _ => Undef end.
Definition va_longlong (va : list va_value) : exec (Z * list va_value) :=
  match va with VLongLong z :: va => Ret (z, va) | _ => Undef end.
Definition va_str (va : list va_value) : exec (list Z * list va_value) :=
  match va with VStr s :: va => Ret (s, va) | _ => Undef end.
Definition va_ptr (va : list va_value) : exec (Z * list va_value) :=
  match va with VPtr p :: va => Ret (p, va) | _ => Undef end.
Definition va_double (va : list va_value) : exec (double * list va_value) :=
  match va with VDouble d :: va => Ret (d, va) | _ => Undef end.

(** [s[i]] of a C string. *)
Definition cchar (s : list Z) (i : Z) : exec Z := if i =? zlen s then Ret 0 else of_opt (zget s i).

(** A case label of the format. *)
Definition is_ch (c : Z) (l : list Z) : bool := existsb (Z.eqb c) l.

Definition _is_digit (ch : Z) : bool := (48 <=? ch) && (ch <=? 57).

(** [_atoi(&format)]: the number and the new position. *)
Fixpoint atoi_loop (fuel : nat) (fmt : list Z) (pos i : Z) : exec (Z * Z) :=
  c ← cchar fmt pos;
  if _is_digit c then
    match fuel with
    | O => Hang
    | S fuel => atoi_loop fuel fmt (pos + 1) (u32 (i * 10 + (c - 48)))
    end
  else Ret (i, pos).
Definition _atoi (fmt : list Z) (pos : Z) : exec (Z * Z) := atoi_loop (S (length fmt)) fmt pos 0.

Fixpoint strnlen_loop (fuel : nat) (s : list Z) (i maxsize : Z) : exec Z :=
  c ← cchar s i;
  if truth c && truth maxsize then
    match fuel with
    | O => Hang
    | S fuel => strnlen_loop fuel s (i + 1) (maxsize - 1)
    end
  else Ret i.
Definition _strnlen_s (s : list Z) (maxsize : Z) : exec Z :=
  n ← strnlen_loop (S (length s)) s 0 maxsize; Ret (u32 n).

(** The flags between [%] and the width. *)
Fixpoint parse_flags (fuel : nat) (fmt : list Z) (pos flags : Z) : exec (Z * Z) :=
  match fuel with
  | O => Hang
  | S fuel =>
    c ← cchar fmt pos;
    if c =? 48 then parse_flags fuel fmt (pos + 1) (Z.lor flags FLAGS_ZEROPAD)
    else if c =? 45 then parse_flags fuel fmt (pos + 1) (Z.lor flags FLAGS_LEFT)
    else if c =? 43 then parse_flags fuel fmt (pos + 1) (Z.lor flags FLAGS_PLUS)
    else if c =? 32 then parse_flags fuel fmt (pos + 1) (Z.lor flags FLAGS_SPACE)
    else if c =? 35 then parse_flags fuel fmt (pos + 1) (Z.lor flags FLAGS_HASH)
    else Ret (flags, pos)
  end.

(** The width: flags, width, position and arguments. *)
Definition parse_width (fmt : list Z) (pos flags : Z) (va : list va_value) :
    exec (Z * Z * Z * list va_value) :=
  c ← cchar fmt pos;
  if _is_digit c then
    '(width, pos) ← _atoi fmt pos; Ret (flags, width, pos, va)
  else if c =? 42 then
    '(z, va) ← va_int va;
    let w := i32 z in
    if w <? 0 then Ret (Z.lor flags FLAGS_LEFT, u32 (- w), pos + 1, va)
    else Ret (flags, u32 w, pos + 1, va)
  else Ret (flags, 0, pos, va).

(** The precision: flags, precision, position and arguments. *)
Definition parse_precision (fmt : list Z) (pos flags : Z) (va : list va_value) :
    exec (Z * Z * Z * list va_value) :=
  c ← cchar fmt pos;
  if c =? 46 then
    let flags := Z.lor flags FLAGS_PRECISION in
    let pos := pos + 1 in
    c ← cchar fmt pos;
    if _is_digit c then
      '(precision, pos) ← _atoi fmt pos; Ret (flags, precision, pos, va)
    else if c =? 42 then
      '(z, va) ← va_int va;
      let prec := i32 z in
      Ret (flags, if prec >? 0 then prec else 0, pos + 1, va)
    else Ret (flags, 0, pos, va)
  else Ret (flags, 0, pos, va).

Section Vsnprintf.
Context `{Arch}.

(** The length field. [ptrdiff_t] and [size_t] have the size of [long]; [intmax_t] has
    64 bits. *)
Definition parse_length (fmt : list Z) (pos flags : Z) : exec (Z * Z) :=
  c ← cchar fmt pos;
  if c =? 108 then
    let flags := Z.lor flags FLAGS_LONG in
    let pos := pos + 1 in
    c ← cchar fmt pos;
    if c =? 108 then Ret (Z.lor flags FLAGS_LONG_LONG, pos + 1) else Ret (flags, pos)
  else if c =? 104 then
    let flags := Z.lor flags FLAGS_SHORT in
    let pos := pos + 1 in
    c ← cchar fmt pos;
    if c =? 104 then Ret (Z.lor flags FLAGS_CHAR, pos + 1) else Ret (flags, pos)
  else if c =? 116 then Ret (Z.lor flags FLAGS_LONG, pos + 1)
  else if c =? 106 then
    Ret (Z.lor flags (if xlen =? 64 then FLAGS_LONG else FLAGS_LONG_LONG), pos + 1)
  else if c =? 122 then Ret (Z.lor flags FLAGS_LONG, pos + 1)
  else Ret (flags, pos).

Section Sink.
Context {S : Type}.
Variable out : Z → Z → S → S.

(** [while (l++ < width) out(' ', ...)] *)
Definition pad_to (l width : Z) (st : S * Z) : exec (S * Z) :=
  '(_, st) ← while (Z.to_nat width) (fun '(l, _) => l <? width)
    (fun '(l, st) => Ret (l + 1, emit out ch_space st)) (l, st);
  Ret st.

(** The conversions [d i u x X o b]. *)
Definition conv_int (c : Z) (st : S * Z) (va : list va_value) (precision width flags : Z) :
    exec (S * Z * list va_value) :=
  let base := if (c =? 120) || (c =? 88) then 16 else if c =? 111 then 8 else if c =? 98 then 2 else 10 in
  let flags := if base =? 10 then clear flags FLAGS_HASH else flags in
  let flags := if c =? 88 then Z.lor flags FLAGS_UPPERCASE else flags in
  let signed := (c =? 105) || (c =? 100) in
  let flags := if signed then flags else clear flags (Z.lor FLAGS_PLUS FLAGS_SPACE) in
  let flags := if has flags FLAGS_PRECISION then clear flags FLAGS_ZEROPAD else flags in
  if signed then
    if has flags FLAGS_LONG_LONG then
      '(z, va) ← va_longlong va;
      let value := i64 z in
      st ← _ntoa_long_long out st (if value >? 0 then value else i64 (0 - value)) (value <? 0) base precision width flags;
      Ret (st, va)
    else if has flags FLAGS_LONG then
      '(z, va) ← va_long va;
      let value := isize z in
      st ← _ntoa_long out st (if value >? 0 then value else isize (0 - value)) (value <? 0) base precision width flags;
      Ret (st, va)
    else
      '(z, va) ← va_int va;
      let value := if has flags FLAGS_CHAR then u8 z else if has flags FLAGS_SHORT then swrap 16 z else i32 z in
      st ← _ntoa_long out st (u32 (if value >? 0 then value else i32 (0 - value))) (value <? 0) base precision width flags;
      Ret (st, va)
  else
    if has flags FLAGS_LONG_LONG then
      '(z, va) ← va_longlong va;
      st ← _ntoa_long_long out st (u64 z) false base precision width flags;
      Ret (st, va)
    else if has flags FLAGS_LONG then
      '(z, va) ← va_long va;
      st ← _ntoa_long out st (usize z) false base precision width flags;
      Ret (st, va)
    else
      '(z, va) ← va_int va;
      let value := if has flags FLAGS_CHAR then u8 z else if has flags FLAGS_SHORT then u16 z else u32 z in
      st ← _ntoa_long out st value false base precision width flags;
      Ret (st, va).

Definition conv_char (st : S * Z) (va : list va_value) (width flags : Z) :
    exec (S * Z * list va_value) :=
  st ← (if negb (has flags FLAGS_LEFT) then pad_to 1 width st else Ret st);
  '(z, va) ← va_int va;
  let st := emit out (u8 z) st in
  st ← (if has flags FLAGS_LEFT then pad_to 1 width st else Ret st);
  Ret (st, va).

(** The loop over the characters of a string, up to the precision when there is one. *)
Fixpoint str_loop (fuel : nat) (s : list Z) (i precision : Z) (limited : bool) (st : S * Z) :
    exec (S * Z) :=
  c ← cchar s i;
  if truth c && (negb limited || truth precision) then
    match fuel with
    | O => Hang
    | Datatypes.S fuel =>
      str_loop fuel s (i + 1) (if limited then precision - 1 else precision) limited (emit out c st)
    end
  else Ret st.

Definition conv_str (st : S * Z) (va : list va_value) (precision width flags : Z) :
    exec (S * Z * list va_value) :=
  '(p, va) ← va_str va;
  l ← _strnlen_s p (if truth precision then precision else usize (-1));
  let l := if has flags FLAGS_PRECISION then (if l <? precision then l else precision) else l in
  st ← (if negb (has flags FLAGS_LEFT) then pad_to l width st else Ret st);
  st ← str_loop (Datatypes.S (length p)) p 0 precision (has flags FLAGS_PRECISION) st;
  st ← (if has flags FLAGS_LEFT then pad_to l width st else Ret st);
  Ret (st, va).

Definition conv_ptr (st : S * Z) (va : list va_value) (precision flags : Z) :
    exec (S * Z * list va_value) :=
  let width := xlen / 8 * 2 in
  let flags := Z.lor flags (Z.lor FLAGS_ZEROPAD FLAGS_UPPERCASE) in
  '(p, va) ← va_ptr va;
  st ← (if xlen =? 64 then _ntoa_long_long out st (usize p) false 16 precision width flags
        else _ntoa_long out st (usize p) false 16 precision width flags);
  Ret (st, va).

Definition conv_float (c : Z) (st : S * Z) (va : list va_value) (precision width flags : Z) :
    exec (S * Z * list va_value) :=
  let flags := if (c =? 103) || (c =? 71) then Z.lor flags FLAGS_ADAPT_EXP else flags in
  let flags := if is_ch c [70; 69; 71] then Z.lor flags FLAGS_UPPERCASE else flags in
  '(d, va) ← va_double va;
  st ← (if (c =? 102) || (c =? 70) then __ftoa out FLOAT_CALLS st d precision width flags
        else __etoa out FLOAT_CALLS st d precision width flags);
  Ret (st, va).

(** The conversion of the specifier [c]. *)
Definition convert (c : Z) (st : S * Z) (va : list va_value) (precision width flags : Z) :
    exec (S * Z * list va_value) :=
  if is_ch c [100; 105; 117; 120; 88; 111; 98] then conv_int c st va precision width flags
  else if is_ch c [102; 70; 101; 69; 103; 71] then conv_float c st va precision width flags
  else if c =? 99 then conv_char st va width flags
  else if c =? 115 then conv_str st va precision width flags
  else if c =? 112 then conv_ptr st va precision flags
  else if c =? 37 then Ret (emit out 37 st, va)
  else Ret (emit out c st, va).

(** One turn of the loop over the format. *)
Definition directive (fmt : list Z) (pos : Z) (va : list va_value) (st : S * Z) :
    exec (Z * list va_value * (S * Z)) :=
  c ← cchar fmt pos;
  if negb (c =? 37) then Ret (pos + 1, va, emit out c st) else
  let pos := pos + 1 in
  '(flags, pos) ← parse_flags (Datatypes.S (Datatypes.S (length fmt))) fmt pos 0;
  '(flags, width, pos, va) ← parse_width fmt pos flags va;
  '(flags, precision, pos, va) ← parse_precision fmt pos flags va;
  '(flags, pos) ← parse_length fmt pos flags;
  c ← cchar fmt pos;
  '(st, va) ← convert c st va precision width flags;
  Ret (pos + 1, va, st).

Fixpoint format_loop (fuel : nat) (fmt : list Z) (pos : Z) (va : list va_value) (st : S * Z) :
    exec (S * Z) :=
  c ← cchar fmt pos;
  if truth c then
    match fuel with
    | O => Hang
    | Datatypes.S fuel =>
      '(pos, va, st) ← directive fmt pos va st;
      format_loop fuel fmt pos va st
    end
  else Ret st.

(** [k_vsnprintf_inner] with an output function. *)
Definition vsnprintf_run (maxlen : Z) (fmt : list Z) (va : list va_value) (s : S) : exec (Z * S) :=
  '(s, idx) ← format_loop (Datatypes.S (length fmt)) fmt 0 va (s, 0);
  let s := out 0 (if idx <? maxlen then idx else usize (maxlen - 1)) s in
  Ret (i32 idx, s).
End Sink.

(** A null buffer is replaced by the output function that drops everything. *)
Definition k_vsnprintf_inner {S} (out : Z → Z → S → S) (null : bool) (maxlen : Z)
    (fmt : list Z) (va : list va_value) (s : S) : exec (Z * S) :=
  if null then '(r, _) ← vsnprintf_run k_pri_out_null maxlen fmt va tt; Ret (r, s)
  else vsnprintf_run out maxlen fmt va s.

Definition k_vprintf_nolock (fmt : list Z) (va : list va_value) (con : list Z) : exec (Z * list Z) :=
  k_vsnprintf_inner k_pri_out_char false (usize (-1)) fmt va con.

Definition k_vsnprintf_nolock (null : bool) (count : Z) (fmt : list Z) (va : list va_value)
    (buf : Z → Z) : exec (Z * (Z → Z)) :=
  k_vsnprintf_inner (k_pri_out_buffer count) null count fmt va buf.
End Vsnprintf.

(** ** Every sink sees the same characters *)

Section Replay.
Context `{Arch} {S : Type}.
Variable out : Z → Z → S → S.
Variable st0 : S * Z.

(** A state and the arguments that are left. *)
Definition sees_va (x : S * Z * list va_value) (y : list Z * Z * list va_value) : Prop :=
  snd x = snd y ∧ sees out st0 (fst x) (fst y).

Lemma pad_to_sees l width st tr :
  sees out st0 st tr → rel_exec (sees out st0) (pad_to out l width st) (pad_to out_trace l width tr).
Proof.
  intros Hs. unfold pad_to. apply (rel_bind (sees2 out st0)).
  - apply rel_while; [by intros [i a] [j b] [E _]; simpl in *; rewrite E| |done].
    intros [i a] [j b] [E Hab]. split; [by simpl in *; rewrite E|by apply sees_emit].
  - by intros [i a] [j b] [_ ?].
Qed.

(** A conversion of an integer followed by the return of the arguments. *)
Lemma ntoa_va_sees st tr va value negative base prec width flags :
  sees out st0 st tr →
  rel_exec sees_va
    (st ← ntoa out st value negative base prec width flags; Ret (st, va))
    (st ← ntoa out_trace tr value negative base prec width flags; Ret (st, va)).
Proof.
  intros Hs. apply (rel_bind (sees out st0)); [by apply ntoa_sees|]. done.
Qed.

Lemma conv_int_sees c st tr va prec width flags :
  sees out st0 st tr →
  rel_exec sees_va (conv_int out c st va prec width flags) (conv_int out_trace c tr va prec width flags).
Proof.
  intros Hs. unfold conv_int, _ntoa_long, _ntoa_long_long. cbv zeta.
  repeat apply rel_if; apply rel_bind_eq; intros [z va']; by apply ntoa_va_sees.
Qed.

Lemma conv_float_sees c st tr va prec width flags :
  sees out st0 st tr →
  rel_exec sees_va (conv_float out c st va prec width flags) (conv_float out_trace c tr va prec width flags).
Proof.
  intros Hs. unfold conv_float. cbv zeta. apply rel_bind_eq. intros [d va'].
  apply (rel_bind (sees out st0)); [apply rel_if; by apply float_sees|]. done.
Qed.

Lemma conv_char_sees st tr va width flags :
  sees out st0 st tr →
  rel_exec sees_va (conv_char out st va width flags) (conv_char out_trace tr va width flags).
Proof.
  intros Hs. unfold conv_char.
  apply (rel_bind (sees out st0)); [apply rel_if; [by apply pad_to_sees|done]|]. intros st1 tr1 Hs1.
  apply rel_bind_eq. intros [z va'].
  apply (rel_bind (sees out st0)); [|done].
  apply rel_if; [by apply pad_to_sees, sees_emit|by apply sees_emit].
Qed.

Lemma str_loop_sees fuel s : ∀ i precision limited st tr,
  sees out st0 st tr →
  rel_exec (sees out st0) (str_loop out fuel s i precision limited st)
    (str_loop out_trace fuel s i precision limited tr).
Proof.
  induction fuel as [|fuel IH]; intros i precision limited st tr Hs; simpl;
    apply rel_bind_eq; intros c; (apply rel_if; [|done]); [done|].
  by apply IH, sees_emit.
Qed.

Lemma conv_str_sees st tr va prec width flags :
  sees out st0 st tr →
  rel_exec sees_va (conv_str out st va prec width flags) (conv_str out_trace tr va prec width flags).
Proof.
  intros Hs. unfold conv_str. apply rel_bind_eq. intros [p va']. apply rel_bind_eq. intros l. cbv zeta.
  apply (rel_bind (sees out st0)); [apply rel_if; [by apply pad_to_sees|done]|]. intros st1 tr1 Hs1.
  apply (rel_bind (sees out st0)); [by apply str_loop_sees|]. intros st2 tr2 Hs2.
  apply (rel_bind (sees out st0)); [|done]. apply rel_if; [by apply pad_to_sees|done].
Qed.

Lemma conv_ptr_sees st tr va prec flags :
  sees out st0 st tr →
  rel_exec sees_va (conv_ptr out st va prec flags) (conv_ptr out_trace tr va prec flags).
Proof.
  intros Hs. unfold conv_ptr. cbv zeta. apply rel_bind_eq. intros [p va'].
  apply (rel_bind (sees out st0)); [apply rel_if; by apply ntoa_sees|]. done.
Qed.

Lemma convert_sees c st tr va prec width flags :
  sees out st0 st tr →
  rel_exec sees_va (convert out c st va prec width flags) (convert out_trace c tr va prec width flags).
Proof.
  intros Hs. unfold convert.
  apply rel_if; [by apply conv_int_sees|]. apply rel_if; [by apply conv_float_sees|].
  apply rel_if; [by apply conv_char_sees|]. apply rel_if; [by apply conv_str_sees|].
  apply rel_if; [by apply conv_ptr_sees|].
  apply rel_if; apply rel_ret; (split; [done|by apply sees_emit]).
Qed.

(** The position, the arguments and the state after a turn of the loop. *)
Definition sees_turn (x : Z * list va_value * (S * Z)) (y : Z * list va_value * (list Z * Z)) : Prop :=
  fst x = fst y ∧ sees out st0 (snd x) (snd y).

Lemma directive_sees fmt pos va st tr :
  sees out st0 st tr → rel_exec sees_turn (directive out fmt pos va st) (directive out_trace fmt pos va tr).
Proof.
  intros Hs. unfold directive. apply rel_bind_eq. intros c.
  apply rel_if; [split; [done|by apply sees_emit]|]. cbv zeta.
  apply rel_bind_eq. intros [fl p1]. apply rel_bind_eq. intros [[[fl2 w] p2] va2].
  apply rel_bind_eq. intros [[[fl3 pr] p3] va3]. apply rel_bind_eq. intros [fl4 p4].
  apply rel_bind_eq. intros c'.
  apply (rel_bind sees_va); [by apply convert_sees|].
  intros [st1 va4] [tr1 va5] [E Hs1]. simpl in *. subst. by split.
Qed.

Lemma format_loop_sees fmt fuel : ∀ pos va st tr,
  sees out st0 st tr →
  rel_exec (sees out st0) (format_loop out fuel fmt pos va st) (format_loop out_trace fuel fmt pos va tr).
Proof.
  induction fuel as [|fuel IH]; intros pos va st tr Hs; simpl;
    apply rel_bind_eq; intros c; (apply rel_if; [|done]); [done|].
  apply (rel_bind sees_turn); [by apply directive_sees|].
  intros [[p1 va1] st1] [[p2 va2] tr1] [E Hs1]. simpl in *. simplify_eq. by apply IH.
Qed.
End Replay.

(** The characters that a format and its arguments stand for. *)
Definition fmt_output `{Arch} (fmt : list Z) (va : list va_value) : exec (list Z) :=
  st ← format_loop out_trace (S (length fmt)) fmt 0 va ([], 0); Ret (fst st).

(** Any output function is given those characters, in order, and the terminator. *)
Lemma vsnprintf_run_eq `{Arch} {S} (out : Z → Z → S → S) maxlen fmt va s cs :
  fmt_output fmt va = Ret cs →
  vsnprintf_run out maxlen fmt va s =
    let '(s, idx) := emit_all out cs (s, 0) in
    Ret (i32 idx, out 0 (if idx <? maxlen then idx else usize (maxlen - 1)) s).
Proof.
  unfold fmt_output, vsnprintf_run. generalize (Datatypes.S (length fmt)) as n. intros n E.
  assert (sees out (s, 0) (s, 0) ([], 0)) as Hs by done.
  pose proof (format_loop_sees out (s, 0) fmt n 0 va _ _ Hs) as R.
  destruct (format_loop out_trace n fmt 0 va ([], 0)) as [[l i]| |]; simplify_eq/=.
  destruct (format_loop out n fmt 0 va (s, 0)) as [[s1 i1]| |]; [|done..]. simpl in *.
  destruct R as [E1 E2]. simpl in *. rewrite <- E1. done.
Qed.

(** *** Sinks *)

Lemma out_char_all `{Arch} cs con i :
  fst (emit_all k_pri_out_char cs (con, i)) = con ++ filter (fun c => c ≠ 0) cs.
Proof.
  revert con i. induction cs as [|c cs IH]; intros con i; [by rewrite app_nil_r|].
  rewrite emit_all_cons. unfold emit. cbn [fst snd]. rewrite IH. unfold k_pri_out_char, truth. destruct (c =? 0) eqn:E; bsplit; simpl.
  - by rewrite filter_cons_False by (intros ?; done).
  - rewrite filter_cons_True by done. by rewrite <- app_assoc.
Qed.

Lemma out_buffer_all `{Arch} n cs : ∀ buf i,
  0 <= i → i + zlen cs < 2 ^ xlen →
  ∀ j, fst (emit_all (k_pri_out_buffer n) cs (buf, i)) j =
    if (i <=? j) && (j <? Z.min n (i + zlen cs)) then u8 (default 0 (zget cs (j - i))) else buf j.
Proof.
  induction cs as [|c cs IH]; intros buf i Hi Hb j; simpl length in *.
  - destruct (_ && _) eqn:E; [bsplit; lia|done].
  - rewrite emit_all_cons. unfold emit. cbn [fst snd]. rewrite (uwrap_small _ (i + 1)), IH by lia.
    unfold k_pri_out_buffer at 1.
    destruct ((i + 1 <=? j) && _) eqn:E1, ((i <=? j) && _) eqn:E2; bsplit; try lia.
    + f_equal. unfold zget. rewrite !(proj2 (Z.ltb_ge _ 0)) by lia.
      by replace (Z.to_nat (j - i)) with (S (Z.to_nat (j - (i + 1)))) by lia.
    + apply andb_false_iff in E2 as [E2|E2]; bsplit; lia.
    + assert (j = i) as -> by (apply andb_false_iff in E1 as [E1|E1]; bsplit; lia).
      rewrite (proj2 (Z.ltb_lt i n)), Z.eqb_refl, Z.sub_diag by lia. done.
    + destruct (i <? n) eqn:E3; bsplit; [|done]. destruct (j =? i) eqn:E4; bsplit; [|done].
      apply andb_false_iff in E2 as [E2|E2]; bsplit; lia.
Qed.

Lemma emit_all_len `{Arch} {S} (out : Z → Z → S → S) cs s :
  zlen cs < 2 ^ 31 → emit_all out cs (s, 0) = (fst (emit_all out cs (s, 0)), zlen cs).
Proof.
  intros Hl. destruct (emit_all out cs (s, 0)) as [s' i] eqn:E. simpl. f_equal.
  change i with (snd (s', i)). rewrite <- E, emit_all_idx; simpl.
  - apply uwrap_small. destruct xlen_cases as [Ex|Ex]; rewrite Ex; lia.
  - split; [done|]. apply Z.pow_pos_nonneg; pose proof xlen_ge; lia.
Qed.

Lemma vsnprintf_run_len `{Arch} {S} (out : Z → Z → S → S) maxlen fmt va s cs :
  fmt_output fmt va = Ret cs → zlen cs < 2 ^ 31 →
  vsnprintf_run out maxlen fmt va s =
    Ret (zlen cs, out 0 (if zlen cs <? maxlen then zlen cs else usize (maxlen - 1))
                    (fst (emit_all out cs (s, 0)))).
Proof.
  intros E Hl. rewrite (vsnprintf_run_eq _ _ _ _ _ cs E), (emit_all_len _ cs) by done.
  by rewrite swrap_small by lia.
Qed.

Section Claims.
Context `{Arch}.

(** C28: what the three outputs of a format are. [cs] are the characters that the
    format and its arguments stand for. The buffer gets the first of them, at most
    [count - 1], and a terminator behind them; no other byte changes, and none at
    all when [count] is 0. The console gets all of them but null characters, and
    a null buffer nothing. The result is the number of characters every time. *)
Theorem k_vsnprintf_spec count fmt va cs buf con
    (Hc : 0 <= count < 2 ^ xlen) (Hcs : fmt_output fmt va = Ret cs) (Hl : zlen cs < 2 ^ 31) :
  (∃ buf', k_vsnprintf_nolock false count fmt va buf = Ret (zlen cs, buf') ∧
     ∀ i, buf' i =
       let n := Z.min (zlen cs) (count - 1) in
       if (0 <=? i) && (i <? n) then u8 (default 0 (zget cs i))
       else if (0 <? count) && (i =? n) then 0 else buf i) ∧
  k_vprintf_nolock fmt va con = Ret (zlen cs, con ++ filter (fun c => c ≠ 0) cs) ∧
  k_vsnprintf_nolock true count fmt va buf = Ret (zlen cs, buf).
Proof.
  unfold k_vsnprintf_nolock, k_vprintf_nolock, k_vsnprintf_inner.
  rewrite !(vsnprintf_run_len _ _ _ _ _ cs Hcs Hl). mstep.
  assert (zlen cs < 2 ^ xlen) as Hx by (destruct xlen_cases as [E|E]; rewrite E; lia).
  split_and!; [|by rewrite out_char_all|done].
  assert (0 + zlen cs < 2 ^ xlen) as Hx0 by lia.
  pose proof (out_buffer_all count cs buf 0 (Z.le_refl 0) Hx0) as Hb.
  eexists. split; [done|]. intros i. cbv zeta. specialize (Hb i). rewrite Z.add_0_l, Z.sub_0_r in Hb.
  generalize dependent (fst (emit_all (k_pri_out_buffer count) cs (buf, 0))). intros b1 Hb.
  unfold k_pri_out_buffer. destruct (zlen cs <? count) eqn:E1; bsplit.
  - rewrite (proj2 (Z.ltb_lt _ count)) by lia. rewrite (Z.min_l (zlen cs)) by lia.
    rewrite (Z.min_r count) in Hb by lia. rewrite (proj2 (Z.ltb_lt 0 count)) by lia. simpl.
    destruct (i =? zlen cs) eqn:E2; bsplit; [|done]. subst i.
    by rewrite (proj2 (Z.ltb_ge _ _)), andb_false_r by lia.
  - rewrite (Z.min_r (zlen cs)) by lia. rewrite (Z.min_l count) in Hb by lia.
    destruct (decide (count = 0)) as [->|Hn].
    + rewrite (uwrap_wrap_neg1 xlen) by (pose proof xlen_ge; lia).
      rewrite (proj2 (Z.ltb_ge _ _)) by lia. rewrite Hb. simpl.
      destruct (0 <=? i) eqn:?, (i <? 0) eqn:?, (i <? 0 - 1) eqn:?; bsplit; simpl; done || lia.
    + rewrite (uwrap_small _ (count - 1)), (proj2 (Z.ltb_lt (count - 1) count)),
        (proj2 (Z.ltb_lt 0 count)) by lia. simpl.
      destruct (i =? count - 1) eqn:E2; bsplit.
      * subst i. by rewrite (proj2 (Z.ltb_ge (count - 1) (count - 1))), andb_false_r by lia.
      * rewrite Hb.
        destruct (0 <=? i) eqn:?, (i <? count) eqn:?, (i <? count - 1) eqn:?; bsplit; simpl; done || lia.
Qed.
End Claims.

Lemma k_vsnprintf_spec_witness :
  ∃ buf', @k_vsnprintf_nolock rv64 false 4 (text "x=%d") [VInt 175] (fun _ => 7) = Ret (5, buf') ∧
    buf' 3 = 0 ∧ buf' 4 = 7.
Proof.
  destruct (@k_vsnprintf_spec rv64 4 (text "x=%d") [VInt 175] (text "x=175") (fun _ => 7) [])
    as [(buf' & E & Hb) _].
  - vm_compute. split; congruence.
  - vm_compute. reflexivity.
  - vm_compute. reflexivity.
  - exists buf'. split; [exact E|]. split; rewrite Hb; reflexivity.
Defined.

(** ** Formats *)

Lemma cchar_mid p c r : cchar (p ++ c :: r) (zlen p) = Ret c.
Proof.
  unfold cchar. rewrite (proj2 (Z.eqb_neq _ _)) by (rewrite length_app; simpl; lia).
  unfold zget. rewrite (proj2 (Z.ltb_ge _ _)), Nat2Z.id by lia. by rewrite list_lookup_middle.
Qed.

Lemma cchar_end p : cchar p (zlen p) = Ret 0.
Proof. unfold cchar. by rewrite Z.eqb_refl. Qed.

Lemma cchar_past p : cchar p (zlen p + 1) = Undef.
Proof.
  unfold cchar. rewrite (proj2 (Z.eqb_neq _ _)) by lia.
  assert (zget p (zlen p + 1) = None) as -> by (apply zget_None; lia). done.
Qed.

(** Bytes that are written as they are. *)
Definition plain (c : Z) : Prop := c ≠ 0 ∧ c ≠ 37.

Section Formats.
Context `{Arch}.

Lemma plain_prefix {S} (out : Z → Z → S → S) fuel r va p2 : ∀ p1 st,
  Forall plain p2 →
  format_loop out (length p2 + fuel) (p1 ++ p2 ++ r) (zlen p1) va st =
  format_loop out fuel (p1 ++ p2 ++ r) (zlen (p1 ++ p2)) va (emit_all out p2 st).
Proof.
  induction p2 as [|c p2 IH]; intros p1 st Hp; [by rewrite app_nil_r|].
  apply Forall_cons in Hp as [[Hc1 Hc2] Hp]. simpl app. simpl length. cbn [Nat.add format_loop].
  unfold directive. rewrite !cchar_mid. mstep. unfold truth.
  rewrite (proj2 (Z.eqb_neq c 0)), (proj2 (Z.eqb_neq c 37)) by done. cbn [negb]. mstep.
  rewrite emit_all_cons.
  specialize (IH (p1 ++ [c]) (emit out c st) Hp). rewrite <- !app_assoc in IH. simpl in IH.
  rewrite length_app, Nat2Z.inj_add in IH. simpl Z.of_nat in IH. exact IH.
Qed.

Lemma trace_all cs l : zlen l = 0 → fst (emit_all out_trace cs (l, 0)) = cs.
Proof.
  intros Hl. destruct l; [|done]. enough (∀ st, fst (emit_all out_trace cs st) = fst st ++ cs) by auto.
  induction cs as [|c cs IH]; intros st; [by rewrite app_nil_r|].
  rewrite emit_all_cons, IH. unfold emit, out_trace. simpl. by rewrite <- app_assoc.
Qed.

(** A format of plain bytes and a rest that starts with [%]. *)
Lemma fmt_output_prefix p r va :
  Forall plain p →
  fmt_output (p ++ r) va =
    (st ← format_loop out_trace (S (length r)) (p ++ r) (zlen p) va (emit_all out_trace p ([], 0));
     Ret (fst st)).
Proof.
  intros Hp. unfold fmt_output.
  replace (S (length (p ++ r))) with (length p + S (length r))%nat by (rewrite length_app; lia).
  by rewrite (plain_prefix out_trace _ r va p [] _ Hp).
Qed.

(** A character that is neither a flag, a width, a precision nor a length. *)
Definition bare (c : Z) : bool :=
  negb (is_ch c [48; 45; 43; 32; 35; 42; 46; 108; 104; 116; 106; 122] || _is_digit c).

(** A directive of [%] and a specifier. *)
Lemma directive_bare {S} (out : Z → Z → S → S) fmt pos va st c :
  cchar fmt pos = Ret 37 → cchar fmt (pos + 1) = Ret c → bare c = true →
  directive out fmt pos va st =
    ('(st, va) ← convert out c st va 0 0 0; Ret (pos + 1 + 1, va, st)).
Proof.
  intros E0 E1 Hc. unfold bare in Hc. bsplit. cbn [is_ch existsb] in *. bsplit.
  unfold directive. rewrite E0. mstep. cbn [Z.eqb Pos.eqb negb parse_flags]. rewrite E1. mstep.
  repeat match goal with Hn : c ≠ ?k |- context [c =? ?k] => rewrite (proj2 (Z.eqb_neq c k) Hn) end.
  mstep. unfold parse_width, parse_precision, parse_length. rewrite E1. mstep.
  repeat match goal with
  | Hn : c ≠ ?k |- context [c =? ?k] => rewrite (proj2 (Z.eqb_neq c k) Hn)
  | Hd : _is_digit c = false |- _ => rewrite Hd
  end. mstep. rewrite E1. mstep.
  repeat match goal with Hn : c ≠ ?k |- context [c =? ?k] => rewrite (proj2 (Z.eqb_neq c k) Hn) end.
  mstep. rewrite E1. mstep.
  repeat match goal with Hn : c ≠ ?k |- context [c =? ?k] => rewrite (proj2 (Z.eqb_neq c k) Hn) end.
  mstep. rewrite E1. done.
Qed.

(** Plain text and one such directive at the end. *)
Lemma fmt_output_bare p c va :
  Forall plain p → c ≠ 0 → bare c = true →
  fmt_output (p ++ [37; c]) va =
    ('(st, _) ← convert out_trace c (emit_all out_trace p ([], 0)) va 0 0 0; Ret (fst st)).
Proof.
  intros Hp Hc Hb. rewrite fmt_output_prefix by done. cbn [length format_loop].
  assert (zlen (p ++ [37; c]) = zlen p + 1 + 1) as El by (rewrite length_app; simpl; lia).
  rewrite cchar_mid. mstep. cbn [truth Z.eqb negb].
  rewrite (directive_bare _ _ _ _ _ c); [|by apply cchar_mid| |done].
  - destruct (convert _ _ _ _ _ _ _) as [[st va']| |]; mstep; [|done..].
    by rewrite <- El, cchar_end.
  - replace (p ++ [37; c]) with ((p ++ [37]) ++ [c]) by by rewrite <- app_assoc.
    replace (zlen p + 1) with (zlen (p ++ [37])) by (rewrite length_app; simpl; lia). apply cchar_mid.
Qed.

(** Plain text is written as it is, and [%%] writes one percent sign; a format
    that ends in a single [%] is read past its terminator, whatever the text in
    front of it and the arguments. *)
Theorem fmt_percent p va (Hp : Forall plain p) :
  fmt_output p va = Ret p ∧ fmt_output (p ++ [37; 37]) va = Ret (p ++ [37]) ∧
  fmt_output (p ++ [37]) va = Undef.
Proof.
  split_and!.
  - rewrite <- (app_nil_r p) at 1. rewrite fmt_output_prefix by done.
    cbn [format_loop length]. rewrite app_nil_r, cchar_end. mstep. simpl. by rewrite trace_all.
  - rewrite fmt_output_bare by done. simpl. unfold out_trace at 1. by rewrite trace_all.
  - rewrite fmt_output_prefix by done. cbn [length format_loop].
    assert (zlen (p ++ [37]) = zlen p + 1) as El by (rewrite length_app; simpl; lia).
    rewrite cchar_mid. mstep. cbn [truth Z.eqb negb].
    rewrite (directive_bare _ _ _ _ _ 0); [|by apply cchar_mid|by rewrite <- El; apply cchar_end|done].
    change (convert out_trace 0 ?st va 0 0 0) with (Ret (emit out_trace 0 st, va)).
    mstep. rewrite <- El, cchar_past. done.
Qed.

Lemma has_0 m : has 0 m = false.
Proof. done. Qed.

(** The value of [int] as sign and magnitude. *)
Lemma int_magnitude z :
  - 2 ^ 31 <= z < 2 ^ 31 →
  usize (u32 (if i32 z >? 0 then i32 z else i32 (0 - i32 z))) = Z.abs z ∧ i32 z = z.
Proof.
  intros Hz. assert (i32 z = z) as Ei by (apply swrap_small; lia). rewrite !Ei. split; [|done].
  assert (u32 (if z >? 0 then z else i32 (0 - z)) = Z.abs z) as ->.
  { destruct (z >? 0) eqn:E; bsplit.
    - rewrite uwrap_small by lia. lia.
    - destruct (decide (z = - 2 ^ 31)) as [->|]; [done|].
      rewrite swrap_small, uwrap_small by lia. lia. }
  apply uwrap_small. destruct xlen_cases as [E|E]; rewrite E; lia.
Qed.

(** [%d] prints every [int] in decimal: the text in front of it, a minus sign for
    a negative value, and digits that read back as its magnitude, without a zero in
    front unless the value is 0. *)
Theorem fmt_decimal p z (Hp : Forall plain p) (Hz : - 2 ^ 31 <= z < 2 ^ 31) :
  ∃ d, fmt_output (p ++ [37; 100]) [VInt z] = Ret (p ++ (if z <? 0 then [45] else []) ++ d) ∧
    if z =? 0 then d = [48] else num_val 10 d = Z.abs z ∧ ∃ c l, d = c :: l ∧ 0 < digit_val c.
Proof.
  rewrite fmt_output_bare by done.
  assert (∀ (st : list Z * Z), convert out_trace 100 st [VInt z] 0 0 0 =
    (st ← ntoa out_trace st (Z.abs z) (z <? 0) 10 0 0 0; Ret (st, []))) as ->.
  { intros st. destruct (int_magnitude z Hz) as [Em Ei].
    rewrite <- Em. rewrite <- Ei at 5. reflexivity. }
  set (st0 := emit_all out_trace p ([], 0)).
  assert (0 <= snd st0 < 2 ^ xlen) as Hs.
  { unfold st0. rewrite emit_all_idx; [apply uwrap_range|]; pose proof xlen_ge; [lia|].
    split; [done|]. apply Z.pow_pos_nonneg; lia. }
  destruct (ntoa_main out_trace st0 (Z.abs z) (z <? 0) 10 0 0 0) as (cs & -> & _ & Hl);
    [lia|lia|lia|done|].
  mstep. exists (ntoa_num (Z.abs z) 10 0). destruct Hl as [-> Hd]; [done|lia| |].
  - assert (length (ntoa_num (Z.abs z) 10 0) <= 10)%nat.
    { change (ntoa_num (Z.abs z) 10 0) with (rev (digits_lo 32 (Z.abs z) 10 0)).
      rewrite length_rev. apply digits_lo_short; lia. }
    unfold fill_zeros. rewrite !has_0, length_app, length_replicate. lia.
  - split.
    + f_equal. unfold st0.
      rewrite <- emit_all_app, trace_all by done. f_equal. unfold ntoa_layout, fill_zeros, sign_chars.
      rewrite !has_0, !Z2Nat.nonpos by lia. by destruct (z <? 0).
    + destruct (z =? 0) eqn:E; bsplit; [by subst|]. destruct Hd as [Hd|Hd]; [lia|done].
Qed.
End Formats.

Lemma fmt_percent_witness :
  @fmt_output rv32 (text "100%") [] = Undef ∧ @fmt_output rv32 (text "100%%") [] = Ret (text "100%").
Proof.
  destruct (@fmt_percent rv32 (text "100") []) as (_ & E1 & E2).
  - repeat constructor; discriminate.
  - split; [exact E2|exact E1].
Defined.

Lemma fmt_decimal_witness :
  ∃ d, @fmt_output rv64 (text "n=%d") [VInt (-2147483648)] = Ret (text "n=-" ++ d) ∧
    num_val 10 d = 2147483648.
Proof.
  destruct (@fmt_decimal rv64 (text "n=") (-2147483648)) as (d & E & Hd & _).
  - repeat constructor; discriminate.
  - lia.
  - exists d. split; [exact E|exact Hd].
Defined.

(** Integer conversions that differ from those of the C standard. [%#4x] of 0x1234
    drops the two highest digits when the digits fill the width; [%-6.3d] ignores the
    precision; [%hhd] of -1 is printed as the unsigned [char] of the target; and [%llb] of
    2^40 + 1 keeps the lowest 32 digits. *)
Theorem fmt_int_defects `{Arch} :
  fmt_output (text "%#4x") [VInt 0x1234] = Ret (text "0x34") ∧
  fmt_output (text "%-6.3d|") [VInt 7] = Ret (text "7     |") ∧
  fmt_output (text "%hhd") [VInt (-1)] = Ret (text "255") ∧
  fmt_output (text "%llb") [VLongLong (2 ^ 40 + 1)] = Ret (text "00000000000000000000000000000001").
Proof.
  destruct H as [w [E|E]]; subst w; split_and!; vm_compute; reflexivity.
Qed.
