(* ===== verification/Event.v ===== *)
(** * Event handlers (sys/event.c, include/bmetal/event.h)

    A handler is a C object in a list that its [hnd_next] pointers form.  The
    objects are numbers: those below [CONFIG_MAX_EVENT_HANDLERS] are the elements
    of the pool [k_evt_handlers], the others are the heads of lists that interrupt
    controllers own.  The function of a handler is a number too, and what it does
    is a parameter. *)

From S2P Require Import Prelude Config.

Definition EVENT_HANDLED : Z := 1.
Definition EVENT_NOT_HANDLED : Z := 2.

Record k_event_handler := mk_hnd {
  h_func : Z;
  h_priv : Z;
  h_event : Z;
  h_next : option Z
}.

Record events := mk_events {
  e_heap : gmap Z k_event_handler;
  e_stat : list Z
}.

Definition get_hnd (e : events) (h : Z) : exec k_event_handler := of_opt (e_heap e !! h).
Definition set_next (e : events) (h : Z) (n : option Z) : exec events :=
  x ← get_hnd e h;
  Ret (mk_events (<[h := mk_hnd (h_func x) (h_priv x) (h_event x) n]> (e_heap e)) (e_stat e)).

(** Index of the first free entry of the pool. *)
Fixpoint first_free (l : list Z) (i : Z) : option Z :=
  match l with
  | [] => None
  | s :: l => if s =? 0 then Some i else first_free l (i + 1)
  end.

Section Pool.
Context `{Config}.

Definition k_event_alloc_handler (e : events) (handler : bool) : exec (Z * option Z * events) :=
  if negb handler then Ret (- EINVAL, None, e) else
  match first_free (e_stat e) 0 with
  | None => Ret (- ENOMEM, None, e)
  | Some i =>
    st ← of_opt (zset (e_stat e) i 1);
    Ret (0, Some i, mk_events (e_heap e) st)
  end.

Definition k_event_free_handler (e : events) (handler : option Z) : exec (Z * events) :=
  match handler with
  | None => Ret (- EINVAL, e)
  | Some h =>
    if (0 <=? h) && (h <? CONFIG_MAX_EVENT_HANDLERS) then
      st ← of_opt (zset (e_stat e) h 0);
      Ret (0, mk_events (e_heap e) st)
    else Ret (- EINVAL, e)
  end.
End Pool.

(** The last handler of a list, by [for_each_handler]. *)
Fixpoint last_handler (fuel : nat) (e : events) (h : Z) : exec Z :=
  match fuel with
  | O => Hang
  | S fuel =>
    x ← get_hnd e h;
    match h_next x with
    | None => Ret h
    | Some n => last_handler fuel e n
    end
  end.

(** The handler in front of another one. *)
Fixpoint prev_handler (fuel : nat) (e : events) (h : option Z) (handler : Z) : exec (option Z) :=
  match h with
  | None => Ret None
  | Some h =>
    match fuel with
    | O => Hang
    | S fuel =>
      x ← get_hnd e h;
      if decide (h_next x = Some handler) then Ret (Some h)
      else prev_handler fuel e (h_next x) handler
    end
  end.

Definition evt_fuel (e : events) : nat := S (size (e_heap e)).
Arguments evt_fuel : simpl never.

Definition k_event_add_handler (e : events) (head handler : option Z) : exec (Z * events) :=
  match head, handler with
  | Some head, Some handler =>
    last ← last_handler (evt_fuel e) e head;
    e ← set_next e last (Some handler);
    e ← set_next e handler None;
    Ret (0, e)
  | _, _ => Ret (- EINVAL, e)
  end.

Definition k_event_remove_handler (e : events) (head handler : option Z) : exec (Z * events) :=
  match head, handler with
  | Some head, Some handler =>
    p ← prev_handler (evt_fuel e) e (Some head) handler;
    match p with
    | None => Ret (- EINVAL, e)
    | Some h =>
      x ← get_hnd e handler;
      e ← set_next e h (h_next x);
      Ret (0, e)
    end
  | _, _ => Ret (- EINVAL, e)
  end.

Section Dispatch.
Context {W : Type}.

(** What the function [f] of the handler [h] does with an event. *)
Variable call : Z → Z → Z → events → W → exec (Z * events * W).

Fixpoint handle_loop (fuel : nat) (event : Z) (h : option Z) (res : Z) (e : events) (w : W) :
    exec (Z * events * W) :=
  match h with
  | None => Ret (res, e, w)
  | Some h =>
    match fuel with
    | O => Hang
    | S fuel =>
      x ← get_hnd e h;
      '(res, e, w) ←
        (if h_event x =? event then
           '(r, e, w) ← call (h_func x) event h e w;
           Ret (if r =? EVENT_HANDLED then EVENT_HANDLED else res, e, w)
         else Ret (res, e, w));
      x ← get_hnd e h;
      handle_loop fuel event (h_next x) res e w
    end
  end.

Definition k_event_handle_generic (event : Z) (hnd_head : option Z) (e : events) (w : W) :
    exec (Z * events * W) :=
  handle_loop (evt_fuel e) event hnd_head EVENT_NOT_HANDLED e w.
End Dispatch.

(** ** Lists *)

(** The handlers from [o] on. *)
Inductive hlist (e : events) : option Z → list Z → Prop :=
| hlist_nil : hlist e None []
| hlist_cons h x l : e_heap e !! h = Some x → hlist e (h_next x) l → hlist e (Some h) (h :: l).

Lemma hlist_fun e o l1 l2 : hlist e o l1 → hlist e o l2 → l1 = l2.
Proof.
  intros H1. revert l2. induction H1 as [|h x l Hx _ IH]; intros l2 H2; inversion H2; simplify_eq; [done|].
  f_equal. by apply IH.
Qed.

Lemma hlist_suffix e o l1 h l2 : hlist e o (l1 ++ h :: l2) → hlist e (Some h) (h :: l2).
Proof.
  revert o. induction l1 as [|h' l1 IH]; intros o Hl; simpl in Hl.
  - inversion Hl; subst. by econstructor.
  - inversion Hl; subst. by eapply IH.
Qed.

Lemma hlist_nodup e o l : hlist e o l → NoDup l.
Proof.
  intros Hl. induction Hl as [|h x l Hx Hl IH]; constructor; [|done].
  intros (l1 & l2 & ->)%list_elem_of_split.
  assert (hlist e (Some h) (h :: l1 ++ h :: l2)) as H1 by (by econstructor).
  pose proof (hlist_suffix _ _ _ _ _ Hl) as H2.
  pose proof (hlist_fun _ _ _ _ H1 H2) as E. apply (f_equal length) in E.
  simpl in E. rewrite length_app in E. simpl in E. lia.
Qed.

Lemma hlist_dom e o l h : hlist e o l → h ∈ l → is_Some (e_heap e !! h).
Proof.
  intros Hl Hh. induction Hl as [|h' x l Hx Hl IH]; [by apply elem_of_nil in Hh|].
  apply elem_of_cons in Hh as [->|Hh]; [eauto|auto].
Qed.

Lemma hlist_length e o l : hlist e o l → (length l <= size (e_heap e))%nat.
Proof.
  intros Hl. rewrite <- (size_list_to_set (C := gset Z) l) by by eapply hlist_nodup.
  rewrite <- (size_dom (D := gset Z)). apply subseteq_size. intros i Hi.
  apply elem_of_list_to_set in Hi. apply elem_of_dom. by eapply hlist_dom.
Qed.

(** Changing a handler that is not on the list. *)
Lemma hlist_frame e o l h y :
  hlist e o l → h ∉ l → hlist (mk_events (<[h := y]> (e_heap e)) (e_stat e)) o l.
Proof.
  intros Hl. induction Hl as [|h' x l Hx Hl IH]; [constructor|].
  intros [Hn Hl']%not_elem_of_cons. econstructor; [|by apply IH].
  simpl. by rewrite lookup_insert_ne.
Qed.

Lemma last_handler_ok e l h : ∀ fuel head,
  hlist e (Some head) (l ++ [h]) → (length l < fuel)%nat → last_handler fuel e head = Ret h.
Proof.
  induction l as [|h' l IH]; intros fuel head Hl Hf; (destruct fuel as [|fuel]; [simpl in *; lia|]);
    inversion Hl as [|? x ? Hx Hn]; simplify_eq; cbn [last_handler]; unfold get_hnd; rewrite Hx; mstep.
  - inversion Hn. done.
  - destruct (h_next x) as [n|]; [apply IH; [done|simpl in *; lia]|].
    inversion Hn. by destruct l.
Qed.

Lemma prev_handler_ok e l1 p h l2 : ∀ fuel o,
  hlist e o (l1 ++ p :: h :: l2) → (length l1 < fuel)%nat → prev_handler fuel e o h = Ret (Some p).
Proof.
  induction l1 as [|h' l1 IH]; intros fuel o Hl Hf; (destruct fuel as [|fuel]; [simpl in *; lia|]);
    pose proof (hlist_nodup _ _ _ Hl) as Hnd;
    inversion Hl as [|? x ? Hx Hn]; simplify_eq; cbn [prev_handler]; unfold get_hnd; rewrite Hx; mstep.
  - inversion Hn; subst. by rewrite decide_True.
  - rewrite decide_False; [apply IH; [done|simpl in *; lia]|].
    intros E. rewrite E in Hn.
    pose proof (hlist_suffix _ _ (l1 ++ [p]) h l2 ltac:(by rewrite <- app_assoc; exact Hn)) as Hs.
    pose proof (hlist_fun _ _ _ _ Hn Hs) as El. apply (f_equal length) in El.
    rewrite length_app in El. simpl in El. lia.
Qed.

Lemma prev_handler_none e h : ∀ l fuel o,
  hlist e o l → h ∉ tail l → (length l <= fuel)%nat → prev_handler fuel e o h = Ret None.
Proof.
  induction l as [|h' l IH]; intros fuel o Hl Hh Hf.
  - inversion Hl. by destruct fuel.
  - destruct fuel as [|fuel]; [simpl in *; lia|].
    inversion Hl as [|? x ? Hx Hn]; simplify_eq. cbn [prev_handler]. unfold get_hnd. rewrite Hx. mstep.
    simpl in Hh. rewrite decide_False; [apply IH; [done| |simpl in *; lia]|].
    + intros Hin. apply Hh. by destruct l; [|right].
    + intros E. rewrite E in Hn. inversion Hn; subst. apply Hh. left.
Qed.

(** Giving the last handler of a list a new rest. *)
Lemma hlist_relink e o l h x y l' :
  hlist e o (l ++ [h]) → e_heap e !! h = Some x →
  hlist (mk_events (<[h := y]> (e_heap e)) (e_stat e)) (h_next y) l' →
  hlist (mk_events (<[h := y]> (e_heap e)) (e_stat e)) o (l ++ h :: l').
Proof.
  intros Hl Hx Hr. pose proof (hlist_nodup _ _ _ Hl) as Hnd. revert o Hl Hnd.
  induction l as [|h' l IH]; intros o Hl Hnd; inversion Hl as [|? z ? Hz Hn]; simplify_eq; simpl.
  - econstructor; [simpl; by rewrite lookup_insert_eq|done].
  - apply NoDup_cons in Hnd as [Hnh Hnd].
    assert (h' ≠ h) by (intros ->; apply Hnh, elem_of_app; right; left).
    econstructor; [simpl; rewrite lookup_insert_ne by done; exact Hz|]. by apply IH.
Qed.

(** A list up to one of its handlers, as a list of its own: what the pointers say
    when the handler is made the last. *)
Lemma hlist_cut e o l1 h l2 x y :
  hlist e o (l1 ++ h :: l2) → e_heap e !! h = Some x → h_next y = None →
  hlist (mk_events (<[h := y]> (e_heap e)) (e_stat e)) o (l1 ++ [h]).
Proof.
  intros Hl Hx Hy. pose proof (hlist_nodup _ _ _ Hl) as Hnd. revert o Hl Hnd.
  induction l1 as [|h' l1 IH]; intros o Hl Hnd; inversion Hl as [|? z ? Hz Hn]; simplify_eq; simpl.
  - econstructor; [simpl; by rewrite lookup_insert_eq|]. rewrite Hy. constructor.
  - apply NoDup_cons in Hnd as [Hnh Hnd].
    assert (h' ≠ h) by (intros ->; apply Hnh, elem_of_app; right; left).
    econstructor; [simpl; rewrite lookup_insert_ne by done; exact Hz|]. by apply IH.
Qed.

Lemma set_next_Some e h x n :
  e_heap e !! h = Some x →
  set_next e h n = Ret (mk_events (<[h := mk_hnd (h_func x) (h_priv x) (h_event x) n]> (e_heap e)) (e_stat e)).
Proof. intros Hx. unfold set_next, get_hnd. by rewrite Hx. Qed.

(** The two assignments of [k_event_add_handler]. *)
Lemma add_handler_eq e head l0 last h x y :
  hlist e (Some head) (l0 ++ [last]) → e_heap e !! last = Some x → e_heap e !! h = Some y →
  k_event_add_handler e (Some head) (Some h) =
    Ret (0, mk_events (<[h := mk_hnd (h_func y) (h_priv y) (h_event y) None]>
      (<[last := mk_hnd (h_func x) (h_priv x) (h_event x) (Some h)]> (e_heap e))) (e_stat e)).
Proof.
  intros Hl Hx Hy. unfold k_event_add_handler.
  rewrite (last_handler_ok _ l0 last) by (done || (pose proof (hlist_length _ _ _ Hl) as Hn;
    rewrite length_app in Hn; simpl in Hn; unfold evt_fuel; lia)). mstep.
  rewrite (set_next_Some _ _ x) by done. mstep.
  destruct (decide (h = last)) as [->|Hne].
  - simplify_eq. erewrite set_next_Some by (simpl; by rewrite lookup_insert_eq). done.
  - by rewrite (set_next_Some _ _ y) by (simpl; by rewrite lookup_insert_ne).
Qed.

Lemma add_handler_fresh e head l h :
  hlist e (Some head) (head :: l) → h ∉ head :: l → is_Some (e_heap e !! h) →
  ∃ e', k_event_add_handler e (Some head) (Some h) = Ret (0, e') ∧
    hlist e' (Some head) (head :: l ++ [h]) ∧ e_stat e' = e_stat e.
Proof.
  intros Hl Hh [y Hy]. rewrite app_comm_cons. destruct (head :: l) as [|z l0' _] eqn:El using rev_ind; [done|].
  destruct (hlist_dom _ _ _ z Hl) as [x Hx]; [apply elem_of_app; right; left|].
  rewrite (add_handler_eq e head l0' z h x y Hl Hx Hy).
  apply not_elem_of_app in Hh as [Hh1 Hh2]. rewrite list_elem_of_singleton in Hh2.
  eexists. split; [done|]. split; [|done]. rewrite <- app_assoc. simpl.
  rewrite insert_insert_ne by done.
  pose proof (hlist_relink (mk_events (<[h := mk_hnd (h_func y) (h_priv y) (h_event y) None]> (e_heap e)) (e_stat e))
    (Some head) l0' z x (mk_hnd (h_func x) (h_priv x) (h_event x) (Some h)) [h]) as Hr.
  simpl in Hr. apply Hr; clear Hr.
  - apply hlist_frame; [done|]. apply not_elem_of_app. split; [done|]. by rewrite list_elem_of_singleton.
  - rewrite lookup_insert_ne by done. exact Hx.
  - econstructor; [simpl; rewrite lookup_insert_ne by done; by rewrite lookup_insert_eq|].
    simpl. constructor.
Qed.

Lemma add_handler_again e head l1 h l2 :
  hlist e (Some head) (head :: l1 ++ h :: l2) →
  ∃ e', k_event_add_handler e (Some head) (Some h) = Ret (0, e') ∧
    hlist e' (Some head) (head :: l1 ++ [h]).
Proof.
  intros Hl. destruct (hlist_dom _ _ _ h Hl) as [y Hy]; [right; apply elem_of_app; right; left|].
  pose proof (hlist_nodup _ _ _ Hl) as Hnd. rewrite app_comm_cons in Hl, Hnd |- *.
  pose proof (hlist_cut _ _ _ _ _ _ (mk_hnd (h_func y) (h_priv y) (h_event y) None) Hl Hy eq_refl) as Hc.
  destruct l2 as [|z l2 _] using rev_ind.
  - rewrite (add_handler_eq e head _ h h y y Hl Hy Hy). eexists. split; [done|].
    simpl. by rewrite insert_insert_eq.
  - replace ((head :: l1) ++ h :: l2 ++ [z]) with (((head :: l1) ++ h :: l2) ++ [z]) in *
      by by rewrite <- app_assoc.
    destruct (hlist_dom _ _ _ z Hl) as [x Hx]; [apply elem_of_app; right; left|].
    rewrite (add_handler_eq e head _ z h x y Hl Hx Hy). eexists. split; [done|].
    apply NoDup_app in Hnd as (_ & Hz & _).
    assert (h ≠ z) as Hne.
    { intros ->. apply (Hz z); [apply elem_of_app; right; left|left]. }
    rewrite insert_insert_ne by done. apply (hlist_frame (mk_events _ _) _ _ z); [done|].
    intros Hin. apply (Hz z); [|left]. apply elem_of_app in Hin as [Hin|Hin].
    + apply elem_of_app. by left.
    + apply list_elem_of_singleton in Hin. congruence.
Qed.

Lemma remove_handler_ok e head l1 h l2 :
  hlist e (Some head) (head :: l1 ++ h :: l2) →
  ∃ e', k_event_remove_handler e (Some head) (Some h) = Ret (0, e') ∧
    hlist e' (Some head) (head :: l1 ++ l2).
Proof.
  intros Hl. pose proof (hlist_length _ _ _ Hl) as Hlen. pose proof (hlist_nodup _ _ _ Hl) as Hnd.
  rewrite app_comm_cons in Hl, Hnd. rewrite app_comm_cons.
  destruct (head :: l1) as [|p l0 _] eqn:El using rev_ind; [done|].
  rewrite <- app_assoc in Hl, Hnd |- *. cbn [app] in Hl, Hnd |- *.
  apply (f_equal length) in El. rewrite length_app in El. simpl in El, Hlen. rewrite length_app in Hlen.
  simpl in Hlen. unfold k_event_remove_handler.
  rewrite (prev_handler_ok e l0 p h l2) by (done || (unfold evt_fuel; lia)). mstep.
  pose proof (hlist_suffix _ _ _ _ _ Hl) as Hp. inversion Hp as [|? xp ? Hxp Hnp]; simplify_eq.
  inversion Hnp as [|? xh ? Hxh Hnh]; simplify_eq. unfold get_hnd. rewrite Hxh. mstep.
  rewrite (set_next_Some _ _ xp) by done. mstep. eexists. split; [done|].
  assert (h ∉ l0 ∧ p ∉ l2 ∧ h ≠ p) as (H1 & H2 & H3).
  { apply NoDup_app in Hnd as (_ & Hd & Hn). apply NoDup_cons in Hn as [Hn1 Hn2].
    apply not_elem_of_cons in Hn1 as [? ?]. split; [|done].
    intros Hin. apply (Hd h Hin). right. left. }
  assert (∃ e0, e0 = mk_events (<[p := mk_hnd (h_func xp) (h_priv xp) (h_event xp) None]> (e_heap e)) (e_stat e))
    as [e0 He0] by eauto.
  assert (hlist e0 (Some head) (l0 ++ [p])) as Hc by (subst e0; by eapply hlist_cut).
  pose proof (hlist_relink e0 (Some head) l0 p (mk_hnd (h_func xp) (h_priv xp) (h_event xp) None)
    (mk_hnd (h_func xp) (h_priv xp) (h_event xp) (h_next xh)) l2 Hc) as Hr.
  subst e0. simpl in Hr. rewrite insert_insert_eq in Hr. apply Hr.
  - by rewrite lookup_insert_eq.
  - by apply hlist_frame.
Qed.

(** C33: the handlers of a list, behind its head, are kept in the order in which they
    were added. Adding a handler that is not on the list appends it; removing one
    that is on the list takes it out and keeps the others in order; removing one that
    is not is [-EINVAL] and changes nothing. Adding a handler a second time, though,
    drops every handler behind it. *)
Theorem k_event_list_refines e head l h (Hl : hlist e (Some head) (head :: l))
    (Hh : is_Some (e_heap e !! h)) (Hne : h ≠ head) :
  (h ∉ l → (∃ e', k_event_add_handler e (Some head) (Some h) = Ret (0, e') ∧
              hlist e' (Some head) (head :: l ++ [h])) ∧
           k_event_remove_handler e (Some head) (Some h) = Ret (- EINVAL, e)) ∧
  (∀ l1 l2, l = l1 ++ h :: l2 →
     (∃ e', k_event_remove_handler e (Some head) (Some h) = Ret (0, e') ∧
        hlist e' (Some head) (head :: l1 ++ l2)) ∧
     (∃ e', k_event_add_handler e (Some head) (Some h) = Ret (0, e') ∧
        hlist e' (Some head) (head :: l1 ++ [h]))).
Proof.
  split.
  - intros Hn. split.
    + destruct (add_handler_fresh e head l h Hl) as (e' & E & Hl' & _); [|done|eauto].
      by apply not_elem_of_cons.
    + unfold k_event_remove_handler.
      rewrite (prev_handler_none e h (head :: l)) by
        (done || (pose proof (hlist_length _ _ _ Hl); unfold evt_fuel; lia)). done.
  - intros l1 l2 ->. split; [by apply remove_handler_ok|by eapply add_handler_again].
Qed.

(** Head 100 and the handlers 0 and 1. *)
Definition demo_events : events :=
  mk_events {[ 100 := mk_hnd 0 0 0 (Some 0); 0 := mk_hnd 1 0 7 (Some 1); 1 := mk_hnd 2 0 7 None ]} [1; 1; 0].

Lemma demo_events_list : hlist demo_events (Some 100) [100; 0; 1].
Proof. repeat (eapply hlist_cons; [vm_compute; reflexivity|]). apply hlist_nil. Qed.

Lemma k_event_list_refines_witness :
  (∃ e', k_event_remove_handler demo_events (Some 100) (Some 0) = Ret (0, e') ∧
     hlist e' (Some 100) [100; 1]) ∧
  (∃ e', k_event_add_handler demo_events (Some 100) (Some 0) = Ret (0, e') ∧
     hlist e' (Some 100) [100; 0]).
Proof.
  apply (k_event_list_refines demo_events 100 [0; 1] 0 demo_events_list) with (l1 := []) (l2 := [1]).
  - vm_compute. eexists. reflexivity.
  - lia.
  - reflexivity.
Defined.

Section DispatchProofs.
Context {W : Type}.
Variable call : Z → Z → Z → events → W → exec (Z * events * W).

(** The handlers of an event, called in their order: the world after them and
    whether one of them has handled the event. *)
Inductive dispatch (e : events) (event : Z) : list Z → Z → W → Z → W → Prop :=
| dispatch_nil res w : dispatch e event [] res w res w
| dispatch_skip h x l res w res' w' :
    e_heap e !! h = Some x → h_event x ≠ event →
    dispatch e event l res w res' w' → dispatch e event (h :: l) res w res' w'
| dispatch_call h x l res w r w1 res' w' :
    e_heap e !! h = Some x → h_event x = event →
    call (h_func x) event h e w = Ret (r, e, w1) →
    dispatch e event l (if r =? EVENT_HANDLED then EVENT_HANDLED else res) w1 res' w' →
    dispatch e event (h :: l) res w res' w'.

(** When the functions of the handlers return and leave the lists alone, an event
    is given, in the order of the list, to each handler that is registered for it and
    to no other, once; the result is [EVENT_HANDLED] exactly when one of them says so. *)
Theorem k_event_handle_generic_ok e head l event w
    (Hl : hlist e (Some head) l)
    (Hcall : ∀ h x w, h ∈ l → e_heap e !! h = Some x → h_event x = event →
       ∃ r w', call (h_func x) event h e w = Ret (r, e, w')) :
  ∃ res w', k_event_handle_generic call event (Some head) e w = Ret (res, e, w') ∧
    dispatch e event l EVENT_NOT_HANDLED w res w' ∧ (res = EVENT_HANDLED ∨ res = EVENT_NOT_HANDLED).
Proof.
  unfold k_event_handle_generic. pose proof (hlist_length _ _ _ Hl) as Hlen.
  assert (∀ fuel o res w, hlist e o l → (length l <= fuel)%nat →
    res = EVENT_HANDLED ∨ res = EVENT_NOT_HANDLED →
    ∃ res' w', handle_loop call fuel event o res e w = Ret (res', e, w') ∧
      dispatch e event l res w res' w' ∧ (res' = EVENT_HANDLED ∨ res' = EVENT_NOT_HANDLED)) as Hloop.
  { clear head w Hl Hlen. induction l as [|h l IH]; intros fuel o res w Hl Hf Hres.
    - inversion Hl; subst. exists res, w. split; [by destruct fuel|]. split; [constructor|done].
    - destruct fuel as [|fuel]; [simpl in *; lia|].
      inversion Hl as [|? x ? Hx Hn]; simplify_eq. cbn [handle_loop]. unfold get_hnd. rewrite Hx. mstep.
      assert (∀ h x w, h ∈ l → e_heap e !! h = Some x → h_event x = event →
        ∃ r w', call (h_func x) event h e w = Ret (r, e, w')) as Hcall'.
      { intros. eapply Hcall; [by right|done|done]. }
      destruct (h_event x =? event) eqn:E; bsplit.
      + destruct (Hcall h x w) as (r & w1 & Ec); [left|done|done|]. rewrite Ec. mstep. rewrite Hx. mstep.
        destruct (IH Hcall' fuel (h_next x) (if r =? EVENT_HANDLED then EVENT_HANDLED else res) w1 Hn)
          as (res' & w' & El & Hd & Hr); [simpl in *; lia|destruct (r =? _); auto|].
        exists res', w'. split; [done|]. split; [by eapply dispatch_call|done].
      + mstep. rewrite Hx. mstep.
        destruct (IH Hcall' fuel (h_next x) res w Hn) as (res' & w' & El & Hd & Hr); [simpl in *; lia|done|].
        exists res', w'. split; [done|]. split; [by eapply dispatch_skip|done]. }
  apply Hloop; [done|unfold evt_fuel; lia|by right].
Qed.
End DispatchProofs.

(** Handlers that record that they were called, the second of which handles the event. *)
Definition demo_call (f event h : Z) (e : events) (w : list Z) : exec (Z * events * list Z) :=
  Ret (if f =? 2 then EVENT_HANDLED else EVENT_NOT_HANDLED, e, w ++ [h]).

Lemma k_event_handle_generic_ok_witness :
  ∃ res w', k_event_handle_generic demo_call 7 (Some 100) demo_events [] = Ret (res, demo_events, w') ∧
    dispatch demo_call demo_events 7 [100; 0; 1] EVENT_NOT_HANDLED [] res w'.
Proof.
  destruct (k_event_handle_generic_ok demo_call demo_events 100 [100; 0; 1] 7 [] demo_events_list)
    as (res & w' & E & Hd & _).
  - intros h x w _ _ _. eexists _, _. reflexivity.
  - exists res, w'. split; [exact E|exact Hd].
Defined.
