(* ===== verification/Lock.v ===== *)
(** * Spinlocks (sys/lock.c, include/bmetal/atomic.h)

    The functions of the lock on their own, and the system of several CPUs that
    run them on one lock: each access to the shared words is a step of its own, so
    that CPUs interleave between them.  [k_aexchange] and [k_astore] are the atomic
    operations of the C standard. *)

From S2P Require Import Prelude Config.

Record k_arch_spinlock := mk_lock {
  lk_val : Z;
  lk_id : Z
}.

(** [k_aexchange(&lock->val, v)] and [k_astore(&lock->val, v)] *)
Definition k_aexchange (l : k_arch_spinlock) (v : Z) : Z * k_arch_spinlock :=
  (lk_val l, mk_lock v (lk_id l)).
Definition k_astore (l : k_arch_spinlock) (v : Z) : k_arch_spinlock := mk_lock v (lk_id l).
Definition set_id (l : k_arch_spinlock) (id : Z) : k_arch_spinlock := mk_lock (lk_val l) id.

Definition k_arch_gen_spinlock_init (l : k_arch_spinlock) : k_arch_spinlock := mk_lock 0 (-1).

Definition k_arch_gen_spinlock_trylock (l : k_arch_spinlock) : Z * k_arch_spinlock := k_aexchange l 1.

(** A CPU on its own; it spins while the lock is taken. *)
Definition k_arch_gen_spinlock_lock (fuel : nat) (cpu : Z) (l : k_arch_spinlock) : exec k_arch_spinlock :=
  '(_, l) ← while fuel (fun '(r, _) => truth r)
    (fun '(_, l) => Ret (k_arch_gen_spinlock_trylock l)) (1, l);
  Ret (set_id l cpu).

(** What [k_arch_gen_spinlock_unlock] does, access by access. *)
Inductive unlock_op := ClearId | ClearVal.
Definition unlock_ops : list unlock_op := [ClearId; ClearVal].
Definition unlock_step (o : unlock_op) (l : k_arch_spinlock) : k_arch_spinlock :=
  match o with
  | ClearId => set_id l (-1)
  | ClearVal => k_astore l 0
  end.
Definition k_arch_gen_spinlock_unlock (l : k_arch_spinlock) : k_arch_spinlock :=
  foldl (fun l o => unlock_step o l) l unlock_ops.

(** ** Several CPUs *)

(** Where a CPU is: outside, in the loop of [lock], between the exchange that took the
    lock and the assignment of [id], inside, or in [unlock] with accesses left to do. *)
Inductive pc :=
| Outside
| Spinning
| Acquired
| Inside
| Leaving (ops : list unlock_op).

Record system := mk_system {
  sys_lock : k_arch_spinlock;
  sys_pc : Z → pc
}.

Definition at_pc (s : system) (cpu : Z) (p : pc) (l : k_arch_spinlock) : system :=
  mk_system l (fun c => if c =? cpu then p else sys_pc s c).

(** A step of one CPU; every CPU may take the next one. *)
Inductive step : system → system → Prop :=
| step_enter s cpu :
    sys_pc s cpu = Outside → step s (at_pc s cpu Spinning (sys_lock s))
| step_try s cpu r l :
    sys_pc s cpu = Spinning → k_arch_gen_spinlock_trylock (sys_lock s) = (r, l) →
    step s (at_pc s cpu (if truth r then Spinning else Acquired) l)
| step_id s cpu :
    sys_pc s cpu = Acquired → step s (at_pc s cpu Inside (set_id (sys_lock s) cpu))
| step_leave s cpu :
    sys_pc s cpu = Inside → step s (at_pc s cpu (Leaving unlock_ops) (sys_lock s))
| step_unlock s cpu o ops :
    sys_pc s cpu = Leaving (o :: ops) →
    step s (at_pc s cpu (Leaving ops) (unlock_step o (sys_lock s)))
| step_out s cpu :
    sys_pc s cpu = Leaving [] → step s (at_pc s cpu Outside (sys_lock s)).

Inductive reachable : system → Prop :=
| reach_init l : reachable (mk_system (k_arch_gen_spinlock_init l) (fun _ => Outside))
| reach_step s s' : reachable s → step s s' → reachable s'.

(** A CPU that holds the lock: from the exchange to the store that gives it back. *)
Definition holds (p : pc) : bool :=
  match p with
  | Acquired | Inside => true
  | Leaving ops => bool_decide (ops ≠ [])
  | _ => false
  end.

(** The word is 1 exactly while some CPU holds the lock, no two CPUs hold it, and
    [id] names the CPU that is inside; the accesses left are an end of [unlock_ops]. *)
Record lock_inv (s : system) : Prop := {
  inv_val : lk_val (sys_lock s) = 0 ∨ lk_val (sys_lock s) = 1;
  inv_free : lk_val (sys_lock s) = 0 → ∀ c, holds (sys_pc s c) = false;
  inv_one : ∀ c d, holds (sys_pc s c) = true → holds (sys_pc s d) = true → c = d;
  inv_id : ∀ c, sys_pc s c = Inside → lk_id (sys_lock s) = c;
  inv_ops : ∀ c ops, sys_pc s c = Leaving ops →
    ops = [ClearId; ClearVal] ∨ ops = [ClearVal] ∨ ops = []
}.

Lemma lock_inv_init l : lock_inv (mk_system (k_arch_gen_spinlock_init l) (fun _ => Outside)).
Proof. split; simpl; intros; auto; discriminate. Qed.

(** Case analysis on whether a CPU is the one that took the step. *)
Ltac at_cases :=
  repeat match goal with
  | Hx : context [if ?c =? ?d then _ else _] |- _ => destruct (c =? d) eqn:?; bsplit; subst
  | |- context [if ?c =? ?d then _ else _] => destruct (c =? d) eqn:?; bsplit; subst
  end.

Lemma lock_inv_step s s' : lock_inv s → step s s' → lock_inv s'.
Proof.
  intros [Hv Hf H1 Hid Hops] Hs. inversion Hs as [? c Hc|? c r l Hc Ht|? c Hc|? c Hc|? c o ops Hc|? c Hc];
    subst; unfold at_pc.
  - split; simpl; [done| | | |]; intros.
    + at_cases; auto.
    + at_cases; simpl in *; auto; discriminate.
    + at_cases; [discriminate|auto].
    + at_cases; [discriminate|eauto].
  - unfold k_arch_gen_spinlock_trylock, k_aexchange in Ht. injection Ht as <- <-. split; simpl; [by right|done| | |].
    + intros a b Ha Hb. destruct Hv as [E|E]; rewrite E in *; simpl in *.
      * at_cases; [done| | |by apply H1]; rewrite Hf in * by done; discriminate.
      * at_cases; [done| | |by apply H1]; discriminate.
    + intros a Ha. at_cases; [destruct (truth _); discriminate|auto].
    + intros a ops Ha. at_cases; [destruct (truth _); discriminate|eauto].
  - assert (holds (sys_pc s c) = true) as Hh by (by rewrite Hc).
    split; simpl; [done| | | |].
    + intros E a. rewrite (Hf E c) in Hh. discriminate.
    + intros a b Ha Hb. at_cases; [done|by apply H1|by apply H1|by apply H1].
    + intros a Ha. at_cases; [done|]. apply H1; [done|by rewrite Ha].
    + intros a ops Ha. at_cases; [discriminate|eauto].
  - assert (holds (sys_pc s c) = true) as Hh by (by rewrite Hc).
    split; simpl; [done| | | |].
    + intros E a. rewrite (Hf E c) in Hh. discriminate.
    + intros a b Ha Hb. at_cases; [done|by apply H1|by apply H1|by apply H1].
    + intros a Ha. at_cases; [discriminate|auto].
    + intros a ops Ha. at_cases; [injection Ha as <-; auto|eauto].
  - assert (holds (sys_pc s c) = true) as Hh by (by rewrite Hc).
    assert (∀ a, a ≠ c → holds (sys_pc s a) = false) as Hoth.
    { intros a Ha. destruct (holds (sys_pc s a)) eqn:E; [|done]. by destruct Ha; apply H1. }
    assert (∀ a, a ≠ c → sys_pc s a ≠ Inside) as Hin.
    { intros a Ha E. specialize (Hoth a Ha). by rewrite E in Hoth. }
    destruct (Hops c _ Hc) as [E|[E|E]]; [| |discriminate]; injection E as -> ->; simpl.
    + split; simpl; [done| | | |].
      * intros E a. rewrite (Hf E c) in Hh. discriminate.
      * intros a b Ha Hb. at_cases; [done| | |by apply H1]; rewrite Hoth in * by done; discriminate.
      * intros a Ha. at_cases; [discriminate|]. by destruct (Hin a).
      * intros a ops' Ha. at_cases; [injection Ha as <-; auto|eauto].
    + split; simpl; [by left| | | |].
      * intros _ a. at_cases; [done|auto].
      * intros a b Ha Hb. at_cases; [done| | |by apply H1]; discriminate.
      * intros a Ha. at_cases; [discriminate|]. by destruct (Hin a).
      * intros a ops' Ha. at_cases; [injection Ha as <-; auto|eauto].
  - split; simpl; [done| | | |].
    + intros E a. at_cases; auto.
    + intros a b Ha Hb. at_cases; simpl in *; auto; discriminate.
    + intros a Ha. at_cases; [discriminate|auto].
    + intros a ops Ha. at_cases; [discriminate|eauto].
Qed.

Lemma reachable_inv s : reachable s → lock_inv s.
Proof. induction 1; [apply lock_inv_init|by eapply lock_inv_step]. Qed.

(** C1: mutual exclusion. In every state that any number of CPUs reach by locking and
    unlocking in any interleaving, at most one CPU is between [lock] and [unlock], the
    word is 1 while it is, and [id] is the number of that CPU. *)
Theorem spinlock_mutual_exclusion s (Hr : reachable s) c (Hc : sys_pc s c = Inside) :
  lk_val (sys_lock s) = 1 ∧ lk_id (sys_lock s) = c ∧ ∀ d, sys_pc s d = Inside → d = c.
Proof.
  apply reachable_inv in Hr as [Hv Hf H1 Hid _]. split_and!.
  - destruct Hv as [E|E]; [|done]. specialize (Hf E c). by rewrite Hc in Hf.
  - by apply Hid.
  - intros d Hd. apply H1; [by rewrite Hd|by rewrite Hc].
Qed.

(** CPU 0 has the lock and CPU 1 spins. *)
Lemma spinlock_mutual_exclusion_witness :
  ∃ s, reachable s ∧ sys_pc s 1 = Spinning ∧ lk_id (sys_lock s) = 0.
Proof.
  set (s0 := mk_system (k_arch_gen_spinlock_init (mk_lock 5 5)) (fun _ => Outside)).
  set (s1 := at_pc s0 0 Spinning (sys_lock s0)).
  set (s2 := at_pc s1 0 Acquired (mk_lock 1 (-1))).
  set (s3 := at_pc s2 0 Inside (mk_lock 1 0)).
  set (s4 := at_pc s3 1 Spinning (sys_lock s3)).
  assert (reachable s4) as Hr.
  { apply (reach_step s3); [apply (reach_step s2); [apply (reach_step s1); [apply (reach_step s0);
      [apply reach_init|]|]|]|].
    - by apply (step_enter s0 0).
    - by apply (step_try s1 0 0 (mk_lock 1 (-1))).
    - by apply (step_id s2 0).
    - by apply (step_enter s3 1). }
  exists s4. split; [exact Hr|]. split; [reflexivity|].
  destruct (spinlock_mutual_exclusion s4 Hr 0 eq_refl) as (_ & E & _). exact E.
Defined.

(** A free lock is taken at the first attempt; a lock that is taken is waited for. *)
Lemma lock_alone fuel cpu l :
  k_arch_gen_spinlock_lock (S fuel) cpu l =
    if truth (lk_val l) then k_arch_gen_spinlock_lock fuel cpu (mk_lock 1 (lk_id l)) else Ret (mk_lock 1 cpu).
Proof.
  unfold k_arch_gen_spinlock_lock. cbn [while]. mstep.
  unfold k_arch_gen_spinlock_trylock, k_aexchange. destruct (truth (lk_val l)) eqn:E; simpl.
  - destruct fuel; simpl; rewrite E; done.
  - rewrite while_done; [done|]. simpl. by rewrite E.
Qed.
