(* ===== verification/Regs.v ===== *)
(** * User registers of RISC-V (arch/riscv/cpu.c, arch/riscv/thread.c)

    The registers that an interrupt saves are the words of
    [struct k_arch_riscv_user_regs], in the order of the structure (and of the
    [REGOFF_] macros of the assembly). *)

From S2P Require Import Prelude Config.

Notation user_regs := (list Z) (only parsing).

(** Words of the structure. *)
Definition REG_RA : Z := 0.
Definition REG_SP : Z := 1.
Definition REG_TP : Z := 3.
Definition REG_A0 : Z := 11.
Definition REG_A1 : Z := 12.
Definition REG_A2 : Z := 13.
Definition REG_A3 : Z := 14.
Definition REG_A4 : Z := 15.
Definition REG_A5 : Z := 16.
Definition REG_MEPC : Z := 31.
Definition REG_MSTATUS : Z := 32.
Definition REG_MSCRATCH : Z := 33.
Definition REG_ALL : nat := 34.

(** [enum k_arch_arg_type] *)
Inductive k_arch_arg_type :=
| ARG_1 | ARG_2 | ARG_3 | ARG_4 | ARG_5 | ARG_6
| ARG_INTADDR | ARG_RETADDR | ARG_RETVAL | ARG_STACK | ARG_STACK_INTR | ARG_TLS.

#[export] Instance k_arch_arg_type_eq_dec : EqDecision k_arch_arg_type.
Proof. solve_decision. Defined.

(** The type of a number that the code was given. *)
Definition arg_type (t : Z) : option k_arch_arg_type :=
  zget [ARG_1; ARG_2; ARG_3; ARG_4; ARG_5; ARG_6; ARG_INTADDR; ARG_RETADDR; ARG_RETVAL;
        ARG_STACK; ARG_STACK_INTR; ARG_TLS] t.

(** The register of an argument: the [switch] of both functions. *)
Definition arg_reg (t : k_arch_arg_type) : Z :=
  match t with
  | ARG_1 | ARG_RETVAL => REG_A0
  | ARG_2 => REG_A1
  | ARG_3 => REG_A2
  | ARG_4 => REG_A3
  | ARG_5 => REG_A4
  | ARG_6 => REG_A5
  | ARG_RETADDR => REG_RA
  | ARG_STACK => REG_SP
  | ARG_STACK_INTR => REG_MSCRATCH
  | ARG_TLS => REG_TP
  | ARG_INTADDR => REG_MEPC
  end.

Definition k_arch_riscv_get_arg (regs : user_regs) (t : Z) : exec (Z * option Z) :=
  match arg_type t with
  | None => Ret (- EINVAL, None)
  | Some a => v ← of_opt (zget regs (arg_reg a)); Ret (0, Some v)
  end.

Definition k_arch_riscv_set_arg `{Arch} (regs : user_regs) (t val : Z) : exec (Z * user_regs) :=
  match arg_type t with
  | None => Ret (- EINVAL, regs)
  | Some a => regs ← of_opt (zset regs (arg_reg a) (usize val)); Ret (0, regs)
  end.

(** The numbers of the types, for the callers. *)
Definition K_ARCH_ARG_TYPE_1 : Z := 0.
Definition K_ARCH_ARG_TYPE_INTADDR : Z := 6.
Definition K_ARCH_ARG_TYPE_RETVAL : Z := 8.
Definition K_ARCH_ARG_TYPE_STACK : Z := 9.
Definition K_ARCH_ARG_TYPE_STACK_INTR : Z := 10.
Definition K_ARCH_ARG_TYPE_TLS : Z := 11.

Definition XSTATUS_MPP_MASK : Z := Z.shiftl 3 11.
Definition XSTATUS_MPP_M : Z := Z.shiftl 3 11.
Definition XSTATUS_MPIE : Z := BIT 7.

(** [k_arch_riscv_thread_init]; [cur] is what the assembly routine
    [k_arch_copy_current_context] stores. *)
Definition k_arch_riscv_thread_init (cur : user_regs) : exec (Z * user_regs) :=
  st ← of_opt (zget cur REG_MSTATUS);
  let st := clear st XSTATUS_MPP_MASK in
  let st := Z.lor st XSTATUS_MPP_M in
  let st := Z.lor st XSTATUS_MPIE in
  regs ← of_opt (zset cur REG_MSTATUS st);
  Ret (0, regs).

(** ** Properties *)

Lemma arg_reg_range t : 0 <= arg_reg t < 34.
Proof. destruct t; vm_compute; split; congruence. Qed.

Lemma get_arg_eq regs t a :
  length regs = REG_ALL → arg_type t = Some a →
  ∃ v, zget regs (arg_reg a) = Some v ∧ k_arch_riscv_get_arg regs t = Ret (0, Some v).
Proof.
  intros Hl Ht. destruct (zget_is_Some regs (arg_reg a)) as [v Hv].
  - pose proof (arg_reg_range a). unfold REG_ALL in Hl. lia.
  - exists v. split; [done|]. unfold k_arch_riscv_get_arg. rewrite Ht, Hv. done.
Qed.

Lemma set_arg_eq `{Arch} regs t a val :
  length regs = REG_ALL → arg_type t = Some a →
  ∃ regs', k_arch_riscv_set_arg regs t val = Ret (0, regs') ∧ length regs' = REG_ALL ∧
    zset regs (arg_reg a) (usize val) = Some regs'.
Proof.
  intros Hl Ht. unfold k_arch_riscv_set_arg. rewrite Ht. pose proof (arg_reg_range a).
  rewrite zset_in by (unfold REG_ALL in Hl; lia). mstep. eexists. split; [done|].
  split; [by rewrite length_insert|done].
Qed.

(** Writing an argument and reading it back. A type that the code does not know is
    [-EINVAL] for both and changes nothing. After any other is set, reading the same
    type, or a type that the architecture keeps in the same register, gives the
    value; every other type reads as before. Types share a register only for the
    first argument and the return value. *)
Theorem k_arch_arg_roundtrip `{Arch} regs t val (Hl : length regs = REG_ALL) :
  match arg_type t with
  | None => k_arch_riscv_set_arg regs t val = Ret (- EINVAL, regs) ∧
            k_arch_riscv_get_arg regs t = Ret (- EINVAL, None)
  | Some a => ∃ regs', k_arch_riscv_set_arg regs t val = Ret (0, regs') ∧
      k_arch_riscv_get_arg regs' t = Ret (0, Some (usize val)) ∧
      ∀ t' a', arg_type t' = Some a' →
        k_arch_riscv_get_arg regs' t' =
          if decide (a' = a ∨ (a = ARG_1 ∧ a' = ARG_RETVAL) ∨ (a = ARG_RETVAL ∧ a' = ARG_1))
          then Ret (0, Some (usize val)) else k_arch_riscv_get_arg regs t'
  end.
Proof.
  destruct (arg_type t) as [a|] eqn:Ht.
  - destruct (set_arg_eq regs t a val Hl Ht) as (regs' & E & Hl' & Hz).
    assert (∀ t' a', arg_type t' = Some a' →
      k_arch_riscv_get_arg regs' t' = if arg_reg a' =? arg_reg a
      then Ret (0, Some (usize val)) else k_arch_riscv_get_arg regs t') as Hget.
    { intros t' a' Ht'. unfold k_arch_riscv_get_arg. rewrite Ht', (zget_zset _ _ _ _ _ Hz).
      by destruct (arg_reg a' =? arg_reg a). }
    exists regs'. split; [done|]. split; [by rewrite (Hget t a), Z.eqb_refl|].
    intros t' a' Ht'. rewrite (Hget t' a' Ht').
    by destruct a, a'.
  - unfold k_arch_riscv_set_arg, k_arch_riscv_get_arg. by rewrite Ht.
Qed.

Lemma k_arch_arg_roundtrip_witness :
  ∃ regs', @k_arch_riscv_set_arg rv32 (replicate 34 0) K_ARCH_ARG_TYPE_RETVAL (-1) = Ret (0, regs') ∧
    k_arch_riscv_get_arg regs' K_ARCH_ARG_TYPE_RETVAL = Ret (0, Some 0xffffffff).
Proof.
  destruct (@k_arch_arg_roundtrip rv32 (replicate 34 0) K_ARCH_ARG_TYPE_RETVAL (-1) eq_refl)
    as (regs' & E & Eg & _).
  exists regs'. split; [exact E|exact Eg].
Defined.
