(* ===== verification/Cpu.v ===== *)
(** * Processors (driver/cpu/cpu.c, driver/cpu/riscv.c, sys/smp.c)

    The table [cpus] maps the logical number of a CPU to a device object; the
    objects and the threads are numbers, and [kern] holds their fields together
    with the memory that system calls write to.  The CPU that runs a function is
    given by its physical number, [hart] (what [k_arch_get_cpu_id] reads).  A lock
    is 0 or 1: a function runs alone until it waits, and taking a lock that is
    taken does not come back.  The operations of the CPU driver are parameters. *)

From S2P Require Import Prelude Config CString Event Regs.

Record k_cpu_futex := mk_futex {
  fx_uaddr : Z;
  fx_val : Z;
  fx_bitset : Z;
  fx_wakeup : Z
}.

Record k_cpu_device := mk_cpu {
  id_cpu : Z;
  id_phys : Z;
  cpu_running : Z;
  cpu_regs : option user_regs;
  cpu_lock : Z;
  cpu_ti : option Z;
  cpu_ti_idle : option Z;
  cpu_ti_task : option Z;
  cpu_handlers : list Z;
  cpu_futex : k_cpu_futex;
  line_size_i : Z;
  line_size_d : Z
}.

Record k_thread_info := mk_thread {
  ti_tid : Z;
  ti_avail : Z;
  ti_running : Z;
  ti_flags : Z;
  ti_sp : Z;
  ti_robust_list : Z;
  ti_robust_len : Z;
  ti_ctid : Z;
  ti_ptid : Z;
  ti_tls : Z;
  ti_regs : user_regs;
  ti_cpu : option Z
}.

Record k_proc_info := mk_proc {
  pi_pid : Z;
  pi_avail : Z;
  pi_lock : Z;
  pi_leader : option Z;
  pi_fdset : list (option Z)
}.

Record kern := mk_kern {
  k_cpus : list (option Z);
  k_cpu_objs : gmap Z k_cpu_device;
  k_uniq_id_cpu : Z;
  k_ti : list k_thread_info;
  k_uniq_tid : Z;
  k_pi : k_proc_info;
  k_lock_smp : Z;
  k_mem : mem
}.

(** A larger state that the CPUs and threads are part of: what the handlers of events
    may change. *)
Class HasKern (W : Type) := {
  kern_of : W → kern;
  put_kern : kern → W → W
}.
#[export] Instance kern_has_kern : HasKern kern := {| kern_of := fun k => k; put_kern := fun k _ => k |}.

(** ** Objects *)

Definition get_cpu (k : kern) (c : Z) : exec k_cpu_device := of_opt (k_cpu_objs k !! c).
Definition put_cpu (k : kern) (c : Z) (x : k_cpu_device) : kern :=
  mk_kern (k_cpus k) (<[c := x]> (k_cpu_objs k)) (k_uniq_id_cpu k) (k_ti k) (k_uniq_tid k) (k_pi k)
    (k_lock_smp k) (k_mem k).
Definition get_thread (k : kern) (t : Z) : exec k_thread_info := of_opt (zget (k_ti k) t).
Definition put_thread (k : kern) (t : Z) (x : k_thread_info) : exec kern :=
  l ← of_opt (zset (k_ti k) t x);
  Ret (mk_kern (k_cpus k) (k_cpu_objs k) (k_uniq_id_cpu k) l (k_uniq_tid k) (k_pi k) (k_lock_smp k) (k_mem k)).
Definition with_tid (k : kern) (n : Z) : kern :=
  mk_kern (k_cpus k) (k_cpu_objs k) (k_uniq_id_cpu k) (k_ti k) n (k_pi k) (k_lock_smp k) (k_mem k).
Definition with_proc (k : kern) (p : k_proc_info) : kern :=
  mk_kern (k_cpus k) (k_cpu_objs k) (k_uniq_id_cpu k) (k_ti k) (k_uniq_tid k) p (k_lock_smp k) (k_mem k).
Definition with_smp (k : kern) (l : Z) : kern :=
  mk_kern (k_cpus k) (k_cpu_objs k) (k_uniq_id_cpu k) (k_ti k) (k_uniq_tid k) (k_pi k) l (k_mem k).
Definition with_kmem (k : kern) (m : mem) : kern :=
  mk_kern (k_cpus k) (k_cpu_objs k) (k_uniq_id_cpu k) (k_ti k) (k_uniq_tid k) (k_pi k) (k_lock_smp k) m.
Definition with_cpus (k : kern) (l : list (option Z)) (n : Z) : kern :=
  mk_kern l (k_cpu_objs k) n (k_ti k) (k_uniq_tid k) (k_pi k) (k_lock_smp k) (k_mem k).

Definition cpu_set_ids (x : k_cpu_device) (id phys : Z) : k_cpu_device :=
  mk_cpu id phys (cpu_running x) (cpu_regs x) (cpu_lock x) (cpu_ti x) (cpu_ti_idle x) (cpu_ti_task x) (cpu_handlers x) (cpu_futex x)
    (line_size_i x) (line_size_d x).
Definition cpu_set_running (x : k_cpu_device) (r : Z) : k_cpu_device :=
  mk_cpu (id_cpu x) (id_phys x) r (cpu_regs x) (cpu_lock x) (cpu_ti x) (cpu_ti_idle x) (cpu_ti_task x) (cpu_handlers x) (cpu_futex x)
    (line_size_i x) (line_size_d x).
Definition cpu_set_regs (x : k_cpu_device) (r : option user_regs) : k_cpu_device :=
  mk_cpu (id_cpu x) (id_phys x) (cpu_running x) r (cpu_lock x) (cpu_ti x) (cpu_ti_idle x) (cpu_ti_task x) (cpu_handlers x) (cpu_futex x)
    (line_size_i x) (line_size_d x).
Definition cpu_set_lock (x : k_cpu_device) (l : Z) : k_cpu_device :=
  mk_cpu (id_cpu x) (id_phys x) (cpu_running x) (cpu_regs x) l (cpu_ti x) (cpu_ti_idle x) (cpu_ti_task x) (cpu_handlers x) (cpu_futex x)
    (line_size_i x) (line_size_d x).
Definition cpu_set_threads (x : k_cpu_device) (ti idle task : option Z) : k_cpu_device :=
  mk_cpu (id_cpu x) (id_phys x) (cpu_running x) (cpu_regs x) (cpu_lock x) ti idle task (cpu_handlers x) (cpu_futex x)
    (line_size_i x) (line_size_d x).
Definition cpu_set_futex (x : k_cpu_device) (f : k_cpu_futex) : k_cpu_device :=
  mk_cpu (id_cpu x) (id_phys x) (cpu_running x) (cpu_regs x) (cpu_lock x) (cpu_ti x) (cpu_ti_idle x) (cpu_ti_task x) (cpu_handlers x) f
    (line_size_i x) (line_size_d x).

Definition cpu_set_lines (x : k_cpu_device) (i d : Z) : k_cpu_device :=
  mk_cpu (id_cpu x) (id_phys x) (cpu_running x) (cpu_regs x) (cpu_lock x) (cpu_ti x) (cpu_ti_idle x) (cpu_ti_task x)
    (cpu_handlers x) (cpu_futex x) i d.

(** ** Fields of a CPU (cpu.c) *)

Definition k_cpu_get_id (k : kern) (c : Z) : exec Z := x ← get_cpu k c; Ret (id_cpu x).
Definition k_cpu_get_id_phys (k : kern) (c : Z) : exec Z := x ← get_cpu k c; Ret (id_phys x).
Definition k_cpu_get_running (k : kern) (c : Z) : exec Z := x ← get_cpu k c; Ret (cpu_running x).
Definition k_cpu_get_user_regs (k : kern) (c : Z) : exec (option user_regs) := x ← get_cpu k c; Ret (cpu_regs x).
Definition k_cpu_cache_get_line_size_i (k : kern) (c : Z) : exec Z := x ← get_cpu k c; Ret (line_size_i x).
Definition k_cpu_cache_get_line_size_d (k : kern) (c : Z) : exec Z := x ← get_cpu k c; Ret (line_size_d x).
Definition k_cpu_cache_set_line_size_i (k : kern) (c sz : Z) : exec kern :=
  x ← get_cpu k c; Ret (put_cpu k c (cpu_set_lines x sz (line_size_d x))).
Definition k_cpu_cache_set_line_size_d (k : kern) (c sz : Z) : exec kern :=
  x ← get_cpu k c; Ret (put_cpu k c (cpu_set_lines x (line_size_i x) sz)).

Definition k_cpu_set_running (k : kern) (c r : Z) : exec kern :=
  x ← get_cpu k c; Ret (put_cpu k c (cpu_set_running x r)).
Definition k_cpu_set_user_regs (k : kern) (c : Z) (r : option user_regs) : exec kern :=
  x ← get_cpu k c; Ret (put_cpu k c (cpu_set_regs x r)).
Definition k_cpu_get_thread (k : kern) (c : Z) : exec (option Z) := x ← get_cpu k c; Ret (cpu_ti x).
Definition k_cpu_get_thread_idle (k : kern) (c : Z) : exec (option Z) := x ← get_cpu k c; Ret (cpu_ti_idle x).
Definition k_cpu_get_thread_task (k : kern) (c : Z) : exec (option Z) := x ← get_cpu k c; Ret (cpu_ti_task x).
Definition k_cpu_set_thread (k : kern) (c : Z) (t : option Z) : exec kern :=
  x ← get_cpu k c; Ret (put_cpu k c (cpu_set_threads x t (cpu_ti_idle x) (cpu_ti_task x))).
Definition k_cpu_set_thread_idle (k : kern) (c : Z) (t : option Z) : exec kern :=
  x ← get_cpu k c; Ret (put_cpu k c (cpu_set_threads x (cpu_ti x) t (cpu_ti_task x))).
Definition k_cpu_set_thread_task (k : kern) (c : Z) (t : option Z) : exec kern :=
  x ← get_cpu k c; Ret (put_cpu k c (cpu_set_threads x (cpu_ti x) (cpu_ti_idle x) t)).
Definition k_cpu_lock (k : kern) (c : Z) : exec kern :=
  x ← get_cpu k c; if truth (cpu_lock x) then Hang else Ret (put_cpu k c (cpu_set_lock x 1)).
Definition k_cpu_unlock (k : kern) (c : Z) : exec kern :=
  x ← get_cpu k c; Ret (put_cpu k c (cpu_set_lock x 0)).

Definition k_smp_lock (k : kern) : exec kern := if truth (k_lock_smp k) then Hang else Ret (with_smp k 1).
Definition k_smp_unlock (k : kern) : kern := with_smp k 0.

(** ** The table of CPUs *)

Section Table.
Context `{Config}.

Definition k_cpu_alloc_id (k : kern) : Z * kern :=
  (k_uniq_id_cpu k, with_cpus k (k_cpus k) (i32 (k_uniq_id_cpu k + 1))).

Definition k_cpu_get (k : kern) (id : Z) : exec (option Z) :=
  if (id <? 0) || (CONFIG_NUM_CORES <=? id) then Ret None else of_opt (zget (k_cpus k) id).

Definition k_cpu_set (k : kern) (id : Z) (cpu : option Z) : exec (Z * kern) :=
  match cpu with
  | None => Ret (- EINVAL, k)
  | Some _ =>
    if (id <? 0) || (CONFIG_NUM_CORES <=? id) then Ret (- EINVAL, k) else
    l ← of_opt (zset (k_cpus k) id cpu);
    Ret (0, with_cpus k l (k_uniq_id_cpu k))
  end.

(** The first CPU of the table with a physical number. *)
Fixpoint find_phys (k : kern) (l : list (option Z)) (phys : Z) : exec (option Z) :=
  match l with
  | [] => Ret None
  | None :: l => find_phys k l phys
  | Some c :: l =>
    x ← get_cpu k c;
    if id_phys x =? phys then Ret (Some c) else find_phys k l phys
  end.
Definition k_cpu_get_by_physical_id (k : kern) (phys : Z) : exec (option Z) := find_phys k (k_cpus k) phys.

(** [k_cpu_get_current]; the callers use the result without a test. *)
Definition k_cpu_get_current (k : kern) (hart : Z) : exec Z :=
  c ← k_cpu_get_by_physical_id k hart; of_opt c.

Definition k_cpu_get_current_user_regs (k : kern) (hart : Z) : exec (option user_regs) :=
  c ← k_cpu_get_current k hart; k_cpu_get_user_regs k c.
Definition k_cpu_set_current_user_regs (k : kern) (hart : Z) (r : option user_regs) : exec kern :=
  c ← k_cpu_get_current k hart; k_cpu_set_user_regs k c r.

(** The registration of a CPU by the RISC-V driver; [priv] tells whether the device has
    its private area, [conf] is what reading [hartid] of its configuration gives. *)
Definition cpu_riscv_add (k : kern) (cpu : Z) (priv : bool) (conf : Z * Z) : exec (Z * kern) :=
  if negb priv then Ret (- EINVAL, k) else
  let '(r, hartid) := conf in
  if truth r then Ret (- EINVAL, k) else
  let '(cpuid, k) := if hartid =? CONFIG_MAIN_CORE then (0, k) else k_cpu_alloc_id k in
  if cpuid >=? CONFIG_NUM_CORES then Ret (- EINVAL, k) else
  x ← get_cpu k cpu;
  let x := cpu_set_ids x cpuid (i32 hartid) in
  let k := put_cpu k cpu (cpu_set_lines x 64 64) in
  '(_, k) ← k_cpu_set k cpuid (Some cpu);
  Ret (0, k).

(** [k_smp_find_idle_cpu]: the first CPU without a task. *)
Fixpoint find_idle (k : kern) (l : list (option Z)) : exec (option Z) :=
  match l with
  | [] => Ret None
  | None :: l => find_idle k l
  | Some c :: l =>
    t ← k_cpu_get_thread_task k c;
    if decide (t = None) then Ret (Some c) else find_idle k l
  end.
Definition k_smp_find_idle_cpu (k : kern) : exec (Z * option Z) :=
  c ← find_idle k (k_cpus k);
  match c with
  | None => Ret (- ENOMEM, None)
  | Some c => Ret (0, Some c)
  end.

(** ** Driver operations *)

(** [wakeup], [sleep] and [raise_ipi] of the CPU driver. *)
Variable op_wakeup : option (Z → kern → exec (Z * kern)).
Variable op_sleep : option (Z → kern → exec (Z * kern)).
Variable op_raise_ipi : option (Z → Z → kern → exec (Z * kern)).

Definition k_cpu_raise_ipi (k : kern) (hart dest : Z) : exec (Z * kern) :=
  cpu ← k_cpu_get_current k hart;
  match op_raise_ipi with
  | Some raise => raise cpu dest k
  | None => Ret (- ENOTSUP, k)
  end.

Definition k_cpu_wakeup (k : kern) (c : Z) : exec (Z * kern) :=
  k ← k_cpu_set_running k c 1;
  match op_wakeup with
  | Some f => f c k
  | None => Ret (0, k)
  end.

Definition k_cpu_sleep (k : kern) (c : Z) : exec (Z * kern) :=
  '(r, k) ← match op_sleep with Some f => f c k | None => Ret (0, k) end;
  if truth r then Ret (r, k) else
  k ← k_cpu_set_running k c 0;
  Ret (0, k).

(** The loops of [k_cpu_wakeup_all] and [k_cpu_sleep_all] from CPU [i] on. *)
Fixpoint each_cpu (f : Z → kern → exec (Z * kern)) (hart : Z) (ids : list Z) (res : Z) (k : kern) :
    exec (Z * kern) :=
  match ids with
  | [] => Ret (res, k)
  | i :: ids =>
    c ← k_cpu_get k i;
    match c with
    | None => each_cpu f hart ids res k
    | Some c =>
      '(r, k) ← f c k;
      let res := if truth r then r else res in
      '(r, k) ← k_cpu_raise_ipi k hart c;
      each_cpu f hart ids (if truth r then r else res) k
    end
  end.

Definition k_cpu_wakeup_all (k : kern) (hart : Z) : exec (Z * kern) :=
  c ← k_cpu_get k 0;
  match c with
  | None => Ret (- ENOMEM, k)
  | Some c =>
    k ← k_cpu_set_running k c 1;
    each_cpu (fun c k => k_cpu_wakeup k c) hart (seqZ 1 (CONFIG_NUM_CORES - 1)) 0 k
  end.

Definition k_cpu_sleep_all (k : kern) (hart : Z) : exec (Z * kern) :=
  '(res, k) ← each_cpu (fun c k => k_cpu_sleep k c) hart (seqZ 1 (CONFIG_NUM_CORES - 1)) 0 k;
  c ← k_cpu_get k 0;
  match c with
  | None => Ret (- ENOMEM, k)
  | Some c => k ← k_cpu_set_running k c 0; Ret (res, k)
  end.

(** ** Events of a CPU *)

Definition CPU_EVENT_NULL : Z := 0.
Definition CPU_EVENT_ON_WAKEUP : Z := 1.
Definition CPU_EVENT_ON_SLEEP : Z := 2.
Definition CPU_EVENT_INTR_EXT : Z := 3.
Definition CPU_EVENT_INTR_IPI : Z := 4.
Definition CPU_EVENT_INTR_TIMER : Z := 5.
Definition CPU_EVENT_MAX : Z := 6.

Definition k_cpu_get_handler_head (k : kern) (c event : Z) : exec (Z * option Z) :=
  if CPU_EVENT_MAX <=? event then Ret (- EINVAL, None) else
  if (event =? CPU_EVENT_ON_WAKEUP) || (event =? CPU_EVENT_ON_SLEEP) || (event =? CPU_EVENT_INTR_EXT) ||
     (event =? CPU_EVENT_INTR_IPI) || (event =? CPU_EVENT_INTR_TIMER) then
    x ← get_cpu k c;
    h ← of_opt (zget (cpu_handlers x) event);
    Ret (0, Some h)
  else Ret (- EINVAL, None).

Definition k_cpu_add_handler (k : kern) (e : events) (c event handler : Z) : exec (Z * events) :=
  '(r, head) ← k_cpu_get_handler_head k c event;
  if truth r then Ret (r, e) else
  h ← get_hnd e handler;
  let e := mk_events (<[handler := mk_hnd (h_func h) (h_priv h) event (h_next h)]> (e_heap e)) (e_stat e) in
  k_event_add_handler e head (Some handler).

Definition k_cpu_remove_handler (k : kern) (e : events) (c event handler : Z) : exec (Z * events) :=
  '(r, head) ← k_cpu_get_handler_head k c event;
  if truth r then Ret (r, e) else
  k_event_remove_handler e head (Some handler).

Section CpuEvents.
Context {W : Type} `{HasKern W}.
Variable call : Z → Z → Z → events → W → exec (Z * events * W).
Variable op_on_wakeup op_on_sleep : option (Z → kern → exec (Z * kern)).

Definition k_cpu_call_handler (w : W) (e : events) (c event : Z) : exec (Z * events * W) :=
  '(r, head) ← k_cpu_get_handler_head (kern_of w) c event;
  if truth r then Ret (r, e, w) else
  head ← of_opt head;
  h ← get_hnd e head;
  match h_next h with
  | None => Ret (0, e, w)
  | Some n => '(_, e, w) ← k_event_handle_generic call event (Some n) e w; Ret (0, e, w)
  end.

Definition k_cpu_on_wakeup (w : W) (e : events) (hart : Z) : exec (Z * events * W) :=
  c ← k_cpu_get_current (kern_of w) hart;
  '(r, k) ← match op_on_wakeup with Some f => f c (kern_of w) | None => Ret (0, kern_of w) end;
  let w := put_kern k w in
  if truth r then Ret (r, e, w) else
  k_cpu_call_handler w e c CPU_EVENT_ON_WAKEUP.

Definition k_cpu_on_sleep (w : W) (e : events) (hart : Z) : exec (Z * events * W) :=
  c ← k_cpu_get_current (kern_of w) hart;
  '(r, e, w) ← k_cpu_call_handler w e c CPU_EVENT_ON_SLEEP;
  if truth r then Ret (r, e, w) else
  '(r, k) ← match op_on_sleep with Some f => f c (kern_of w) | None => Ret (0, kern_of w) end;
  Ret (r, e, put_kern k w).
End CpuEvents.

(** ** Futexes *)

Definition futex_none : k_cpu_futex := mk_futex 0 0 0 0.

(** [k_cpu_wait_interrupt] and the interrupts that follow: what the rest of the system
    does meanwhile, at the [n]-th wait. *)
Variable elsewhere : nat → kern → kern.

Fixpoint futex_wait_loop (fuel : nat) (c uaddr : Z) (n : nat) (k : kern) : exec (Z * kern) :=
  x ← get_cpu k c;
  if truth (fx_wakeup (cpu_futex x)) then Ret (0, k) else
  if negb (i32 (load_le 4 (k_mem k) uaddr) =? fx_val (cpu_futex x)) then Ret (- EWOULDBLOCK, k) else
  match fuel with
  | O => Hang
  | S fuel => futex_wait_loop fuel c uaddr (S n) (elsewhere n k)
  end.

Definition k_cpu_futex_wait (fuel : nat) (k : kern) (hart uaddr val bitset : Z) : exec (Z * kern) :=
  c ← k_cpu_get_current k hart;
  if bitset =? 0 then Ret (- EINVAL, k) else
  k ← k_cpu_lock k c;
  x ← get_cpu k c;
  let k := put_cpu k c (cpu_set_futex x (mk_futex uaddr val bitset 0)) in
  k ← k_cpu_unlock k c;
  '(res, k) ← futex_wait_loop fuel c uaddr 0 k;
  k ← k_cpu_lock k c;
  x ← get_cpu k c;
  let k := put_cpu k c (cpu_set_futex x futex_none) in
  k ← k_cpu_unlock k c;
  Ret (res, k).

(** The loop of [k_cpu_futex_wake] over the CPUs [ids]. *)
Fixpoint futex_wake_loop (ids : list Z) (hart cur uaddr val bitset res : Z) (k : kern) : exec (Z * kern) :=
  match ids with
  | [] => Ret (res, k)
  | i :: ids =>
    if negb (res <? val) then Ret (res, k) else
    c ← k_cpu_get k i;
    match c with
    | None => futex_wake_loop ids hart cur uaddr val bitset res k
    | Some c =>
      if c =? cur then futex_wake_loop ids hart cur uaddr val bitset res k else
      k ← k_cpu_lock k c;
      x ← get_cpu k c;
      if negb (fx_uaddr (cpu_futex x) =? uaddr) || negb (has (fx_bitset (cpu_futex x)) bitset) then
        k ← k_cpu_unlock k c;
        futex_wake_loop ids hart cur uaddr val bitset res k
      else
        let f := cpu_futex x in
        let k := put_cpu k c (cpu_set_futex x (mk_futex (fx_uaddr f) (fx_val f) (fx_bitset f) 1)) in
        k ← k_cpu_unlock k c;
        '(r, k) ← k_cpu_raise_ipi k hart c;
        let res := if truth r then r else res in
        futex_wake_loop ids hart cur uaddr val bitset (i32 (res + 1)) k
    end
  end.

Definition k_cpu_futex_wake (k : kern) (hart uaddr val bitset : Z) : exec (Z * kern) :=
  cur ← k_cpu_get_current k hart;
  if bitset =? 0 then Ret (- EINVAL, k) else
  futex_wake_loop (seqZ 0 CONFIG_NUM_CORES) hart cur uaddr val bitset 0 k.
End Table.

(** ** Properties *)

(** The physical numbers do not change. *)
Definition same_ids (k k' : kern) : Prop :=
  k_cpus k' = k_cpus k ∧ ∀ c, id_phys <$> (k_cpu_objs k' !! c) = id_phys <$> (k_cpu_objs k !! c).

Lemma find_phys_same k k' l phys : same_ids k k' → find_phys k' l phys = find_phys k l phys.
Proof.
  intros [_ Hs]. induction l as [|[c|] l IH]; simpl; [done| |done].
  unfold get_cpu. specialize (Hs c).
  destruct (k_cpu_objs k' !! c), (k_cpu_objs k !! c); simplify_eq/=; [|done].
  rewrite Hs. destruct (_ =? phys); [done|]. exact IH.
Qed.

Lemma get_current_same k k' hart : same_ids k k' → k_cpu_get_current k' hart = k_cpu_get_current k hart.
Proof.
  intros Hs. unfold k_cpu_get_current, k_cpu_get_by_physical_id.
  rewrite (proj1 Hs). by rewrite (find_phys_same k k').
Qed.

Lemma same_ids_put k c x y :
  k_cpu_objs k !! c = Some x → id_phys y = id_phys x → same_ids k (put_cpu k c y).
Proof.
  intros Hx Hy. split; [done|]. intros d. simpl. destruct (decide (d = c)) as [->|].
  - rewrite lookup_insert_eq, Hx. simpl. by rewrite Hy.
  - by rewrite lookup_insert_ne.
Qed.

(** A CPU of the table that waits on a futex for one of the bits. *)
Definition waits (k : kern) (cur uaddr bitset : Z) (c : Z) : bool :=
  negb (c =? cur) &&
  match k_cpu_objs k !! c with
  | Some x => (fx_uaddr (cpu_futex x) =? uaddr) && has (fx_bitset (cpu_futex x)) bitset
  | None => false
  end.

Definition waiters (k : kern) (cur uaddr bitset : Z) (l : list (option Z)) : list Z :=
  List.filter (waits k cur uaddr bitset) (omap id l).

(** What waking a CPU does to it. *)
Definition woken (x : k_cpu_device) : k_cpu_device :=
  let f := cpu_futex x in cpu_set_futex x (mk_futex (fx_uaddr f) (fx_val f) (fx_bitset f) 1).
Definition wake_one (k : kern) (c : Z) : kern :=
  match k_cpu_objs k !! c with
  | Some x => put_cpu k c (woken x)
  | None => k
  end.
Definition wake_all (k : kern) (l : list Z) : kern := foldl wake_one k l.

(** The CPUs of a part of the table exist, once each, and none is locked. *)
Record cpus_ok (k : kern) (l : list (option Z)) : Prop := {
  co_nodup : NoDup (omap id l);
  co_objs : ∀ c, c ∈ omap id l → ∃ x, k_cpu_objs k !! c = Some x ∧ cpu_lock x = 0
}.

Lemma cpus_ok_tail k o l : cpus_ok k (o :: l) → cpus_ok k l.
Proof.
  intros [Hn Ho]. destruct o as [c|]; [|done]. simpl in *.
  apply NoDup_cons in Hn as [_ Hn]. split; [done|]. intros d Hd. apply Ho. by right.
Qed.

Lemma waiters_wake k cur uaddr bitset c l :
  c ∉ omap id l → waiters (wake_one k c) cur uaddr bitset l = waiters k cur uaddr bitset l.
Proof.
  intros Hc. unfold waiters.
  assert (∀ d, d ∈ omap id l → waits (wake_one k c) cur uaddr bitset d = waits k cur uaddr bitset d) as Hw.
  { intros d Hd. unfold waits, wake_one. destruct (k_cpu_objs k !! c); [|done]. simpl.
    rewrite lookup_insert_ne; [done|]. intros ->. done. }
  induction (omap id l) as [|d ds IH]; simpl; [done|].
  rewrite Hw by left. rewrite IH; [done| |].
  - intros Hin. apply Hc. by right.
  - intros e He. apply Hw. by right.
Qed.

Lemma cpus_ok_wake k c o l : cpus_ok k (o :: l) → c ∉ omap id l → cpus_ok (wake_one k c) l.
Proof.
  intros H Hc. apply cpus_ok_tail in H as [Hn Ho]. split; [done|]. intros d Hd.
  destruct (Ho d Hd) as (x & Hx & Hl). exists x. split; [|done]. unfold wake_one.
  destruct (k_cpu_objs k !! c); [|done]. simpl. rewrite lookup_insert_ne; [done|]. intros ->. done.
Qed.

Lemma same_ids_wake k c : same_ids k (wake_one k c).
Proof.
  unfold wake_one. destruct (k_cpu_objs k !! c) as [x|] eqn:E; [|done]. by eapply same_ids_put.
Qed.

Section FutexProofs.
Context `{Config}.
Variable raise : Z → Z → kern → exec (Z * kern).

(** Inter-processor interrupts are raised, and change nothing that is modelled. *)
Hypothesis Hipi : ∀ cpu dest k, raise cpu dest k = Ret (0, k).

(** Locking and unlocking an unlocked CPU around a change of it. *)
Lemma lock_cpu k c x : k_cpu_objs k !! c = Some x → cpu_lock x = 0 →
  k_cpu_lock k c = Ret (put_cpu k c (cpu_set_lock x 1)).
Proof. intros Hx Hl. unfold k_cpu_lock, get_cpu. rewrite Hx. mstep. by rewrite Hl. Qed.

Lemma unlock_same k c x : k_cpu_objs k !! c = Some x → cpu_lock x = 0 →
  k_cpu_unlock (put_cpu k c (cpu_set_lock x 1)) c = Ret k.
Proof.
  intros Hx Hl. unfold k_cpu_unlock, get_cpu. simpl. rewrite lookup_insert_eq. mstep.
  unfold put_cpu. simpl. rewrite insert_insert_eq, insert_id; [by destruct k|].
  rewrite Hx. destruct x. simpl in *. by subst.
Qed.

Lemma wake_loop k hart cur uaddr val bitset : ∀ l pre k1 res,
  k_cpus k1 = pre ++ l → zlen (pre ++ l) = CONFIG_NUM_CORES → zlen (pre ++ l) < 2 ^ 31 →
  0 <= res <= zlen pre → cpus_ok k1 l → same_ids k k1 → k_cpu_get_current k hart = Ret cur →
  let w := take (Z.to_nat (val - res)) (waiters k1 cur uaddr bitset l) in
  futex_wake_loop (Some raise) (seqZ (zlen pre) (zlen l)) hart cur uaddr val bitset res k1 =
    Ret (res + zlen w, wake_all k1 w).
Proof.
  induction l as [|o l IH]; intros pre k1 res Hk Hn Hb Hres Hok Hid Hcur w.
  - unfold w, waiters. simpl. destruct (Z.to_nat _); simpl; by rewrite Z.add_0_r.
  - simpl length. rewrite Nat2Z.inj_succ, seqZ_cons by lia. cbn [futex_wake_loop].
    destruct (res <? val) eqn:Erv; bsplit; cbn [negb]; cycle 1.
    { unfold w. replace (Z.to_nat (val - res)) with O by lia. simpl. by rewrite Z.add_0_r. }
    assert (k_cpu_get k1 (zlen pre) = Ret o) as ->.
    { unfold k_cpu_get. rewrite length_app in Hn. simpl in Hn.
      rewrite (proj2 (Z.ltb_ge (zlen pre) 0)), (proj2 (Z.leb_gt _ _)) by lia. simpl.
      rewrite Hk. unfold zget. rewrite (proj2 (Z.ltb_ge _ _)), Nat2Z.id, list_lookup_middle by lia. done. }
    mstep. replace (Z.succ (zlen pre)) with (zlen (pre ++ [o])) by (rewrite length_app; simpl; lia).
    replace (Z.pred (Z.succ (zlen l))) with (zlen l) by lia.
    assert (k_cpus k1 = (pre ++ [o]) ++ l) as Hk' by (by rewrite <- app_assoc).
    rewrite (cons_middle o) in Hn, Hb. rewrite app_assoc in Hn, Hb.
    assert (0 <= res <= zlen (pre ++ [o])) as Hres' by (rewrite length_app; simpl; lia).
    destruct o as [c|]; [|apply (IH (pre ++ [None]) k1 res); try done; by eapply cpus_ok_tail].
    assert (∀ P, P = false → waits k1 cur uaddr bitset c = P →
      w = take (Z.to_nat (val - res)) (waiters k1 cur uaddr bitset l)) as Hskip.
    { intros P -> E. unfold w, waiters. simpl. by rewrite E. }
    destruct (c =? cur) eqn:Ec.
    { rewrite (Hskip false) by (done || by unfold waits; rewrite Ec).
      apply (IH (pre ++ [Some c])); try done. by eapply cpus_ok_tail. }
    destruct (co_objs _ _ Hok c) as (x & Hx & Hl); [left|]. rewrite (lock_cpu _ _ x) by done. mstep.
    unfold get_cpu at 1. simpl k_cpu_objs. rewrite lookup_insert_eq. mstep. simpl cpu_futex.
    destruct (_ || _) eqn:Em.
    + rewrite (unlock_same _ _ x) by done. mstep.
      rewrite (Hskip false); [apply (IH (pre ++ [Some c])); try done; by eapply cpus_ok_tail|done|].
      unfold waits. rewrite Ec, Hx. simpl. by rewrite <- (negb_involutive (_ && _)), negb_andb, Em.
    + assert (waits k1 cur uaddr bitset c = true) as Ew.
      { unfold waits. rewrite Ec, Hx. simpl. by rewrite <- (negb_involutive (_ && _)), negb_andb, Em. }
      assert (c ∉ omap id l) as Hc.
      { pose proof (co_nodup _ _ Hok) as Hnd. simpl in Hnd. by apply NoDup_cons in Hnd as [? _]. }
      match goal with |- context [k_cpu_unlock ?kk c] =>
        assert (k_cpu_unlock kk c = Ret (wake_one k1 c)) as -> end.
      { unfold k_cpu_unlock, get_cpu. simpl. rewrite lookup_insert_eq. mstep.
        unfold wake_one. rewrite Hx. unfold put_cpu. simpl. rewrite !insert_insert_eq.
        do 2 f_equal. destruct x. simpl in *. by subst. }
      mstep. unfold k_cpu_raise_ipi.
      assert (same_ids k (wake_one k1 c)) as Hid'.
      { destruct Hid as [E1 E2], (same_ids_wake k1 c) as [E3 E4]. split; [congruence|].
        intros d. by rewrite E4, E2. }
      rewrite (get_current_same k), Hcur by done. mstep. rewrite Hipi. mstep. cbn [truth Z.eqb negb].
      rewrite swrap_small by (rewrite !length_app in *; simpl in *; lia).
      rewrite (IH (pre ++ [Some c]) (wake_one k1 c) (res + 1)); try done.
      * rewrite waiters_wake by done. unfold w, waiters. simpl. rewrite Ew.
        replace (Z.to_nat (val - res)) with (S (Z.to_nat (val - (res + 1)))) by lia.
        cbn [take length]. rewrite Nat2Z.inj_succ.
        do 2 f_equal. change (list_omap _ _ id l) with (omap id l). lia.
      * unfold wake_one. by destruct (k_cpu_objs k1 !! c).
      * rewrite length_app. simpl. lia.
      * by eapply cpus_ok_wake.
Qed.

Lemma wake_all_objs l : ∀ k, NoDup l → ∀ c,
  k_cpu_objs (wake_all k l) !! c =
    if decide (c ∈ l) then woken <$> (k_cpu_objs k !! c) else k_cpu_objs k !! c.
Proof.
  induction l as [|d l IH]; intros k Hn c; simpl; [done|].
  apply NoDup_cons in Hn as [Hd Hn]. rewrite IH by done.
  assert (k_cpu_objs (wake_one k d) !! c = if decide (c = d) then woken <$> (k_cpu_objs k !! c)
    else k_cpu_objs k !! c) as ->.
  { unfold wake_one. destruct (k_cpu_objs k !! d) as [x|] eqn:E; simpl.
    - case_decide as Ec; [subst; by rewrite lookup_insert_eq, E|by rewrite lookup_insert_ne].
    - case_decide as Ec; [subst; by rewrite E|done]. }
  destruct (decide (c = d)) as [->|Hne].
  - rewrite decide_False by done. rewrite decide_True by left. done.
  - destruct (decide (c ∈ l)) as [Hin|Hin].
    + rewrite decide_True by (by right). done.
    + rewrite decide_False; [done|]. rewrite elem_of_cons. naive_solver.
Qed.

Lemma futex_wake_eq k hart cur uaddr val bitset :
  k_cpu_get_current k hart = Ret cur → cpus_ok k (k_cpus k) → zlen (k_cpus k) = CONFIG_NUM_CORES →
  CONFIG_NUM_CORES < 2 ^ 31 → bitset ≠ 0 →
  let w := take (Z.to_nat val) (waiters k cur uaddr bitset (k_cpus k)) in
  k_cpu_futex_wake (Some raise) k hart uaddr val bitset = Ret (zlen w, wake_all k w).
Proof.
  intros Hcur Hok Hn Hb Hbit w. unfold k_cpu_futex_wake. rewrite Hcur. mstep.
  rewrite (proj2 (Z.eqb_neq bitset 0)) by done. rewrite <- Hn.
  pose proof (wake_loop k hart cur uaddr val bitset (k_cpus k) [] k 0) as Hw.
  cbn [app length] in Hw. change (Z.of_nat 0) with 0 in Hw.
  rewrite Hw by (done || lia). by rewrite Z.sub_0_r.
Qed.

Lemma waiters_nodup k cur uaddr bitset n :
  cpus_ok k (k_cpus k) → NoDup (take n (waiters k cur uaddr bitset (k_cpus k))).
Proof.
  intros Hok. eapply sublist_NoDup; [|apply sublist_take].
  apply NoDup_ListNoDup, List.NoDup_filter, NoDup_ListNoDup, Hok.
Qed.

(** Waking changes nothing but futexes. *)
Lemma wake_all_rest k l :
  k_cpus (wake_all k l) = k_cpus k ∧ k_ti (wake_all k l) = k_ti k ∧ k_mem (wake_all k l) = k_mem k.
Proof.
  induction l as [|c l IH] using rev_ind; [done|].
  unfold wake_all in *. rewrite foldl_app. simpl. unfold wake_one at 1 3 5.
  by destruct (k_cpu_objs _ !! c).
Qed.

(** C31: waking waiters of a futex. With a bit set that is not empty, and interrupts that
    can be raised, the CPUs that wait on the address for one of the bits, other than
    the caller, are woken in the order of the table, at most [val] of them; nothing
    else changes, and their number is the result. *)
Theorem k_cpu_futex_wake_spec k hart cur uaddr val bitset
    (Hcur : k_cpu_get_current k hart = Ret cur) (Hok : cpus_ok k (k_cpus k))
    (Hn : zlen (k_cpus k) = CONFIG_NUM_CORES) (Hb : CONFIG_NUM_CORES < 2 ^ 31) (Hbit : bitset ≠ 0) :
  let w := take (Z.to_nat val) (waiters k cur uaddr bitset (k_cpus k)) in
  ∃ k', k_cpu_futex_wake (Some raise) k hart uaddr val bitset = Ret (zlen w, k') ∧
    (∀ c, k_cpu_objs k' !! c =
       if decide (c ∈ w) then woken <$> (k_cpu_objs k !! c) else k_cpu_objs k !! c) ∧
    k_cpus k' = k_cpus k ∧ k_ti k' = k_ti k ∧ k_mem k' = k_mem k.
Proof.
  intros w. exists (wake_all k w). split; [by apply futex_wake_eq|].
  split; [by apply wake_all_objs, waiters_nodup|apply wake_all_rest].
Qed.
End FutexProofs.

(** Two CPUs, harts 0 and 1; the second waits on address 0x100 for any bit. *)
Definition idle_cpu (n : Z) : k_cpu_device := mk_cpu n n 1 None 0 None None None [] futex_none 64 64.
Definition two_cpus : kern :=
  mk_kern [Some 10; Some 11; None; None]
    (<[10 := idle_cpu 0]> {[11 := cpu_set_futex (idle_cpu 1) (mk_futex 0x100 7 0xffffffff 0)]})
    2 [] 1 (mk_proc 1 1 0 None []) 0 ∅.

Lemma two_cpus_ok : cpus_ok two_cpus (k_cpus two_cpus).
Proof.
  split; [apply (bool_decide_unpack _); by vm_compute|].
  intros c Hc. simpl in Hc. rewrite !elem_of_cons in Hc.
  destruct Hc as [->|[->|Hc]]; [eexists; split; reflexivity..|]. by apply elem_of_nil in Hc.
Qed.

Lemma k_cpu_futex_wake_spec_witness :
  ∃ k', @k_cpu_futex_wake qemu_virt (Some (fun _ _ k => Ret (0, k))) two_cpus 0 0x100 5 1 = Ret (1, k') ∧
    (fx_wakeup ∘ cpu_futex) <$> (k_cpu_objs k' !! 11) = Some 1.
Proof.
  destruct (@k_cpu_futex_wake_spec qemu_virt (fun _ _ k => Ret (0, k)) (fun _ _ _ => eq_refl)
    two_cpus 0 10 0x100 5 1 eq_refl two_cpus_ok eq_refl eq_refl ltac:(done)) as (k' & E & Ho & _).
  exists k'. split; [exact E|]. by rewrite Ho.
Defined.
