(* ===== verification/Cache.v ===== *)
(** * Cache maintenance (driver/cpu/cpu.c, driver/cpu/riscv.c)

    The instructions of a loop are the list of the addresses they are given; a
    cache line is the [line_size_d] bytes around such an address. *)

From S2P Require Import Prelude Config CString Event Regs Cpu.

Section Cache.
Context `{Arch}.

(** The option that compiles the loops. *)
Variable CONFIG_CACHE : bool.

(** [for (i = 0; i < sz; i += sz_line) cbo(p[i])], with [i] of type [size_t]. *)
Fixpoint cbo_loop (fuel : nat) (p sz sz_line i : Z) : exec (list Z) :=
  if i <? sz then
    match fuel with
    | O => Hang
    | S fuel => l ← cbo_loop fuel p sz sz_line (usize (i + sz_line)); Ret ((p + i) :: l)
    end
  else Ret [].

Definition cbo_range (k : kern) (cpu start sz : Z) : exec (Z * list Z) :=
  if negb CONFIG_CACHE then Ret (0, []) else
  sz_line ← k_cpu_cache_get_line_size_d k cpu;
  if sz_line <=? 0 then Ret (- EINVAL, []) else
  l ← cbo_loop (Z.to_nat sz) start sz sz_line 0;
  Ret (0, l).

(** One function for each of the instructions [cbo.clean], [cbo.inval] and [cbo.flush]. *)
Definition cpu_riscv_clean_range (k : kern) (cpu start sz : Z) : exec (Z * list Z) := cbo_range k cpu start sz.
Definition cpu_riscv_inv_range (k : kern) (cpu start sz : Z) : exec (Z * list Z) := cbo_range k cpu start sz.
Definition cpu_riscv_flush_range (k : kern) (cpu start sz : Z) : exec (Z * list Z) := cbo_range k cpu start sz.

(** The operation of the driver, where it has one. *)
Definition k_cpu_cache_clean_range (op : option (kern → Z → Z → Z → exec (Z * list Z)))
    (k : kern) (cpu start sz : Z) : exec (Z * list Z) :=
  match op with Some f => f k cpu start sz | None => Ret (0, []) end.
Definition k_cpu_cache_inv_range := k_cpu_cache_clean_range.
Definition k_cpu_cache_flush_range := k_cpu_cache_clean_range.

(** The lines that were maintained contain a byte. *)
Definition maintained (line : Z) (l : list Z) (a : Z) : Prop := ∃ p, p ∈ l ∧ p / line = a / line.

Lemma cbo_loop_spec p sz line : 0 < line → sz + line <= 2 ^ xlen → ∀ fuel i, 0 <= i →
  sz - i <= Z.of_nat fuel * line → i < sz + line →
  ∃ l, cbo_loop fuel p sz line i = Ret l ∧
    ∀ a, a ∈ l ↔ ∃ n, 0 <= n ∧ a = p + i + n * line ∧ i + n * line < sz.
Proof.
  intros Hl Hsz. induction fuel as [|fuel IH]; intros i Hi Hf Hi2; simpl.
  - destruct (i <? sz) eqn:E; bsplit; [nia|]. exists []. split; [done|]. intros a.
    split; [by intros ?%elem_of_nil|]. intros (n & ? & _ & ?). nia.
  - destruct (i <? sz) eqn:E; bsplit; cycle 1.
    { exists []. split; [done|]. intros a.
      split; [by intros ?%elem_of_nil|]. intros (n & ? & _ & ?). nia. }
    rewrite uwrap_small by lia. destruct (IH (i + line)) as (l & -> & Hin); [lia..|].
    exists (p + i :: l). split; [done|]. intros a. rewrite elem_of_cons, Hin. split.
    + intros [->|(n & ? & -> & ?)]; [exists 0; lia|]. exists (n + 1). lia.
    + intros (n & Hn & -> & ?). destruct (decide (n = 0)) as [->|]; [left; lia|].
      right. exists (n - 1). lia.
Qed.

(** What the callers rely on: for a CPU whose lines have a size, and a range not as large as the address space, the operation comes back. *)
Definition cache_op_ok (op : option (kern → Z → Z → Z → exec (Z * list Z))) : Prop :=
  ∀ f, op = Some f → ∀ k cpu x start sz, k_cpu_objs k !! cpu = Some x → 0 < line_size_d x → 0 <= sz → sz + line_size_d x <= 2 ^ xlen →
    ∃ r l, f k cpu start sz = Ret (r, l).

Lemma cbo_range_ok : cache_op_ok (Some cbo_range).
Proof.
  intros f [= <-] k cpu x start sz Hx Hl Hs Hr. unfold cbo_range, k_cpu_cache_get_line_size_d, get_cpu.
  destruct CONFIG_CACHE; [|by do 2 eexists]. rewrite Hx. mstep. cbn [negb]. rewrite (proj2 (Z.leb_gt _ _)) by lia.
  destruct (cbo_loop_spec start sz (line_size_d x) Hl Hr (Z.to_nat sz) 0) as (l & -> & _); [nia..|]. by exists 0, l.
Qed.

Lemma cover_iff start sz line : 0 < line → 0 < sz → 0 <= start →
  (∀ a, start <= a < start + sz → ∃ n, 0 <= n ∧ n * line < sz ∧ (start + n * line) / line = a / line) ↔
  start mod line <= (start + sz - 1) mod line.
Proof.
  intros Hl Hs Hst. split.
  - intros Hc. destruct (Hc (start + sz - 1)) as (n & Hn & Hlt & E); [lia|].
    rewrite Z.div_add in E by lia. pose proof (Z.div_mod start line). pose proof (Z.div_mod (start + sz - 1) line).
    nia.
  - intros Hm a Ha. exists (a / line - start / line). rewrite Z.div_add by lia.
    assert (start / line <= a / line) by (apply Z.div_le_mono; lia).
    assert (a / line <= (start + sz - 1) / line) by (apply Z.div_le_mono; lia).
    pose proof (Z.div_mod start line). pose proof (Z.div_mod (start + sz - 1) line).
    split; [lia|]. split; [nia|lia].
Qed.

(** What cache maintenance reaches. Where the range does not end within a line of the
    end of the address space, the loop terminates and gives the instruction only
    addresses of the range. Every byte of the range is maintained if and only if the
    range does not start at a larger offset in its line than the one it ends at: the
    loop steps from the start of the range and not from the start of its line. *)
Theorem k_cpu_cache_clean_range_reach k cpu x start sz (Hc : CONFIG_CACHE = true)
    (Hx : k_cpu_objs k !! cpu = Some x) (Hl : 0 < line_size_d x) (Hs : 0 < sz) (Hst : 0 <= start)
    (Hsz : sz + line_size_d x <= 2 ^ xlen) :
  ∃ l, k_cpu_cache_clean_range (Some cpu_riscv_clean_range) k cpu start sz = Ret (0, l) ∧
    (∀ p, p ∈ l → start <= p < start + sz) ∧
    ((∀ a, start <= a < start + sz → maintained (line_size_d x) l a) ↔
      start mod line_size_d x <= (start + sz - 1) mod line_size_d x).
Proof.
  unfold k_cpu_cache_clean_range, cpu_riscv_clean_range, cbo_range, k_cpu_cache_get_line_size_d, get_cpu.
  rewrite Hc, Hx. mstep. cbn [negb]. rewrite (proj2 (Z.leb_gt _ _)) by lia.
  destruct (cbo_loop_spec start sz (line_size_d x) Hl Hsz (Z.to_nat sz) 0) as (l & -> & Hin); [nia..|].
  mstep. exists l. split; [done|]. split.
  { intros p. rewrite Hin. intros (n & ? & -> & ?). nia. }
  rewrite <- (cover_iff start sz (line_size_d x)) by lia. unfold maintained. split.
  - intros Hm a Ha. destruct (Hm a Ha) as (p & (n & ? & -> & ?)%Hin & E). exists n.
    rewrite Z.add_0_r in E. split; [lia|]. split; [lia|done].
  - intros Hm a Ha. destruct (Hm a Ha) as (n & ? & ? & E). exists (start + n * line_size_d x).
    split; [|done]. apply Hin. exists n. lia.
Qed.
End Cache.

(** Eight bytes from offset 60 of a line of 64 bytes: the second line is left out. *)
Lemma k_cpu_cache_clean_range_reach_witness :
  @k_cpu_cache_clean_range (Some (@cpu_riscv_clean_range rv64 true)) two_cpus 10 0x103c 8 = Ret (0, [0x103c]) ∧
  ¬ (∀ a, 0x103c <= a < 0x103c + 8 → maintained 64 [0x103c] a).
Proof.
  split; [reflexivity|]. destruct (@k_cpu_cache_clean_range_reach rv64 true two_cpus 10 (idle_cpu 0) 0x103c 8
    eq_refl eq_refl ltac:(done) ltac:(done) ltac:(done) ltac:(vm_compute; done)) as (l & E & _ & Hm).
  vm_compute in E. injection E as <-. rewrite Hm. vm_compute. intros Hle. by apply Hle.
Defined.
