(* ===== verification/Args.v ===== *)
(** * Arguments of the main function (sys/init.c, include/bmetal/comm.h)

    The host leaves the arguments in the communication area; [init_args] puts the
    vector of their addresses, the environment and the auxiliary vector on the stack
    of the main thread.  The addresses of the areas, which the linker sets, are the
    fields of [layout]. *)

From S2P Require Import Prelude Config CString Event Regs Cpu Cache.

Definition BAREMETAL_CRT_COMM_MAGIC : Z := 0xbadcafe5.

(** Offsets of [struct k_comm_area_header] and of [struct k_comm_arg_header], and their sizes. *)
Definition COMM_MAGIC : Z := 0.
Definition COMM_NUM_ARGS : Z := 4.
Definition COMM_DONE : Z := 8.
Definition COMM_RET_MAIN : Z := 12.
Definition COMM_HEADER_SIZE : Z := 16.
Definition ARG_SIZE : Z := 8.
Definition ARG_HEADER_SIZE : Z := 16.

Definition AT_PHDR : Z := 3.
Definition AT_PHENT : Z := 4.
Definition AT_PHNUM : Z := 5.
Definition AT_PAGESZ : Z := 6.
Definition AT_RANDOM : Z := 25.

Record layout := mk_layout {
  k_comm_area : Z;
  k_stack_main : Z;
  k_stack_intr : Z;
  k_stack_idle : Z;
  at_random : Z;
  kernel_name : Z;
  aux_valid : Z;
  aux_phent : Z;
  aux_phnum : Z;
  ehdr_start : Z;
  e_phoff : Z
}.

(** [argv], [envp] and [index_argv] *)
Record args := mk_args {
  a_argv : Z;
  a_envp : Z;
  a_index : Z
}.

Section Args.
Context `{Arch} `{Config}.
Variable L : layout.

(** Operations [inv_range] and [flush_range] of the CPU driver. *)
Variable op_inv op_flush : option (kern → Z → Z → Z → exec (Z * list Z)).

(** [sizeof(void * )] *)
Definition ptr_size : Z := xlen / 8.
Definition store_ptr (m : mem) (a v : Z) : mem := store_le (Z.to_nat ptr_size) m a (usize v).
Definition load_ptr (m : mem) (a : Z) : Z := load_le (Z.to_nat ptr_size) m a.

Definition add_argv (m : mem) (s : args) (p : Z) : Z * mem * args :=
  if a_index s >=? MAX_ARGV then (- ENOMEM, m, s) else
  (0, store_ptr m (a_argv s + a_index s * ptr_size) p, mk_args (a_argv s) (a_envp s) (a_index s + 1)).

Definition add_env (m : mem) (s : args) (p : Z) : Z * mem * args := add_argv m s p.

Definition add_aux (m : mem) (s : args) (typ p : Z) : Z * mem * args :=
  if a_index s >=? MAX_ARGV - 1 then (- ENOMEM, m, s) else
  let m := store_ptr m (a_argv s + a_index s * ptr_size) typ in
  let m := store_ptr m (a_argv s + (a_index s + 1) * ptr_size) p in
  (0, m, mk_args (a_argv s) (a_envp s) (a_index s + 2)).

Definition num_args (m : mem) : Z := load_le 4 m (k_comm_area L + COMM_NUM_ARGS).
Definition comm_magic (m : mem) : Z := load_le 4 m (k_comm_area L + COMM_MAGIC).

(** The loop of [map_argv]. *)
Fixpoint map_argv (fuel : nat) (k : kern) (hart i buf : Z) (s : args) : exec (kern * args) :=
  if i <? num_args (k_mem k) then
    match fuel with
    | O => Hang
    | S fuel =>
      cpu ← k_cpu_get_current k hart;
      let ha := buf in
      let buf := usize (buf + ARG_HEADER_SIZE) in
      '(_, _) ← k_cpu_cache_inv_range op_inv k cpu buf (usize (load_le 8 (k_mem k) (ha + ARG_SIZE)));
      let '(_, m, s) := add_argv (k_mem k) s buf in
      let k := with_kmem k m in
      let buf := usize (buf + load_le 8 m (ha + ARG_SIZE)) in
      map_argv fuel k hart (i + 1) (usize (ALIGN_OF buf 8)) s
    end
  else Ret (k, s).

Fixpoint unmap_argv (fuel : nat) (k : kern) (hart i buf : Z) : exec kern :=
  if i <? num_args (k_mem k) then
    match fuel with
    | O => Hang
    | S fuel =>
      cpu ← k_cpu_get_current k hart;
      let ha := buf in
      let buf := usize (buf + ARG_HEADER_SIZE) in
      let size := load_le 8 (k_mem k) (ha + ARG_SIZE) in
      '(_, _) ← k_cpu_cache_flush_range op_flush k cpu buf (usize size);
      unmap_argv fuel k hart (i + 1) (usize (ALIGN_OF (usize (buf + size)) 8))
    end
  else Ret k.

(** The vector starts [MAX_ARGV] words below the end of the stack. *)
Definition argv_base : Z := k_stack_main L + CONFIG_MAIN_STACK_SIZE - MAX_ARGV * ptr_size.

Definition args_of_comm (k : kern) (hart : Z) (s : args) : exec (kern * args) :=
  if comm_magic (k_mem k) =? BAREMETAL_CRT_COMM_MAGIC then
    map_argv (Z.to_nat (num_args (k_mem k))) k hart 0 (k_comm_area L + ALIGN_OF COMM_HEADER_SIZE 8) s
  else Ret (k, s).

(** The auxiliary vector. *)
Definition add_auxs (m : mem) (s : args) : mem * args :=
  let '(_, m, s) := add_aux m s AT_RANDOM (at_random L) in
  let '(_, m, s) := add_aux m s AT_PAGESZ PAGE_SIZE in
  let '(m, s) :=
    if truth (aux_valid L) then
      let '(_, m, s) := add_aux m s AT_PHENT (aux_phent L) in
      let '(_, m, s) := add_aux m s AT_PHNUM (aux_phnum L) in
      let '(_, m, s) := add_aux m s AT_PHDR (ehdr_start L + e_phoff L) in
      (m, s)
    else (m, s) in
  let '(_, m, s) := add_aux m s 0 0 in
  (m, s).

(** [init_args]: [argc], the state and the vectors. *)
Definition init_args (k : kern) (hart : Z) : exec (Z * kern * args) :=
  '(k, s) ← args_of_comm k hart (mk_args argv_base 0 0);
  let '(k, s) :=
    if a_index s =? 0 then
      (with_kmem k (store_ptr (k_mem k) (a_argv s) (kernel_name L)), mk_args (a_argv s) (a_envp s) 1)
    else (k, s) in
  let argc := a_index s in
  let index := a_index s + 1 in
  let s := mk_args (a_argv s) (a_argv s + index * ptr_size) index in
  let '(_, m, s) := add_env (k_mem k) s 0 in
  let '(m, s) := add_auxs m s in
  Ret (argc, with_kmem k m, s).

Definition fini_args (k : kern) (hart st : Z) : exec kern :=
  cpu ← k_cpu_get_current k hart;
  if comm_magic (k_mem k) =? BAREMETAL_CRT_COMM_MAGIC then
    k ← unmap_argv (Z.to_nat (num_args (k_mem k))) k hart 0 (k_comm_area L + ALIGN_OF COMM_HEADER_SIZE 8);
    let m := store_le 4 (k_mem k) (k_comm_area L + COMM_RET_MAIN) (u32 st) in
    let m := store_le 4 m (k_comm_area L + COMM_DONE) 1 in
    let k := with_kmem k m in
    '(_, _) ← k_cpu_cache_flush_range op_flush k cpu (k_comm_area L + COMM_RET_MAIN) 4;
    '(_, _) ← k_cpu_cache_flush_range op_flush k cpu (k_comm_area L + COMM_DONE) 4;
    Ret k
  else Ret k.
End Args.

(** ** Words in memory *)

Lemma load_le_ext n m1 m2 a :
  (∀ b, a <= b < a + Z.of_nat n → load8 m1 b = load8 m2 b) → load_le n m1 a = load_le n m2 a.
Proof.
  revert a. induction n as [|n IH]; intros a Hb; [done|]. simpl.
  rewrite Hb by lia. rewrite IH; [done|]. intros b ?. apply Hb. lia.
Qed.

Lemma load_le_bytes n m a v :
  (∀ i, 0 <= i < Z.of_nat n → load8 m (a + i) = u8 (Z.shiftr v (8 * i))) →
  load_le n m a = v mod 2 ^ (8 * Z.of_nat n).
Proof.
  revert a v. induction n as [|n IH]; intros a v Hb; [simpl; by rewrite Z.mod_1_r|].
  cbn [load_le]. pose proof (Hb 0 ltac:(lia)) as H0. rewrite Z.add_0_r, Z.shiftr_0_r in H0. rewrite H0.
  rewrite (IH (a + 1) (Z.shiftr v 8)).
  - rewrite Z.shiftr_div_pow2 by lia. unfold uwrap.
    replace (8 * Z.of_nat (S n)) with (8 + 8 * Z.of_nat n) by lia.
    rewrite Z.pow_add_r by lia. change 256 with (2 ^ 8).
    symmetry. apply Z.rem_mul_r; [lia|apply Z.pow_pos_nonneg; lia].
  - intros i Hi. replace (a + 1 + i) with (a + (i + 1)) by lia. rewrite Hb by lia.
    rewrite Z.shiftr_shiftr by lia. do 2 f_equal. lia.
Qed.

Section Words.
Context `{Arch}.

Lemma ptr_size_nat : Z.of_nat (Z.to_nat ptr_size) = ptr_size ∧ 8 * ptr_size = xlen ∧ 4 <= ptr_size.
Proof. unfold ptr_size. destruct xlen_cases as [-> | ->]; vm_compute; by split_and!. Qed.

Lemma load8_store_ptr m a v b : ¬ (a <= b < a + ptr_size) → load8 (store_ptr m a v) b = load8 m b.
Proof.
  intros Hb. unfold store_ptr. rewrite load8_store_le. destruct ptr_size_nat as (-> & _).
  destruct (a <=? b) eqn:?, (b <? a + ptr_size) eqn:?; bsplit; simpl; done || lia.
Qed.

Lemma load_store_ptr m a v : load_ptr (store_ptr m a v) a = usize v.
Proof.
  unfold load_ptr, store_ptr. rewrite (load_le_bytes _ _ _ (usize v)).
  - destruct ptr_size_nat as (-> & -> & _). apply uwrap_idem.
  - intros i Hi. rewrite load8_store_le.
    rewrite (proj2 (Z.leb_le _ _)), (proj2 (Z.ltb_lt _ _)) by lia. simpl. do 2 f_equal. f_equal. lia.
Qed.

(** The words of a list, one after the other. *)
Fixpoint write_words (m : mem) (a : Z) (l : list Z) : mem :=
  match l with
  | [] => m
  | v :: l => write_words (store_ptr m a v) (a + ptr_size) l
  end.

Lemma write_words_app m a l1 l2 :
  write_words m a (l1 ++ l2) = write_words (write_words m a l1) (a + zlen l1 * ptr_size) l2.
Proof.
  revert m a. induction l1 as [|v l1 IH]; intros m a; simpl; [f_equal; lia|].
  rewrite IH. f_equal. lia.
Qed.

Lemma load8_write_words l : ∀ m a b,
  ¬ (a <= b < a + zlen l * ptr_size) → load8 (write_words m a l) b = load8 m b.
Proof.
  destruct ptr_size_nat as (_ & _ & Hp).
  induction l as [|v l IH]; intros m a b Hb; simpl; [done|]. simpl length in Hb.
  rewrite IH by nia. apply load8_store_ptr. nia.
Qed.

Lemma load_le_write_words n m a l b :
  b + Z.of_nat n <= a ∨ a + zlen l * ptr_size <= b → load_le n (write_words m a l) b = load_le n m b.
Proof. intros Hb. apply load_le_ext. intros c Hc. apply load8_write_words. lia. Qed.

Lemma load_write_words l : ∀ m a j v, l !! j = Some v →
  load_ptr (write_words m a l) (a + Z.of_nat j * ptr_size) = usize v.
Proof.
  destruct ptr_size_nat as (En & _ & Hp).
  induction l as [|w l IH]; intros m a j v Hj; [done|]. destruct j as [|j]; simpl in *.
  - simplify_eq. rewrite Z.add_0_r. unfold load_ptr. rewrite load_le_write_words by lia. apply load_store_ptr.
  - replace (a + Z.of_nat (S j) * ptr_size) with (a + ptr_size + Z.of_nat j * ptr_size) by lia. by apply IH.
Qed.
End Words.

(** ** The vectors on the stack *)

Section ArgsProofs.
Context `{Arch} `{Config}.
Variable L : layout.
Variable op_inv : option (kern → Z → Z → Z → exec (Z * list Z)).

(** The driver comes back from invalidating a range. *)
Hypothesis Hinv : cache_op_ok op_inv.

(** The headers of [n] arguments, and the addresses of their values. *)
Fixpoint arg_headers (n : nat) (m : mem) (buf : Z) : list Z :=
  match n with
  | O => []
  | S n => buf :: arg_headers n m (usize (ALIGN_OF (usize (usize (buf + ARG_HEADER_SIZE) + load_le 8 m (buf + ARG_SIZE))) 8))
  end.
Definition arg_values (n : nat) (m : mem) (buf : Z) : list Z :=
  (fun h => usize (h + ARG_HEADER_SIZE)) <$> arg_headers n m buf.

(** [n] bytes that the vector does not overlap. *)
Definition clear_of (a n : Z) : Prop :=
  a + n <= argv_base L ∨ argv_base L + MAX_ARGV * ptr_size <= a.

(** A header of an argument that the vector does not reach, of a size that does not go round the address space. *)
Definition arg_ok (line : Z) (m : mem) (h : Z) : Prop :=
  clear_of h ARG_HEADER_SIZE ∧ usize (load_le 8 m (h + ARG_SIZE)) + line <= 2 ^ xlen.

Lemma get_current_mem k m hart : k_cpu_get_current (with_kmem k m) hart = k_cpu_get_current k hart.
Proof. by apply get_current_same. Qed.

Lemma map_argv_eq n : ∀ k hart cur x m pre buf,
  k_cpu_get_current k hart = Ret cur → k_cpu_objs k !! cur = Some x → 0 < line_size_d x → k_mem k = write_words m (argv_base L) pre →
  num_args L m = zlen pre + Z.of_nat n → zlen pre + Z.of_nat n <= MAX_ARGV →
  clear_of (k_comm_area L) COMM_HEADER_SIZE → (∀ h, h ∈ arg_headers n m buf → arg_ok (line_size_d x) m h) →
  map_argv L op_inv n k hart (zlen pre) buf (mk_args (argv_base L) 0 (zlen pre)) =
    Ret (with_kmem k (write_words m (argv_base L) (pre ++ arg_values n m buf)),
         mk_args (argv_base L) 0 (zlen pre + Z.of_nat n)).
Proof.
  destruct ptr_size_nat as (_ & _ & Hp).
  induction n as [|n IH]; intros k hart cur x m pre buf Hcur Hx Hline Hm Hn Hmax Hc Hh.
  - cbn [map_argv]. rewrite Hm. unfold num_args.
    rewrite load_le_write_words by (unfold clear_of, COMM_HEADER_SIZE, COMM_NUM_ARGS in *; nia).
    fold (num_args L m). rewrite Hn, (proj2 (Z.ltb_ge _ _)) by lia. simpl arg_values.
    rewrite app_nil_r, Z.add_0_r. do 2 f_equal. rewrite <- Hm. by destruct k.
  - assert (arg_ok (line_size_d x) m buf) as [Hbuf Hsz] by (apply Hh; left).
    cbn [map_argv]. rewrite Hm. unfold num_args at 1.
    rewrite load_le_write_words by (unfold clear_of, COMM_HEADER_SIZE, COMM_NUM_ARGS in *; nia).
    fold (num_args L m). rewrite Hn, (proj2 (Z.ltb_lt _ _)) by lia. rewrite Hcur. mstep.
    assert (load_le 8 (write_words m (argv_base L) pre) (buf + ARG_SIZE) = load_le 8 m (buf + ARG_SIZE)) as ->
      by (apply load_le_write_words; unfold clear_of, ARG_HEADER_SIZE, ARG_SIZE in *; nia).
    unfold k_cpu_cache_inv_range, k_cpu_cache_clean_range.
    match goal with |- context [match op_inv with Some f => f ?a ?b ?c ?d | None => _ end] =>
      assert (∃ r l, match op_inv with Some f => f a b c d | None => Ret (0, []) end = Ret (r, l)) as (r & l & ->) end.
    { destruct op_inv as [f|]; [|eauto]. eapply (Hinv f eq_refl); [done|done|apply uwrap_range; pose proof xlen_ge; lia|done]. }
    mstep. unfold add_argv. cbn [a_index a_argv a_envp].
    rewrite Z.geb_leb, (proj2 (Z.leb_gt _ _)) by lia.
    set (v := usize (buf + ARG_HEADER_SIZE)).
    assert (store_ptr (write_words m (argv_base L) pre) (argv_base L + zlen pre * ptr_size) v =
      write_words m (argv_base L) (pre ++ [v])) as -> by (by rewrite write_words_app).
    rewrite load_le_write_words
      by (rewrite length_app; simpl length; unfold clear_of, ARG_HEADER_SIZE, ARG_SIZE in *; nia).
    replace (zlen pre + 1) with (zlen (pre ++ [v])) by (rewrite length_app; simpl; lia).
    rewrite (IH _ hart cur x m (pre ++ [v])).
    + unfold arg_values. simpl. rewrite <- app_assoc. simpl. fold v. do 3 f_equal.
      rewrite length_app. simpl. lia.
    + by rewrite get_current_mem.
    + done.
    + done.
    + done.
    + rewrite length_app. simpl. lia.
    + rewrite length_app. simpl. lia.
    + done.
    + intros h Hin. apply Hh. by right.
Qed.

(** The auxiliary vector. *)
Definition auxv : list Z :=
  [AT_RANDOM; at_random L; AT_PAGESZ; PAGE_SIZE] ++
  (if truth (aux_valid L)
   then [AT_PHENT; aux_phent L; AT_PHNUM; aux_phnum L; AT_PHDR; ehdr_start L + e_phoff L] else []) ++ [0; 0].

Lemma add_aux_eq m i e typ p : i + 2 <= MAX_ARGV →
  add_aux m (mk_args (argv_base L) e i) typ p =
    (0, write_words m (argv_base L + i * ptr_size) [typ; p], mk_args (argv_base L) e (i + 2)).
Proof.
  intros Hi. unfold add_aux. cbn [a_index a_argv a_envp]. rewrite Z.geb_leb, (proj2 (Z.leb_gt _ _)) by lia.
  simpl. do 3 f_equal. lia.
Qed.

Lemma add_auxs_eq m i e : i + 12 <= MAX_ARGV →
  add_auxs L m (mk_args (argv_base L) e i) =
    (write_words m (argv_base L + i * ptr_size) auxv, mk_args (argv_base L) e (i + zlen auxv)).
Proof.
  intros Hi. unfold add_auxs, auxv. destruct (truth (aux_valid L)).
  - rewrite !add_aux_eq by lia. cbn [app length]. f_equal; [|f_equal; lia].
    cbn [write_words]. repeat (f_equal; try lia).
  - rewrite !add_aux_eq by lia. cbn [app length]. f_equal; [|f_equal; lia].
    cbn [write_words]. repeat (f_equal; try lia).
Qed.

Lemma init_args_eq k hart cur x m n buf : k_cpu_objs k !! cur = Some x → 0 < line_size_d x →
  m = k_mem k → n = num_args L m → buf = k_comm_area L + ALIGN_OF COMM_HEADER_SIZE 8 →
  k_cpu_get_current k hart = Ret cur → comm_magic L m = BAREMETAL_CRT_COMM_MAGIC →
  0 < n <= CONFIG_COMM_MAX_ARGS → 2 <= CONFIG_COMM_MAX_ENVS →
  clear_of (k_comm_area L) COMM_HEADER_SIZE →
  (∀ h, h ∈ arg_headers (Z.to_nat n) m buf → arg_ok (line_size_d x) m h) →
  init_args L op_inv k hart =
    Ret (n, with_kmem k (write_words (write_words m (argv_base L) (arg_values (Z.to_nat n) m buf))
                           (argv_base L + (n + 1) * ptr_size) (0 :: auxv)),
         mk_args (argv_base L) (argv_base L + (n + 1) * ptr_size) (n + 2 + zlen auxv)).
Proof.
  intros Hx Hline -> Hn -> Hcur Hmag Hr Henv Hc Hh. unfold init_args, args_of_comm. rewrite Hmag, Z.eqb_refl, <- Hn.
  assert (n <= MAX_ARGV - 14) as Hmax by (unfold MAX_ARGV; lia).
  pose proof (map_argv_eq (Z.to_nat n) k hart cur x (k_mem k) [] (k_comm_area L + ALIGN_OF COMM_HEADER_SIZE 8)) as E.
  simpl zlen in E. change (Z.of_nat 0) with 0 in E. cbn [write_words app] in E.
  rewrite E by (done || lia). mstep. rewrite Z2Nat.id, Z.add_0_l by lia. cbn [a_index a_argv a_envp].
  rewrite (proj2 (Z.eqb_neq n 0)) by lia. unfold add_env, add_argv. cbn [a_index a_argv a_envp].
  rewrite Z.geb_leb, (proj2 (Z.leb_gt _ _)) by lia. rewrite add_auxs_eq by lia.
  unfold with_kmem. cbn [k_mem k_cpus k_cpu_objs k_uniq_id_cpu k_ti k_uniq_tid k_pi k_lock_smp write_words].
  do 2 f_equal; [|f_equal; lia]. do 2 f_equal. f_equal. lia.
Qed.

(** What the vector holds: the values, a word that is not written, a null pointer, and the auxiliary vector. *)
Lemma vector_words m base vals n aux : zlen vals = n →
  let m' := write_words (write_words m base vals) (base + (n + 1) * ptr_size) (0 :: aux) in
  (∀ j v, vals !! j = Some v → load_ptr m' (base + Z.of_nat j * ptr_size) = usize v) ∧
  load_ptr m' (base + n * ptr_size) = load_ptr m (base + n * ptr_size) ∧
  load_ptr m' (base + (n + 1) * ptr_size) = 0.
Proof.
  intros Hv. destruct ptr_size_nat as (En & _ & Hp). cbv zeta. split_and!.
  - intros j v Hj. unfold load_ptr. pose proof (lookup_lt_Some _ _ _ Hj).
    rewrite load_le_write_words by nia. by apply load_write_words.
  - unfold load_ptr. rewrite load_le_write_words by (left; lia). rewrite load_le_write_words by (right; nia). done.
  - pose proof (load_write_words (0 :: aux) (write_words m base vals) (base + (n + 1) * ptr_size) 0%nat 0 eq_refl) as E0.
    rewrite Z.add_0_r in E0. rewrite E0. unfold uwrap. by rewrite Zmod_0_l.
Qed.

Lemma arg_values_len m b n : 0 <= n → zlen (arg_values (Z.to_nat n) m b) = n.
Proof.
  intros Hn. assert (∀ k b z, length (arg_headers k b z) = k) as Hl by (induction k; intros; simpl; [done|f_equal; auto]).
  unfold arg_values. rewrite length_fmap, Hl. lia.
Qed.

(** C34: the vectors of the main function. With arguments in the communication area, at
    most as many as configured, none of a size that goes round the address space, and room for two environment entries at least,
    [init_args] returns their number as [argc]. The words at [argv] are the addresses of
    the values, in order; the environment is empty; the auxiliary vector, ending in a
    pair of zeros, follows; all of it lies inside the stack, and no other byte changes. The
    word [argv[argc]] keeps what the stack, which is not cleared at start, held
    before: no null pointer is written there. *)
Theorem init_args_layout k hart cur x (Hcur : k_cpu_get_current k hart = Ret cur)
    (Hx : k_cpu_objs k !! cur = Some x) (Hline : 0 < line_size_d x)
    (Hmag : comm_magic L (k_mem k) = BAREMETAL_CRT_COMM_MAGIC)
    (Hr : 0 < num_args L (k_mem k) <= CONFIG_COMM_MAX_ARGS) (Henv : 2 <= CONFIG_COMM_MAX_ENVS)
    (Hc : clear_of (k_comm_area L) COMM_HEADER_SIZE)
    (Hh : ∀ h, h ∈ arg_headers (Z.to_nat (num_args L (k_mem k))) (k_mem k)
                     (k_comm_area L + ALIGN_OF COMM_HEADER_SIZE 8) → arg_ok (line_size_d x) (k_mem k) h) :
  let m := k_mem k in
  let n := num_args L m in
  let vals := arg_values (Z.to_nat n) m (k_comm_area L + ALIGN_OF COMM_HEADER_SIZE 8) in
  ∃ m' s, init_args L op_inv k hart = Ret (n, with_kmem k m', s) ∧
    a_argv s = argv_base L ∧ a_envp s = a_argv s + (n + 1) * ptr_size ∧ zlen vals = n ∧
    (∀ j v, vals !! j = Some v → load_ptr m' (a_argv s + Z.of_nat j * ptr_size) = usize v) ∧
    load_ptr m' (a_argv s + n * ptr_size) = load_ptr m (a_argv s + n * ptr_size) ∧
    load_ptr m' (a_envp s) = 0 ∧
    (∀ j v, auxv !! j = Some v → load_ptr m' (a_envp s + Z.of_nat (S j) * ptr_size) = usize v) ∧
    n + 2 + zlen auxv <= MAX_ARGV ∧
    (∀ b, ¬ (a_argv s <= b < a_argv s + (n + 2 + zlen auxv) * ptr_size) → load8 m' b = load8 m b).
Proof.
  intros m n vals. do 2 eexists. split; [by eapply init_args_eq|]. cbn [a_argv a_envp]. fold m n vals.
  destruct ptr_size_nat as (En & _ & Hp). assert (zlen auxv <= 12) by (unfold auxv; destruct (truth _); simpl; lia).
  assert (zlen vals = n) as Hv by (apply arg_values_len; fold m n in Hr; lia).
  destruct (vector_words m (argv_base L) vals n auxv Hv) as (W1 & W2 & W3).
  split; [done|]. split; [done|]. split; [done|]. split; [done|]. split; [done|]. split; [done|]. split; [|split].
  - intros j v Hj. by apply (load_write_words (0 :: auxv)).
  - unfold MAX_ARGV. fold m n in Hr. lia.
  - intros b Hb. assert (0 <= n * ptr_size) by (fold m n in Hr; nia).
    rewrite load8_write_words; [apply load8_write_words; rewrite Hv|]; intros Hin; apply Hb; [nia|].
    cbn [length] in Hin. rewrite Nat2Z.inj_succ in Hin. nia.
Qed.
End ArgsProofs.

(** One argument, "run", in the communication area of a 64-bit machine. *)
Definition args_layout : layout := mk_layout 0x1000 0x2000 0x20000 0x30000 0x500 0x600 1 56 4 0x80000000 64.
Definition args_kern : kern :=
  with_kmem two_cpus
    (store_le 4 (store_le 8 (store_le 4 (store_le 4 ∅ 0x1000 BAREMETAL_CRT_COMM_MAGIC) 0x1004 1) 0x1018 4)
      0x1020 0x6e7572).

Lemma init_args_layout_witness :
  ∃ m' s, @init_args rv64 qemu_virt args_layout (Some (@cpu_riscv_inv_range rv64 true)) args_kern 0 = Ret (1, with_kmem args_kern m', s) ∧
    @load_ptr rv64 m' (a_argv s) = 0x1020.
Proof.
  destruct (@init_args_layout rv64 qemu_virt args_layout (Some (cpu_riscv_inv_range true)) (cbo_range_ok true) args_kern 0 10 (idle_cpu 0) eq_refl eq_refl eq_refl
    ltac:(by vm_compute) ltac:(vm_compute; split; congruence) ltac:(vm_compute; congruence)
    ltac:(left; vm_compute; congruence))
    as (m' & s & E & Ha & _ & _ & Hv & _).
  - intros h Hin. vm_compute in Hin. apply list_elem_of_singleton in Hin as ->. split; [left|]; vm_compute; congruence.
  - exists m', s. split; [rewrite E; reflexivity|].
    specialize (Hv 0%nat 0x1020 eq_refl). rewrite Z.add_0_r in Hv. rewrite Hv. reflexivity.
Defined.
