(* ===== verification/Thread.v ===== *)
(** * Processes and threads (sys/thread.c, sys/libc/support.c, sys/init.c and the system
      calls of sys/syscall.c that change threads)

    There is one process, [k_pi k], and an array of threads, two for each CPU: a
    thread is its index.  The registers of a CPU are those its [regs] pointer
    points at.  [thread_init] is [k_arch_thread_init] on the context that the
    assembly code stores. *)

From S2P Require Import Prelude Config CString Event Lock Regs Cpu Cache Args.

Definition CSIGNAL : Z := 0xff.
Definition CLONE_SETTLS : Z := 0x80000.
Definition CLONE_PARENT_SETTID : Z := 0x100000.
Definition CLONE_CHILD_CLEARTID : Z := 0x200000.
Definition CLONE_CHILD_SETTID : Z := 0x1000000.
(** 0xffffffff, as an [int] *)
Definition FUTEX_BITSET_ANY : Z := -1.
Definition FUTEX_WAIT : Z := 0.
Definition FUTEX_WAKE : Z := 1.
Definition FUTEX_REQUEUE : Z := 3.
Definition FUTEX_WAIT_BITSET : Z := 9.
Definition FUTEX_WAKE_BITSET : Z := 10.
Definition FUTEX_PRIVATE_FLAG : Z := 128.
Definition FUTEX_CLOCK_REALTIME : Z := 256.
Definition FUTEX_MASK : Z := Z.lnot (Z.lor FUTEX_PRIVATE_FLAG FUTEX_CLOCK_REALTIME).
Definition CLONE_ARGS_SIZE : Z := 88.

Record k_clone_args := mk_clone {
  ca_flags : Z;
  ca_pidfd : Z;
  ca_ctid : Z;
  ca_ptid : Z;
  ca_exit_signal : Z;
  ca_child_stack : Z;
  ca_stack_size : Z;
  ca_tls : Z
}.

(** ** Fields of a thread *)

Definition th_alloc (x : k_thread_info) (tid : Z) : k_thread_info :=
  mk_thread tid 1 0 (ti_flags x) 0 (ti_robust_list x) (ti_robust_len x) 0 0 (ti_tls x) (ti_regs x) (ti_cpu x).
Definition th_set_avail (x : k_thread_info) (a : Z) : k_thread_info :=
  mk_thread (ti_tid x) a (ti_running x) (ti_flags x) (ti_sp x) (ti_robust_list x) (ti_robust_len x) (ti_ctid x)
    (ti_ptid x) (ti_tls x) (ti_regs x) (ti_cpu x).
Definition th_set_cpu (x : k_thread_info) (running : Z) (cpu : option Z) : k_thread_info :=
  mk_thread (ti_tid x) (ti_avail x) running (ti_flags x) (ti_sp x) (ti_robust_list x) (ti_robust_len x) (ti_ctid x)
    (ti_ptid x) (ti_tls x) (ti_regs x) cpu.
Definition th_set_clone (x : k_thread_info) (flags ctid ptid tls : Z) : k_thread_info :=
  mk_thread (ti_tid x) (ti_avail x) (ti_running x) flags (ti_sp x) (ti_robust_list x) (ti_robust_len x) ctid ptid tls
    (ti_regs x) (ti_cpu x).
Definition th_set_regs (x : k_thread_info) (sp : Z) (regs : user_regs) : k_thread_info :=
  mk_thread (ti_tid x) (ti_avail x) (ti_running x) (ti_flags x) sp (ti_robust_list x) (ti_robust_len x) (ti_ctid x)
    (ti_ptid x) (ti_tls x) regs (ti_cpu x).
Definition th_set_robust (x : k_thread_info) (head len : Z) : k_thread_info :=
  mk_thread (ti_tid x) (ti_avail x) (ti_running x) (ti_flags x) (ti_sp x) head len (ti_ctid x)
    (ti_ptid x) (ti_tls x) (ti_regs x) (ti_cpu x).
Definition th_set_ctid (x : k_thread_info) (ctid : Z) : k_thread_info :=
  mk_thread (ti_tid x) (ti_avail x) (ti_running x) (ti_flags x) (ti_sp x) (ti_robust_list x) (ti_robust_len x) ctid
    (ti_ptid x) (ti_tls x) (ti_regs x) (ti_cpu x).

Definition pi_set_avail (p : k_proc_info) (a : Z) : k_proc_info :=
  mk_proc (pi_pid p) a (pi_lock p) (pi_leader p) (pi_fdset p).
Definition pi_set_lock (p : k_proc_info) (l : Z) : k_proc_info :=
  mk_proc (pi_pid p) (pi_avail p) l (pi_leader p) (pi_fdset p).
Definition pi_set_leader (p : k_proc_info) (t : option Z) : k_proc_info :=
  mk_proc (pi_pid p) (pi_avail p) (pi_lock p) t (pi_fdset p).

(** ** The process *)

(** A pointer to the process, or the null pointer. *)
Definition k_proc_create (k : kern) : bool * kern :=
  if truth (pi_avail (k_pi k)) then (false, k) else (true, with_proc k (pi_set_avail (k_pi k) 1)).

Definition k_proc_get_current (k : kern) : bool := truth (pi_avail (k_pi k)).

Definition k_proc_get_pid (k : kern) : exec Z :=
  if k_proc_get_current k then Ret (pi_pid (k_pi k)) else Undef.

Definition k_proc_get_leader (k : kern) : option Z := pi_leader (k_pi k).

Definition k_proc_set_leader (k : kern) (t : option Z) : Z * kern := (0, with_proc k (pi_set_leader (k_pi k) t)).

(** [k_spinlock_lock(&pi->lock)] *)
Definition pi_spin_lock (k : kern) : exec kern :=
  if truth (pi_lock (k_pi k)) then Hang else Ret (with_proc k (pi_set_lock (k_pi k) 1)).
Definition pi_spin_unlock (k : kern) : kern := with_proc k (pi_set_lock (k_pi k) 0).

(** ** Threads *)

Section Threads.
Context `{Arch} `{Config}.
Variable L : layout.
Variable op_flush : option (kern → Z → Z → Z → exec (Z * list Z)).
Variable op_sleep : option (Z → kern → exec (Z * kern)).
Variable op_raise_ipi : option (Z → Z → kern → exec (Z * kern)).
Variable thread_init : exec (Z * user_regs).

(** [alloc_tid]: without atomic instructions [k_afetch_add] gives the new value. *)
Definition alloc_tid (k : kern) : Z * kern :=
  let n := i32 (k_uniq_tid k + 1) in
  (if CONFIG_ATOMIC then k_uniq_tid k else n, with_tid k n).

(** The first thread that is not in use. *)
Fixpoint first_avail (l : list k_thread_info) (i : Z) : option Z :=
  match l with
  | [] => None
  | x :: l => if truth (ti_avail x) then first_avail l (i + 1) else Some i
  end.

Definition k_thread_create (k : kern) (pi : bool) : exec (option Z * kern) :=
  if negb pi then Undef else
  k ← pi_spin_lock k;
  match first_avail (k_ti k) 0 with
  | None => Ret (None, pi_spin_unlock k)
  | Some t =>
    let '(tid, k) := alloc_tid k in
    x ← get_thread k t;
    k ← put_thread k t (th_alloc x tid);
    '(r, regs) ← thread_init;
    x ← get_thread k t;
    k ← put_thread k t (th_set_regs x (ti_sp x) regs);
    if truth r then Ret (None, pi_spin_unlock k) else
    Ret (Some t, pi_spin_unlock k)
  end.

Definition k_thread_destroy (k : kern) (t : option Z) : exec (Z * kern) :=
  match t with
  | None => Ret (- EINVAL, k)
  | Some t =>
    x ← get_thread k t;
    if truth (ti_running x) then Ret (- EBUSY, k) else
    k ← put_thread k t (th_set_avail x 0);
    Ret (0, k)
  end.

Definition k_thread_run (k : kern) (t cpu : Z) : exec (Z * kern) :=
  x ← get_thread k t;
  k ← put_thread k t (th_set_cpu x 1 (Some cpu));
  k ← k_cpu_set_thread_task k cpu (Some t);
  Ret (0, k).

Definition k_thread_stop (k : kern) (t : Z) : exec (Z * kern) :=
  x ← get_thread k t;
  c ← of_opt (ti_cpu x);
  k ← k_cpu_set_thread_task k c None;
  k ← put_thread k t (th_set_cpu x 0 None);
  Ret (0, k).

Definition k_thread_get_raw (k : kern) (n : Z) : option Z :=
  if (n <? 0) || (zlen (k_ti k) <=? n) then None else Some n.

(** The first thread with a number, in use or not. *)
Fixpoint find_tid (l : list k_thread_info) (tid i : Z) : option Z :=
  match l with
  | [] => None
  | x :: l => if ti_tid x =? tid then Some i else find_tid l tid (i + 1)
  end.
Definition k_thread_get (k : kern) (tid : Z) : option Z := find_tid (k_ti k) tid 0.

Definition k_thread_get_current (k : kern) (hart : Z) : exec (option Z) :=
  c ← k_cpu_get_current k hart; k_cpu_get_thread k c.

Definition k_thread_get_tid (k : kern) (hart : Z) : exec Z :=
  t ← k_thread_get_current k hart;
  t ← of_opt t;
  x ← get_thread k t;
  Ret (ti_tid x).

(** ** Clone *)

(** The tests of the arguments: an error, or which of the addresses are needed. *)
Definition clone_needs (a : k_clone_args) : Z * (bool * bool * bool) :=
  let need_ctid := has (ca_flags a) (Z.lor CLONE_CHILD_CLEARTID CLONE_CHILD_SETTID) in
  let need_ptid := has (ca_flags a) CLONE_PARENT_SETTID in
  let need_tls := has (ca_flags a) CLONE_SETTLS in
  if need_ctid && negb (truth (ca_ctid a)) then (- EFAULT, (false, false, false)) else
  if need_ptid && negb (truth (ca_ptid a)) then (- EFAULT, (false, false, false)) else
  if need_tls && negb (truth (ca_tls a)) then (- EFAULT, (false, false, false)) else
  (0, (need_ctid, need_ptid, need_tls)).

(** The choice of a CPU, with the lock of the system taken. *)
Definition clone_pick (k : kern) : exec (Z * option Z * kern) :=
  k ← k_smp_lock k;
  '(r, cpu) ← k_smp_find_idle_cpu k;
  Ret (r, cpu, k_smp_unlock k).

(** The registers of the new thread. *)
Definition clone_regs (regs : user_regs) (sp intr tls : Z) : exec user_regs :=
  '(_, regs) ← k_arch_riscv_set_arg regs K_ARCH_ARG_TYPE_RETVAL 0;
  '(_, regs) ← k_arch_riscv_set_arg regs K_ARCH_ARG_TYPE_STACK sp;
  '(_, regs) ← k_arch_riscv_set_arg regs K_ARCH_ARG_TYPE_STACK_INTR intr;
  '(_, regs) ← k_arch_riscv_set_arg regs K_ARCH_ARG_TYPE_TLS tls;
  Ret regs.

(** The address of the interrupt stack of a CPU. *)
Definition intr_stack (id : Z) : Z := k_stack_intr L + usize ((id + 1) * CONFIG_INTR_STACK_SIZE).

(** The writes to the memory of the caller. *)
Definition clone_notify (m : mem) (flags ctid ptid tid : Z) : mem :=
  let m := if has flags CLONE_CHILD_SETTID then store_le 4 m ctid (u32 tid) else m in
  if has flags CLONE_PARENT_SETTID then store_le 4 m ptid (u32 tid) else m.

(** The rest of [k_thread_clone], on the CPU that was chosen. *)
Definition clone_on (k : kern) (hart cpu_cur cpu : Z) (a : k_clone_args) (need : bool * bool * bool) :
    exec (Z * kern) :=
  let '(need_ctid, need_ptid, need_tls) := need in
  k ← k_cpu_lock k cpu;
  '(t, k) ← k_thread_create k (k_proc_get_current k);
  match t with
  | None => k ← k_cpu_unlock k cpu; Ret (- ENOMEM, k)
  | Some t =>
    x ← get_thread k t;
    let x := th_set_clone x (usize (ca_flags a)) (if need_ctid then ca_ctid a else 0)
               (if need_ptid then ca_ptid a else 0) (if need_tls then ca_tls a else 0) in
    let k := with_kmem k (clone_notify (k_mem k) (ca_flags a) (ti_ctid x) (ti_ptid x) (ti_tid x)) in
    cur ← get_cpu k cpu_cur;
    regs ← of_opt (cpu_regs cur);
    c ← get_cpu k cpu;
    regs ← clone_regs regs (ca_child_stack a) (intr_stack (id_cpu c)) (ti_tls x);
    k ← put_thread k t (th_set_regs x (ca_child_stack a) regs);
    '(_, k) ← k_thread_run k t cpu;
    '(r, k) ← k_cpu_raise_ipi op_raise_ipi k hart cpu;
    if truth r then
      '(_, k) ← k_thread_stop k t;
      '(_, k) ← k_thread_destroy k (Some t);
      k ← k_cpu_unlock k cpu;
      Ret (r, k)
    else
      k ← k_cpu_unlock k cpu;
      x ← get_thread k t;
      Ret (ti_tid x, k)
  end.

Definition k_thread_clone (k : kern) (hart : Z) (a : k_clone_args) : exec (Z * kern) :=
  cpu_cur ← k_cpu_get_current k hart;
  let '(r, need) := clone_needs a in
  if truth r then Ret (r, k) else
  '(r, cpu, k) ← clone_pick k;
  if truth r then Ret (r, k) else
  cpu ← of_opt cpu;
  clone_on k hart cpu_cur cpu a need.

(** ** Context switch *)

Definition k_thread_context_switch_nolock (k : kern) (hart : Z) : exec (Z * kern) :=
  c ← k_cpu_get_current k hart;
  x ← get_cpu k c;
  k ← (if decide (cpu_ti x = cpu_ti_idle x) then
         t ← of_opt (cpu_ti x);
         regs ← of_opt (cpu_regs x);
         ti ← get_thread k t;
         put_thread k t (th_set_regs ti (ti_sp ti) regs)
       else Ret k);
  let next := match cpu_ti x, cpu_ti_task x with
              | Some _, Some task => Some task
              | _, _ => cpu_ti_idle x
              end in
  t ← of_opt next;
  ti ← get_thread k t;
  _ ← of_opt (cpu_regs x);
  k ← k_cpu_set_user_regs k c (Some (ti_regs ti));
  k ← k_cpu_set_thread k c next;
  Ret (0, k).

Definition k_thread_context_switch (k : kern) (hart : Z) : exec (Z * kern) :=
  k ← k_smp_lock k;
  '(r, k) ← k_thread_context_switch_nolock k hart;
  Ret (r, k_smp_unlock k).

(** [k_arch_get_arg(cpu->regs, K_ARCH_ARG_TYPE_RETVAL, &v)] *)
Definition retval_of (k : kern) (c : Z) : exec Z :=
  x ← get_cpu k c;
  regs ← of_opt (cpu_regs x);
  '(_, v) ← k_arch_riscv_get_arg regs K_ARCH_ARG_TYPE_RETVAL;
  of_opt v.

Definition k_sys_context_switch (k : kern) (hart : Z) : exec (Z * kern) :=
  c ← k_cpu_get_current k hart;
  '(r, k) ← k_thread_context_switch k hart;
  if truth r then Ret (r, k) else
  v ← retval_of k c;
  Ret (isize v, k).

(** ** Exit *)

Definition k_fini_leader (k : kern) (hart status : Z) : exec kern :=
  let st := Z.land status 0xff in
  k ← fini_args L op_flush k hart st;
  '(_, k) ← k_cpu_sleep_all op_sleep op_raise_ipi k hart;
  Ret k.

Definition k_fini_child (k : kern) (status : Z) : kern := k.

Definition k_sys_exit (k : kern) (hart status : Z) : exec (Z * kern) :=
  let pi := k_proc_get_current k in
  cpu ← k_cpu_get_current k hart;
  k ← k_cpu_lock k cpu;
  t ← k_cpu_get_thread_task k cpu;
  match t with
  | None => k ← k_cpu_unlock k cpu; Ret (- EINVAL, k)
  | Some t =>
    '(_, k) ← k_thread_stop k t;
    '(r, k) ← k_thread_destroy k (Some t);
    if truth r then k ← k_cpu_unlock k cpu; Ret (r, k) else
    if negb pi then Undef else
    k ← (if decide (k_proc_get_leader k = Some t) then k_fini_leader k hart status
         else Ret (k_fini_child k status));
    x ← get_thread k t;
    let f_wake := has (ti_flags x) CLONE_CHILD_CLEARTID in
    let k := if f_wake then with_kmem k (store_le 4 (k_mem k) (ti_ctid x) 0) else k in
    '(r, k) ← k_thread_context_switch_nolock k hart;
    if truth r then k ← k_cpu_unlock k cpu; Ret (r, k) else
    v ← retval_of k cpu;
    k ← k_cpu_unlock k cpu;
    k ← (if f_wake then
           x ← get_thread k t;
           '(_, k) ← k_cpu_futex_wake op_raise_ipi k hart (ti_ctid x) 1 FUTEX_BITSET_ANY;
           Ret k
         else Ret k);
    Ret (isize v, k)
  end.

(** ** Other system calls on threads *)

(** What the rest of the system does while the caller waits for the [n]-th time. *)
Variable elsewhere : nat → kern → kern.

(** [while (k_cpu_get_thread_task(cpu))] for each CPU but the main one. *)
Fixpoint wait_task (fuel : nat) (c : Z) (n : nat) (k : kern) : exec (nat * kern) :=
  t ← k_cpu_get_thread_task k c;
  match t with
  | None => Ret (n, k)
  | Some _ =>
    match fuel with
    | O => Hang
    | S fuel => wait_task fuel c (S n) (elsewhere n k)
    end
  end.

Fixpoint wait_children (fuel : nat) (ids : list Z) (n : nat) (k : kern) : exec kern :=
  match ids with
  | [] => Ret k
  | i :: ids =>
    c ← k_cpu_get k i;
    match c with
    | None => wait_children fuel ids n k
    | Some c => '(n, k) ← wait_task fuel c n k; wait_children fuel ids n k
    end
  end.

Definition k_sys_exit_group (fuel : nat) (k : kern) (hart status : Z) : exec (Z * kern) :=
  let pi := k_proc_get_current k in
  cur ← k_cpu_get_current k hart;
  k ← k_cpu_lock k cur;
  t ← k_cpu_get_thread_task k cur;
  match t with
  | None => k ← k_cpu_unlock k cur; Ret (- EINVAL, k)
  | Some t =>
    if negb pi then Undef else
    if decide (k_proc_get_leader k = Some t) then
      k ← k_cpu_unlock k cur;
      k ← wait_children fuel (seqZ 1 (CONFIG_NUM_CORES - 1)) 0 k;
      k_sys_exit k hart status
    else
      k ← k_cpu_unlock k cur;
      k_sys_exit k hart status
  end.

Definition k_sys_clone (k : kern) (hart flags child_stack ptid tls ctid : Z) : exec (Z * kern) :=
  k_thread_clone k hart
    (mk_clone (clear flags CSIGNAL) ptid ctid ptid (Z.land flags CSIGNAL) child_stack 0 tls).

(** The fields of [struct clone_args] are 64 bits wide. *)
Definition k_sys_clone3 (k : kern) (hart cargs size : Z) : exec (Z * kern) :=
  if negb (truth cargs) || (size <? CLONE_ARGS_SIZE) then Ret (- EINVAL, k) else
  let field i := load_le 8 (k_mem k) (cargs + 8 * i) in
  k_thread_clone k hart
    (mk_clone (field 0) (usize (field 1)) (usize (field 2)) (usize (field 3)) (i32 (field 4))
       (usize (usize (field 5) + field 6)) (field 6) (usize (field 7))).

Definition k_sys_futex64 (fuel : nat) (k : kern) (hart uaddr op val val3 : Z) : exec (Z * kern) :=
  let cmd := Z.land op FUTEX_MASK in
  if negb (truth uaddr) then Ret (- EFAULT, k) else
  if cmd =? FUTEX_WAIT then k_cpu_futex_wait elsewhere fuel k hart uaddr val FUTEX_BITSET_ANY else
  if cmd =? FUTEX_WAIT_BITSET then k_cpu_futex_wait elsewhere fuel k hart uaddr val val3 else
  if cmd =? FUTEX_WAKE then k_cpu_futex_wake op_raise_ipi k hart uaddr val FUTEX_BITSET_ANY else
  if cmd =? FUTEX_WAKE_BITSET then k_cpu_futex_wake op_raise_ipi k hart uaddr val val3 else
  if cmd =? FUTEX_REQUEUE then k_cpu_futex_wake op_raise_ipi k hart uaddr val FUTEX_BITSET_ANY else
  Ret (- ENOSYS, k).

(** The timeout, which is only reported, is not modelled; the 32-bit call then is the same. *)
Definition k_sys_futex32 (fuel : nat) (k : kern) (hart uaddr op val val3 : Z) : exec (Z * kern) :=
  k_sys_futex64 fuel k hart uaddr op val val3.

Definition k_sys_set_robust_list (k : kern) (hart head len : Z) : exec (Z * kern) :=
  cpu ← k_cpu_get_current k hart;
  if len =? 0 then Ret (- EINVAL, k) else
  t ← k_cpu_get_thread_task k cpu;
  match t with
  | None => Ret (- EINVAL, k)
  | Some t =>
    x ← get_thread k t;
    k ← put_thread k t (th_set_robust x head len);
    Ret (0, k)
  end.

Definition k_sys_set_tid_address (k : kern) (hart tidptr : Z) : exec (Z * kern) :=
  cpu ← k_cpu_get_current k hart;
  t ← k_cpu_get_thread_task k cpu;
  match t with
  | None => Ret (- EINVAL, k)
  | Some t =>
    x ← get_thread k t;
    k ← (if has (ti_flags x) CLONE_CHILD_CLEARTID then put_thread k t (th_set_ctid x tidptr) else Ret k);
    x ← get_thread k t;
    Ret (ti_tid x, k)
  end.

Definition k_sys_getpid (k : kern) : exec Z := k_proc_get_pid k.
Definition k_sys_gettid (k : kern) (hart : Z) : exec Z := k_thread_get_tid k hart.

(** ** First threads of the CPUs (init.c, libc/support.c) *)

(** The address of [k_thread_idle_main] and of the start of the C library. *)
Variable idle_main start : Z.

Definition set_args (regs : user_regs) (l : list (Z * Z)) : exec user_regs :=
  foldl (fun r '(t, v) => r ← r; '(_, r) ← k_arch_riscv_set_arg r t v; Ret r) (Ret regs) l.

Definition init_idle_thread (k : kern) (cpu leader : Z) : exec (Z * kern) :=
  c ← get_cpu k cpu;
  let sp_user := k_stack_idle L + usize ((id_cpu c + 1) * CONFIG_IDLE_STACK_SIZE) in
  '(t, k) ← k_thread_create k (k_proc_get_current k);
  match t with
  | None => Ret (- EAGAIN, k)
  | Some t =>
    x ← get_thread k t;
    regs ← set_args (ti_regs x)
      [(K_ARCH_ARG_TYPE_1, leader); (K_ARCH_ARG_TYPE_STACK, sp_user);
       (K_ARCH_ARG_TYPE_STACK_INTR, intr_stack (id_cpu c)); (K_ARCH_ARG_TYPE_INTADDR, idle_main)];
    k ← put_thread k t (th_set_regs x (ti_sp x) regs);
    k ← k_cpu_set_thread_idle k cpu (Some t);
    Ret (0, k)
  end.

(** [k_libc_init_main_thread]: [argc] goes below the vector, and the stack starts there. *)
Definition k_libc_init_main_thread (k : kern) (t argc argv sp_intr : Z) : exec kern :=
  let sp_user := argv - ptr_size in
  let k := with_kmem k (store_ptr (k_mem k) sp_user argc) in
  x ← get_thread k t;
  regs ← set_args (ti_regs x)
    [(K_ARCH_ARG_TYPE_1, 0); (K_ARCH_ARG_TYPE_STACK, sp_user); (K_ARCH_ARG_TYPE_STACK_INTR, sp_intr);
     (K_ARCH_ARG_TYPE_INTADDR, start)];
  put_thread k t (th_set_regs x (ti_sp x) regs).

Definition init_main_thread (k : kern) (hart argc argv sp_intr : Z) : exec (Z * kern) :=
  cpu ← k_cpu_get_current k hart;
  '(t, k) ← k_thread_create k (k_proc_get_current k);
  match t with
  | None => Ret (- EAGAIN, k)
  | Some t =>
    k ← k_libc_init_main_thread k t argc argv sp_intr;
    let '(_, k) := k_proc_set_leader k (Some t) in
    k_thread_run k t cpu
  end.

Variable op_wakeup : option (Z → kern → exec (Z * kern)).
Variable op_inv : option (kern → Z → Z → Z → exec (Z * list Z)).

(** What [k_arch_context_switch] does, a system call, follows these functions. *)
Definition k_init_leader (k : kern) (hart : Z) : exec kern :=
  cpu ← k_cpu_get_current k hart;
  '(_, k) ← k_cpu_wakeup_all op_wakeup op_raise_ipi k hart;
  '(argc, k, s) ← init_args L op_inv k hart;
  '(_, k) ← init_main_thread k hart argc (a_argv s) (k_stack_intr L + CONFIG_INTR_STACK_SIZE);
  '(_, k) ← init_idle_thread k cpu 1;
  Ret k.

Definition k_init_child (k : kern) (hart : Z) : exec kern :=
  cpu ← k_cpu_get_current k hart;
  '(_, k) ← init_idle_thread k cpu 0;
  Ret k.
End Threads.
