(* ===== verification/Sched.v ===== *)
(** * Scheduling of threads on CPUs: properties of Thread.v

    Every thread that is marked as running is the task of the CPU it was given,
    and every task of a CPU is such a thread ([sched_ok]).  [k_thread_clone] and
    [k_sys_exit] keep this when they run alone; two calls of [k_thread_clone] that
    interleave do not. *)

From S2P Require Import Prelude Config CString Event Lock Regs Cpu Cache Args Thread.

#[local] Arguments k_thread_destroy : simpl never.
#[local] Arguments k_thread_context_switch_nolock : simpl never.
#[local] Arguments k_cpu_futex_wake : simpl never.

Record sched_ok (k : kern) : Prop := {
  so_task : ∀ c x t, k_cpu_objs k !! c = Some x → cpu_ti_task x = Some t →
    ∃ y, zget (k_ti k) t = Some y ∧ ti_avail y ≠ 0 ∧ ti_running y ≠ 0 ∧ ti_cpu y = Some c;
  so_run : ∀ t y, zget (k_ti k) t = Some y → ti_running y ≠ 0 →
    ∃ c x, ti_cpu y = Some c ∧ k_cpu_objs k !! c = Some x ∧ cpu_ti_task x = Some t
}.

(** A state with one CPU and one thread replaced. *)
Definition upd (k : kern) (c : Z) (x : k_cpu_device) (t : Z) (y : k_thread_info) (tid : Z) (m : mem) : kern :=
  mk_kern (k_cpus k) (<[c := x]> (k_cpu_objs k)) (k_uniq_id_cpu k) (<[Z.to_nat t := y]> (k_ti k)) tid
    (k_pi k) (k_lock_smp k) m.

Lemma first_avail_spec l : ∀ i t, first_avail l i = Some t →
  ∃ x, i <= t < i + zlen l ∧ l !! Z.to_nat (t - i) = Some x ∧ ti_avail x = 0.
Proof.
  induction l as [|x l IH]; intros i t Ht; simpl in Ht; [done|].
  destruct (truth (ti_avail x)) eqn:E.
  - destruct (IH _ _ Ht) as (y & Hr & Hy & Ha). exists y. simpl length.
    split; [lia|]. split; [|done]. replace (Z.to_nat (t - i)) with (S (Z.to_nat (t - (i + 1)))) by lia. done.
  - simplify_eq. exists x. simpl length. split; [lia|]. rewrite Z.sub_diag. by apply truth_false in E.
Qed.

Lemma first_avail_get l t : first_avail l 0 = Some t → ∃ x, zget l t = Some x ∧ ti_avail x = 0.
Proof.
  intros (x & Hr & Hx & Ha)%first_avail_spec. exists x. split; [|done]. rewrite Z.sub_0_r in Hx.
  unfold zget. by rewrite (proj2 (Z.ltb_ge t 0)) by lia.
Qed.

(** Reading and writing a thread that exists. *)
Lemma zget_upd {A} (l : list A) t u x y : zget l t = Some x →
  zget (<[Z.to_nat t := y]> l) u = if u =? t then Some y else zget l u.
Proof.
  intros Ht. pose proof (zget_Some _ _ _ Ht). by apply zget_zset, zset_in.
Qed.

Lemma put_thread_eq k t x y : zget (k_ti k) t = Some x →
  put_thread k t y = Ret (mk_kern (k_cpus k) (k_cpu_objs k) (k_uniq_id_cpu k) (<[Z.to_nat t := y]> (k_ti k))
    (k_uniq_tid k) (k_pi k) (k_lock_smp k) (k_mem k)).
Proof. intros Ht. unfold put_thread. rewrite zset_in by (by eapply zget_Some). done. Qed.

Lemma get_thread_eq k t x : zget (k_ti k) t = Some x → get_thread k t = Ret x.
Proof. intros Ht. unfold get_thread. by rewrite Ht. Qed.

Lemma get_cpu_eq k c x : k_cpu_objs k !! c = Some x → get_cpu k c = Ret x.
Proof. intros Hx. unfold get_cpu. by rewrite Hx. Qed.

(** The invariant when a thread becomes the task of an idle CPU. *)
Lemma sched_start k c x t y y' tid m :
  sched_ok k → k_cpu_objs k !! c = Some x → cpu_ti_task x = None → zget (k_ti k) t = Some y →
  ti_avail y = 0 → ti_avail y' ≠ 0 → ti_running y' ≠ 0 → ti_cpu y' = Some c →
  sched_ok (upd k c (cpu_set_threads x (cpu_ti x) (cpu_ti_idle x) (Some t)) t y' tid m).
Proof.
  intros [Ht Hr] Hx Hidle Hy Ha Ha' Hr' Hc'. unfold upd. split; simpl.
  - intros d z u. rewrite (zget_upd _ _ _ _ _ Hy).
    destruct (decide (d = c)) as [->|Hne].
    + rewrite lookup_insert_eq. intros ? ?. simplify_eq/=. rewrite Z.eqb_refl. eauto.
    + rewrite lookup_insert_ne by done. intros Hz Hu. destruct (Ht d z u Hz Hu) as (w & Hw & ? & ? & ?).
      destruct (u =? t) eqn:E; bsplit; [|eauto]. subst. rewrite Hy in Hw. simplify_eq.
  - intros u z. rewrite (zget_upd _ _ _ _ _ Hy). destruct (u =? t) eqn:E; bsplit.
    + intros ? _. simplify_eq. exists c. eexists. split; [done|]. by rewrite lookup_insert_eq.
    + intros Hz Hu. destruct (Hr u z Hz Hu) as (d & w & ? & Hd & Hw). exists d.
      destruct (decide (d = c)) as [->|]; [rewrite Hx in Hd; congruence|].
      exists w. by rewrite lookup_insert_ne.
Qed.

(** The invariant when a free slot is written and an idle CPU stays idle. *)
Lemma sched_same k c x x' t y y' tid m :
  sched_ok k → k_cpu_objs k !! c = Some x → cpu_ti_task x = None → zget (k_ti k) t = Some y →
  ti_avail y = 0 → cpu_ti_task x' = None → ti_running y' = 0 → sched_ok (upd k c x' t y' tid m).
Proof.
  intros [Ht Hr] Hx Hidle Hy Ha Hx' Hr'. unfold upd. split; simpl.
  - intros d z u. rewrite (zget_upd _ _ _ _ _ Hy).
    destruct (decide (d = c)) as [->|Hne]; [rewrite lookup_insert_eq; congruence|].
    rewrite lookup_insert_ne by done. intros Hz Hu. destruct (Ht d z u Hz Hu) as (w & Hw & ? & ? & ?).
    destruct (u =? t) eqn:E; bsplit; [|eauto]. subst. rewrite Hy in Hw. simplify_eq.
  - intros u z. rewrite (zget_upd _ _ _ _ _ Hy). destruct (u =? t) eqn:E; bsplit.
    + intros ? ?. by simplify_eq.
    + intros Hz Hu. destruct (Hr u z Hz Hu) as (d & w & ? & Hd & Hw). exists d.
      destruct (decide (d = c)) as [->|]; [rewrite Hx in Hd; congruence|].
      exists w. by rewrite lookup_insert_ne.
Qed.

(** The invariant when the task of a CPU ends. *)
Lemma sched_stop k c x x' t y y' tid m :
  sched_ok k → k_cpu_objs k !! c = Some x → cpu_ti_task x = Some t → zget (k_ti k) t = Some y →
  cpu_ti_task x' = None → ti_running y' = 0 → sched_ok (upd k c x' t y' tid m).
Proof.
  intros [Ht Hr] Hx Htask Hy Hx' Hy'. destruct (Ht c x t Hx Htask) as (y0 & Hy0 & _ & _ & Hc).
  rewrite Hy in Hy0. simplify_eq. unfold upd. split; simpl.
  - intros d z u. rewrite (zget_upd _ _ _ _ _ Hy).
    destruct (decide (d = c)) as [->|Hne]; [rewrite lookup_insert_eq; congruence|].
    rewrite lookup_insert_ne by done. intros Hz Hu. destruct (Ht d z u Hz Hu) as (w & Hw & ? & ? & ?).
    destruct (u =? t) eqn:E; bsplit; [|eauto]. subst. congruence.
  - intros u z. rewrite (zget_upd _ _ _ _ _ Hy). destruct (u =? t) eqn:E; bsplit.
    + intros ? ?. by simplify_eq.
    + intros Hz Hu. destruct (Hr u z Hz Hu) as (d & w & ? & Hd & Hw). exists d.
      destruct (decide (d = c)) as [->|]; [rewrite Hx in Hd; congruence|].
      exists w. by rewrite lookup_insert_ne.
Qed.

(** Stopping a thread on its CPU, and freeing its slot. *)
Lemma stop_eq k c x t y : zget (k_ti k) t = Some y → ti_cpu y = Some c → k_cpu_objs k !! c = Some x →
  k_thread_stop k t = Ret (0, upd k c (cpu_set_threads x (cpu_ti x) (cpu_ti_idle x) None) t
    (th_set_cpu y 0 None) (k_uniq_tid k) (k_mem k)).
Proof.
  intros Hy Hc Hx. unfold k_thread_stop. rewrite (get_thread_eq _ _ y) by done. mstep. rewrite Hc. mstep.
  unfold k_cpu_set_thread_task. rewrite (get_cpu_eq _ _ x) by done. mstep.
  by rewrite (put_thread_eq _ _ y).
Qed.

Lemma destroy_eq k c x t y tid m : zget (k_ti k) t = Some y →
  k_thread_destroy (upd k c x t (th_set_cpu y 0 None) tid m) (Some t) =
    Ret (0, upd k c x t (th_set_avail (th_set_cpu y 0 None) 0) tid m).
Proof.
  intros Hy. unfold k_thread_destroy.
  erewrite get_thread_eq by (simpl; by rewrite (zget_upd _ _ _ _ _ Hy), Z.eqb_refl). mstep.
  cbn [th_set_cpu ti_running truth Z.eqb negb].
  erewrite put_thread_eq by (simpl; by rewrite (zget_upd _ _ _ _ _ Hy), Z.eqb_refl). mstep.
  unfold upd. simpl. by rewrite list_insert_insert_eq.
Qed.

(** ** Clone *)

(** The registers a new thread starts with. *)
Definition child_regs `{Arch} (regs : user_regs) (sp intr tls : Z) : user_regs :=
  <[3%nat := usize tls]> (<[33%nat := usize intr]> (<[1%nat := usize sp]> (<[11%nat := 0]> regs))).

Lemma set_arg_ins `{Arch} regs t a v : length regs = REG_ALL → arg_type t = Some a →
  k_arch_riscv_set_arg regs t v = Ret (0, <[Z.to_nat (arg_reg a) := usize v]> regs).
Proof.
  intros Hl Ht. destruct (set_arg_eq regs t a v Hl Ht) as (r & -> & _ & [_ ->]%zset_Some). done.
Qed.

Lemma clone_regs_eq `{Arch} regs sp intr tls : length regs = REG_ALL →
  clone_regs regs sp intr tls = Ret (child_regs regs sp intr tls).
Proof.
  intros Hl. unfold clone_regs.
  rewrite (set_arg_ins _ _ ARG_RETVAL) by done. mstep.
  rewrite (set_arg_ins _ _ ARG_STACK) by (done || by rewrite !length_insert). mstep.
  rewrite (set_arg_ins _ _ ARG_STACK_INTR) by (done || by rewrite !length_insert). mstep.
  rewrite (set_arg_ins _ _ ARG_TLS) by (done || by rewrite !length_insert). mstep.
  unfold child_regs. change (Z.to_nat (arg_reg ARG_RETVAL)) with 11%nat.
  replace (usize 0) with 0; [done|]. by unfold uwrap; rewrite Z.mod_0_l by (apply Z.pow_nonzero; pose proof xlen_ge; lia).
Qed.

Section Clone.
Context `{Arch} `{Config}.
Variable L : layout.
Variable raise : Z → Z → kern → exec (Z * kern).
Variable re : Z.
Variable r0 : user_regs.

(** Raising an interrupt has the result [re] and changes nothing that is modelled. *)
Hypothesis Hipi : ∀ cpu dest k, raise cpu dest k = Ret (re, k).

Lemma create_ok k t y : pi_lock (k_pi k) = 0 → first_avail (k_ti k) 0 = Some t → zget (k_ti k) t = Some y →
  k_thread_create (Ret (0, r0)) k true =
    Ret (Some t, mk_kern (k_cpus k) (k_cpu_objs k) (k_uniq_id_cpu k)
      (<[Z.to_nat t := th_set_regs (th_alloc y (alloc_tid k).1) 0 r0]> (k_ti k))
      (i32 (k_uniq_tid k + 1)) (k_pi k) (k_lock_smp k) (k_mem k)).
Proof.
  intros Hl Hf Hy. destruct k as [cpus objs uid ti tid [pid av lk ld fd] smp m]. simpl in *. subst lk.
  unfold k_thread_create, pi_spin_lock. cbn [negb k_pi pi_lock truth Z.eqb]. mstep. simpl k_ti. rewrite Hf.
  unfold alloc_tid. simpl k_uniq_tid. cbv zeta. cbn [fst].
  rewrite (get_thread_eq _ _ y) by done. mstep. rewrite (put_thread_eq _ _ y) by done. mstep.
  erewrite get_thread_eq by (simpl; by rewrite (zget_upd _ _ _ _ _ Hy), Z.eqb_refl). mstep.
  erewrite put_thread_eq by (simpl; by rewrite (zget_upd _ _ _ _ _ Hy), Z.eqb_refl). mstep.
  cbn [truth Z.eqb negb]. unfold pi_spin_unlock, with_proc. simpl. by rewrite list_insert_insert_eq.
Qed.

(** The thread that a clone starts. *)
Definition new_thread (y : k_thread_info) (a : k_clone_args) (need : bool * bool * bool) (tid c : Z)
    (regs : user_regs) (intr : Z) : k_thread_info :=
  let '(nc, np, nt) := need in
  let tls := if nt then ca_tls a else 0 in
  mk_thread tid 1 1 (usize (ca_flags a)) (ca_child_stack a) (ti_robust_list y) (ti_robust_len y)
    (if nc then ca_ctid a else 0) (if np then ca_ptid a else 0) tls
    (child_regs regs (ca_child_stack a) intr tls) (Some c).

Definition clone_mem (m : mem) (a : k_clone_args) (need : bool * bool * bool) (tid : Z) : mem :=
  let '(nc, np, _) := need in
  clone_notify m (ca_flags a) (if nc then ca_ctid a else 0) (if np then ca_ptid a else 0) tid.

(** The state after a clone on the CPU [c]; with [ok], the thread was started. *)
Definition cloned (k : kern) (c t : Z) (x : k_cpu_device) (z : k_thread_info) (m : mem) (ok : bool) : kern :=
  upd k c (cpu_set_threads x (cpu_ti x) (cpu_ti_idle x) (if ok then Some t else None)) t
    (if ok then z else th_set_avail (th_set_cpu z 0 None) 0) (i32 (k_uniq_tid k + 1)) m.

Lemma clone_on_eq k hart cur c x y regs t z a need :
  k_cpu_get_current k hart = Ret cur → k_cpu_objs k !! c = Some x → cpu_lock x = 0 → cpu_ti_task x = None →
  k_cpu_objs k !! cur = Some y → cpu_regs y = Some regs → length regs = REG_ALL →
  pi_avail (k_pi k) ≠ 0 → pi_lock (k_pi k) = 0 → first_avail (k_ti k) 0 = Some t → zget (k_ti k) t = Some z →
  let tid := (alloc_tid k).1 in
  clone_on L (Some raise) (Ret (0, r0)) k hart cur c a need =
    Ret (if re =? 0 then tid else re,
         cloned k c t x (new_thread z a need tid c regs (intr_stack L (id_cpu x)))
           (clone_mem (k_mem k) a need tid) (re =? 0)).
Proof.
  intros Hcur Hx Hlx Htask Hy Hregs Hlen Hpa Hpl Hf Hz tid.
  assert (same_ids k (put_cpu k c (cpu_set_lock x 1))) as Hsame by (by eapply same_ids_put).
  unfold clone_on. destruct need as [[nc np] nt]. rewrite (lock_cpu _ _ x) by done. mstep.
  unfold k_proc_get_current. simpl k_pi. rewrite (proj2 (truth_true _)) by done.
  rewrite (create_ok _ t z) by done. mstep. simpl. fold tid.
  erewrite get_thread_eq by (simpl; by rewrite (zget_upd _ _ _ _ _ Hz), Z.eqb_refl). mstep.
  assert (∀ m ti u, ∃ y', k_cpu_objs (mk_kern (k_cpus k) (<[c := cpu_set_lock x 1]> (k_cpu_objs k)) (k_uniq_id_cpu k)
    ti u (k_pi k) (k_lock_smp k) m) !! cur = Some y' ∧ cpu_regs y' = Some regs) as Hy'.
  { intros m ti u. simpl. destruct (decide (cur = c)) as [->|]; [|exists y; by rewrite lookup_insert_ne].
    exists (cpu_set_lock x 1). rewrite lookup_insert_eq. split; [done|]. simpl. congruence. }
  unfold with_kmem. simpl.
  match goal with |- context [get_cpu (mk_kern _ _ _ ?ti ?u _ _ ?m) cur] =>
    destruct (Hy' m ti u) as (y' & Ey & Er) end.
  rewrite (get_cpu_eq _ _ _ Ey). mstep. rewrite Er. mstep.
  erewrite get_cpu_eq by (simpl; by rewrite lookup_insert_eq). mstep. simpl id_cpu.
  rewrite clone_regs_eq by done. mstep.
  erewrite put_thread_eq by (simpl; by rewrite (zget_upd _ _ _ _ _ Hz), Z.eqb_refl). mstep.
  simpl. rewrite list_insert_insert_eq. unfold k_thread_run.
  erewrite get_thread_eq by (simpl; by rewrite (zget_upd _ _ _ _ _ Hz), Z.eqb_refl). mstep.
  erewrite put_thread_eq by (simpl; by rewrite (zget_upd _ _ _ _ _ Hz), Z.eqb_refl). mstep.
  simpl. rewrite list_insert_insert_eq. unfold k_cpu_set_thread_task at 1.
  erewrite get_cpu_eq by (simpl; by rewrite lookup_insert_eq). mstep.
  unfold put_cpu at 1. simpl. rewrite insert_insert_eq.
  unfold k_cpu_raise_ipi. match goal with |- context [k_cpu_get_current ?kk hart] =>
    rewrite (get_current_same k kk) end.
  2:{ split; [done|]. intros d. simpl. destruct (decide (d = c)) as [->|].
      - rewrite lookup_insert_eq, Hx. done. - by rewrite lookup_insert_ne. }
  rewrite Hcur. mstep. rewrite Hipi. mstep. unfold truth. destruct (re =? 0) eqn:Ere; cbn [negb].
  - unfold k_cpu_unlock. erewrite get_cpu_eq by (simpl; by rewrite lookup_insert_eq). mstep.
    unfold put_cpu. simpl. rewrite insert_insert_eq.
    erewrite get_thread_eq by (simpl; by rewrite (zget_upd _ _ _ _ _ Hz), Z.eqb_refl). mstep.
    unfold cloned, upd. simpl. do 3 f_equal. by destruct x; simpl in *; subst.
  - erewrite stop_eq;
      [|simpl; by rewrite (zget_upd _ _ _ _ _ Hz), Z.eqb_refl|done|simpl; by rewrite lookup_insert_eq]. mstep.
    erewrite destroy_eq by (simpl; by rewrite (zget_upd _ _ _ _ _ Hz), Z.eqb_refl). mstep.
    unfold k_cpu_unlock. erewrite get_cpu_eq by (simpl; by rewrite lookup_insert_eq). mstep.
    unfold put_cpu, cloned, upd. simpl. rewrite !insert_insert_eq, list_insert_insert_eq.
    do 3 f_equal. by destruct x; simpl in *; subst.
Qed.

(** ** The choice of a CPU *)

Definition idle_cpus (k : kern) (c : Z) : Prop :=
  c ∈ omap id (k_cpus k) ∧ ∃ x, k_cpu_objs k !! c = Some x ∧ cpu_ti_task x = None.

Lemma find_idle_spec k l : cpus_ok k l →
  (find_idle (with_smp k 1) l = Ret None ∧
    ∀ c x, c ∈ omap id l → k_cpu_objs k !! c = Some x → cpu_ti_task x ≠ None) ∨
  (∃ c x, find_idle (with_smp k 1) l = Ret (Some c) ∧ c ∈ omap id l ∧ k_cpu_objs k !! c = Some x ∧
    cpu_ti_task x = None ∧ cpu_lock x = 0).
Proof.
  induction l as [|[c|] l IH]; intros Hok; simpl.
  - left. split; [done|]. intros c x Hc. by apply elem_of_nil in Hc.
  - destruct (co_objs _ _ Hok c) as (x & Hx & Hl); [left|].
    unfold k_cpu_get_thread_task. rewrite (get_cpu_eq _ _ x) by done. mstep. case_decide as Et.
    + right. exists c, x. split; [done|]. split; [left|done].
    + destruct (IH (cpus_ok_tail _ _ _ Hok)) as [[-> Hn]|(d & z & -> & Hd & ?)].
      * left. split; [done|]. intros d z Hd Hz. apply elem_of_cons in Hd as [->|Hd]; [congruence|eauto].
      * right. exists d, z. split; [done|]. split; [by right|done].
  - apply IH. by eapply cpus_ok_tail.
Qed.

Lemma clone_pick_eq k : k_lock_smp k = 0 → cpus_ok k (k_cpus k) →
  (clone_pick k = Ret (- ENOMEM, None, k) ∧ ∀ c, ¬ idle_cpus k c) ∨
  (∃ c x, clone_pick k = Ret (0, Some c, k) ∧ c ∈ omap id (k_cpus k) ∧ k_cpu_objs k !! c = Some x ∧
    cpu_ti_task x = None ∧ cpu_lock x = 0).
Proof.
  intros Hs Hok. unfold clone_pick, k_smp_lock, k_smp_find_idle_cpu. rewrite Hs. cbn [truth Z.eqb negb]. mstep.
  assert (k_smp_unlock (with_smp k 1) = k) as -> by (destruct k; simpl in *; by subst).
  change (k_cpus (with_smp k 1)) with (k_cpus k).
  destruct (find_idle_spec k _ Hok) as [[-> Hn]|(c & x & -> & ?)]; mstep; [left|right; eauto 10].
  split; [done|]. intros c (Hc & x & Hx & Ht). by eapply Hn.
Qed.

(** No slot is left. *)
Lemma clone_on_full k hart cur c x a need :
  k_cpu_objs k !! c = Some x → cpu_lock x = 0 → pi_avail (k_pi k) ≠ 0 → pi_lock (k_pi k) = 0 →
  first_avail (k_ti k) 0 = None →
  clone_on L (Some raise) (Ret (0, r0)) k hart cur c a need = Ret (- ENOMEM, k).
Proof.
  intros Hx Hl Hpa Hpl Hf. unfold clone_on. destruct need as [[nc np] nt]. rewrite (lock_cpu _ _ x) by done. mstep.
  unfold k_proc_get_current. simpl k_pi. rewrite (proj2 (truth_true _)) by done.
  unfold k_thread_create, pi_spin_lock. simpl k_pi. rewrite Hpl. cbn [negb truth Z.eqb]. mstep. simpl k_ti. rewrite Hf.
  mstep. match goal with |- context [k_cpu_unlock ?kk c] =>
    assert (kk = put_cpu k c (cpu_set_lock x 1)) as -> end.
  { destruct k as [? ? ? ? ? [? ? ? ? ?] ? ?]. simpl in *. by subst. }
  by rewrite (unlock_same _ _ x).
Qed.

(** An address that the flags ask for is missing. *)
Definition clone_bad (a : k_clone_args) : bool :=
  (has (ca_flags a) (Z.lor CLONE_CHILD_CLEARTID CLONE_CHILD_SETTID) && (ca_ctid a =? 0)) ||
  (has (ca_flags a) CLONE_PARENT_SETTID && (ca_ptid a =? 0)) ||
  (has (ca_flags a) CLONE_SETTLS && (ca_tls a =? 0)).

Definition clone_need (a : k_clone_args) : bool * bool * bool :=
  (has (ca_flags a) (Z.lor CLONE_CHILD_CLEARTID CLONE_CHILD_SETTID), has (ca_flags a) CLONE_PARENT_SETTID,
   has (ca_flags a) CLONE_SETTLS).

Lemma clone_needs_eq a :
  clone_needs a = if clone_bad a then (- EFAULT, (false, false, false)) else (0, clone_need a).
Proof.
  unfold clone_needs, clone_bad, clone_need, truth. rewrite !negb_involutive.
  by destruct (_ && (ca_ctid a =? 0)), (_ && (ca_ptid a =? 0)), (_ && (ca_tls a =? 0)).
Qed.

(** C26: starting a thread. A clone that runs alone keeps the invariant of the scheduler, on
    every path. An address that the flags ask for but that is null is [-EFAULT], and no idle
    CPU or no free slot is [-ENOMEM]; none of these changes anything. Otherwise a free
    slot becomes a new thread with the caller's registers, the return value 0, the given
    stack, the interrupt stack of its CPU and the given thread pointer; the thread is the
    task of an idle CPU of the table, the thread number is the result and is written where the flags
    ask for it. Where the interrupt cannot be raised, that error is the result, the slot
    is free again and the CPU idle. *)
Theorem k_thread_clone_ok k hart cur y regs a (Hs : sched_ok k)
    (Hcur : k_cpu_get_current k hart = Ret cur) (Hy : k_cpu_objs k !! cur = Some y)
    (Hregs : cpu_regs y = Some regs) (Hlen : length regs = REG_ALL) (Hok : cpus_ok k (k_cpus k))
    (Hsmp : k_lock_smp k = 0) (Hpa : pi_avail (k_pi k) ≠ 0) (Hpl : pi_lock (k_pi k) = 0) :
  ∃ r k', k_thread_clone L (Some raise) (Ret (0, r0)) k hart a = Ret (r, k') ∧ sched_ok k' ∧
    ((clone_bad a = true ∧ r = - EFAULT ∧ k' = k) ∨
     (clone_bad a = false ∧ (∀ c, ¬ idle_cpus k c) ∧ r = - ENOMEM ∧ k' = k) ∨
     (clone_bad a = false ∧ first_avail (k_ti k) 0 = None ∧ r = - ENOMEM ∧ k' = k) ∨
     (clone_bad a = false ∧ ∃ c x t z, idle_cpus k c ∧ k_cpu_objs k !! c = Some x ∧
        zget (k_ti k) t = Some z ∧ ti_avail z = 0 ∧
        let tid := (alloc_tid k).1 in
        r = (if re =? 0 then tid else re) ∧
        k' = cloned k c t x (new_thread z a (clone_need a) tid c regs (intr_stack L (id_cpu x)))
               (clone_mem (k_mem k) a (clone_need a) tid) (re =? 0))).
Proof.
  unfold k_thread_clone. rewrite Hcur. mstep. rewrite clone_needs_eq.
  destruct (clone_bad a); [exists (- EFAULT), k; by split_and!; auto|]. cbn [truth Z.eqb negb].
  destruct (clone_pick_eq k Hsmp Hok) as [[-> Hn]|(c & x & -> & Hc & Hx & Ht & Hl)]; mstep.
  { exists (- ENOMEM), k. split; [done|]. split; [done|]. auto 10. }
  cbn [truth Z.eqb negb]. mstep. destruct (first_avail (k_ti k) 0) as [t|] eqn:Hf.
  - destruct (first_avail_get _ _ Hf) as (z & Hz & Ha). do 2 eexists.
    split; [by apply (clone_on_eq k hart cur c x y regs t z)|]. split; [|right; right; right].
    + unfold cloned. destruct (re =? 0); [by apply (sched_start k c x t z)|].
      eapply sched_same; try done.
    + split; [done|]. exists c, x, t, z. split; [by split; eauto|]. done.
  - exists (- ENOMEM), k. split; [by apply (clone_on_full _ _ _ _ x)|]. split; [done|]. auto 10.
Qed.
End Clone.

(** ** Exit *)

Lemma sched_wake k l : sched_ok k → sched_ok (wake_all k l).
Proof.
  revert k. induction l as [|d l IH]; intros k Hs; [done|]. apply IH. unfold wake_one.
  destruct (k_cpu_objs k !! d) as [w|] eqn:Ed; [|done]. destruct Hs as [Ht Hr]. split; simpl.
  - intros c x t. destruct (decide (c = d)) as [->|]; [|rewrite lookup_insert_ne by done; eauto].
    rewrite lookup_insert_eq. intros ? Hx. simplify_eq. by eapply Ht.
  - intros t y Hy Hrun. destruct (Hr t y Hy Hrun) as (c & x & Hc & Hx & Hxt). exists c.
    destruct (decide (c = d)) as [->|]; [|exists x; by rewrite lookup_insert_ne].
    simplify_eq. exists (woken w). by rewrite lookup_insert_eq.
Qed.

(** The CPU that runs the caller is not woken. *)
Lemma waiters_cur k c x t y tid m uaddr bitset :
  waiters (upd k c x t y tid m) c uaddr bitset (k_cpus k) = waiters k c uaddr bitset (k_cpus k).
Proof.
  unfold waiters. apply List.filter_ext. intros d. unfold waits, upd. cbn [k_cpu_objs].
  destruct (d =? c) eqn:E; bsplit; [done|]. by rewrite lookup_insert_ne.
Qed.

Lemma same_ids_upd k c x x' t y tid m :
  k_cpu_objs k !! c = Some x → id_phys x' = id_phys x → same_ids k (upd k c x' t y tid m).
Proof.
  intros Hx Hp. destruct (same_ids_put k c x x' Hx Hp) as [? Hs]. split; [done|exact Hs].
Qed.

Lemma cpus_ok_upd k c x t y tid m :
  cpus_ok k (k_cpus k) → cpu_lock x = 0 → cpus_ok (upd k c x t y tid m) (k_cpus k).
Proof.
  intros [Hn Ho] Hl. split; [done|]. intros d Hd. destruct (Ho d Hd) as (w & Hw & Hlw). simpl.
  destruct (decide (d = c)) as [->|]; [exists x; by rewrite lookup_insert_eq|].
  exists w. by rewrite lookup_insert_ne.
Qed.

(** The context switch of a CPU whose task has ended. *)
Lemma switch_idle k hart c x i z regs :
  k_cpu_get_current k hart = Ret c → k_cpu_objs k !! c = Some x → cpu_ti x ≠ cpu_ti_idle x →
  cpu_ti_task x = None → cpu_ti_idle x = Some i → zget (k_ti k) i = Some z → cpu_regs x = Some regs →
  k_thread_context_switch_nolock k hart =
    Ret (0, put_cpu k c (cpu_set_threads (cpu_set_regs x (Some (ti_regs z))) (Some i) (Some i) None)).
Proof.
  intros Hcur Hx Hne Ht Hi Hz Hr. unfold k_thread_context_switch_nolock. rewrite Hcur. mstep.
  rewrite (get_cpu_eq _ _ x) by done. mstep. rewrite decide_False by done. mstep.
  rewrite Ht, Hi. assert (match cpu_ti x with Some _ => Some i | None => Some i end = Some i) as -> by (by destruct (cpu_ti x)).
  mstep. rewrite (get_thread_eq _ _ z) by done. mstep. rewrite Hr. mstep.
  unfold k_cpu_set_user_regs. rewrite (get_cpu_eq _ _ x) by done. mstep.
  unfold k_cpu_set_thread. erewrite get_cpu_eq by (simpl; by rewrite lookup_insert_eq). mstep.
  unfold put_cpu. simpl. rewrite insert_insert_eq. by rewrite Ht, Hi.
Qed.

Section Exit.
Context `{Arch} `{Config}.
Variable L : layout.
Variable op_flush : option (kern → Z → Z → Z → exec (Z * list Z)).
Variable op_sleep : option (Z → kern → exec (Z * kern)).
Variable raise : Z → Z → kern → exec (Z * kern).

(** Inter-processor interrupts are raised, and change nothing that is modelled. *)
Hypothesis Hipi : ∀ cpu dest k, raise cpu dest k = Ret (0, k).

(** The state after the exit of a thread, before the waiters are woken. *)
Definition exited (k : kern) (c : Z) (x : k_cpu_device) (t : Z) (y : k_thread_info) (i : Z)
    (regs : user_regs) : kern :=
  upd k c (cpu_set_threads (cpu_set_regs x (Some regs)) (Some i) (Some i) None) t
    (th_set_avail (th_set_cpu y 0 None) 0) (k_uniq_tid k)
    (if has (ti_flags y) CLONE_CHILD_CLEARTID then store_le 4 (k_mem k) (ti_ctid y) 0 else k_mem k).

Definition exit_wakes (k : kern) (c : Z) (y : k_thread_info) : list Z :=
  if has (ti_flags y) CLONE_CHILD_CLEARTID
  then take 1 (waiters k c (ti_ctid y) FUTEX_BITSET_ANY (k_cpus k)) else [].

Lemma exit_eq k hart c x t y i z regs v status :
  k_cpu_get_current k hart = Ret c → k_cpu_objs k !! c = Some x → cpu_lock x = 0 →
  cpu_ti_task x = Some t → cpu_ti x = Some t → cpu_ti_idle x = Some i → i ≠ t → cpu_regs x = Some regs →
  zget (k_ti k) t = Some y → ti_cpu y = Some c → zget (k_ti k) i = Some z → 
  k_arch_riscv_get_arg (ti_regs z) K_ARCH_ARG_TYPE_RETVAL = Ret (0, Some v) →
  pi_avail (k_pi k) ≠ 0 → pi_leader (k_pi k) ≠ Some t →
  cpus_ok k (k_cpus k) → zlen (k_cpus k) = CONFIG_NUM_CORES → CONFIG_NUM_CORES < 2 ^ 31 →
  k_sys_exit L op_flush op_sleep (Some raise) k hart status =
    Ret (isize v, wake_all (exited k c x t y i (ti_regs z)) (exit_wakes k c y)).
Proof.
  intros Hcur Hx Hlx Htask Hti Hidle Hne Hregs Hy Hyc Hz Hv Hpa Hld Hok Hnc Hnb.
  unfold k_sys_exit. rewrite Hcur. mstep. rewrite (lock_cpu _ _ x) by done. mstep.
  unfold k_cpu_get_thread_task. erewrite get_cpu_eq by (simpl; by rewrite lookup_insert_eq). mstep.
  cbn [cpu_set_lock cpu_ti_task]. rewrite Htask.
  erewrite stop_eq by (done || simpl; by rewrite lookup_insert_eq). mstep.
  rewrite destroy_eq by done. mstep. cbn [truth Z.eqb negb].
  unfold k_proc_get_current. rewrite (proj2 (truth_true _)) by done. cbn [negb].
  rewrite decide_False by done. mstep. unfold k_fini_child.
  erewrite get_thread_eq by (simpl; by rewrite (zget_upd _ _ _ _ _ Hy), Z.eqb_refl). mstep.
  cbn [th_set_avail th_set_cpu ti_flags ti_ctid].
  match goal with |- context [k_thread_context_switch_nolock ?kk hart] =>
    assert (kk = upd k c (cpu_set_threads (cpu_set_lock x 1) (cpu_ti x) (cpu_ti_idle x) None) t
      (th_set_avail (th_set_cpu y 0 None) 0) (k_uniq_tid k)
      (if has (ti_flags y) CLONE_CHILD_CLEARTID then store_le 4 (k_mem k) (ti_ctid y) 0 else k_mem k)) as -> end.
  { unfold upd. simpl. rewrite insert_insert_eq. by destruct (has _ _). }
  erewrite switch_idle; cycle 1.
  { rewrite <- Hcur. apply get_current_same. by eapply same_ids_upd. }
  { simpl. by rewrite lookup_insert_eq. }
  { simpl. congruence. }
  { done. }
  { done. }
  { simpl. by rewrite (zget_upd _ _ _ _ _ Hy), (proj2 (Z.eqb_neq _ _)). }
  { done. }
  mstep. cbn [truth Z.eqb negb]. unfold retval_of.
  erewrite get_cpu_eq by (simpl; by rewrite lookup_insert_eq). mstep. simpl cpu_regs. mstep.
  rewrite Hv. mstep.
  unfold k_cpu_unlock. erewrite get_cpu_eq by (simpl; by rewrite lookup_insert_eq). mstep.
  match goal with |- context [put_cpu ?kk c ?xx] =>
    assert (put_cpu kk c xx = exited k c x t y i (ti_regs z)) as -> end.
  { unfold put_cpu, exited, upd. simpl. rewrite !insert_insert_eq. do 2 f_equal. by destruct x; simpl in *; subst. }
  unfold exit_wakes. destruct (has (ti_flags y) CLONE_CHILD_CLEARTID) eqn:Ef; [|done].
  erewrite get_thread_eq by (simpl; by rewrite (zget_upd _ _ _ _ _ Hy), Z.eqb_refl). mstep.
  assert (k_cpu_get_current (exited k c x t y i (ti_regs z)) hart = Ret c) as Hcur'.
  { rewrite <- Hcur. apply get_current_same. by eapply same_ids_upd. }
  rewrite (futex_wake_eq raise Hipi _ hart c _ _ _ Hcur') by (done || by apply (cpus_ok_upd k c)).
  mstep. unfold exited. simpl k_cpus. rewrite waiters_cur. done.
Qed.

(** C27: the exit of a thread other than the leader. The call frees the slot of the
    thread and switches its CPU to the idle thread: the CPU has no task, its registers are
    those of the idle thread, and the result is the return value that was saved
    there. If the thread asked for it, the word at its [ctid] is cleared and the first
    CPU that waits on that word, if there is one, is woken; no other CPU changes. The
    invariant of the scheduler is kept. *)
Theorem k_sys_exit_ok k hart c x t i z regs status (Hs : sched_ok k)
    (Hcur : k_cpu_get_current k hart = Ret c) (Hx : k_cpu_objs k !! c = Some x) (Hlx : cpu_lock x = 0)
    (Htask : cpu_ti_task x = Some t) (Hti : cpu_ti x = Some t) (Hidle : cpu_ti_idle x = Some i) (Hne : i ≠ t)
    (Hregs : cpu_regs x = Some regs) (Hz : zget (k_ti k) i = Some z) (Hlen : length (ti_regs z) = REG_ALL)
    (Hpa : pi_avail (k_pi k) ≠ 0) (Hld : pi_leader (k_pi k) ≠ Some t) (Hok : cpus_ok k (k_cpus k))
    (Hnc : zlen (k_cpus k) = CONFIG_NUM_CORES) (Hnb : CONFIG_NUM_CORES < 2 ^ 31) :
  ∃ v k' y y' x', k_sys_exit L op_flush op_sleep (Some raise) k hart status = Ret (isize v, k') ∧
    zget (ti_regs z) REG_A0 = Some v ∧ sched_ok k' ∧
    zget (k_ti k) t = Some y ∧ zget (k_ti k') t = Some y' ∧ ti_avail y' = 0 ∧ ti_running y' = 0 ∧
    k_cpu_objs k' !! c = Some x' ∧ cpu_ti_task x' = None ∧ cpu_ti x' = Some i ∧
    cpu_regs x' = Some (ti_regs z) ∧ cpu_lock x' = 0 ∧
    k_mem k' = (if has (ti_flags y) CLONE_CHILD_CLEARTID then store_le 4 (k_mem k) (ti_ctid y) 0 else k_mem k) ∧
    (∀ d, d ≠ c → k_cpu_objs k' !! d =
       if decide (d ∈ exit_wakes k c y) then woken <$> (k_cpu_objs k !! d) else k_cpu_objs k !! d).
Proof.
  destruct (so_task _ Hs c x t Hx Htask) as (y & Hy & _ & _ & Hyc).
  destruct (get_arg_eq (ti_regs z) K_ARCH_ARG_TYPE_RETVAL ARG_RETVAL Hlen eq_refl) as (v & Hv & Hg).
  set (K := exited k c x t y i (ti_regs z)). exists v, (wake_all K (exit_wakes k c y)), y.
  destruct (wake_all_rest K (exit_wakes k c y)) as (_ & Eti & Em).
  assert (NoDup (exit_wakes k c y)) as Hnd.
  { unfold exit_wakes. destruct (has _ _); [by apply waiters_nodup|constructor]. }
  assert (c ∉ exit_wakes k c y) as Hc.
  { unfold exit_wakes. destruct (has _ _); [|apply not_elem_of_nil].
    intros (n & Hin%list_elem_of_lookup_2%list_elem_of_In & _)%elem_of_take.
    apply List.filter_In in Hin as [_ Hw].
    unfold waits in Hw. by rewrite Z.eqb_refl in Hw. }
  do 2 eexists. split; [by eapply exit_eq|]. split; [done|].
  split; [apply sched_wake; by eapply sched_stop|]. split; [done|]. rewrite Eti, Em. simpl.
  rewrite (zget_upd _ _ _ _ _ Hy), Z.eqb_refl. split; [done|]. do 2 (split; [done|]).
  rewrite (wake_all_objs _ K) by done. rewrite decide_False by done. unfold K at 1. simpl.
  rewrite lookup_insert_eq. do 5 (split; [done|]). split; [done|]. intros d Hd.
  rewrite (wake_all_objs _ K) by done. unfold K. simpl. by rewrite lookup_insert_ne.
Qed.
End Exit.

(** ** Two clones at once *)

(** A call of [k_thread_clone] takes the lock of the system to choose a CPU, and then the
    lock of that CPU: the two parts are steps of their own. *)
Inductive clone_pc :=
| CStart (a : k_clone_args)
| CPicked (cpu : Z) (a : k_clone_args)
| CDone (r : Z).

Section Race.
Context `{Arch} `{Config}.
Variable L : layout.
Variable op_raise_ipi : option (Z → Z → kern → exec (Z * kern)).
Variable thread_init : exec (Z * user_regs).

Inductive clone_step : kern * gmap Z clone_pc → kern * gmap Z clone_pc → Prop :=
| clone_step_bad k s hart a r need :
    s !! hart = Some (CStart a) → clone_needs a = (r, need) → r ≠ 0 →
    clone_step (k, s) (k, <[hart := CDone r]> s)
| clone_step_pick k s hart a need cpu k' :
    s !! hart = Some (CStart a) → clone_needs a = (0, need) → clone_pick k = Ret (0, Some cpu, k') →
    clone_step (k, s) (k', <[hart := CPicked cpu a]> s)
| clone_step_none k s hart a need r k' :
    s !! hart = Some (CStart a) → clone_needs a = (0, need) → clone_pick k = Ret (r, None, k') →
    clone_step (k, s) (k', <[hart := CDone r]> s)
| clone_step_run k s hart cur cpu a r k' :
    s !! hart = Some (CPicked cpu a) → k_cpu_get_current k hart = Ret cur →
    clone_on L op_raise_ipi thread_init k hart cur cpu a (clone_needs a).2 = Ret (r, k') →
    clone_step (k, s) (k', <[hart := CDone r]> s).
End Race.

(** Four CPUs; the main thread runs on the first, a child on the second. *)
Definition free_slot : k_thread_info := mk_thread 0 0 0 0 0 0 0 0 0 0 (replicate REG_ALL 0) None.
Definition run_slot (tid c : Z) : k_thread_info := mk_thread tid 1 1 0 0 0 0 0 0 0 (replicate REG_ALL 0) (Some c).
Definition idle_slot (tid : Z) : k_thread_info := mk_thread tid 1 0 0 0 0 0 0 0 0 (replicate REG_ALL 0) None.
Definition cpu_with (n idle : Z) (task : option Z) : k_cpu_device :=
  mk_cpu n n 1 (Some (replicate REG_ALL 0)) 0 (if task then task else Some idle) (Some idle) task [] futex_none 64 64.
Definition two_tasks : kern :=
  mk_kern [Some 10; Some 11; Some 12; Some 13]
    (<[10 := cpu_with 0 2 (Some 0)]> (<[11 := cpu_with 1 3 (Some 1)]>
      (<[12 := cpu_with 2 4 None]> {[13 := cpu_with 3 5 None]})))
    4 [run_slot 1 10; run_slot 2 11; idle_slot 3; idle_slot 4; idle_slot 5; idle_slot 6; free_slot; free_slot] 7
    (mk_proc 1 1 0 (Some 0) []) 0 ∅.

Definition some_layout : layout := mk_layout 0x1000 0x2000 0x10000 0x20000 0x500 0x600 1 56 4 0x80000000 64.
Definition plain_clone : k_clone_args := mk_clone 0 0 0 0 0 0x9000 0 0.

Lemma two_tasks_objs c x : k_cpu_objs two_tasks !! c = Some x →
  (c = 10 ∧ x = cpu_with 0 2 (Some 0)) ∨ (c = 11 ∧ x = cpu_with 1 3 (Some 1)) ∨
  (c = 12 ∧ x = cpu_with 2 4 None) ∨ (c = 13 ∧ x = cpu_with 3 5 None).
Proof.
  unfold two_tasks. cbn [k_cpu_objs]. rewrite !lookup_insert_Some, lookup_singleton_Some. naive_solver.
Qed.

Lemma two_tasks_sched : sched_ok two_tasks.
Proof.
  split.
  - intros c x t Hx Ht. destruct (two_tasks_objs c x Hx) as [[-> ->]|[[-> ->]|[[-> ->]|[-> ->]]]]; simplify_eq/=;
      eexists; split; try reflexivity; done.
  - intros t y Hy Hr. pose proof (zget_Some _ _ _ Hy) as Hb. unfold zget in Hy. cases_in Hy.
    simpl in Hb. destruct (Z.to_nat t) as [|[|[|[|[|[|[|[|n]]]]]]]] eqn:E; simplify_eq/=.
    + exists 10, (cpu_with 0 2 (Some 0)). split_and!; [done|done|simpl; f_equal; lia].
    + exists 11, (cpu_with 1 3 (Some 1)). split_and!; [done|done|simpl; f_equal; lia].
Qed.

Lemma two_tasks_cpus : cpus_ok two_tasks (k_cpus two_tasks).
Proof.
  split; [apply (bool_decide_unpack _); by vm_compute|].
  intros c Hc. simpl in Hc. rewrite !elem_of_cons in Hc.
  destruct Hc as [->|[->|[->|[->|Hc]]]]; [eexists; split; reflexivity..|]. by apply elem_of_nil in Hc.
Qed.

Lemma k_thread_clone_ok_witness :
  ∃ k', @k_thread_clone rv64 qemu_virt some_layout (Some (fun _ _ k => Ret (0, k))) (Ret (0, replicate REG_ALL 0))
    two_tasks 0 plain_clone = Ret (7, k') ∧ sched_ok k'.
Proof.
  destruct (@k_thread_clone_ok rv64 qemu_virt some_layout (fun _ _ k => Ret (0, k)) 0 (replicate REG_ALL 0)
    (fun _ _ _ => eq_refl) two_tasks 0 10 (cpu_with 0 2 (Some 0)) (replicate REG_ALL 0) plain_clone two_tasks_sched
    eq_refl eq_refl eq_refl eq_refl two_tasks_cpus eq_refl ltac:(done) eq_refl) as (r & k' & E & Hs & Hc).
  exists k'. split; [|exact Hs]. rewrite E. do 2 f_equal.
  destruct Hc as [[? _]|[(_ & Hn & _)|[(_ & ? & _)|(_ & c & x & t & z & _ & _ & _ & _ & Hr & _)]]]; try done.
  exfalso. apply (Hn 12). split; [apply (bool_decide_unpack _); by vm_compute|]. by eexists.
Defined.

(** The child on the second CPU exits. *)
Lemma k_sys_exit_ok_witness :
  ∃ k' x', @k_sys_exit rv64 qemu_virt some_layout None None (Some (fun _ _ k => Ret (0, k))) two_tasks 1 0 =
    Ret (0, k') ∧ sched_ok k' ∧ k_cpu_objs k' !! 11 = Some x' ∧ cpu_ti_task x' = None.
Proof.
  destruct (@k_sys_exit_ok rv64 qemu_virt some_layout None None (fun _ _ k => Ret (0, k)) (fun _ _ _ => eq_refl)
    two_tasks 1 11 (cpu_with 1 3 (Some 1)) 1 3 (idle_slot 4) (replicate REG_ALL 0) 0 two_tasks_sched
    eq_refl eq_refl eq_refl eq_refl eq_refl eq_refl ltac:(done) eq_refl eq_refl eq_refl ltac:(done) ltac:(done)
    two_tasks_cpus eq_refl eq_refl) as (v & k' & y & y' & x' & E & Hv & Hs & _ & _ & _ & _ & Hx' & Ht & _).
  exists k', x'. rewrite E. injection Hv as <-. by split_and!.
Defined.

(** The second part of a clone on CPU 12, by a CPU, from a state on. *)
Definition run_clone (k : kern) (hart cur : Z) : exec (Z * kern) :=
  @clone_on rv64 qemu_virt some_layout (Some (fun _ _ k => Ret (0, k))) (Ret (0, replicate REG_ALL 0))
    k hart cur 12 plain_clone (clone_needs plain_clone).2.
Definition state_of (e : exec (Z * kern)) : kern := match e with Ret (_, k) => k | _ => two_tasks end.
Definition raced_1 : kern := state_of (run_clone two_tasks 0 10).
Definition raced_2 : kern := state_of (run_clone raced_1 1 11).

(** C30: two clones at once lose a thread. From a state in which the invariant holds, two
    CPUs that call [k_thread_clone] may both choose the same idle CPU, since the lock of the
    system is released before the CPU is given a task. Both calls then succeed with
    different thread numbers, but the thread of the first is the task of no CPU,
    although it is marked as running on one: it never runs. *)
Theorem k_thread_clone_race :
  ∃ k s y, rtc (@clone_step rv64 qemu_virt some_layout (Some (fun _ _ k => Ret (0, k)))
      (Ret (0, replicate REG_ALL 0)))
    (two_tasks, <[0 := CStart plain_clone]> {[1 := CStart plain_clone]}) (k, s) ∧
  sched_ok two_tasks ∧ s !! 0 = Some (CDone 7) ∧ s !! 1 = Some (CDone 8) ∧
  zget (k_ti k) 6 = Some y ∧ ti_tid y = 7 ∧ ti_running y = 1 ∧ ti_cpu y = Some 12 ∧
  (∀ c x, k_cpu_objs k !! c = Some x → cpu_ti_task x ≠ Some 6).
Proof.
  exists raced_2, (<[1 := CDone 8]> (<[0 := CDone 7]> (<[1 := CPicked 12 plain_clone]>
    (<[0 := CPicked 12 plain_clone]> (<[0 := CStart plain_clone]> {[1 := CStart plain_clone]}))))).
  eexists. split; [|split; [exact two_tasks_sched|]].
  - eapply rtc_l; [eapply (clone_step_pick _ _ _ _ _ 0 plain_clone _ 12 two_tasks); reflexivity|].
    eapply rtc_l; [eapply (clone_step_pick _ _ _ _ _ 1 plain_clone _ 12 two_tasks); reflexivity|].
    eapply rtc_l; [eapply (clone_step_run _ _ _ _ _ 0 10 12 plain_clone 7 raced_1); [reflexivity..|by vm_compute]|].
    eapply rtc_l; [eapply (clone_step_run _ _ _ _ _ 1 11 12 plain_clone 8 raced_2);
      [reflexivity|by vm_compute|by vm_compute]|].
    apply rtc_refl.
  - split_and!; try by vm_compute.
    apply (bool_decide_unpack (map_Forall (fun _ x => cpu_ti_task x ≠ Some 6) (k_cpu_objs raced_2))).
    by vm_compute.
Qed.
