(* ===== verification/File.v ===== *)
(** * Console and files (sys/printk.c, sys/file.c and the system calls of sys/syscall.c on
      descriptors)

    The console has the lock and the status register that [k_pri_lock] and the saved
    interrupt status protect it with, and a device whose character functions are
    parameters.  A file descriptor is a number of an object; its operations work on
    the memory and on the console. *)

From S2P Require Import Prelude Config CString Event Regs Cpu Cache Args.

Definition EOF : Z := -1.

(** [XSTATUS_IE], for machine mode. *)
Definition XSTATUS_IE : Z := BIT 3.

(** ** Console *)

Record console (D : Type) := mk_console {
  con_lock : Z;
  con_status : Z;
  con_dev : D
}.
Arguments mk_console {D}.
Arguments con_lock {D}.
Arguments con_status {D}.
Arguments con_dev {D}.

Section Console.
Context `{Arch} {D : Type}.

(** [k_pri_getchar_in] and [k_pri_putchar_in]; those of a serial port wait for it, and need not return. *)
Variable getchar : D → exec (Z * D).
Variable putchar : Z → D → exec (Z * D).

Definition null_getchar (d : D) : exec (Z * D) := Ret (EOF, d).
Definition null_putchar (c : Z) (d : D) : exec (Z * D) := Ret (u8 c, d).

(** [k_intr_save_local(&st); k_spinlock_lock(&k_pri_lock)], and the reverse. *)
Definition k_intr_save_local (c : console D) : Z * console D :=
  (con_status c, mk_console (con_lock c) (clear (con_status c) XSTATUS_IE) (con_dev c)).
Definition k_intr_restore_local (c : console D) (st : Z) : console D := mk_console (con_lock c) st (con_dev c).

Definition pri_enter (c : console D) : exec (Z * console D) :=
  let '(st, c) := k_intr_save_local c in
  if truth (con_lock c) then Hang else Ret (st, mk_console 1 (con_status c) (con_dev c)).
Definition pri_leave (c : console D) (st : Z) : console D :=
  k_intr_restore_local (mk_console 0 (con_status c) (con_dev c)) st.

Definition set_con_dev (c : console D) (d : D) : console D := mk_console (con_lock c) (con_status c) d.
Definition k_getchar_nolock (c : console D) : exec (Z * console D) :=
  '(r, d) ← getchar (con_dev c); Ret (r, set_con_dev c d).
Definition k_putchar_nolock (ch : Z) (c : console D) : exec (Z * console D) :=
  '(r, d) ← putchar ch (con_dev c); Ret (r, set_con_dev c d).

Definition k_pri_read_stdin (m : mem) (c : console D) (s count : Z) : exec (Z * mem * console D) :=
  '(st, c) ← pri_enter c;
  '(ch, c) ← k_getchar_nolock c;
  let '(n, m) := if ch =? EOF then (0, m) else (1, store8 m s ch) in
  Ret (n, m, pri_leave c st).

(** [for (i = 0; i < count; i++) k_putchar_nolock(s[i])] *)
Fixpoint put_loop (n : nat) (m : mem) (s : Z) (c : console D) : exec (console D) :=
  match n with
  | O => Ret c
  | S n => '(_, c) ← k_putchar_nolock (load8 m s) c; put_loop n m (s + 1) c
  end.

(** The result is an [int], made from a [size_t]. *)
Definition k_pri_write_stdout (m : mem) (c : console D) (s count : Z) : exec (Z * console D) :=
  '(st, c) ← pri_enter c;
  c ← put_loop (Z.to_nat count) m s c;
  Ret (i32 count, pri_leave c st).

Definition k_putchar (ch : Z) (c : console D) : exec (Z * console D) :=
  '(st, c) ← pri_enter c;
  '(r, c) ← k_putchar_nolock ch c;
  Ret (r, pri_leave c st).

(** [k_strlen] is called before every character. *)
Fixpoint puts_loop (n fuel : nat) (m : mem) (s i : Z) (c : console D) : exec (console D) :=
  len ← k_strlen fuel m s;
  if i <? len then
    match n with
    | O => Hang
    | S n => '(_, c) ← k_putchar_nolock (load8 m (s + i)) c; puts_loop n fuel m s (i + 1) c
    end
  else Ret c.

Definition k_puts_nolock (fuel : nat) (m : mem) (s : Z) (newline : bool) (c : console D) : exec (Z * console D) :=
  c ← puts_loop fuel fuel m s 0 c;
  if newline then '(_, c) ← k_putchar_nolock 10 c; Ret (0, c) else Ret (0, c).

Definition k_puts (fuel : nat) (m : mem) (s : Z) (c : console D) : exec (Z * console D) :=
  '(st, c) ← pri_enter c;
  '(r, c) ← k_puts_nolock fuel m s true c;
  Ret (r, pri_leave c st).
End Console.

(** ** Files *)

Record k_file_ops (D : Type) := mk_ops {
  op_read : option (mem → console D → Z → Z → exec (Z * mem * console D));
  op_write : option (mem → console D → Z → Z → exec (Z * console D));
  op_ioctl : option (mem → console D → Z → Z → exec (Z * mem * console D));
  op_poll : bool;
  op_close : option (console D → exec (Z * console D))
}.
Arguments mk_ops {D}.
Arguments op_read {D}.
Arguments op_write {D}.
Arguments op_ioctl {D}.
Arguments op_poll {D}.
Arguments op_close {D}.

Record k_file_desc (D : Type) := mk_desc {
  desc_lock : Z;
  desc_ops : option (k_file_ops D)
}.
Arguments mk_desc {D}.
Arguments desc_lock {D}.
Arguments desc_ops {D}.

(** The process, the descriptors, the memory and the console. *)
Record files (D : Type) := mk_files {
  f_pi : k_proc_info;
  f_desc : gmap Z (k_file_desc D);
  f_mem : mem;
  f_con : console D
}.
Arguments mk_files {D}.
Arguments f_pi {D}.
Arguments f_desc {D}.
Arguments f_mem {D}.
Arguments f_con {D}.

(** [desc->ops && desc->ops->op] *)
Definition ops_get {D A} (x : k_file_desc D) (op : k_file_ops D → option A) : option A :=
  match desc_ops x with
  | Some o => op o
  | None => None
  end.

Section Files.
Context `{Arch} `{Config} {D : Type}.
Implicit Types (f : files D) (d : Z).

Definition set_con f (c : console D) : files D := mk_files (f_pi f) (f_desc f) (f_mem f) c.
Definition set_mem_con f (m : mem) (c : console D) : files D := mk_files (f_pi f) (f_desc f) m c.
Definition set_fdset f (l : list (option Z)) : files D :=
  let p := f_pi f in
  mk_files (mk_proc (pi_pid p) (pi_avail p) (pi_lock p) (pi_leader p) l) (f_desc f) (f_mem f) (f_con f).

Definition get_desc f d : exec (k_file_desc D) := of_opt (f_desc f !! d).
Definition desc_lock_set f d (l : Z) : exec (files D) :=
  x ← get_desc f d;
  Ret (mk_files (f_pi f) (<[d := mk_desc l (desc_ops x)]> (f_desc f)) (f_mem f) (f_con f)).
Definition desc_spin_lock f d : exec (files D) :=
  x ← get_desc f d;
  if truth (desc_lock x) then Hang else desc_lock_set f d 1.
Definition desc_spin_unlock f d : exec (files D) := desc_lock_set f d 0.

(** The process is used without a test. *)
Definition k_file_get_desc f (fd : Z) : exec (option Z) :=
  if (fd <? 0) || (CONFIG_MAX_FD <=? fd) then Ret None else
  if negb (truth (pi_avail (f_pi f))) then Undef else
  of_opt (zget (pi_fdset (f_pi f)) fd).

Definition k_file_set_desc f (fd : Z) (desc : option Z) : exec (option Z * files D) :=
  if (fd <? 0) || (CONFIG_MAX_FD <=? fd) then Ret (None, f) else
  if negb (truth (pi_avail (f_pi f))) then Undef else
  old ← of_opt (zget (pi_fdset (f_pi f)) fd);
  l ← of_opt (zset (pi_fdset (f_pi f)) fd desc);
  Ret (old, set_fdset f l).

Definition k_file_ioctl_nolock f d (cmd arg : Z) : exec (Z * files D) :=
  x ← get_desc f d;
  match ops_get x op_ioctl with
  | Some op => '(r, m, c) ← op (f_mem f) (f_con f) cmd arg; Ret (r, set_mem_con f m c)
  | None => Ret (- EBADF, f)
  end.
Definition k_file_read_nolock f d (buf count : Z) : exec (Z * files D) :=
  if negb (truth buf) then Ret (- EINVAL, f) else
  if count =? 0 then Ret (- EINVAL, f) else
  x ← get_desc f d;
  match ops_get x op_read with
  | Some op => '(r, m, c) ← op (f_mem f) (f_con f) buf count; Ret (r, set_mem_con f m c)
  | None => Ret (0, f)
  end.
Definition k_file_write_nolock f d (buf count : Z) : exec (Z * files D) :=
  if negb (truth buf) then Ret (- EINVAL, f) else
  if count =? 0 then Ret (0, f) else
  x ← get_desc f d;
  match ops_get x op_write with
  | Some op => '(r, c) ← op (f_mem f) (f_con f) buf count; Ret (r, set_con f c)
  | None => Ret (0, f)
  end.

Definition k_file_ioctl f d (cmd arg : Z) : exec (Z * files D) :=
  f ← desc_spin_lock f d;
  '(r, f) ← k_file_ioctl_nolock f d cmd arg;
  f ← desc_spin_unlock f d;
  Ret (r, f).
Definition k_file_read f d (buf count : Z) : exec (Z * files D) :=
  f ← desc_spin_lock f d;
  '(r, f) ← k_file_read_nolock f d buf count;
  f ← desc_spin_unlock f d;
  Ret (r, f).
Definition k_file_write f d (buf count : Z) : exec (Z * files D) :=
  f ← desc_spin_lock f d;
  '(r, f) ← k_file_write_nolock f d buf count;
  f ← desc_spin_unlock f d;
  Ret (r, f).

(** ** System calls *)

(** The operation that a call needs, of the descriptor of a file. *)
Definition desc_with {A} f (fd : Z) (op : k_file_ops D → option A) : exec (option Z) :=
  d ← k_file_get_desc f fd;
  match d with
  | None => Ret None
  | Some d => x ← get_desc f d; Ret (if ops_get x op then Some d else None)
  end.

Definition k_sys_openat f : Z * files D := (- ENOTSUP, f).

Definition k_sys_close f (fd : Z) : exec (Z * files D) :=
  d ← k_file_get_desc f fd;
  match d with
  | None => Ret (- EBADF, f)
  | Some d =>
    x ← get_desc f d;
    '(ret, f) ← match ops_get x op_close with
                | Some op => '(r, c) ← op (f_con f); Ret (r, set_con f c)
                | None => Ret (0, f)
                end;
    '(_, f) ← k_file_set_desc f fd None;
    Ret (ret, f)
  end.

Definition k_sys_ioctl f (fd cmd arg : Z) : exec (Z * files D) :=
  d ← desc_with f (i32 fd) op_ioctl;
  match d with
  | None => Ret (- ENOTTY, f)
  | Some d => k_file_ioctl f d cmd arg
  end.

Definition k_sys_read f (fd buf count : Z) : exec (Z * files D) :=
  d ← desc_with f fd op_read;
  match d with
  | None => Ret (- EBADF, f)
  | Some d => k_file_read f d buf count
  end.

Definition k_sys_write f (fd buf count : Z) : exec (Z * files D) :=
  d ← desc_with f fd op_write;
  match d with
  | None => Ret (- EBADF, f)
  | Some d => k_file_write f d buf count
  end.

(** The loop over the [struct pollfd]s, of eight bytes each. *)
Fixpoint poll_loop (n : nat) f (fds : Z) : exec Z :=
  match n with
  | O => Ret (- ENOTSUP)
  | S n =>
    let fd := i32 (load_le 4 (f_mem f) fds) in
    d ← desc_with f fd (fun o => if op_poll o then Some tt else None);
    match d with
    | None => Ret (- EBADF)
    | Some _ => poll_loop n f (fds + 8)
    end
  end.
Definition k_sys_poll f (fds nfds : Z) : exec Z :=
  if negb (truth fds) then Ret (- EFAULT) else poll_loop (Z.to_nat nfds) f fds.

(** The loop over the [struct iovec]s; [wr < iov_len] compares as unsigned. *)
Fixpoint writev_loop (n : nat) f d (iov ret : Z) : exec (Z * files D) :=
  match n with
  | O => Ret (ret, f)
  | S n =>
    let base := load_ptr (f_mem f) iov in
    let len := load_ptr (f_mem f) (iov + ptr_size) in
    let next := iov + 2 * ptr_size in
    if len =? 0 then writev_loop n f d next ret else
    '(wr, f) ← k_file_write_nolock f d base len;
    if wr >? 0 then writev_loop n f d next (isize (ret + wr))
    else if usize wr <? len then Ret (ret, f)
    else Ret (wr, f)
  end.

Definition k_sys_writev f (fd iov iovcnt : Z) : exec (Z * files D) :=
  d ← desc_with f fd op_write;
  match d with
  | None => Ret (- EBADF, f)
  | Some d =>
    if negb (truth iov) then Ret (- EINVAL, f) else
    if iovcnt <? 0 then Ret (- EINVAL, f) else
    if iovcnt =? 0 then Ret (0, f) else
    f ← desc_spin_lock f d;
    '(ret, f) ← writev_loop (Z.to_nat iovcnt) f d iov 0;
    f ← desc_spin_unlock f d;
    Ret (ret, f)
  end.

(** ** Standard files *)

Variable getchar : D → exec (Z * D).
Variable putchar : Z → D → exec (Z * D).

Definition k_file_stdio_read (m : mem) (c : console D) (buf count : Z) : exec (Z * mem * console D) :=
  k_pri_read_stdin getchar m c buf count.
Definition k_file_stdio_write (m : mem) (c : console D) (buf count : Z) : exec (Z * console D) :=
  k_pri_write_stdout putchar m c buf count.

Definition file_stdio_ops : k_file_ops D :=
  mk_ops (Some k_file_stdio_read) (Some k_file_stdio_write) None false None.

(** Without GPIO. The numbers are those of the entries of [fds]. *)
Definition k_file_stdio_init f : exec (Z * files D) :=
  '(_, f) ← k_file_set_desc f 0 (Some 0);
  '(_, f) ← k_file_set_desc f 1 (Some 1);
  '(_, f) ← k_file_set_desc f 2 (Some 2);
  Ret (0, f).
End Files.

(** ** Properties *)

(** A list of characters, given to the device one by one. *)
Fixpoint put_all {D} (putchar : Z → D → exec (Z * D)) (d : D) (l : list Z) : exec D :=
  match l with
  | [] => Ret d
  | ch :: l => '(_, d) ← putchar ch d; put_all putchar d l
  end.

Lemma put_all_app {D} (putchar : Z → D → exec (Z * D)) l1 l2 : ∀ d,
  put_all putchar d (l1 ++ l2) = (d ← put_all putchar d l1; put_all putchar d l2).
Proof.
  induction l1 as [|c l1 IH]; intros d; cbn [put_all app]; [done|].
  destruct (putchar c d) as [[r d2]| |]; mstep; [apply IH|done..].
Qed.

(** The bytes of a block of memory. *)
Definition block (m : mem) (a n : Z) : list Z := load8 m <$> seqZ a n.

Lemma put_loop_eq {D} (putchar : Z → D → exec (Z * D)) m n : ∀ s c,
  put_loop putchar n m s c = (d ← put_all putchar (con_dev c) (block m s (Z.of_nat n)); Ret (set_con_dev c d)).
Proof.
  induction n as [|n IH]; intros s c; [by destruct c|].
  unfold block. rewrite seqZ_cons by lia. cbn [put_loop fmap list_fmap put_all]. unfold k_putchar_nolock.
  destruct (putchar (load8 m s) (con_dev c)) as [[r d]| |]; mstep; [|done..]. rewrite IH.
  unfold block. by replace (Z.pred (Z.of_nat (S n))) with (Z.of_nat n) by lia.
Qed.

Lemma write_stdout_eq {D} (putchar : Z → D → exec (Z * D)) m c s count :
  con_lock c = 0 → 0 <= count → k_pri_write_stdout putchar m c s count =
    (d ← put_all putchar (con_dev c) (block m s count); Ret (i32 count, mk_console 0 (con_status c) d)).
Proof.
  intros Hl Hc. unfold k_pri_write_stdout, pri_enter, k_intr_save_local, pri_leave. cbn [con_lock].
  rewrite Hl. cbn [truth Z.eqb negb con_dev con_status]. mstep. rewrite put_loop_eq, Z2Nat.id by done. cbn [con_dev].
  by destruct (put_all _ _ _).
Qed.

Section Writev.
Context `{Arch} `{Config} {D : Type}.

(** The buffers of a vector in memory. *)
Fixpoint iovs (n : nat) (m : mem) (iov : Z) : list (Z * Z) :=
  match n with
  | O => []
  | S n => (load_ptr m iov, load_ptr m (iov + ptr_size)) :: iovs n m (iov + 2 * ptr_size)
  end.

Definition iov_bytes (m : mem) (l : list (Z * Z)) : list Z := l ≫= (fun '(a, n) => block m a n).
Definition iov_total (l : list (Z * Z)) : Z := foldr (fun '(_, n) s => n + s) 0 l.

(** An empty buffer, or one with an address and a length that the result of [write] can hold. *)
Definition iov_ok (b : Z * Z) : Prop := b.2 = 0 ∨ (b.1 ≠ 0 ∧ 0 < b.2 < 2 ^ 31).

Lemma load_ptr_range m a : 0 <= load_ptr m a.
Proof.
  unfold load_ptr. generalize (Z.to_nat ptr_size). intros n. revert a.
  induction n as [|n IH]; intros a; simpl; [lia|]. pose proof (load8_range m a). pose proof (IH (a + 1)). lia.
Qed.

Lemma iov_total_nonneg l : Forall iov_ok l → 0 <= iov_total l.
Proof.
  induction 1 as [|[a n] l Hb _ IH]; simpl; [lia|]. unfold iov_ok in Hb. simpl in Hb. lia.
Qed.

Variable putchar : Z → D → exec (Z * D).

Lemma writev_loop_eq n : ∀ (f : files D) d iov ret x o v,
  f_desc f !! d = Some x → desc_ops x = Some o → op_write o = Some (k_pri_write_stdout putchar) →
  con_lock (f_con f) = 0 → Forall iov_ok (iovs n (f_mem f) iov) → 0 <= ret →
  ret + iov_total (iovs n (f_mem f) iov) < 2 ^ (xlen - 1) →
  put_all putchar (con_dev (f_con f)) (iov_bytes (f_mem f) (iovs n (f_mem f) iov)) = Ret v →
  writev_loop n f d iov ret =
    Ret (ret + iov_total (iovs n (f_mem f) iov), set_con f (mk_console 0 (con_status (f_con f)) v)).
Proof.
  pose proof xlen_ge as Hxl.
  induction n as [|n IH]; intros f d iov ret x o v Hx Ho Hw Hl Hall Hret Ht Hv.
  - simpl in *. injection Hv as <-. rewrite Z.add_0_r. destruct f as [p ds m [l s c]]. simpl in *. by subst.
  - cbn [iovs] in *. apply Forall_cons in Hall as [Hb Hall]. cbn [writev_loop].
    pose proof (iov_total_nonneg _ Hall) as Hnn. cbn [iov_total foldr] in Ht |- *. fold (iov_total) in *.
    change (foldr _ 0 (iovs n (f_mem f) (iov + 2 * ptr_size))) with
      (iov_total (iovs n (f_mem f) (iov + 2 * ptr_size))) in *.
    unfold iov_bytes in Hv. cbn [mbind list_bind] in Hv. fold (iov_bytes (f_mem f) (iovs n (f_mem f) (iov + 2 * ptr_size))) in Hv.
    destruct Hb as [Hb|(Hb & Hlen)]; cbn [fst snd] in *.
    + rewrite Hb in *. unfold block in Hv. rewrite seqZ_nil in Hv by lia. rewrite Z.eqb_refl, (IH f d _ _ x o v) by (done || lia). done.
    + set (len := load_ptr (f_mem f) (iov + ptr_size)) in *. rewrite (proj2 (Z.eqb_neq len 0)) by lia.
      unfold k_file_write_nolock. rewrite (proj2 (truth_true _)) by done. cbn [negb].
      rewrite (proj2 (Z.eqb_neq len 0)) by lia. unfold get_desc. rewrite Hx. mstep.
      unfold ops_get. rewrite Ho, Hw. rewrite write_stdout_eq by (done || lia).
      rewrite put_all_app in Hv. destruct (put_all putchar (con_dev (f_con f)) _) as [v1| |]; [|done..]. mstep_in Hv. mstep.
      rewrite swrap_small by lia. rewrite Z.gtb_ltb, (proj2 (Z.ltb_lt _ _)) by lia.
      assert (2 ^ 31 <= 2 ^ (xlen - 1)) by (apply Z.pow_le_mono_r; lia).
      rewrite swrap_small by lia. rewrite (IH _ d _ _ x o v) by (done || (cbn [set_con f_mem]; lia)). simpl.
      unfold set_con. simpl. do 2 f_equal. lia.
Qed.

Variable getchar : D → exec (Z * D).

Lemma writev_eq (f : files D) fd d x o iov n r f' :
  k_file_get_desc f fd = Ret (Some d) → f_desc f !! d = Some x → desc_ops x = Some o → is_Some (op_write o) →
  desc_lock x = 0 → iov ≠ 0 → 0 < n →
  writev_loop (Z.to_nat n) (mk_files (f_pi f) (<[d := mk_desc 1 (Some o)]> (f_desc f)) (f_mem f) (f_con f)) d iov 0 =
    Ret (r, f') →
  k_sys_writev f fd iov n = (f ← desc_spin_unlock f' d; Ret (r, f)).
Proof.
  intros Hd Hx Ho [w Hw] Hl Hi Hn E. unfold k_sys_writev, desc_with. rewrite Hd. mstep.
  unfold get_desc. rewrite Hx. mstep. unfold ops_get. rewrite Ho, Hw.
  rewrite (proj2 (truth_true iov)), (proj2 (Z.ltb_ge n 0)), (proj2 (Z.eqb_neq n 0)) by (done || lia). cbn [negb].
  unfold desc_spin_lock, desc_lock_set, get_desc. rewrite Hx. mstep. rewrite Hl. cbn [truth Z.eqb negb]. mstep.
  rewrite Ho, E. done.
Qed.

(** A gathered write to the standard output. For buffers that are empty, or have an
    address and fewer than 2^31 bytes, with a total that the result can hold, [writev]
    on a standard file gives the device the bytes of all buffers, in order and without
    a gap, as one [write] of their concatenation would, when the device takes them, and returns their number.
    Nothing else changes, and both locks are free again. *)
Theorem k_sys_writev_stdout (f : files D) fd d x iov n v
    (Hd : k_file_get_desc f fd = Ret (Some d)) (Hx : f_desc f !! d = Some x)
    (Ho : desc_ops x = Some (file_stdio_ops getchar putchar)) (Hl : desc_lock x = 0)
    (Hc : con_lock (f_con f) = 0) (Hi : iov ≠ 0) (Hn : 0 < n)
    (Hall : Forall iov_ok (iovs (Z.to_nat n) (f_mem f) iov))
    (Ht : iov_total (iovs (Z.to_nat n) (f_mem f) iov) < 2 ^ (xlen - 1))
    (Hv : put_all putchar (con_dev (f_con f)) (iov_bytes (f_mem f) (iovs (Z.to_nat n) (f_mem f) iov)) = Ret v) :
  k_sys_writev f fd iov n =
    Ret (iov_total (iovs (Z.to_nat n) (f_mem f) iov), set_con f (mk_console 0 (con_status (f_con f)) v)).
Proof.
  erewrite (writev_eq f fd d x _ iov n); [|done|done|exact Ho|by eexists|done|done|done|].
  2:{ eapply writev_loop_eq; cbn [f_desc f_mem f_con]; try rewrite lookup_insert_eq; done. }
  unfold desc_spin_unlock, desc_lock_set, get_desc. simpl. rewrite lookup_insert_eq. mstep.
  unfold set_con. simpl. rewrite insert_insert_eq, insert_id; [done|].
  rewrite Hx. destruct x. simpl in *. by subst.
Qed.
End Writev.

(** A gathered write that fails half way. Whatever the [write] of a file does, when it
    takes [w1] bytes of the first of two buffers, the second is written in any case,
    also after a short write, which leaves a gap in the output. An error of the second
    write is the result of the call, and the bytes that were written are not reported. *)
Theorem k_sys_writev_partial `{Arch} `{Config} {D} (f : files D) fd d x o w a1 n1 a2 n2 w1 w2 c1 c2 iov
    (Hd : k_file_get_desc f fd = Ret (Some d)) (Hx : f_desc f !! d = Some x) (Ho : desc_ops x = Some o)
    (Hw : op_write o = Some w) (Hl : desc_lock x = 0) (Hi : iov ≠ 0)
    (Hiov : iovs 2 (f_mem f) iov = [(a1, n1); (a2, n2)]) (Ha1 : a1 ≠ 0) (Ha2 : a2 ≠ 0)
    (Hn1 : 0 < n1 < 2 ^ (xlen - 1)) (Hn2 : 0 < n2 < 2 ^ (xlen - 1))
    (Hw1 : w (f_mem f) (f_con f) a1 n1 = Ret (w1, c1)) (Hw2 : w (f_mem f) c1 a2 n2 = Ret (w2, c2))
    (Hr1 : 0 < w1 <= n1) (Hr2 : - 2 ^ 31 <= w2 <= n2) (Hr : w1 + w2 < 2 ^ (xlen - 1)) :
  k_sys_writev f fd iov 2 =
    Ret (if w2 >? 0 then w1 + w2 else if w2 =? 0 then w1 else w2, set_con f c2).
Proof.
  pose proof xlen_ge. assert (2 ^ 31 <= 2 ^ (xlen - 1)) by (apply Z.pow_le_mono_r; lia).
  assert (2 ^ xlen = 2 * 2 ^ (xlen - 1)) by (rewrite <- Z.pow_succ_r by lia; f_equal; lia).
  erewrite (writev_eq f fd d x o iov 2); [|done|done|exact Ho|by eexists|done|done|done|].
  - instantiate (1 := mk_files (f_pi f) (<[d := mk_desc 1 (Some o)]> (f_desc f)) (f_mem f) c2).
    unfold desc_spin_unlock, desc_lock_set, get_desc. simpl. rewrite lookup_insert_eq. mstep. simpl.
    rewrite insert_insert_eq, insert_id; [reflexivity|]. rewrite Hx. destruct x. simpl in *. by subst.
  - change (Z.to_nat 2) with 2%nat. cbn [iovs] in Hiov. injection Hiov as E1 E2 E3 E4.
    cbn [writev_loop]. cbn [f_mem]. rewrite E1, E2, E3, E4.
    rewrite (proj2 (Z.eqb_neq n1 0)) by lia. unfold k_file_write_nolock, get_desc, ops_get.
    rewrite (proj2 (truth_true a1)) by done. cbn [negb f_mem f_con f_desc]. rewrite (proj2 (Z.eqb_neq n1 0)) by lia.
    rewrite lookup_insert_eq. mstep. cbn [desc_ops]. rewrite Hw, Hw1. mstep.
    rewrite Z.gtb_ltb, (proj2 (Z.ltb_lt 0 w1)) by lia. rewrite Z.add_0_l, (swrap_small _ w1) by lia.
    cbn [set_con f_mem f_pi f_desc f_con]. rewrite E3, E4. rewrite (proj2 (Z.eqb_neq n2 0)) by lia.
    rewrite (proj2 (truth_true a2)) by done. cbn [negb].
    rewrite lookup_insert_eq. mstep. cbn [desc_ops]. rewrite Hw, Hw2. mstep.
    rewrite Z.gtb_ltb. destruct (0 <? w2) eqn:E; bsplit; [by rewrite swrap_small by lia|].
    destruct (w2 =? 0) eqn:E0; bsplit.
    + subst w2. unfold uwrap. rewrite Zmod_0_l, (proj2 (Z.ltb_lt 0 n2)) by lia. done.
    + assert (usize w2 = w2 + 2 ^ xlen) as ->.
      { unfold uwrap. rewrite <- (Z_mod_plus_full w2 1). rewrite Z.mod_small; lia. }
      rewrite (proj2 (Z.ltb_ge _ n2)) by lia. done.
Qed.

(** A 64-bit machine with two buffers, "ab" and "c", and a device that keeps what it is given. *)
Definition iov_mem : mem :=
  store_le 8 (store_le 8 (store_le 8 (store_le 8 (store_le 3 ∅ 0x100 0x636261) 0x200 0x100) 0x208 2) 0x210 0x102) 0x218 1.
Definition keep (c : Z) (d : list Z) : exec (Z * list Z) := Ret (c, d ++ [c]).
Definition some_files (o : k_file_ops (list Z)) : files (list Z) :=
  mk_files (mk_proc 1 1 0 None (Some 0 :: Some 1 :: replicate 62 None)) {[1 := mk_desc 0 (Some o)]} iov_mem
    (mk_console 0 8 []).

Lemma k_sys_writev_stdout_witness :
  @k_sys_writev rv64 qemu_virt _ (some_files (file_stdio_ops null_getchar keep)) 1 0x200 2 =
    Ret (3, set_con (some_files (file_stdio_ops null_getchar keep)) (mk_console 0 8 [0x61; 0x62; 0x63])).
Proof.
  rewrite (@k_sys_writev_stdout rv64 qemu_virt _ keep null_getchar
    (some_files (file_stdio_ops null_getchar keep)) 1 1 (mk_desc 0 (Some (file_stdio_ops null_getchar keep))) 0x200 2 [0x61; 0x62; 0x63]
    eq_refl eq_refl eq_refl eq_refl eq_refl ltac:(done) eq_refl); [reflexivity| |by vm_compute|by vm_compute].
  change (Forall iov_ok [(0x100, 2); (0x102, 1)]).
  apply Forall_cons_2; [right; simpl; lia|]. apply Forall_cons_2; [right; simpl; lia|]. by apply Forall_nil_2.
Defined.

(** One byte at a time for the first buffer, and an error for the second. *)
Definition failing_write (m : mem) (c : console (list Z)) (buf count : Z) : exec (Z * console (list Z)) :=
  if buf =? 0x100 then Ret (1, mk_console 0 8 [0x61]) else Ret (- EIO, c).

Lemma k_sys_writev_partial_witness :
  ∃ f', @k_sys_writev rv64 qemu_virt _ (some_files (mk_ops None (Some failing_write) None false None)) 1 0x200 2 =
    Ret (- EIO, f').
Proof.
  eexists. eapply (@k_sys_writev_partial rv64 qemu_virt _ (some_files (mk_ops None (Some failing_write) None false None))
    1 1 (mk_desc 0 (Some (mk_ops None (Some failing_write) None false None)))
    (mk_ops None (Some failing_write) None false None) failing_write 0x100 2 0x102 1 1 (- EIO)
    (mk_console 0 8 [0x61]) (mk_console 0 8 [0x61]) 0x200); try reflexivity; try done; by vm_compute.
Defined.
