(* ===== verification/Timer.v ===== *)
(** * System timers (driver/timer/timer.c, driver/timer/sifive/clint_timer.c,
      driver/timer/nsitexe/icu_timer.c)

    Both drivers read a counter of 64 bits, which a machine of 32 bits reads in halves.
    The functions that probe the devices are in SysDev.v. *)

From S2P Require Import Prelude Config Clock Device.

(** Registers of [clint0_timer] and of [icu_timer]. *)
Definition CLINT_REG_MTIMECMP (hart : Z) : Z := 0x0000 + hart * 8.
Definition CLINT_REG_MTIMECMPL (hart : Z) : Z := 0x0000 + hart * 8.
Definition CLINT_REG_MTIMECMPH (hart : Z) : Z := 0x0004 + hart * 8.
Definition CLINT_REG_MTIME : Z := 0x7ff8.
Definition CLINT_REG_MTIMEL : Z := 0x7ff8.
Definition CLINT_REG_MTIMEH : Z := 0x7ffc.
Definition ICU_REG_MTIME : Z := 0x0108.
Definition ICU_REG_MTIMEL : Z := 0x0108.
Definition ICU_REG_MTIMEH : Z := 0x010c.

Section Timer.
Context `{Arch} {W : Type} `{Mmio W}.

(** The driver's access functions, the mapped device, and [freq_in] of the private data. *)
Variable ops : option (k_device_driver_ops W).
Variable dev : k_device.
Variable freq_in : Z.

Definition timer_get_freq (index : Z) (w : W) : exec (Z * option Z * W) :=
  if freq_in =? 0 then Ret (- EINVAL, None, w) else Ret (0, Some freq_in, w).

(** The loop of a 32-bit machine: the upper half before and after the lower one. *)
Fixpoint get_raw_loop (fuel : nat) (regh regl : Z) (w : W) : exec (Z * W) :=
  match fuel with
  | O => Hang
  | S fuel =>
    let '(vh1, w) := k_device_read32 ops dev regh w in
    let '(vl, w) := k_device_read32 ops dev regl w in
    let '(vh2, w) := k_device_read32 ops dev regh w in
    if negb (vh1 =? vh2) then get_raw_loop fuel regh regl w
    else Ret (Z.lor (u64 (Z.shiftl vh1 32)) vl, w)
  end.

Definition get_raw_at (fuel : nat) (reg regl regh index : Z) (w : W) : exec (Z * option Z * W) :=
  if xlen =? 64 then
    let '(v, w) := k_device_read64 ops dev reg w in Ret (0, Some v, w)
  else '(v, w) ← get_raw_loop fuel regh regl w; Ret (0, Some v, w).

Definition timer_clint_get_raw (fuel : nat) := get_raw_at fuel CLINT_REG_MTIME CLINT_REG_MTIMEL CLINT_REG_MTIMEH.
Definition timer_icu_get_raw (fuel : nat) := get_raw_at fuel ICU_REG_MTIME ICU_REG_MTIMEL ICU_REG_MTIMEH.

Definition timer_clint_get_timecmp (index : Z) (w : W) : Z * W :=
  if xlen =? 64 then k_device_read64 ops dev (CLINT_REG_MTIMECMP index) w else
  let '(vh, w) := k_device_read32 ops dev (CLINT_REG_MTIMECMPH index) w in
  let '(vl, w) := k_device_read32 ops dev (CLINT_REG_MTIMECMPL index) w in
  (Z.lor (u64 (Z.shiftl vh 32)) vl, w).

(** The writes of [timer_clint_set_timecmp], in their order. *)
Definition timecmp_writes (index count : Z) : list (W → W) :=
  if xlen =? 64 then [k_device_write64 ops dev count (CLINT_REG_MTIMECMP index)] else
  [k_device_write32 ops dev (Z.shiftr count 32) (CLINT_REG_MTIMECMPH index);
   k_device_write32 ops dev count (CLINT_REG_MTIMECMPL index)].
Definition timer_clint_set_timecmp (index count : Z) (w : W) : W :=
  foldl (fun w f => f w) w (timecmp_writes index count).

Definition timer_clint_get_trigger (index : Z) (w : W) : exec (Z * option timespec64 * W) :=
  '(r, freq, w) ← timer_get_freq index w;
  if truth r then Ret (r, None, w) else
  let '(cnt, w) := timer_clint_get_timecmp index w in
  freq ← of_opt freq;
  '(r, ts) ← k_clock_raw_to_timespec cnt freq true;
  Ret (r, ts, w).

Definition timer_clint_set_trigger (index : Z) (tsp : option timespec64) (w : W) : exec (Z * W) :=
  '(r, freq, w) ← timer_get_freq index w;
  if truth r then Ret (r, w) else
  freq ← of_opt freq;
  let '(r, cnt) := k_clock_timespec_to_raw tsp freq true in
  if truth r then Ret (r, w) else
  cnt ← of_opt cnt;
  Ret (0, timer_clint_set_timecmp index cnt w).

Definition timer_clint_timer_ops (fuel : nat) : k_timer_driver_ops W :=
  mk_timer_ops (Some timer_get_freq) (Some (timer_clint_get_raw fuel))
    (Some timer_clint_get_trigger) (Some timer_clint_set_trigger).
Definition timer_icu_timer_ops (fuel : nat) : k_timer_driver_ops W :=
  mk_timer_ops (Some timer_get_freq) (Some (timer_icu_get_raw fuel)) None None.
End Timer.

(** ** The counter *)

(** What the counter promises: it counts up, each access takes it less than 2^29
    counts on, and an access reads the value it has at some moment of the access. *)
Class Counter (W : Type) `{Mmio W} (reg : Z) := {
  mtime : W → Z;
  mtime_range w : 0 <= mtime w < 2 ^ 64;
  mtime_steps width a w : mtime w <= mtime (io_read width a w).2 < mtime w + 2 ^ 29;
  mtime_read64 w : mtime w <= (io_read 64 reg w).1 <= mtime (io_read 64 reg w).2;
  mtime_read_low w : ∃ t, mtime w <= t <= mtime (io_read 32 reg w).2 ∧
    (io_read 32 reg w).1 = t mod 2 ^ 32;
  mtime_read_high w : ∃ t, mtime w <= t <= mtime (io_read 32 (reg + 4) w).2 ∧
    (io_read 32 (reg + 4) w).1 = t / 2 ^ 32
}.

Section CounterProofs.
Context `{Arch} {W : Type} `{Mmio W}.
Variable ops : option (k_device_driver_ops W).
Variable dev : k_device.
Variable off : Z.
Hypothesis Hvirt : dev_virt dev ≠ 0.
Context `{C : !Counter W (usize (dev_virt dev + off))}.
Hypothesis Hoff : usize (dev_virt dev + (off + 4)) = usize (dev_virt dev + off) + 4.

Lemma read_high w : ∃ t w', k_device_read32 ops dev (off + 4) w = (t / 2 ^ 32, w') ∧
  mtime w <= t <= mtime w' ∧ mtime w' < mtime w + 2 ^ 29.
Proof.
  unfold k_device_read32, dev_read. rewrite (proj2 (truth_true _)) by done. unfold k_io_read32. rewrite Hoff.
  pose proof (mtime_read_high w) as (t & Ht & E).
  pose proof (mtime_steps 32 (usize (dev_virt dev + off) + 4) w) as Hs.
  pose proof (mtime_range (io_read 32 (usize (dev_virt dev + off) + 4) w).2). pose proof (mtime_range w).
  destruct (io_read 32 _ w) as [v w']. simpl in *. exists t, w'. split; [|lia].
  subst v. rewrite uwrap_small; [done|]. split; [apply Z.div_pos; lia|]. apply Z.div_lt_upper_bound; lia.
Qed.

Lemma read_low w : ∃ t w', k_device_read32 ops dev off w = (t mod 2 ^ 32, w') ∧
  mtime w <= t <= mtime w' ∧ mtime w' < mtime w + 2 ^ 29.
Proof.
  unfold k_device_read32, dev_read. rewrite (proj2 (truth_true _)) by done. unfold k_io_read32.
  pose proof (mtime_read_low w) as (t & Ht & E).
  pose proof (mtime_steps 32 (usize (dev_virt dev + off)) w) as Hs.
  destruct (io_read 32 _ w) as [v w']. simpl in *. exists t, w'. split; [|lia].
  subst v. unfold uwrap. by rewrite Zmod_mod.
Qed.

Lemma halves t : 0 <= t < 2 ^ 64 → Z.lor (u64 (Z.shiftl (t / 2 ^ 32) 32)) (t mod 2 ^ 32) = t.
Proof.
  intros Ht. assert (u64 (Z.shiftl (t / 2 ^ 32) 32) = Z.shiftl (t / 2 ^ 32) 32) as ->.
  { rewrite Z.shiftl_mul_pow2 by lia. apply uwrap_small. dlia. }
  apply Z.bits_inj'. intros n Hn. rewrite Z.lor_spec, Z.shiftl_spec by lia.
  destruct (decide (n < 32)).
  - rewrite Z.testbit_neg_r, Z.mod_pow2_bits_low by lia. done.
  - rewrite Z.div_pow2_bits, Z.mod_pow2_bits_high by lia. rewrite orb_false_r. f_equal. lia.
Qed.

(** One iteration: three reads, and their result when the upper halves are equal. *)
Lemma get_raw_iter fuel w : ∃ t1 t2 t3 w',
  get_raw_loop ops dev (S fuel) (off + 4) off w =
    (if t1 / 2 ^ 32 =? t3 / 2 ^ 32 then Ret (t2, w') else get_raw_loop ops dev fuel (off + 4) off w') ∧
  mtime w <= t1 ∧ t1 <= t2 ∧ t2 <= t3 ∧ t3 <= mtime w' ∧ mtime w' < mtime w + 3 * 2 ^ 29.
Proof.
  destruct (read_high w) as (t1 & w1 & E1 & H1 & G1). destruct (read_low w1) as (t2 & w2 & E2 & H2 & G2).
  destruct (read_high w2) as (t3 & w3 & E3 & H3 & G3). exists t1, t2, t3, w3.
  split; [|lia]. cbn [get_raw_loop]. rewrite E1, E2, E3.
  destruct (t1 / 2 ^ 32 =? t3 / 2 ^ 32) eqn:E; bsplit; cbn [negb]; [|done].
  pose proof (mtime_range w3). pose proof (mtime_range w).
  assert (t1 / 2 ^ 32 = t2 / 2 ^ 32) as ->; [|by rewrite halves by lia].
  assert (t1 / 2 ^ 32 <= t2 / 2 ^ 32) by (apply Z.div_le_mono; lia).
  assert (t2 / 2 ^ 32 <= t3 / 2 ^ 32) by (apply Z.div_le_mono; lia). lia.
Qed.

(** The lower half crosses zero at most once in two iterations, so two are enough. *)
Lemma get_raw_loop_ok fuel w : ∃ t w', get_raw_loop ops dev (S (S fuel)) (off + 4) off w = Ret (t, w') ∧
  mtime w <= t <= mtime w' ∧ mtime w' < mtime w + 2 ^ 32.
Proof.
  destruct (get_raw_iter (S fuel) w) as (t1 & t2 & t3 & w' & -> & Ht).
  destruct (t1 / 2 ^ 32 =? t3 / 2 ^ 32) eqn:E; bsplit; [exists t2, w'; split; [done|lia]|].
  destruct (get_raw_iter fuel w') as (u1 & u2 & u3 & w'' & -> & Hu).
  assert (u1 / 2 ^ 32 = u3 / 2 ^ 32) as Eu; [|rewrite Eu, Z.eqb_refl; exists u2, w''; split; [done|lia]].
  assert (t1 / 2 ^ 32 < t3 / 2 ^ 32) by (pose proof (Z.div_le_mono t1 t3 (2 ^ 32)); lia).
  set (b := t3 / 2 ^ 32) in *.
  assert (b * 2 ^ 32 <= t3) by (pose proof (Z.mul_div_le t3 (2 ^ 32)); lia).
  assert (t1 < b * 2 ^ 32) by (pose proof (Z.mul_succ_div_gt t1 (2 ^ 32)); lia).
  assert (∀ u, b * 2 ^ 32 <= u < (b + 1) * 2 ^ 32 → u / 2 ^ 32 = b) as Hb.
  { intros u ?. symmetry. apply (Z.div_unique _ _ _ (u - b * 2 ^ 32)); lia. }
  rewrite !Hb by lia. done.
Qed.

Lemma read_whole w : ∃ t w', k_device_read64 ops dev off w = (t, w') ∧ mtime w <= t <= mtime w'.
Proof.
  unfold k_device_read64, dev_read. rewrite (proj2 (truth_true _)) by done. unfold k_io_read64.
  pose proof (mtime_read64 w) as Ht. pose proof (mtime_range w).
  pose proof (mtime_range (io_read 64 (usize (dev_virt dev + off)) w).2).
  destruct (io_read 64 _ w) as [v w']. simpl in *. exists (u64 v), w'. rewrite uwrap_small by lia. done.
Qed.
End CounterProofs.

(** C35: reading the counter. On a machine of 64 or of 32 bits, with a counter that keeps
    counting between the reads, [get_raw] of both drivers returns, after at most two
    rounds of its loop, a value that the counter really had during the call: it never
    combines halves from before and after a carry. *)
Theorem timer_get_raw_untorn `{Arch} {W} `{Mmio W} (ops : option (k_device_driver_ops W)) dev
    `{Cc : !Counter W (usize (dev_virt dev + CLINT_REG_MTIME))}
    `{Ci : !Counter W (usize (dev_virt dev + ICU_REG_MTIME))} fuel index w
    (Hv : 0 < dev_virt dev < 2 ^ 31) (Hf : (2 <= fuel)%nat) :
  (∃ t w', timer_clint_get_raw ops dev fuel index w = Ret (0, Some t, w') ∧
     mtime (reg := usize (dev_virt dev + CLINT_REG_MTIME)) w <= t <=
       mtime (reg := usize (dev_virt dev + CLINT_REG_MTIME)) w') ∧
  (∃ t w', timer_icu_get_raw ops dev fuel index w = Ret (0, Some t, w') ∧
     mtime (reg := usize (dev_virt dev + ICU_REG_MTIME)) w <= t <=
       mtime (reg := usize (dev_virt dev + ICU_REG_MTIME)) w').
Proof.
  assert (∀ z, 0 <= z < 2 ^ 32 → usize z = z) as Hu.
  { intros z Hz. apply uwrap_small. pose proof xlen_ge. assert (2 ^ 32 <= 2 ^ xlen) by (apply Z.pow_le_mono_r; lia). lia. }
  destruct fuel as [|[|fuel]]; [lia|lia|]. unfold timer_clint_get_raw, timer_icu_get_raw, get_raw_at.
  unfold CLINT_REG_MTIME, ICU_REG_MTIME in *. destruct (xlen =? 64).
  - destruct (read_whole ops dev 0x7ff8 ltac:(lia) w) as (t & w' & -> & ?).
    destruct (read_whole ops dev 0x108 ltac:(lia) w) as (u & u' & -> & ?). eauto 10.
  - destruct (get_raw_loop_ok ops dev 0x7ff8 ltac:(lia) ltac:(rewrite !Hu by lia; lia) fuel w) as (t & w' & E1 & ? & _).
    destruct (get_raw_loop_ok ops dev 0x108 ltac:(lia) ltac:(rewrite !Hu by lia; lia) fuel w) as (u & u' & E2 & ? & _).
    unfold CLINT_REG_MTIMEL, CLINT_REG_MTIMEH, ICU_REG_MTIMEL, ICU_REG_MTIMEH.
    change (0x7ff8 + 4) with 0x7ffc in E1. change (0x108 + 4) with 0x10c in E2. rewrite E1, E2. mstep. eauto 10.
Qed.

(** A counter that each access takes one count on, until its last value. *)
Definition now (w : Z) : Z := Z.max 0 (Z.min w (2 ^ 64 - 1)).
#[export] Instance ticking : Mmio Z := {|
  io_read width a w :=
    (if width =? 64 then now w
     else if (a =? 0x2007ffc) || (a =? 0x200010c) then now w / 2 ^ 32 else now w mod 2 ^ 32, w + 1);
  io_write width v a w := w + 1
|}.
Ltac ticking_laws :=
  intros; cbn; lazymatch goal with
  | w : Z |- ∃ _, _ => exists (now w); split; [unfold now; lia|reflexivity]
  | _ => unfold now; lia
  end.
#[export] Instance ticking_clint : Counter Z 0x2007ff8.
Proof. refine (Build_Counter _ _ _ now _ _ _ _ _); ticking_laws. Defined.
#[export] Instance ticking_icu : Counter Z 0x2000108.
Proof. refine (Build_Counter _ _ _ now _ _ _ _ _); ticking_laws. Defined.

Definition timer_dev : k_device := mk_device (Some "timer"%string) "sifive" "clint0_timer" None None None None None
  0x2000000 0x10000 0x2000000 true false.

(** A read on a machine of 32 bits that meets the carry between its first two accesses. *)
Lemma timer_get_raw_untorn_witness :
  ∃ t w', @timer_clint_get_raw rv32 Z ticking None timer_dev 2 0 (2 ^ 32 - 1) = Ret (0, Some t, w') ∧
    2 ^ 32 - 1 <= t.
Proof.
  destruct (@timer_get_raw_untorn rv32 Z ticking None timer_dev ticking_clint ticking_icu 2 0 (2 ^ 32 - 1)
    ltac:(vm_compute; split; congruence) ltac:(lia)) as [(t & w' & E & Ht) _].
  exists t, w'. split; [exact E|]. destruct Ht as [Ht _]. vm_compute in Ht |- *. exact Ht.
Defined.
