(* ===== verification/Syscall.v ===== *)
(** * Remaining system calls (sys/syscall.c, sys/fini.c)

    Identity, limits, time, random numbers and reboot.  The clock calls are over the
    operations of the system timer, as in Clock.v; a structure of the caller is read
    and written in memory, with the fields in little-endian order. *)

From S2P Require Import Prelude Config CString Clock.

Definition CLOCK_REALTIME : Z := 0.
Definition CLOCK_MONOTONIC : Z := 1.
Definition RLIMIT_STACK : Z := 3.
Definition REBOOT_MAGIC1 : Z := 0xfee1dead.
Definition REBOOT_MAGIC2 : Z := 672274793.
Definition RB_AUTOBOOT : Z := 0x01234567.
Definition RB_POWER_OFF : Z := 0x4321fedc.

Section Identity.
Context `{Arch} `{Config}.

Definition k_sys_unknown : Z := - ENOTSUP.
Definition k_sys_getuid : Z := 0.
Definition k_sys_geteuid : Z := 0.
Definition k_sys_getgid : Z := 0.
Definition k_sys_getegid : Z := 0.

(** [uname] is the address of the constant of six strings of 65 bytes. *)
Definition k_sys_uname (m : mem) (uname name : Z) : exec (Z * mem) :=
  '(m, _) ← k_memcpy m name uname (6 * 65);
  Ret (0, m).

(** [old.rlim_max = ~0] sign-extends. *)
Definition k_sys_prlimit64 (m : mem) (resource new_lim old_lim : Z) : Z * mem :=
  if truth new_lim then (- EPERM, m) else
  if negb (resource =? RLIMIT_STACK) then (- EINVAL, m) else
  if truth old_lim then
    (0, store_le 8 (store_le 8 m old_lim CONFIG_MAIN_STACK_SIZE) (old_lim + 8) (u64 (-1)))
  else (0, m).

Fixpoint random_loop (n : nat) (m : mem) (p i : Z) : mem :=
  match n with
  | O => m
  | S n => random_loop n (store8 m (p + i) i) p (i + 1)
  end.
Definition k_sys_getrandom (m : mem) (buf buflen : Z) : Z * mem :=
  if negb (truth buf) || (buflen =? 0) then (- EINVAL, m) else
  (0, random_loop (Z.to_nat buflen) m buf 0).
End Identity.

(** ** Time *)

Section Time.
Context `{Arch} {W : Type}.
Variable timer : option (option (k_timer_driver_ops W)).
Variable cur_id : Z.
Implicit Types (off : timespec64) (m : mem) (w : W).

(** A [struct timespec64] is two integers of 64 bits, a [struct timespec32] two of 32 bits,
    [struct timeval] one of 64 bits and a [long]. *)
Definition load_ts64 m (tp : Z) : timespec64 := mk_timespec64 (i64 (load_le 8 m tp)) (i64 (load_le 8 m (tp + 8))).
Definition store_ts64 m (tp : Z) (t : timespec64) : mem :=
  store_le 8 (store_le 8 m tp (u64 (tv_sec t))) (tp + 8) (u64 (tv_nsec t)).
Definition load_ts32 m (tp : Z) : timespec64 := mk_timespec64 (i32 (load_le 4 m tp)) (i32 (load_le 4 m (tp + 4))).
Definition store_ts32 m (tp : Z) (t : timespec64) : mem :=
  store_le 4 (store_le 4 m tp (u32 (tv_sec t))) (tp + 4) (u32 (tv_nsec t)).

(** [k_sys_clock_gettime64] on a pointer that is null or not, with what it writes. *)
Definition clock_gettime (off : timespec64) (clock_id : Z) (tp : bool) (w : W) :
    exec (Z * option timespec64 * W) :=
  if negb tp then Ret (- EFAULT, None, w) else
  if clock_id =? CLOCK_REALTIME then k_clock_get_realtime timer cur_id off true w else
  if clock_id =? CLOCK_MONOTONIC then k_clock_get_monotonic timer cur_id true w else
  Ret (- EINVAL, None, w).

Definition clock_settime (off : timespec64) (clock_id : Z) (tp : option timespec64) (w : W) :
    exec (Z * timespec64 * W) :=
  match tp with
  | None => Ret (- EFAULT, off, w)
  | Some t =>
    if clock_id =? CLOCK_REALTIME then k_clock_set_realtime timer cur_id off (Some t) w
    else Ret (- EINVAL, off, w)
  end.

Definition k_sys_clock_gettime64 off m (clock_id tp : Z) w : exec (Z * mem * W) :=
  '(r, t, w) ← clock_gettime off clock_id (truth tp) w;
  Ret (r, match t with Some t => store_ts64 m tp t | None => m end, w).

(** Without a result the caller's structure is written back as it was read. *)
Definition k_sys_clock_gettime32 off m (clock_id tp : Z) w : exec (Z * mem * W) :=
  let tmp := load_ts32 m tp in
  '(r, t, w) ← clock_gettime off clock_id (truth tp) w;
  Ret (r, if truth tp then store_ts32 m tp (default tmp t) else m, w).

Definition k_sys_clock_settime64 off m (clock_id tp : Z) w : exec (Z * timespec64 * W) :=
  clock_settime off clock_id (if truth tp then Some (load_ts64 m tp) else None) w.
Definition k_sys_clock_settime32 off m (clock_id tp : Z) w : exec (Z * timespec64 * W) :=
  clock_settime off clock_id (if truth tp then Some (load_ts32 m tp) else None) w.

Definition k_sys_gettimeofday off m (tp : Z) w : exec (Z * mem * W) :=
  if negb (truth tp) then Ret (- EFAULT, m, w) else
  '(r, t, w) ← k_clock_get_realtime timer cur_id off true w;
  if truth r then Ret (r, m, w) else
  t ← of_opt t;
  let n := Z.to_nat (xlen / 8) in
  let m := store_le 8 m tp (u64 (tv_sec t)) in
  Ret (0, store_le n m (tp + 8) (usize (Z.quot (tv_nsec t) 1000)), w).

Definition k_sys_settimeofday off m (tp : Z) w : exec (Z * timespec64 * W) :=
  if negb (truth tp) then Ret (- EFAULT, off, w) else
  let n := Z.to_nat (xlen / 8) in
  let sec := i64 (load_le 8 m tp) in
  let nsec := isize (isize (load_le n m (tp + 8)) * 1000) in
  '(r, off, w) ← k_clock_set_realtime timer cur_id off (Some (mk_timespec64 sec nsec)) w;
  Ret (r, off, w).
End Time.

(** ** Reset *)

Section Reset.
Context {W : Type}.

(** The system reset and its driver's operations: the device may be missing, or without
    a driver; the operations of a driver are used without a test. *)
Variable rst : option (option (option (W → exec (Z * W)) * option (W → exec (Z * W)))).

Definition k_fini_reboot (w : W) : exec (Z * W) :=
  match rst with
  | None => Ret (- ENOTSUP, w)
  | Some (Some (Some reboot, _)) => reboot w
  | Some _ => Ret (0, w)
  end.
Definition k_fini_power_off (w : W) : exec (Z * W) :=
  match rst with
  | None => Ret (- ENOTSUP, w)
  | Some (Some (_, Some power_off)) => power_off w
  | Some _ => Ret (0, w)
  end.

(** The result of the driver is not looked at. *)
Definition k_sys_reboot (magic1 magic2 cmd : Z) (w : W) : exec (Z * W) :=
  if negb (u32 magic1 =? REBOOT_MAGIC1) || negb (magic2 =? REBOOT_MAGIC2) then Ret (- EINVAL, w) else
  if cmd =? RB_AUTOBOOT then '(_, w) ← k_fini_reboot w; Ret (0, w) else
  if cmd =? RB_POWER_OFF then '(_, w) ← k_fini_power_off w; Ret (0, w) else
  Ret (- EINVAL, w).
End Reset.
