(* ===== verification/Prci.v ===== *)
(** * Clock generator of the FU540 (driver/clk/sifive/prci.c)

    The search for the dividers of a PLL, the registers it writes, and the functions
    that switch and report the clocks.  The probe of the device is in Clk.v. *)

From S2P Require Import Prelude Config Device.

Definition PRCI_COREPLLCFG0 : Z := 0x04.
Definition PRCI_DDRPLLCFG0 : Z := 0x0c.
Definition PRCI_DDRPLLCFG1 : Z := 0x10.
Definition PRCI_GEMGXLPLLCFG0 : Z := 0x1c.
Definition PRCI_GEMGXLPLLCFG1 : Z := 0x20.
Definition PRCI_CORECLKSEL : Z := 0x24.
Definition PRCI_PLLCFG_DIVR_SHIFT : Z := 0.
Definition PRCI_PLLCFG_DIVF_SHIFT : Z := 6.
Definition PRCI_PLLCFG_DIVQ_SHIFT : Z := 15.
Definition PRCI_PLLCFG_RANGE_SHIFT : Z := 18.
Definition PRCI_PLLCFG_FSE : Z := BIT 25.
Definition PRCI_PLLCFG_LOCK : Z := BIT 31.
Definition PRCI_PLLCFG_DIVR_MAX : Z := 64.
Definition PRCI_PLLCFG_DIVF_MAX : Z := 512.
Definition PRCI_PLLCFG_DIVQ_MAX : Z := 7.
Definition PRCI_PLLCFG1_CKE : Z := BIT 24.
Definition PRCI_CLKSEL_BYPASS : Z := BIT 0.
Definition MHZ : Z := 1000000.
Definition PRCI_REF_MIN : Z := 7 * MHZ.
Definition PRCI_REF_RANGE1 : Z := 11 * MHZ.
Definition PRCI_REF_RANGE2 : Z := 18 * MHZ.
Definition PRCI_REF_RANGE3 : Z := 30 * MHZ.
Definition PRCI_REF_RANGE4 : Z := 50 * MHZ.
Definition PRCI_REF_RANGE5 : Z := 80 * MHZ.
Definition PRCI_REF_RANGE6 : Z := 130 * MHZ.
Definition PRCI_REF_RANGE7 : Z := 200 * MHZ.
Definition PRCI_REF_MAX : Z := PRCI_REF_RANGE7.
Definition PRCI_VCO_MIN : Z := 2400 * MHZ.
Definition PRCI_VCO_MAX : Z := 4800 * MHZ.
Definition PRCI_INDEX_DDRCTRLCLK : Z := 0.
Definition PRCI_INDEX_TLCLK : Z := 1.
Definition PRCI_INDEX_CORECLK : Z := 2.
Definition PRCI_INDEX_GEMGXLCLK : Z := 3.

(** [NABS] *)
Definition NABS (a : Z) : Z := if a >? 0 then a else - a.

Record clk_prci_pllcfg := mk_pllcfg {
  target : Z;
  divr : Z;
  post_divr : Z;
  divf : Z;
  post_divf : Z;
  result : Z;
  divr_found : Z;
  post_divr_found : Z;
  divf_found : Z;
  divq_found : Z;
  range : Z;
  found : bool
}.

Record clk_prci_priv := mk_prci {
  freq_in : Z;
  freq_ddrctrl : Z;
  freq_core : Z;
  freq_gemgxl : Z
}.

(** [pllcfg_offs] and [clksel_offs] *)
Definition pllcfg_offs : list (Z * Z) :=
  [(PRCI_DDRPLLCFG0, PRCI_DDRPLLCFG1); (-1, -1); (PRCI_COREPLLCFG0, -1); (PRCI_GEMGXLPLLCFG0, PRCI_GEMGXLPLLCFG1)].
Definition clksel_offs : list Z := [-1; -1; PRCI_CORECLKSEL; -1].

Definition clk_prci_filter_range (post_divr : Z) : Z * option Z :=
  let within a b := (a <=? post_divr) && (post_divr <=? b - 1) in
  if within PRCI_REF_MIN PRCI_REF_RANGE1 then (0, Some 1) else
  if within PRCI_REF_RANGE1 PRCI_REF_RANGE2 then (0, Some 2) else
  if within PRCI_REF_RANGE2 PRCI_REF_RANGE3 then (0, Some 3) else
  if within PRCI_REF_RANGE3 PRCI_REF_RANGE4 then (0, Some 4) else
  if within PRCI_REF_RANGE4 PRCI_REF_RANGE5 then (0, Some 5) else
  if within PRCI_REF_RANGE5 PRCI_REF_RANGE6 then (0, Some 6) else
  if within PRCI_REF_RANGE6 PRCI_REF_RANGE7 then (0, Some 7) else
  (- ERANGE, None).

(** The body of the loop of [clk_prci_find_divq]. *)
Definition divq_step (c : clk_prci_pllcfg) (i : Z) : clk_prci_pllcfg :=
  let post_divq := Z.shiftr (post_divf c) i in
  let diff := i64 (u64 (target c - post_divq)) in
  let diff_found := i64 (u64 (target c - result c)) in
  if NABS diff >=? NABS diff_found then c else
  mk_pllcfg (target c) (divr c) (post_divr c) (divf c) (post_divf c)
    post_divq (divr c) (post_divr c) (divf c) i (range c) true.
Definition clk_prci_find_divq (c : clk_prci_pllcfg) : Z * clk_prci_pllcfg :=
  let c := foldl divq_step c (seqZ 0 PRCI_PLLCFG_DIVQ_MAX) in
  (if found c then 0 else - EINVAL, c).

Definition set_divf (c : clk_prci_pllcfg) (i post : Z) : clk_prci_pllcfg :=
  mk_pllcfg (target c) (divr c) (post_divr c) i post (result c) (divr_found c) (post_divr_found c)
    (divf_found c) (divq_found c) (range c) (found c).
Definition divf_step (c : clk_prci_pllcfg) (i : Z) : clk_prci_pllcfg :=
  let post := u64 (post_divr c * 2 * (i + 1)) in
  if (post <? PRCI_VCO_MIN) || (PRCI_VCO_MAX <=? post) then c else
  (clk_prci_find_divq (set_divf c i post)).2.
Definition clk_prci_find_divf (c : clk_prci_pllcfg) : Z * clk_prci_pllcfg :=
  let c := foldl divf_step c (seqZ 0 PRCI_PLLCFG_DIVF_MAX) in
  (if found c then 0 else - EINVAL, c).

Definition set_divr (c : clk_prci_pllcfg) (i post : Z) : clk_prci_pllcfg :=
  mk_pllcfg (target c) i post (divf c) (post_divf c) (result c) (divr_found c) (post_divr_found c)
    (divf_found c) (divq_found c) (range c) (found c).
Definition divr_step (fin : Z) (c : clk_prci_pllcfg) (i : Z) : clk_prci_pllcfg :=
  let post := fin / (i + 1) in
  if (post <? PRCI_REF_MIN) || (PRCI_REF_MAX <=? post) then c else
  (clk_prci_find_divf (set_divr c i post)).2.

Definition set_result (c : clk_prci_pllcfg) (res : Z) (rng : Z) (f : bool) : clk_prci_pllcfg :=
  mk_pllcfg (target c) (divr c) (post_divr c) (divf c) (post_divf c) res (divr_found c) (post_divr_found c)
    (divf_found c) (divq_found c) rng f.
Definition clk_prci_find_divr (p : clk_prci_priv) (c : clk_prci_pllcfg) : Z * clk_prci_pllcfg :=
  let c := set_result c 0 (range c) false in
  let c := foldl (divr_step (freq_in p)) c (seqZ 0 PRCI_PLLCFG_DIVR_MAX) in
  if found c then
    match clk_prci_filter_range (post_divr_found c) with
    | (0, Some r) => (0, set_result c (result c) r (found c))
    | _ => (- EINVAL, c)
    end
  else (- EINVAL, c).

Section Registers.
Context `{Arch} {W : Type} `{Mmio W}.
Variable ops : option (k_device_driver_ops W).
Variable dev : k_device.

Definition pllcfg_zero (t : Z) : clk_prci_pllcfg := mk_pllcfg t 0 0 0 0 0 0 0 0 0 0 false.

(** The value for the configuration register of a PLL. *)
Definition pllcfg_word (c : clk_prci_pllcfg) : Z :=
  u32 (Z.lor (Z.lor (Z.lor (Z.lor (Z.shiftl (divr_found c) PRCI_PLLCFG_DIVR_SHIFT)
    (Z.shiftl (divf_found c) PRCI_PLLCFG_DIVF_SHIFT)) (Z.shiftl (divq_found c) PRCI_PLLCFG_DIVQ_SHIFT))
    (Z.shiftl (range c) PRCI_PLLCFG_RANGE_SHIFT)) PRCI_PLLCFG_FSE).

(** Waiting for the lock bit. *)
Fixpoint wait_lock (fuel : nat) (off : Z) (w : W) : exec W :=
  let '(v, w) := k_device_read32 ops dev off w in
  if Z.land v PRCI_PLLCFG_LOCK =? 0 then
    match fuel with
    | O => Hang
    | S fuel => wait_lock fuel off w
    end
  else Ret w.

Definition clk_prci_update_pllcfg (fuel : nat) (p : clk_prci_priv) (t off : Z) (w : W) :
    exec (Z * option Z * W) :=
  let '(r, c) := clk_prci_find_divr p (pllcfg_zero t) in
  if truth r then Ret (r, None, w) else
  let w := k_device_write32 ops dev (pllcfg_word c) off w in
  w ← wait_lock fuel off w;
  Ret (0, Some (result c), w).

Definition clk_prci_update_cke (enable : bool) (off : Z) (w : W) : Z * W :=
  let '(v, w) := k_device_read32 ops dev off w in
  let v := if enable then Z.lor v PRCI_PLLCFG1_CKE else clear v PRCI_PLLCFG1_CKE in
  (0, k_device_write32 ops dev v off w).
Definition clk_prci_update_clksel (bypass : bool) (off : Z) (w : W) : Z * W :=
  let '(v, w) := k_device_read32 ops dev off w in
  let v := if bypass then Z.lor v PRCI_CLKSEL_BYPASS else clear v PRCI_CLKSEL_BYPASS in
  (0, k_device_write32 ops dev v off w).

Definition clk_prci_enable (index : Z) (w : W) : exec (Z * W) :=
  let index := if index =? PRCI_INDEX_TLCLK then PRCI_INDEX_CORECLK else index in
  '(_, off) ← of_opt (zget pllcfg_offs index);
  let w := if negb (off =? -1) then (clk_prci_update_cke true off w).2 else w in
  off ← of_opt (zget clksel_offs index);
  Ret (0, if negb (off =? -1) then (clk_prci_update_clksel false off w).2 else w).
Definition clk_prci_disable (index : Z) (w : W) : exec (Z * W) :=
  let index := if index =? PRCI_INDEX_TLCLK then PRCI_INDEX_CORECLK else index in
  off ← of_opt (zget clksel_offs index);
  let w := if negb (off =? -1) then (clk_prci_update_clksel true off w).2 else w in
  '(_, off) ← of_opt (zget pllcfg_offs index);
  Ret (0, if negb (off =? -1) then (clk_prci_update_cke false off w).2 else w).

Definition clk_prci_get_freq (p : clk_prci_priv) (index : Z) : Z * option Z :=
  if index =? PRCI_INDEX_DDRCTRLCLK then (0, Some (freq_ddrctrl p)) else
  if index =? PRCI_INDEX_TLCLK then (0, Some (freq_core p / 2)) else
  if index =? PRCI_INDEX_CORECLK then (0, Some (freq_core p)) else
  if index =? PRCI_INDEX_GEMGXLCLK then (0, Some (freq_gemgxl p)) else
  (- EINVAL, None).

(** The frequency that was found is stored even before the PLL has locked. *)
Definition clk_prci_set_freq (fuel : nat) (p : clk_prci_priv) (index freq : Z) (w : W) :
    exec (Z * clk_prci_priv * W) :=
  if negb ((index =? PRCI_INDEX_DDRCTRLCLK) || (index =? PRCI_INDEX_CORECLK) || (index =? PRCI_INDEX_GEMGXLCLK))
  then Ret (- EINVAL, p, w) else
  '(off, _) ← of_opt (zget pllcfg_offs index);
  '(r, f, w) ← clk_prci_update_pllcfg fuel p freq off w;
  let p := match f with
    | None => p
    | Some f =>
      if index =? PRCI_INDEX_DDRCTRLCLK then mk_prci (freq_in p) f (freq_core p) (freq_gemgxl p)
      else if index =? PRCI_INDEX_CORECLK then mk_prci (freq_in p) (freq_ddrctrl p) f (freq_gemgxl p)
      else mk_prci (freq_in p) (freq_ddrctrl p) (freq_core p) f
    end in
  Ret (r, p, w).
End Registers.

(** ** The search *)

Lemma foldl_seqZ {A} (P : Z → A → Prop) (f : A → Z → A) n s :
  0 <= n → P 0 s → (∀ i s, 0 <= i < n → P i s → P (i + 1) (f s i)) → P n (foldl f s (seqZ 0 n)).
Proof.
  intros Hn H0 Hs. rewrite <- (Z2Nat.id n) in Hs |- * by done. clear Hn.
  induction (Z.to_nat n) as [|m IH]; [done|].
  rewrite Nat2Z.inj_succ, <- Z.add_1_r, seqZ_app, foldl_app by lia. simpl.
  rewrite Z.add_0_l. apply Hs; [lia|]. apply IH. intros i s' Hi. apply Hs. lia.
Qed.

(** The dividers of a PLL, and the frequencies they make. *)
Record setting := mk_setting { s_divr : Z; s_divf : Z; s_divq : Z }.
#[export] Instance setting_eq_dec : EqDecision setting.
Proof. solve_decision. Defined.
Definition ref_freq (fin : Z) (s : setting) : Z := fin / (s_divr s + 1).
Definition vco_freq (fin : Z) (s : setting) : Z := ref_freq fin s * 2 * (s_divf s + 1).
Definition out_freq (fin : Z) (s : setting) : Z := vco_freq fin s / 2 ^ s_divq s.

(** The settings that the hardware allows, as the limits of the driver say. *)
Definition allowed (fin : Z) (s : setting) : Prop :=
  0 <= s_divr s < 64 ∧ 0 <= s_divf s < 512 ∧ 0 <= s_divq s < 7 ∧
  PRCI_REF_MIN <= ref_freq fin s < PRCI_REF_MAX ∧ PRCI_VCO_MIN <= vco_freq fin s < PRCI_VCO_MAX.

(** The settings that were tried before a place of the three loops. *)
Definition seen (i j q : Z) (s : setting) : Prop :=
  s_divr s < i ∨ (s_divr s = i ∧ (s_divf s < j ∨ (s_divf s = j ∧ s_divq s < q))).

Record best (fin t : Z) (S : setting → Prop) (c : clk_prci_pllcfg) : Prop := {
  b_target : target c = t;
  b_range : 0 <= result c < PRCI_VCO_MAX;
  b_best : ∀ s, allowed fin s → S s → Z.abs (t - result c) <= Z.abs (t - out_freq fin s);
  b_none : found c = false → result c = 0;
  b_found : found c = true → Z.abs (t - result c) < t ∧ ∃ s, allowed fin s ∧ result c = out_freq fin s ∧
    divr_found c = s_divr s ∧ post_divr_found c = ref_freq fin s ∧ divf_found c = s_divf s ∧ divq_found c = s_divq s
}.

Lemma best_mono fin t (S S' : setting → Prop) c :
  best fin t S c → (∀ s, allowed fin s → S' s → S s) → best fin t S' c.
Proof. intros [] Hs. split; try done. intros s Ha H'. apply b_best0; [done|by apply Hs]. Qed.

Section Search.
Variables fin t : Z.
Hypothesis Ht : 0 <= t < 2 ^ 63.

Lemma NABS_eq x : - 2 ^ 63 < x < 2 ^ 63 → NABS (i64 (u64 x)) = Z.abs x.
Proof.
  intros Hx. assert (i64 (u64 x) = x) as ->.
  { unfold swrap, uwrap. change (2 ^ (64 - 1)) with (2 ^ 63). rewrite Zplus_mod_idemp_l.
    rewrite Z.mod_small; lia. }
  unfold NABS. rewrite Z.gtb_ltb. destruct (0 <? x) eqn:E; bsplit; lia.
Qed.

(** Trying one more setting. *)
Lemma best_step i j q c : allowed fin (mk_setting i j q) → best fin t (seen i j q) c →
  divr c = i → post_divr c = ref_freq fin (mk_setting i j q) → divf c = j →
  post_divf c = vco_freq fin (mk_setting i j q) → best fin t (seen i j (q + 1)) (divq_step c q).
Proof.
  intros Ha Hb Hi Hpr Hj Hpf. pose proof Ha as (_ & _ & Hq & _ & Hv). simpl in Hq.
  destruct Hb as [Et Hr Hbest Hnone Hfound]. unfold divq_step. rewrite Hpf, Et.
  rewrite Z.shiftr_div_pow2 by lia.
  change (vco_freq fin (mk_setting i j q) / 2 ^ q) with (out_freq fin (mk_setting i j q)).
  set (s := mk_setting i j q) in *. set (f := out_freq fin s).
  assert (0 <= f < PRCI_VCO_MAX) as Hf.
  { unfold f, out_freq. simpl s_divq. unfold PRCI_VCO_MIN, PRCI_VCO_MAX, MHZ in *. split.
    - apply Z.div_pos; [lia|]. apply Z.pow_pos_nonneg; lia.
    - apply Z.le_lt_trans with (vco_freq fin s); [|lia]. apply Z.div_le_upper_bound; [apply Z.pow_pos_nonneg; lia|].
      assert (1 <= 2 ^ q) by (pose proof (Z.pow_pos_nonneg 2 q); lia). nia. }
  assert (∀ u, allowed fin u → seen i j (q + 1) u → seen i j q u ∨ u = s) as Hsplit.
  { intros [a b d] _ Hs. unfold seen in *. simpl in *. destruct (decide (mk_setting a b d = s)) as [->|Hne]; [by right|left].
    unfold s in Hne. destruct (decide (a = i)), (decide (b = j)), (decide (d = q)); subst; try lia; done. }
  unfold PRCI_VCO_MAX, MHZ in *.
  rewrite !NABS_eq by lia. rewrite Z.geb_leb. destruct (_ <=? _) eqn:E; bsplit.
  - split; try done. intros u Hu Hs. destruct (Hsplit u Hu Hs) as [Hs' | ->]; [by apply Hbest|done].
  - split; simpl; try done.
    + intros u Hu Hs. destruct (Hsplit u Hu Hs) as [Hs' | ->]; [|done].
      etransitivity; [|by apply Hbest]. lia.
    + intros _. split.
      * destruct (found c) eqn:Ef; [destruct (Hfound eq_refl); lia|]. rewrite Hnone in E by done. lia.
      * exists s. split; [done|]. split; [done|]. by subst.
Qed.

Lemma best_divq i j c : allowed fin (mk_setting i j 0) → best fin t (seen i j 0) c → divr c = i →
  post_divr c = ref_freq fin (mk_setting i j 0) → divf c = j → post_divf c = vco_freq fin (mk_setting i j 0) →
  best fin t (seen i (j + 1) 0) (clk_prci_find_divq c).2 ∧
  divr (clk_prci_find_divq c).2 = divr c ∧ post_divr (clk_prci_find_divq c).2 = post_divr c.
Proof.
  intros Ha Hb Hi Hpr Hj Hpf. unfold clk_prci_find_divq. cbn [snd].
  pose proof (foldl_seqZ (fun q c' => best fin t (seen i j q) c' ∧ divr c' = divr c ∧ post_divr c' = post_divr c ∧
    divf c' = divf c ∧ post_divf c' = post_divf c) divq_step PRCI_PLLCFG_DIVQ_MAX c) as Hl.
  destruct Hl as (Hb' & ? & ? & _); [done|done| |].
  - intros q c' Hq (Hb' & E1 & E2 & E3 & E4). split.
    + apply best_step; [|done|congruence|by rewrite E2|congruence|by rewrite E4].
      destruct Ha as (? & ? & _ & ? & ?). do 2 (split; [done|]). by split.
    + unfold divq_step. by destruct (_ >=? _).
  - split; [|done]. eapply best_mono; [exact Hb'|]. clear Hb'. intros [a b d] (_ & _ & Hd & _) Hs.
    unfold seen, PRCI_PLLCFG_DIVQ_MAX in *. cbn [s_divr s_divf s_divq] in *. lia.
Qed.

Lemma best_divf i c : 0 <= i < 64 → PRCI_REF_MIN <= fin / (i + 1) < PRCI_REF_MAX →
  best fin t (seen i 0 0) c → divr c = i → post_divr c = fin / (i + 1) →
  best fin t (seen (i + 1) 0 0) (clk_prci_find_divf c).2.
Proof.
  intros Hi Href Hb Hd Hp. unfold clk_prci_find_divf. cbn [snd].
  pose proof (foldl_seqZ (fun j c' => best fin t (seen i j 0) c' ∧ divr c' = i ∧ post_divr c' = fin / (i + 1))
    divf_step PRCI_PLLCFG_DIVF_MAX c) as Hl.
  destruct Hl as (Hb' & _); [done|done| |].
  - intros j c' Hj (Hb' & E1 & E2). unfold divf_step. rewrite E2.
    unfold PRCI_PLLCFG_DIVF_MAX in Hj. unfold PRCI_REF_MIN, PRCI_REF_MAX, PRCI_REF_RANGE7, MHZ in Href.
    rewrite uwrap_small by nia. change (fin / (i + 1) * 2 * (j + 1)) with (vco_freq fin (mk_setting i j 0)).
    set (s := mk_setting i j 0). destruct (_ || _) eqn:E.
    + split; [|by split]. eapply best_mono; [exact Hb'|]. clear Hb' Hb. intros [a b d] (_ & _ & Hd' & _ & Hv) Hs.
      unfold seen in *. cbn [s_divr s_divf s_divq] in *. destruct (decide (a = i)) as [->|], (decide (b = j)) as [->|]; try lia.
      change (vco_freq fin _) with (vco_freq fin s) in Hv. apply orb_true_iff in E as [E|E]; bsplit; lia.
    + bsplit. destruct (best_divq i j (set_divf c' j (vco_freq fin s))) as (Hq & E3 & E4).
      * unfold allowed. simpl. unfold ref_freq, PRCI_REF_MIN, PRCI_REF_MAX, PRCI_REF_RANGE7, MHZ. simpl.
        fold s. lia.
      * destruct Hb'. by split.
      * done.
      * done.
      * done.
      * done.
      * split; [exact Hq|]. by rewrite E3, E4.
  - eapply best_mono; [exact Hb'|]. clear Hb'. intros [a b d] (_ & Hb2 & Hd' & _) Hs.
    unfold seen, PRCI_PLLCFG_DIVF_MAX in *. cbn [s_divr s_divf s_divq] in *. lia.
Qed.

Lemma best_divr c : best fin t (seen 0 0 0) c →
  best fin t (fun _ => True) (foldl (divr_step fin) c (seqZ 0 PRCI_PLLCFG_DIVR_MAX)).
Proof.
  intros Hb. pose proof (foldl_seqZ (fun i c' => best fin t (seen i 0 0) c') (divr_step fin) PRCI_PLLCFG_DIVR_MAX c) as Hl.
  eapply best_mono; [apply Hl; [done|done|]|].
  - intros i c' Hi Hb'. unfold divr_step. unfold PRCI_PLLCFG_DIVR_MAX in Hi. destruct (_ || _) eqn:E.
    + eapply best_mono; [exact Hb'|]. clear Hb' Hb Hl. intros [a b d] (_ & Hb2 & Hd' & Hv & _) Hs.
      unfold seen, ref_freq in *. cbn [s_divr s_divf s_divq] in *. destruct (decide (a = i)) as [->|]; [|lia].
      apply orb_true_iff in E as [E|E]; bsplit; lia.
    + bsplit. apply best_divf; [lia|lia| |done|done]. destruct Hb'. by split.
  - clear Hb Hl. intros [a b d] (Ha & _) _. unfold seen, PRCI_PLLCFG_DIVR_MAX. cbn [s_divr s_divf s_divq] in *. lia.
Qed.
End Search.

Lemma filter_range_ok x : PRCI_REF_MIN <= x < PRCI_REF_MAX →
  ∃ r, clk_prci_filter_range x = (0, Some r) ∧ 1 <= r <= 7.
Proof.
  intros Hx. unfold clk_prci_filter_range.
  unfold PRCI_REF_MAX, PRCI_REF_MIN, PRCI_REF_RANGE1, PRCI_REF_RANGE2, PRCI_REF_RANGE3, PRCI_REF_RANGE4,
    PRCI_REF_RANGE5, PRCI_REF_RANGE6, PRCI_REF_RANGE7, MHZ in *.
  repeat (let E := fresh "E" in case_match eqn:E; [eexists; split; [done|lia]|];
    apply andb_false_iff in E as [E|E]; bsplit; [lia|]).
  lia.
Qed.

(** Fields that do not overlap. *)
Lemma lor_field a b n : 0 <= n → 0 <= a < 2 ^ n → Z.lor a (Z.shiftl b n) = a + b * 2 ^ n.
Proof.
  intros Hn Ha. rewrite <- Z.shiftl_mul_pow2 by lia. rewrite <- Z.lxor_lor, <- Z.add_nocarry_lxor; [done|..].
  all: apply Z.bits_inj'; intros m Hm; rewrite Z.land_spec, Z.shiftl_spec, Z.testbit_0_l by lia;
    destruct (decide (m < n)); [by rewrite (Z.testbit_neg_r b) by lia; rewrite andb_false_r|];
    rewrite <- (Z.mod_small a (2 ^ n)) by lia; by rewrite Z.mod_pow2_bits_high by lia.
Qed.

Lemma pllcfg_word_eq c : 0 <= divr_found c < 64 → 0 <= divf_found c < 512 → 0 <= divq_found c < 8 →
  0 <= range c < 8 →
  pllcfg_word c = divr_found c + divf_found c * 2 ^ 6 + divq_found c * 2 ^ 15 + range c * 2 ^ 18 + 2 ^ 25.
Proof.
  intros. unfold pllcfg_word, PRCI_PLLCFG_DIVR_SHIFT, PRCI_PLLCFG_DIVF_SHIFT, PRCI_PLLCFG_DIVQ_SHIFT,
    PRCI_PLLCFG_RANGE_SHIFT, PRCI_PLLCFG_FSE, BIT. rewrite Z.shiftl_0_r.
  rewrite (lor_field _ _ 6), (lor_field _ _ 15), (lor_field _ _ 18), (lor_field _ _ 25) by lia.
  rewrite uwrap_small by lia. lia.
Qed.

(** C36: the dividers of a PLL. The search returns 0 or [-EINVAL]. When it succeeds, the
    dividers it found are among those that the limits of the driver allow, they make
    the frequency it reports, and no other allowed dividers come closer to the target; the register
    word holds the three dividers, the range of the reference clock and the feedback
    bit in their fields. It fails only if every allowed frequency is at least as far
    from the target as 0 is. *)
Theorem clk_prci_find_divr_best p t (Ht : 0 <= t < 2 ^ 63) :
  let '(r, c) := clk_prci_find_divr p (pllcfg_zero t) in
  (r = 0 ∧ ∃ s rng, allowed (freq_in p) s ∧ result c = out_freq (freq_in p) s ∧
     (∀ u, allowed (freq_in p) u → Z.abs (t - result c) <= Z.abs (t - out_freq (freq_in p) u)) ∧
     clk_prci_filter_range (ref_freq (freq_in p) s) = (0, Some rng) ∧
     pllcfg_word c = s_divr s + s_divf s * 2 ^ 6 + s_divq s * 2 ^ 15 + rng * 2 ^ 18 + 2 ^ 25) ∨
  (r = - EINVAL ∧ ∀ u, allowed (freq_in p) u → t <= Z.abs (t - out_freq (freq_in p) u)).
Proof.
  unfold clk_prci_find_divr.
  pose proof (best_divr (freq_in p) t Ht (set_result (pllcfg_zero t) 0 0 false)) as Hb. unfold pllcfg_zero in *.
  cbn [set_result target divr post_divr divf post_divf result divr_found post_divr_found divf_found divq_found range] in *.
  match goal with |- context [foldl _ ?c0 _] => set (c := foldl (divr_step (freq_in p)) c0 (seqZ 0 PRCI_PLLCFG_DIVR_MAX)) in * end.
  destruct Hb as [_ _ Hbest Hnone Hfound].
  - clear c. split; [done|unfold PRCI_VCO_MAX, MHZ, set_result; cbn [result]; lia| |done|done].
    intros s (? & ? & ? & _) Hn. unfold seen in Hn. lia.
  - destruct (found c) eqn:Ef; [|right]; cycle 1.
    { split; [done|]. intros u Hu. specialize (Hbest u Hu I). rewrite Hnone in Hbest by done. lia. }
    destruct (Hfound eq_refl) as (_ & s & Ha & Hres & E1 & E2 & E3 & E4).
    pose proof Ha as (? & ? & ? & Href & _). destruct (filter_range_ok _ Href) as (rng & Er & ?).
    rewrite E2, Er. left. split; [done|]. exists s, rng. split; [done|]. split; [exact Hres|].
    split; [intros u Hu; by apply Hbest|]. split; [done|].
    rewrite pllcfg_word_eq; unfold set_result; cbn [divr_found divf_found divq_found range]; lia.
Qed.

(** A clock of 33.33 MHz and a target of 1 GHz. *)
Definition gigahertz : Z * clk_prci_pllcfg :=
  Eval vm_compute in clk_prci_find_divr (mk_prci 33333333 0 0 0) (pllcfg_zero 1000000000).
Lemma clk_prci_find_divr_best_witness :
  clk_prci_find_divr (mk_prci 33333333 0 0 0) (pllcfg_zero 1000000000) = gigahertz ∧
  result gigahertz.2 = 999999990 ∧ ∃ s, allowed 33333333 s ∧ out_freq 33333333 s = 999999990.
Proof.
  assert (clk_prci_find_divr (mk_prci 33333333 0 0 0) (pllcfg_zero 1000000000) = gigahertz) as E.
  { vm_compute. reflexivity. }
  split; [exact E|]. split; [reflexivity|].
  pose proof (clk_prci_find_divr_best (mk_prci 33333333 0 0 0) 1000000000 ltac:(split; [lia|reflexivity])) as H.
  rewrite E in H. destruct H as [(_ & s & rng & Ha & Hr & _)|[Hr _]]; [|discriminate Hr].
  exists s. split; [exact Ha|]. symmetry. exact Hr.
Defined.
