(* ===== verification/Regfile.v ===== *)
(** * Registers that keep what is written to them

    The plainest device: each address holds the last value written there, 0 at first,
    and reading has no effect.  The drivers are run on it in examples, and theorems
    that state which registers a function leaves with which values are about it. *)

From S2P Require Import Prelude Config Device.

Definition regfile : Type := gmap Z Z.

#[export] Instance regfile_mmio : Mmio regfile := {|
  io_read width a w := (default 0 (w !! a), w);
  io_write width v a w := <[a := v]> w
|}.

(** The value of the register at an offset of a mapped device. *)
Definition reg `{Arch} (d : k_device) (w : regfile) (off : Z) : Z := default 0 (w !! usize (dev_virt d + off)).

Section Regfile.
Context `{Arch}.
Variable ops : option (k_device_driver_ops regfile).
Variable d : k_device.
Hypothesis Hvirt : dev_virt d ≠ 0.

Lemma read32_reg off w : k_device_read32 ops d off w = (u32 (reg d w off), w).
Proof. unfold k_device_read32, dev_read. by rewrite (proj2 (truth_true _)). Qed.

Lemma write32_reg v off w : k_device_write32 ops d v off w = <[usize (dev_virt d + off) := u32 v]> w.
Proof. unfold k_device_write32, dev_write. by rewrite (proj2 (truth_true _)). Qed.

Lemma reg_same v off w : reg d (<[usize (dev_virt d + off) := v]> w) off = v.
Proof. unfold reg, regfile in *. by rewrite lookup_insert_eq. Qed.

(** Offsets inside of a region that does not wrap around have addresses of their own. *)
Lemma reg_write v off off' w :
  0 <= dev_virt d + off < 2 ^ xlen → 0 <= dev_virt d + off' < 2 ^ xlen →
  reg d (<[usize (dev_virt d + off) := v]> w) off' = if off' =? off then v else reg d w off'.
Proof.
  intros H1 H2. unfold reg, regfile in *. rewrite !uwrap_small by done. destruct (off' =? off) eqn:E; bsplit.
  - subst. by rewrite lookup_insert_eq.
  - by rewrite lookup_insert_ne by lia.
Qed.

(** A register after a sequence of writes. *)
Fixpoint after_writes (l : list (Z * Z)) (off cur : Z) : Z :=
  match l with
  | [] => cur
  | (v, o) :: l => after_writes l off (if off =? o then u32 v else cur)
  end.

Lemma after_writes_zero l off cur :
  (∀ v o, (v, o) ∈ l → v = 0) → (∃ v, (v, off) ∈ l) ∨ cur = 0 → after_writes l off cur = 0.
Proof.
  revert cur. induction l as [|[v o] l IH]; intros cur Hz Hc; simpl.
  - destruct Hc as [[v Hv]|?]; [by apply elem_of_nil in Hv|done].
  - apply IH; [intros v' o' Hin; apply (Hz v' o'); by right|].
    destruct (off =? o) eqn:E; bsplit.
    + right. rewrite (Hz v o) by left. done.
    + destruct Hc as [Hc|Hc]; [destruct Hc as [v' Hv]|by right]. apply elem_of_cons in Hv as [Hv|Hv]; [simplify_eq|]. left. by exists v'.
Qed.

Lemma after_writes_other l off cur : (∀ v, (v, off) ∉ l) → after_writes l off cur = cur.
Proof.
  revert cur. induction l as [|[v o] l IH]; intros cur Hn; simpl; [done|].
  destruct (off =? o) eqn:E; bsplit.
  - subst. exfalso. apply (Hn v). left.
  - apply IH. intros v' Hin. apply (Hn v'). by right.
Qed.
End Regfile.
