(* ===== verification/Intr.v ===== *)
(** * Interrupts (arch/riscv/intr.c, driver/intc/intc.c and the drivers riscv/rv_priv.c,
      sifive/plic.c and sifive/clint.c)

    A trap of a hart looks up the handler of its cause; the handler belongs to the
    private data of a CPU's own controller, whose list of handlers leads on to the PLIC
    and to the CLINT, and from the PLIC to the handlers of the devices.  [irq] is what
    these functions change: the tables of causes, the private data by the number of the
    device, the CSRs [mie], [mip] and [mstatus] of each hart, and the registers of the
    devices.  The handlers are the objects of Event.v; a function pointer is a number,
    and the functions of other drivers are a parameter. *)

From S2P Require Import Prelude Config Event Device Cpu Regfile.

(** ** Numbers of interrupts (binding/intc/riscv/rv_priv.h), for machine mode *)

Definition RV_STATUS_IE : Z := 3.
Definition XSTATUS_IE : Z := BIT RV_STATUS_IE.

Definition RV_IX_USIX : Z := 0.
Definition RV_IX_SSIX : Z := 1.
Definition RV_IX_MSIX : Z := 3.
Definition RV_IX_UTIX : Z := 4.
Definition RV_IX_STIX : Z := 5.
Definition RV_IX_MTIX : Z := 7.
Definition RV_IX_UEIX : Z := 8.
Definition RV_IX_SEIX : Z := 9.
Definition RV_IX_MEIX : Z := 11.
Definition RV_IX_SIX : Z := RV_IX_MSIX.
Definition RV_IX_TIX : Z := RV_IX_MTIX.
Definition RV_IX_EIX : Z := RV_IX_MEIX.
Definition XIX_SIX : Z := BIT RV_IX_SIX.
Definition XIX_TIX : Z := BIT RV_IX_TIX.
Definition XIX_EIX : Z := BIT RV_IX_EIX.

Definition RV_CAUSE_INT_SW : Z := 3.
Definition RV_CAUSE_INT_TM : Z := 7.
Definition RV_CAUSE_INT_EX : Z := 11.
Definition RV_CAUSE_INT_MAX_NUM : Z := 12.
Definition RV_CAUSE_EXC_MAX_NUM : Z := 16.

(** The cases of the [switch] of the functions below. *)
Definition int_event (event : Z) : bool := existsb (Z.eqb event) [0; 1; 3; 4; 5; 7; 8; 9; 11].
Definition exc_event (event : Z) : bool :=
  existsb (Z.eqb event) [0; 1; 2; 3; 4; 5; 6; 7; 8; 9; 11; 12; 13; 15].

(** ** State *)

(** The bit fields of one bit hold 0 or 1. *)
Record intc_priv_priv := mk_rv_priv {
  cpu_parent : option Z;
  hnd_ex : Z;
  hnd_tm : Z;
  hnd_sw : Z;
  hnd_wake : Z;
  hnd_sleep : Z;
  has_ex : Z;
  enabled_ex : Z;
  has_tm : Z;
  enabled_tm : Z;
  has_sw : Z;
  enabled_sw : Z
}.

Record intc_plic_priv := mk_plic_priv {
  n_event : Z;
  n_ctx : Z;
  plic_hnd : list (option Z)
}.

Record irq (W : Type) := mk_irq {
  q_kern : kern;
  k_int_handlers : list (option Z);
  k_exc_handlers : list (option Z);
  q_rv : gmap Z intc_priv_priv;
  q_plic : gmap Z intc_plic_priv;
  q_clint : gset Z;
  intc_ipi : option Z;
  q_mstatus : gmap Z Z;
  q_mie : gmap Z Z;
  q_mip : gmap Z Z;
  q_io : W
}.
Arguments mk_irq {W}.
Arguments q_kern {W}.
Arguments k_int_handlers {W}.
Arguments k_exc_handlers {W}.
Arguments q_rv {W}.
Arguments q_plic {W}.
Arguments q_clint {W}.
Arguments intc_ipi {W}.
Arguments q_mstatus {W}.
Arguments q_mie {W}.
Arguments q_mip {W}.
Arguments q_io {W}.

(** The value of a CSR of a hart, and its update. *)
Definition csr (m : gmap Z Z) (hart : Z) : Z := default 0 (m !! hart).

Section Updates.
Context {W : Type}.
Definition with_int (q : irq W) (l : list (option Z)) : irq W :=
  mk_irq (q_kern q) l (k_exc_handlers q) (q_rv q) (q_plic q) (q_clint q) (intc_ipi q) (q_mstatus q) (q_mie q) (q_mip q) (q_io q).
Definition with_exc (q : irq W) (l : list (option Z)) : irq W :=
  mk_irq (q_kern q) (k_int_handlers q) l (q_rv q) (q_plic q) (q_clint q) (intc_ipi q) (q_mstatus q) (q_mie q) (q_mip q) (q_io q).
Definition put_rv (q : irq W) (dev : Z) (p : intc_priv_priv) : irq W :=
  mk_irq (q_kern q) (k_int_handlers q) (k_exc_handlers q) (<[dev := p]> (q_rv q)) (q_plic q) (q_clint q) (intc_ipi q) (q_mstatus q) (q_mie q) (q_mip q) (q_io q).
Definition put_plic (q : irq W) (dev : Z) (p : intc_plic_priv) : irq W :=
  mk_irq (q_kern q) (k_int_handlers q) (k_exc_handlers q) (q_rv q) (<[dev := p]> (q_plic q)) (q_clint q) (intc_ipi q) (q_mstatus q) (q_mie q) (q_mip q) (q_io q).
Definition with_ipi (q : irq W) (i : option Z) : irq W :=
  mk_irq (q_kern q) (k_int_handlers q) (k_exc_handlers q) (q_rv q) (q_plic q) (q_clint q) i (q_mstatus q) (q_mie q) (q_mip q) (q_io q).
Definition put_mstatus (q : irq W) (hart v : Z) : irq W :=
  mk_irq (q_kern q) (k_int_handlers q) (k_exc_handlers q) (q_rv q) (q_plic q) (q_clint q) (intc_ipi q) (<[hart := v]> (q_mstatus q)) (q_mie q) (q_mip q) (q_io q).
Definition put_mie (q : irq W) (hart v : Z) : irq W :=
  mk_irq (q_kern q) (k_int_handlers q) (k_exc_handlers q) (q_rv q) (q_plic q) (q_clint q) (intc_ipi q) (q_mstatus q) (<[hart := v]> (q_mie q)) (q_mip q) (q_io q).
Definition put_mip (q : irq W) (hart v : Z) : irq W :=
  mk_irq (q_kern q) (k_int_handlers q) (k_exc_handlers q) (q_rv q) (q_plic q) (q_clint q) (intc_ipi q) (q_mstatus q) (q_mie q) (<[hart := v]> (q_mip q)) (q_io q).
Definition with_io (q : irq W) (w : W) : irq W :=
  mk_irq (q_kern q) (k_int_handlers q) (k_exc_handlers q) (q_rv q) (q_plic q) (q_clint q) (intc_ipi q) (q_mstatus q) (q_mie q) (q_mip q) w.

#[export] Instance irq_has_kern : HasKern (irq W) := {|
  kern_of := q_kern;
  put_kern := fun k q => mk_irq k (k_int_handlers q) (k_exc_handlers q) (q_rv q) (q_plic q) (q_clint q)
    (intc_ipi q) (q_mstatus q) (q_mie q) (q_mip q) (q_io q)
|}.
End Updates.

(** A handler object that gets a function and its private data, or an event. *)
Definition set_hnd_func (e : events) (h func priv : Z) : exec events :=
  x ← get_hnd e h;
  Ret (mk_events (<[h := mk_hnd func priv (h_event x) (h_next x)]> (e_heap e)) (e_stat e)).
Definition set_hnd_event (e : events) (h event : Z) : exec events :=
  x ← get_hnd e h;
  Ret (mk_events (<[h := mk_hnd (h_func x) (h_priv x) event (h_next x)]> (e_heap e)) (e_stat e)).

Definition k_event_has_next (e : events) (h : Z) : exec Z :=
  x ← get_hnd e h;
  Ret (if h_next x then 1 else 0).

(** ** Tables of causes and the local interrupt enable (arch/riscv/intr.c) *)

Section Local.
Context {W : Type}.

Definition k_arch_riscv_get_intr_handler (q : irq W) (event : Z) : exec (Z * option (option Z)) :=
  if int_event event then h ← of_opt (zget (k_int_handlers q) event); Ret (0, Some h)
  else Ret (- EINVAL, None).

Definition k_arch_riscv_set_intr_handler (q : irq W) (event : Z) (hnd : option Z) : exec (Z * irq W) :=
  if int_event event then l ← of_opt (zset (k_int_handlers q) event hnd); Ret (0, with_int q l)
  else Ret (- EINVAL, q).

Definition k_arch_riscv_get_exc_handler (q : irq W) (event : Z) : exec (Z * option (option Z)) :=
  if exc_event event then h ← of_opt (zget (k_exc_handlers q) event); Ret (0, Some h)
  else Ret (- EINVAL, None).

Definition k_arch_riscv_set_exc_handler (q : irq W) (event : Z) (hnd : option Z) : exec (Z * irq W) :=
  if exc_event event then l ← of_opt (zset (k_exc_handlers q) event hnd); Ret (0, with_exc q l)
  else Ret (- EINVAL, q).

Definition k_arch_riscv_intr_enable_local (hart : Z) (q : irq W) : irq W :=
  put_mstatus q hart (Z.lor (csr (q_mstatus q) hart) XSTATUS_IE).
Definition k_arch_riscv_intr_disable_local (hart : Z) (q : irq W) : irq W :=
  put_mstatus q hart (clear (csr (q_mstatus q) hart) XSTATUS_IE).
Definition k_arch_riscv_intr_restore_local (hart status : Z) (q : irq W) : irq W :=
  put_mstatus q hart status.
Definition k_arch_riscv_intr_save_local (hart : Z) (q : irq W) : Z * irq W :=
  (csr (q_mstatus q) hart, put_mstatus q hart (clear (csr (q_mstatus q) hart) XSTATUS_IE)).

(** The handler of a cause is called when it is there and has a function. *)
Definition call_cause (call : Z → Z → Z → events → irq W → exec (Z * events * irq W))
    (h : option Z) (cause : Z) (e : events) (q : irq W) : exec (option Z * events * irq W) :=
  match h with
  | None => Ret (None, e, q)
  | Some h =>
    x ← get_hnd e h;
    if h_func x =? 0 then Ret (None, e, q) else
    '(r, e, q) ← call (h_func x) cause h e q;
    Ret (Some r, e, q)
  end.

Definition k_arch_riscv_interrupt (call : Z → Z → Z → events → irq W → exec (Z * events * irq W))
    (hart mcause : Z) (e : events) (q : irq W) : exec (Z * events * irq W) :=
  let cause := Z.land mcause 0x7fffffff in
  if cause >=? RV_CAUSE_INT_MAX_NUM then Ret (0, e, q) else
  h ← of_opt (zget (k_int_handlers q) cause);
  '(r, e, q) ← call_cause call h cause e q;
  let q := if decide (r = Some EVENT_HANDLED) then put_mip q hart (clear (csr (q_mip q) hart) (BIT cause)) else q in
  Ret (0, e, q).

(** An exception is given to its handler, and then the hart stops for good. *)
Definition k_arch_riscv_exception (call : Z → Z → Z → events → irq W → exec (Z * events * irq W))
    (mcause : Z) (e : events) (q : irq W) : exec (Z * events * irq W) :=
  let cause := Z.land mcause 0x7fffffff in
  if cause >=? RV_CAUSE_EXC_MAX_NUM then Ret (0, e, q) else
  h ← of_opt (zget (k_exc_handlers q) cause);
  '(_, _, _) ← call_cause call h cause e q;
  Hang.
End Local.

(** ** Operations of the drivers *)

(** The system as the probe of a driver sees it. *)
Definition isys (W : Type) : Type := events * irq W.

(** A larger system that these are part of: what the probe of any driver may change. *)
Class HasIrq (St W : Type) := {
  irq_get : St → isys W;
  irq_put : isys W → St → St
}.
#[export] Instance irq_has_io {St W} `{HasIrq St W} : HasIo St W := {|
  io_get s := q_io (irq_get s).2;
  io_put w s := let '(e, q) := irq_get s in irq_put (e, with_io q w) s
|}.
#[export] Instance isys_has_irq {W} : HasIrq (isys W) W := {| irq_get := fun s => s; irq_put := fun x _ => x |}.

(** A controller is given by the number of its device. *)
Record k_intc_driver_ops (W : Type) := mk_intc_ops {
  iop_add_handler : option (Z → Z → Z → devtree → events → irq W → exec (Z * events * irq W));
  iop_remove_handler : option (Z → Z → Z → devtree → events → irq W → exec (Z * events * irq W));
  iop_enable : option (Z → Z → irq W → exec (Z * irq W));
  iop_disable : option (Z → Z → irq W → exec (Z * irq W));
  iop_raise_ipi : option (Z → Z → Z → Z → devtree → irq W → exec (Z * irq W))
}.
Arguments mk_intc_ops {W}.
Arguments iop_add_handler {W}.
Arguments iop_remove_handler {W}.
Arguments iop_enable {W}.
Arguments iop_disable {W}.
Arguments iop_raise_ipi {W}.

Section Intc.
Context `{Arch} `{Config} {St W : Type} `{Mmio W} `{HasIrq St W}.

(** By the number of a driver: its operations as a device, as a controller, and its own
    access functions (no controller has any). *)
Variable dev_ops : Z → option (k_device_driver_ops St).
Variable bus_ops : Z → option (k_bus_driver_ops St).
Variable intc_ops : Z → option (k_intc_driver_ops W).
Variable acc_ops : Z → option (k_device_driver_ops W).

Definition read32 (t : devtree) (dev off : Z) (q : irq W) : exec (Z * irq W) :=
  x ← get_device t dev;
  let '(v, w) := k_device_read32 (dev_drv x ≫= acc_ops) x off (q_io q) in
  Ret (v, with_io q w).
Definition write32 (t : devtree) (dev dat off : Z) (q : irq W) : exec (irq W) :=
  x ← get_device t dev;
  Ret (with_io q (k_device_write32 (dev_drv x ≫= acc_ops) x dat off (q_io q))).

(** ** Controllers (driver/intc/intc.c) *)

Definition k_intc_set_ipi (intc : option Z) (q : irq W) : Z * irq W := (0, with_ipi q intc).

Definition k_intc_raise_ipi (hart src dest : Z) (t : devtree) (q : irq W) : exec (Z * irq W) :=
  drv ← k_device_get_drv t (intc_ipi q);
  match intc_ipi q with
  | None => Ret (- ENOTSUP, q)
  | Some intc =>
    match drv ≫= (fun d => intc_ops d ≫= iop_raise_ipi) with
    | Some raise => raise hart intc src dest t q
    | None => Ret (- ENOTSUP, q)
    end
  end.

Definition k_intc_add_device (intc : Z) (parent : option Z) (t : devtree) (s : St) : exec (Z * devtree * St) :=
  '(r, t, s) ← k_device_add dev_ops bus_ops (Some intc) parent t s;
  if IS_ERROR r then Ret (r, t, s) else
  x ← get_device t intc;
  '(r, v) ← k_device_read_conf_u32 (Some x) (Some "ipi"%string) 0;
  val ← (if truth r then Ret 0 else of_opt v);
  if truth val then
    let '(e, q) := irq_get s in
    Ret (0, t, irq_put (e, (k_intc_set_ipi (Some intc) q).2) s)
  else Ret (0, t, s).

Definition k_intc_remove_device (intc : option Z) (t : devtree) : Z * devtree := k_device_remove intc t.

Definition k_intc_add_handler (intc : option Z) (event : Z) (handler : option Z) (t : devtree)
    (e : events) (q : irq W) : exec (Z * events * irq W) :=
  drv ← k_device_get_drv t intc;
  match handler with
  | None => Ret (- EINVAL, e, q)
  | Some h =>
    x ← get_hnd e h;
    if h_func x =? 0 then Ret (- EINVAL, e, q) else
    match drv ≫= (fun d => intc_ops d ≫= iop_add_handler), intc with
    | Some add, Some i =>
      '(r, e, q) ← add i event h t e q;
      if r =? 0 then e ← set_hnd_event e h event; Ret (r, e, q) else Ret (r, e, q)
    | _, _ => Ret (- ENODEV, e, q)
    end
  end.

Definition k_intc_remove_handler (intc : option Z) (event : Z) (handler : option Z) (t : devtree)
    (e : events) (q : irq W) : exec (Z * events * irq W) :=
  drv ← k_device_get_drv t intc;
  match handler with
  | None => Ret (- EINVAL, e, q)
  | Some h =>
    x ← get_hnd e h;
    if h_func x =? 0 then Ret (- EINVAL, e, q) else
    match drv ≫= (fun d => intc_ops d ≫= iop_remove_handler), intc with
    | Some remove, Some i =>
      '(r, e, q) ← remove i event h t e q;
      if r =? 0 then e ← set_next e h None; Ret (r, e, q) else Ret (r, e, q)
    | _, _ => Ret (- ENODEV, e, q)
    end
  end.

Definition k_intc_get_conf_length (t : devtree) (dev : Z) : exec (Z * option Z) :=
  x ← get_device t dev;
  '(r, v) ← k_device_get_conf_length (Some x) (Some "interrupts"%string);
  if truth r then Ret (r, None) else
  v ← of_opt v;
  Ret (0, Some (Z.quot v 2)).

(** The controller and the number of the [index]-th interrupt of a device. *)
Definition k_intc_get_intc_from_config (t : devtree) (dev index : Z) : exec (Z * option (Z * Z)) :=
  x ← get_device t dev;
  '(r, name) ← k_device_read_conf_str (Some x) (Some "interrupts"%string) (index * 2);
  if truth r then Ret (- EINVAL, None) else
  '(r, val) ← k_device_read_conf_u32 (Some x) (Some "interrupts"%string) (index * 2 + 1);
  if truth r then Ret (- EINVAL, None) else
  '(r, tmp) ← k_bus_find_device t (Some bus_root) name;
  if r =? - EAGAIN then Ret (- EAGAIN, None) else
  if truth r then Ret (- EINVAL, None) else
  tmp ← of_opt tmp;
  val ← of_opt val;
  Ret (0, Some (tmp, i32 val)).

(** The same for the CPU that a device names (driver/cpu/cpu.c). *)
Definition k_cpu_get_cpu_from_config (t : devtree) (dev index : Z) : exec (Z * option Z) :=
  x ← get_device t dev;
  '(r, name) ← k_device_read_conf_str (Some x) (Some "cpu"%string) index;
  if truth r then Ret (- EINVAL, None) else
  '(r, tmp) ← k_bus_find_device t (Some bus_root) name;
  if r =? - EAGAIN then Ret (- EAGAIN, None) else
  if truth r then Ret (- EINVAL, None) else
  tmp ← of_opt tmp;
  Ret (0, Some tmp).

(** ** Interrupts of a CPU (driver/intc/riscv/rv_priv.c) *)

(** Addresses of the functions that the drivers install. *)
Definition FN_intc_priv_intr : Z := 1.
Definition FN_intc_priv_cpu_event : Z := 2.
Definition FN_intc_plic_intr : Z := 3.
Definition FN_intc_clint_intr : Z := 4.

Definition get_rv (q : irq W) (dev : Z) : exec intc_priv_priv := of_opt (q_rv q !! dev).

(** The handler that is called is the head of a list; the rest of the list gets the event. *)
Definition intc_priv_intr (call : Z → Z → Z → events → irq W → exec (Z * events * irq W))
    (event hnd : Z) (e : events) (q : irq W) : exec (Z * events * irq W) :=
  child ← (if (event =? RV_CAUSE_INT_EX) || (event =? RV_CAUSE_INT_TM) || (event =? RV_CAUSE_INT_SW)
           then x ← get_hnd e hnd; Ret (h_next x) else Ret None);
  match child with
  | None => Ret (EVENT_NOT_HANDLED, e, q)
  | Some n =>
    '(r, e, q) ← k_event_handle_generic call event (Some n) e q;
    Ret (if r =? EVENT_HANDLED then EVENT_HANDLED else EVENT_NOT_HANDLED, e, q)
  end.

Definition intr_mask (p : intc_priv_priv) : Z :=
  let m := 0 in
  let m := if truth (has_ex p) && truth (enabled_ex p) then Z.lor m XIX_EIX else m in
  let m := if truth (has_tm p) && truth (enabled_tm p) then Z.lor m XIX_TIX else m in
  Z.lor m XIX_SIX.

Definition intc_priv_update_intr_mask (hart dev : Z) (wakeup : bool) (q : irq W) : exec (Z * irq W) :=
  p ← get_rv q dev;
  let m := intr_mask p in
  let v := csr (q_mie q) hart in
  Ret (0, put_mie q hart (if wakeup then Z.lor v m else clear v m)).

Definition intc_priv_cpu_event (hart event hnd : Z) (e : events) (q : irq W) : exec (Z * events * irq W) :=
  x ← get_hnd e hnd;
  if (event =? CPU_EVENT_ON_WAKEUP) || (event =? CPU_EVENT_ON_SLEEP) then
    '(r, q) ← intc_priv_update_intr_mask hart (h_priv x) (event =? CPU_EVENT_ON_WAKEUP) q;
    Ret (if truth r then EVENT_NOT_HANDLED else EVENT_HANDLED, e, q)
  else Ret (EVENT_NOT_HANDLED, e, q).

Definition rv_set_cpu (p : intc_priv_priv) (c : option Z) : intc_priv_priv :=
  mk_rv_priv c (hnd_ex p) (hnd_tm p) (hnd_sw p) (hnd_wake p) (hnd_sleep p) (has_ex p) (enabled_ex p)
    (has_tm p) (enabled_tm p) (has_sw p) (enabled_sw p).
Definition rv_set_has (p : intc_priv_priv) (ex tm sw : Z) : intc_priv_priv :=
  mk_rv_priv (cpu_parent p) (hnd_ex p) (hnd_tm p) (hnd_sw p) (hnd_wake p) (hnd_sleep p) ex (enabled_ex p)
    tm (enabled_tm p) sw (enabled_sw p).
Definition rv_set_enabled (p : intc_priv_priv) (ex tm sw : Z) : intc_priv_priv :=
  mk_rv_priv (cpu_parent p) (hnd_ex p) (hnd_tm p) (hnd_sw p) (hnd_wake p) (hnd_sleep p) (has_ex p) ex
    (has_tm p) tm (has_sw p) sw.

Definition intc_priv_add (dev : Z) (t : devtree) (s : St) : exec (Z * devtree * St) :=
  let '(e, q) := irq_get s in
  match q_rv q !! dev with
  | None => Ret (- EINVAL, t, s)
  | Some p =>
    '(r, cpu) ← k_cpu_get_cpu_from_config t dev 0;
    if truth r then Ret (r, t, s) else
    cpu ← of_opt cpu;
    let q := put_rv q dev (rv_set_cpu p (Some cpu)) in
    e ← set_hnd_func e (hnd_ex p) FN_intc_priv_intr dev;
    e ← set_hnd_func e (hnd_tm p) FN_intc_priv_intr dev;
    e ← set_hnd_func e (hnd_sw p) FN_intc_priv_intr dev;
    '(r, q) ← k_arch_riscv_set_intr_handler q RV_CAUSE_INT_EX (Some (hnd_ex p));
    if truth r then Ret (r, t, irq_put (e, q) s) else
    '(r, q) ← k_arch_riscv_set_intr_handler q RV_CAUSE_INT_TM (Some (hnd_tm p));
    if truth r then Ret (r, t, irq_put (e, q) s) else
    '(r, q) ← k_arch_riscv_set_intr_handler q RV_CAUSE_INT_SW (Some (hnd_sw p));
    if truth r then Ret (r, t, irq_put (e, q) s) else
    e ← set_hnd_func e (hnd_wake p) FN_intc_priv_cpu_event dev;
    e ← set_hnd_func e (hnd_sleep p) FN_intc_priv_cpu_event dev;
    '(r, e) ← k_cpu_add_handler (q_kern q) e cpu CPU_EVENT_ON_WAKEUP (hnd_wake p);
    if truth r then Ret (r, t, irq_put (e, q) s) else
    '(r, e) ← k_cpu_add_handler (q_kern q) e cpu CPU_EVENT_ON_SLEEP (hnd_sleep p);
    if truth r then Ret (r, t, irq_put (e, q) s) else
    p ← get_rv q dev;
    Ret (0, t, irq_put (e, put_rv q dev (rv_set_enabled p 1 1 1)) s)
  end.

Definition intc_priv_remove (dev : Z) (t : devtree) (s : St) : exec (Z * devtree * St) :=
  let '(e, q) := irq_get s in
  p ← get_rv q dev;
  cpu ← of_opt (cpu_parent p);
  '(r, e) ← k_cpu_remove_handler (q_kern q) e cpu CPU_EVENT_ON_WAKEUP (hnd_wake p);
  if truth r then Ret (r, t, irq_put (e, q) s) else
  '(r, e) ← k_cpu_remove_handler (q_kern q) e cpu CPU_EVENT_ON_SLEEP (hnd_sleep p);
  if truth r then Ret (r, t, irq_put (e, q) s) else
  Ret (- ENOTSUP, t, irq_put (e, q) s).

(** The list that an interrupt number belongs to. *)
Inductive irq_class := ClassSw | ClassTm | ClassEx.
Definition irq_class_of (event : Z) : option irq_class :=
  if (event =? RV_IX_USIX) || (event =? RV_IX_SSIX) || (event =? RV_IX_MSIX) then Some ClassSw
  else if (event =? RV_IX_UTIX) || (event =? RV_IX_STIX) || (event =? RV_IX_MTIX) then Some ClassTm
  else if (event =? RV_IX_UEIX) || (event =? RV_IX_SEIX) || (event =? RV_IX_MEIX) then Some ClassEx
  else None.
Definition head_of (p : intc_priv_priv) (c : irq_class) : Z :=
  match c with ClassSw => hnd_sw p | ClassTm => hnd_tm p | ClassEx => hnd_ex p end.

Definition update_has (e : events) (p : intc_priv_priv) : exec intc_priv_priv :=
  ex ← k_event_has_next e (hnd_ex p);
  tm ← k_event_has_next e (hnd_tm p);
  sw ← k_event_has_next e (hnd_sw p);
  Ret (rv_set_has p ex tm sw).

Definition intc_priv_add_handler (intc event handler : Z) (t : devtree) (e : events) (q : irq W) :
    exec (Z * events * irq W) :=
  p ← get_rv q intc;
  match irq_class_of event with
  | None => Ret (- EINVAL, e, q)
  | Some c =>
    '(r, e) ← k_event_add_handler e (Some (head_of p c)) (Some handler);
    if truth r then Ret (r, e, q) else
    p ← update_has e p;
    Ret (0, e, put_rv q intc p)
  end.

Definition intc_priv_remove_handler (intc event handler : Z) (t : devtree) (e : events) (q : irq W) :
    exec (Z * events * irq W) :=
  p ← get_rv q intc;
  match irq_class_of event with
  | None => Ret (- EINVAL, e, q)
  | Some c =>
    '(r, e) ← k_event_remove_handler e (Some (head_of p c)) (Some handler);
    if truth r then Ret (r, e, q) else
    p ← update_has e p;
    Ret (0, e, put_rv q intc p)
  end.

(** [intc_priv_enable] and [intc_priv_disable]: a software interrupt is always enabled. *)
Definition set_enabled (v intc event : Z) (q : irq W) : exec (Z * irq W) :=
  p ← get_rv q intc;
  match irq_class_of event with
  | None => Ret (- EINVAL, q)
  | Some ClassSw => Ret (0, q)
  | Some ClassTm => Ret (0, put_rv q intc (rv_set_enabled p (enabled_ex p) v (enabled_sw p)))
  | Some ClassEx => Ret (0, put_rv q intc (rv_set_enabled p v (enabled_tm p) (enabled_sw p)))
  end.
Definition intc_priv_enable := set_enabled 1.
Definition intc_priv_disable := set_enabled 0.

Definition intc_priv_intc_ops : k_intc_driver_ops W :=
  mk_intc_ops (Some intc_priv_add_handler) (Some intc_priv_remove_handler) (Some intc_priv_enable)
    (Some intc_priv_disable) None.

(** ** The interrupts that a device passes on to its controllers *)

(** The loop of [intc_plic_add] and of [intc_clint_add] over the entries [ids]: each
    gets a handler of the pool with the driver's function. *)
Fixpoint add_parents (func dev : Z) (ids : list Z) (t : devtree) (e : events) (q : irq W) :
    exec (Z * events * irq W) :=
  match ids with
  | [] => Ret (0, e, q)
  | i :: ids =>
    '(r, ic) ← k_intc_get_intc_from_config t dev i;
    if truth r then Ret (r, e, q) else
    '(r, h, e) ← k_event_alloc_handler e true;
    if truth r then Ret (r, e, q) else
    '(parent, num_irq) ← of_opt ic;
    h ← of_opt h;
    e ← set_hnd_func e h func dev;
    '(r, e, q) ← k_intc_add_handler (Some parent) num_irq (Some h) t e q;
    if truth r then Ret (r, e, q) else add_parents func dev ids t e q
  end.

(** ** PLIC (driver/intc/sifive/plic.c) *)

Definition PLIC_SOURCES_MAX : Z := 64.
Definition PLIC_CONTEXTS_MAX : Z := 64.
Definition REG_PRIORITY (n : Z) : Z := 0x000000 + n * 0x4.
Definition REG_PENDING (n : Z) : Z := 0x001000 + n / 32 * 0x4.
Definition REG_INTR_EN (n ctx : Z) : Z := 0x002000 + ctx * 0x80 + n / 32 * 0x4.
Definition REG_PRIORITY_THR (ctx : Z) : Z := 0x200000 + ctx * 0x1000 + 0x0.
Definition REG_CLAIM (ctx : Z) : Z := 0x200000 + ctx * 0x1000 + 0x4.

Definition writes (t : devtree) (dev : Z) (l : list (Z * Z)) (q : irq W) : exec (irq W) :=
  foldl (fun q '(dat, off) => q ← q; write32 t dev dat off q) (Ret q) l.

(** [0, 32, 64, ...] below [n]. *)
Definition steps32 (n : Z) : list Z := map (fun i => 32 * i) (seqZ 0 ((n + 31) / 32)).

Definition clear_all_writes (n_event n_ctx : Z) : list (Z * Z) :=
  concat (map (fun ctx =>
    (0, REG_PRIORITY_THR ctx) ::
    map (fun event => (0, REG_PRIORITY event)) (seqZ 0 n_event) ++
    map (fun event => (0, REG_INTR_EN event ctx)) (steps32 n_event)) (seqZ 0 n_ctx)).
Definition intc_plic_clear_all (t : devtree) (intc n_event n_ctx : Z) (q : irq W) : exec (Z * irq W) :=
  q ← writes t intc (clear_all_writes n_event n_ctx) q; Ret (0, q).

Definition intc_plic_enable_interrupt (t : devtree) (intc event ctx : Z) (q : irq W) : exec (Z * irq W) :=
  let bpos := Z.land event 0x1f in
  q ← write32 t intc 1 (REG_PRIORITY event) q;
  q ← write32 t intc 0 (REG_PRIORITY_THR ctx) q;
  '(tmp, q) ← read32 t intc (REG_INTR_EN event ctx) q;
  q ← write32 t intc (Z.lor tmp (Z.shiftl 1 bpos)) (REG_INTR_EN event ctx) q;
  Ret (0, q).

Definition intc_plic_disable_interrupt (t : devtree) (intc event ctx : Z) (q : irq W) : exec (Z * irq W) :=
  let bpos := Z.land event 0x1f in
  '(tmp, q) ← read32 t intc (REG_INTR_EN event ctx) q;
  q ← write32 t intc (clear tmp (Z.shiftl 1 bpos)) (REG_INTR_EN event ctx) q;
  Ret (0, q).

Definition plic_set_hnd (p : intc_plic_priv) (event : Z) (h : option Z) : exec intc_plic_priv :=
  l ← of_opt (zset (plic_hnd p) event h); Ret (mk_plic_priv (n_event p) (n_ctx p) l).

Definition intc_plic_add_handler (intc event handler : Z) (t : devtree) (e : events) (q : irq W) :
    exec (Z * events * irq W) :=
  match q_plic q !! intc with
  | None => Ret (- EINVAL, e, q)
  | Some p =>
    if (event <? 0) || (PLIC_SOURCES_MAX <=? event) then Ret (- EINVAL, e, q) else
    old ← of_opt (zget (plic_hnd p) event);
    if bool_decide (is_Some old) then Ret (- EINVAL, e, q) else
    p ← plic_set_hnd p event (Some handler);
    '(r, q) ← intc_plic_enable_interrupt t intc event 0 (put_plic q intc p);
    Ret (r, e, q)
  end.

Definition intc_plic_remove_handler (intc event handler : Z) (t : devtree) (e : events) (q : irq W) :
    exec (Z * events * irq W) :=
  match q_plic q !! intc with
  | None => Ret (- EINVAL, e, q)
  | Some p =>
    if (event <? 0) || (PLIC_SOURCES_MAX <=? event) then Ret (- EINVAL, e, q) else
    old ← of_opt (zget (plic_hnd p) event);
    if bool_decide (old = None) then Ret (- EINVAL, e, q) else
    '(r, q) ← intc_plic_disable_interrupt t intc event 0 q;
    if truth r then Ret (r, e, q) else
    p ← plic_set_hnd p event None;
    Ret (0, e, put_plic q intc p)
  end.

(** The source that the PLIC names is completed first and handled then. *)
Definition intc_plic_intr (call : Z → Z → Z → events → irq W → exec (Z * events * irq W)) (t : devtree)
    (event hnd : Z) (e : events) (q : irq W) : exec (Z * events * irq W) :=
  x ← get_hnd e hnd;
  let dev := h_priv x in
  '(v, q) ← read32 t dev (REG_CLAIM 0) q;
  q ← write32 t dev v (REG_CLAIM 0) q;
  p ← of_opt (q_plic q !! dev);
  h ← of_opt (zget (plic_hnd p) v);
  match h with
  | None => Ret (EVENT_NOT_HANDLED, e, q)
  | Some h => k_event_handle_generic call v (Some h) e q
  end.

(** A number of the configuration, or a default, bounded by it. *)
Definition conf_bound (t : devtree) (dev : Z) (name : string) (max : Z) : exec Z :=
  x ← get_device t dev;
  '(r, v) ← k_device_read_conf_u32 (Some x) (Some name) 0;
  v ← (if truth r then Ret max else of_opt v);
  Ret (Z.min max v).

Definition intc_plic_add (dev : Z) (t : devtree) (s : St) : exec (Z * devtree * St) :=
  let '(e, q) := irq_get s in
  match q_plic q !! dev with
  | None => Ret (- EINVAL, t, s)
  | Some _ =>
    '(r, t) ← k_io_mmap_device dev_ops 0 dev t;
    if truth r then Ret (r, t, s) else
    '(r, len) ← k_intc_get_conf_length t dev;
    if truth r then Ret (r, t, s) else
    len ← of_opt len;
    '(r, e, q) ← add_parents FN_intc_plic_intr dev (seqZ 0 len) t e q;
    if truth r then Ret (r, t, irq_put (e, q) s) else
    ne ← conf_bound t dev "n_source" PLIC_SOURCES_MAX;
    nc ← conf_bound t dev "n_context" PLIC_CONTEXTS_MAX;
    p ← of_opt (q_plic q !! dev);
    let q := put_plic q dev (mk_plic_priv ne nc (plic_hnd p)) in
    '(r, q) ← intc_plic_clear_all t dev ne nc q;
    Ret (r, t, irq_put (e, q) s)
  end.

Definition intc_plic_remove (dev : Z) (t : devtree) (s : St) : exec (Z * St) := Ret (0, s).

Definition intc_plic_intc_ops : k_intc_driver_ops W :=
  mk_intc_ops (Some intc_plic_add_handler) (Some intc_plic_remove_handler) None None None.

(** ** CLINT (driver/intc/sifive/clint.c) *)

Definition REG_MSIP (hart : Z) : Z := 0x0000 + hart * 4.

Definition intc_clint_intr (hart : Z) (t : devtree) (event hnd : Z) (e : events) (q : irq W) :
    exec (Z * events * irq W) :=
  x ← get_hnd e hnd;
  if event =? RV_IX_MSIX then
    q ← write32 t (h_priv x) 0 (REG_MSIP hart) q; Ret (EVENT_HANDLED, e, q)
  else Ret (EVENT_NOT_HANDLED, e, q).

Definition intc_clint_add (dev : Z) (t : devtree) (s : St) : exec (Z * devtree * St) :=
  let '(e, q) := irq_get s in
  if bool_decide (dev ∉ q_clint q) then Ret (- EINVAL, t, s) else
  '(r, t) ← k_io_mmap_device dev_ops 0 dev t;
  if truth r then Ret (r, t, s) else
  '(r, len) ← k_intc_get_conf_length t dev;
  if truth r then Ret (r, t, s) else
  len ← of_opt len;
  '(r, e, q) ← add_parents FN_intc_clint_intr dev (seqZ 0 len) t e q;
  Ret (r, t, irq_put (e, q) s).

Definition intc_clint_remove (dev : Z) (t : devtree) (s : St) : exec (Z * St) := Ret (0, s).

(** Only the running CPU can be the source; [hart] is its physical number. *)
Definition intc_clint_raise_ipi (hart intc src dest : Z) (t : devtree) (q : irq W) : exec (Z * irq W) :=
  id_dest ← k_cpu_get_id_phys (q_kern q) dest;
  id_src ← k_cpu_get_id_phys (q_kern q) src;
  if negb (hart =? id_src) then Ret (- EINVAL, q) else
  q ← write32 t intc 1 (REG_MSIP id_dest) q;
  Ret (0, q).

Definition intc_clint_intc_ops : k_intc_driver_ops W :=
  mk_intc_ops None None None None (Some intc_clint_raise_ipi).

(** ** The function of a handler

    [ext] are the functions of the other drivers; [n] bounds how deep the calls nest. *)
Fixpoint call_hnd (ext : Z → Z → Z → events → irq W → exec (Z * events * irq W)) (n : nat) (hart : Z)
    (t : devtree) (func event hnd : Z) (e : events) (q : irq W) : exec (Z * events * irq W) :=
  match n with
  | O => Hang
  | S n =>
    if func =? FN_intc_priv_intr then intc_priv_intr (call_hnd ext n hart t) event hnd e q
    else if func =? FN_intc_priv_cpu_event then intc_priv_cpu_event hart event hnd e q
    else if func =? FN_intc_plic_intr then intc_plic_intr (call_hnd ext n hart t) t event hnd e q
    else if func =? FN_intc_clint_intr then intc_clint_intr hart t event hnd e q
    else ext func event hnd e q
  end.
End Intc.

(** ** Delivery *)

(** A list of one handler: the result is what its function says. *)
Lemma handle_single {W} (call : Z → Z → Z → events → W → exec (Z * events * W)) event h e w x r e' w' x' :
  e_heap e !! h = Some x → h_event x = event → call (h_func x) event h e w = Ret (r, e', w') →
  e_heap e' !! h = Some x' → h_next x' = None →
  k_event_handle_generic call event (Some h) e w =
    Ret (if r =? EVENT_HANDLED then EVENT_HANDLED else EVENT_NOT_HANDLED, e', w').
Proof.
  intros Hx <- Hc Hx' Hn. unfold k_event_handle_generic, evt_fuel. cbn [handle_loop]. unfold get_hnd.
  rewrite Hx. mstep. rewrite Z.eqb_refl, Hc. mstep. rewrite Hx'. mstep. rewrite Hn. by destruct (size _).
Qed.

(** The same when the function does not come back properly. *)
Lemma handle_undef {W} (call : Z → Z → Z → events → W → exec (Z * events * W)) event h e w x :
  e_heap e !! h = Some x → h_event x = event → call (h_func x) event h e w = Undef →
  k_event_handle_generic call event (Some h) e w = Undef.
Proof.
  intros Hx <- Hc. unfold k_event_handle_generic, evt_fuel. cbn [handle_loop]. unfold get_hnd.
  rewrite Hx. mstep. by rewrite Z.eqb_refl, Hc.
Qed.

(** The interrupt [cause] of the table leads to the list [hx] of a CPU's controller, whose
    one handler [hp] has the function [func] of the driver of [dev]. *)
Record irq_wired {W} (e : events) (q : irq W) (cause hx hp func dev : Z) : Prop := {
  iw_cause : zget (k_int_handlers q) cause = Some (Some hx);
  iw_kind : cause = RV_CAUSE_INT_EX ∨ cause = RV_CAUSE_INT_TM ∨ cause = RV_CAUSE_INT_SW;
  iw_head : ∃ x, e_heap e !! hx = Some x ∧ h_func x = FN_intc_priv_intr ∧ h_next x = Some hp;
  iw_child : e_heap e !! hp = Some (mk_hnd func dev cause None)
}.

(** The functions of other drivers. *)
Definition own_func (f : Z) : Prop := 1 <= f <= 4.

Section Delivery.
Context `{Arch} `{Config} {W : Type} `{Mmio W}.
Variable intc_ops : Z → option (k_intc_driver_ops W).
Variable acc_ops : Z → option (k_device_driver_ops W).
Variable ext : Z → Z → Z → events → irq W → exec (Z * events * irq W).

(** Reading the claim register of a PLIC and writing it back. *)
Definition claim (d : k_device) (w : W) : Z * W := k_device_read32 (dev_drv d ≫= acc_ops) d (REG_CLAIM 0) w.
Definition complete (d : k_device) (v : Z) (w : W) : W :=
  k_device_write32 (dev_drv d ≫= acc_ops) d v (REG_CLAIM 0) w.

Lemma call_hnd_ext n hart t f event h e q :
  ¬ own_func f → call_hnd acc_ops ext (S n) hart t f event h e q = ext f event h e q.
Proof.
  unfold own_func. intros Hf. cbn [call_hnd].
  unfold FN_intc_priv_intr, FN_intc_priv_cpu_event, FN_intc_plic_intr, FN_intc_clint_intr.
  destruct (f =? 1) eqn:E1, (f =? 2) eqn:E2, (f =? 3) eqn:E3, (f =? 4) eqn:E4; bsplit; done || lia.
Qed.

Lemma call_hnd_plic n hart t event h e q :
  call_hnd acc_ops ext (S n) hart t FN_intc_plic_intr event h e q =
    intc_plic_intr acc_ops (call_hnd acc_ops ext n hart t) t event h e q.
Proof. done. Qed.

Lemma call_hnd_clint n hart t event h e q :
  call_hnd acc_ops ext (S n) hart t FN_intc_clint_intr event h e q =
    intc_clint_intr acc_ops hart t event h e q.
Proof. done. Qed.

(** The way from the trap to the handler of the driver. *)
Lemma trap_to_list n hart t mcause e q cause hx hp func dev :
  irq_wired e q cause hx hp func dev → Z.land mcause 0x7fffffff = cause →
  k_arch_riscv_interrupt (call_hnd acc_ops ext (S (S n)) hart t) hart mcause e q =
    ('(r, e, q) ← k_event_handle_generic (call_hnd acc_ops ext (S n) hart t) cause (Some hp) e q;
     Ret (0, e, if r =? EVENT_HANDLED then put_mip q hart (clear (csr (q_mip q) hart) (BIT cause)) else q)).
Proof.
  intros [Hc Hk (x & Hx & Hfx & Hnx) _] Hm. unfold k_arch_riscv_interrupt. rewrite Hm, Hc.
  assert ((cause >=? RV_CAUSE_INT_MAX_NUM) = false ∧
    (cause =? RV_CAUSE_INT_EX) || (cause =? RV_CAUSE_INT_TM) || (cause =? RV_CAUSE_INT_SW) = true) as [-> Eb]
    by (destruct Hk as [->|[->| ->]]; done).
  mstep. unfold call_cause, get_hnd. rewrite Hx. mstep. rewrite Hfx. change (FN_intc_priv_intr =? 0) with false.
  cbn [call_hnd]. change (FN_intc_priv_intr =? FN_intc_priv_intr) with true. unfold intc_priv_intr at 1.
  rewrite Eb. unfold get_hnd. rewrite Hx. mstep. rewrite Hnx.
  destruct (k_event_handle_generic _ _ _ _ _) as [[[r e'] q']| |]; mstep; [|done..].
  by destruct (r =? EVENT_HANDLED).
Qed.

Lemma trap_to_child n hart t mcause e q cause hx hp func dev r e' q' :
  irq_wired e q cause hx hp func dev → Z.land mcause 0x7fffffff = cause →
  call_hnd acc_ops ext (S n) hart t func cause hp e q = Ret (r, e', q') →
  (∃ y, e_heap e' !! hp = Some y ∧ h_next y = None) →
  k_arch_riscv_interrupt (call_hnd acc_ops ext (S (S n)) hart t) hart mcause e q =
    Ret (0, e', if r =? EVENT_HANDLED then put_mip q' hart (clear (csr (q_mip q') hart) (BIT cause)) else q').
Proof.
  intros Hw Hm Hi (y & Hy & Hny). rewrite (trap_to_list _ _ _ _ _ _ _ _ _ _ _ Hw Hm).
  rewrite (handle_single _ cause _ _ _ _ _ _ _ _ (iw_child _ _ _ _ _ _ _ Hw) eq_refl Hi Hy Hny). mstep.
  by destruct (r =? EVENT_HANDLED).
Qed.

Lemma trap_to_child_undef n hart t mcause e q cause hx hp func dev :
  irq_wired e q cause hx hp func dev → Z.land mcause 0x7fffffff = cause →
  call_hnd acc_ops ext (S n) hart t func cause hp e q = Undef →
  k_arch_riscv_interrupt (call_hnd acc_ops ext (S (S n)) hart t) hart mcause e q = Undef.
Proof.
  intros Hw Hm Hi. rewrite (trap_to_list _ _ _ _ _ _ _ _ _ _ _ Hw Hm).
  by rewrite (handle_undef _ cause _ _ _ _ (iw_child _ _ _ _ _ _ _ Hw) eq_refl Hi).
Qed.

(** The PLIC's function up to the table of handlers. *)
Lemma plic_intr_eq call t event hp plic y d e q p v w :
  e_heap e !! hp = Some y → h_priv y = plic → t_devices t !! plic = Some d →
  q_plic q !! plic = Some p → claim d (q_io q) = (v, w) →
  intc_plic_intr acc_ops call t event hp e q =
    (h ← of_opt (zget (plic_hnd p) v);
     match h with
     | None => Ret (EVENT_NOT_HANDLED, e, with_io q (complete d v w))
     | Some h => k_event_handle_generic call v (Some h) e (with_io q (complete d v w))
     end).
Proof.
  intros Hy <- Hd Hp Hr. unfold intc_plic_intr, get_hnd. rewrite Hy. mstep.
  unfold read32, write32, get_device. rewrite Hd. mstep. unfold claim in Hr. rewrite Hr. mstep.
  cbn [q_plic with_io q_io]. rewrite Hp. done.
Qed.

(** The whole way: the PLIC names [v], for which its table has the handler [h] of the driver of [dev]. *)
Lemma trap_to_source t plic d p v h f dev e q hx hp n hart mcause w w1 r e' q' :
  t_devices t !! plic = Some d → q_plic q !! plic = Some p → irq_wired e q RV_CAUSE_INT_EX hx hp FN_intc_plic_intr plic →
  zget (plic_hnd p) v = Some (Some h) → e_heap e !! h = Some (mk_hnd f dev v None) → ¬ own_func f →
  Z.land mcause 0x7fffffff = RV_CAUSE_INT_EX → claim d w = (v, w1) →
  ext f v h e (with_io q (complete d v w1)) = Ret (r, e', q') →
  e_heap e' !! h = e_heap e !! h → e_heap e' !! hp = e_heap e !! hp →
  k_arch_riscv_interrupt (call_hnd acc_ops ext (S (S (S n))) hart t) hart mcause e (with_io q w) =
    Ret (0, e', if r =? EVENT_HANDLED then put_mip q' hart (clear (csr (q_mip q') hart) (BIT RV_CAUSE_INT_EX)) else q').
Proof.
  intros Hd Hp Hw Hv Heh Hown Hm Hclaim Hext Eh Ep.
  assert (irq_wired e (with_io q w) RV_CAUSE_INT_EX hx hp FN_intc_plic_intr plic) as Hw' by (destruct Hw; by constructor).
  pose proof (iw_child _ _ _ _ _ _ _ Hw') as Hhp'.
  pose proof (plic_intr_eq (call_hnd acc_ops ext (S n) hart t) t RV_CAUSE_INT_EX hp plic _ d e (with_io q w) p v w1
    Hhp' eq_refl Hd Hp Hclaim) as Hi.
  rewrite <- call_hnd_plic, Hv in Hi. mstep_in Hi. change (with_io (with_io q w) (complete d v w1)) with (with_io q (complete d v w1)) in Hi.
  rewrite (handle_single (call_hnd acc_ops ext (S n) hart t) v h e _ _ r e' q' _ Heh eq_refl
      (eq_trans (call_hnd_ext _ _ _ _ _ _ _ _ Hown) Hext) (eq_trans Eh Heh) eq_refl) in Hi.
  rewrite (trap_to_child _ _ _ _ _ _ _ _ _ _ _ _ _ _ Hw' Hm Hi) by (rewrite Ep, Hhp'; eauto).
  by destruct (r =? EVENT_HANDLED).
Qed.

Ltac bad := mstep; try change (- EINVAL =? 0) with false; let E := fresh in intros E; discriminate E.

(** A successful registration at a PLIC. *)
Lemma plic_registered t e0 q0 plic v h e q D d :
  t_devices t !! plic = Some d → dev_drv d = Some D → intc_ops D = Some (intc_plic_intc_ops acc_ops) →
  k_intc_add_handler intc_ops (Some plic) v (Some h) t e0 q0 = Ret (0, e, q) →
  ∃ y p l w, e_heap e0 !! h = Some y ∧ h_func y ≠ 0 ∧
    e = mk_events (<[h := mk_hnd (h_func y) (h_priv y) v (h_next y)]> (e_heap e0)) (e_stat e0) ∧
    q_plic q0 !! plic = Some p ∧ 0 <= v < PLIC_SOURCES_MAX ∧
    zget (plic_hnd p) v = Some None ∧ zset (plic_hnd p) v (Some h) = Some l ∧
    q = with_io (put_plic q0 plic (mk_plic_priv (n_event p) (n_ctx p) l)) w.
Proof.
  intros Hd HD Hops. unfold k_intc_add_handler, k_device_get_drv, get_device. rewrite Hd. mstep.
  unfold get_hnd. destruct (e_heap e0 !! h) as [y|] eqn:Ey; mstep; [|bad].
  destruct (h_func y =? 0) eqn:Ef; bsplit; [intros [=]; lia|]. rewrite HD. cbn [mbind option_bind]. rewrite Hops.
  cbn [mbind option_bind iop_add_handler intc_plic_intc_ops]. unfold intc_plic_add_handler.
  destruct (q_plic q0 !! plic) as [p|] eqn:Ep; mstep; [|bad].
  destruct ((v <? 0) || (PLIC_SOURCES_MAX <=? v)) eqn:Ev; mstep; [bad|]. bsplit.
  destruct (zget (plic_hnd p) v) as [old|] eqn:Eold; mstep; [|bad].
  destruct old as [old|]; [bad|]. rewrite bool_decide_false by (intros [? ?]; done).
  unfold plic_set_hnd. destruct (zset (plic_hnd p) v (Some h)) as [l|] eqn:El; mstep; [|bad].
  unfold intc_plic_enable_interrupt, write32, read32, get_device. rewrite Hd. mstep.
  destruct (k_device_read32 _ _ _ _) as [tmp w1]. mstep.
  unfold set_hnd_event, get_hnd. change (0 =? 0) with true. rewrite Ey. mstep.
  intros E. simplify_eq. eexists y, p, l, _. repeat split; try done; try lia.
Qed.

Lemma irq_wired_set_event e (q : irq W) cause hx hp func plic h y (v : intc_plic_priv * W) w' :
  irq_wired e q cause hx hp func plic → h ≠ hx → h ≠ hp →
  irq_wired (mk_events (<[h := y]> (e_heap e)) (e_stat e)) (with_io (with_io (put_plic q plic v.1) v.2) w')
    cause hx hp func plic.
Proof.
  intros [Hc Hk (x & Hx & Hfx & Hnx) Hp] Hn1 Hn2. constructor; [done|done| |].
  - exists x. cbn [e_heap]. by rewrite lookup_insert_ne.
  - cbn [e_heap]. by rewrite lookup_insert_ne.
Qed.

(** C15: an external interrupt, from the registration of a handler to its call. After a
    driver has registered a handler for a source of a PLIC whose own handler a CPU's
    controller has, and whatever the registers of the devices hold by then: the trap
    reads the claim register, writes the source back to it, and then calls the handler
    that was registered for that source and no other, with the source as the event; the
    pending bit of the hart is cleared exactly when the handler says that it handled it.
    A source that nothing is registered for calls nothing. A number that the PLIC does
    not limit to its table is used as an index outside of the table. *)
Theorem plic_handler_receives t e0 q0 plic v h e q D d hx hp y n hart mcause w w1 v'
    (Hd : t_devices t !! plic = Some d) (HD : dev_drv d = Some D)
    (Hops : intc_ops D = Some (intc_plic_intc_ops acc_ops))
    (Hreg : k_intc_add_handler intc_ops (Some plic) v (Some h) t e0 q0 = Ret (0, e, q))
    (Hlen : ∀ p, q_plic q0 !! plic = Some p → zlen (plic_hnd p) = PLIC_SOURCES_MAX)
    (Hw : irq_wired e0 q0 RV_CAUSE_INT_EX hx hp FN_intc_plic_intr plic) (Hhx : h ≠ hx) (Hhp : h ≠ hp)
    (Hy : e_heap e0 !! h = Some y) (Hnext : h_next y = None) (Hown : ¬ own_func (h_func y))
    (Hm : Z.land mcause 0x7fffffff = RV_CAUSE_INT_EX) (Hclaim : claim d w = (v', w1)) :
  let trap := k_arch_riscv_interrupt (call_hnd acc_ops ext (S (S (S n))) hart t) hart mcause e (with_io q w) in
  let q1 := with_io q (complete d v' w1) in
  (v' = v → ∀ r e' q', ext (h_func y) v h e q1 = Ret (r, e', q') →
     e_heap e' !! h = e_heap e !! h → e_heap e' !! hp = e_heap e !! hp →
     trap = Ret (0, e', if r =? EVENT_HANDLED
                        then put_mip q' hart (clear (csr (q_mip q') hart) (BIT RV_CAUSE_INT_EX)) else q')) ∧
  (v' ≠ v → (∀ p, q_plic q0 !! plic = Some p → zget (plic_hnd p) v' = Some None) → trap = Ret (0, e, q1)) ∧
  (PLIC_SOURCES_MAX <= v' → trap = Undef).
Proof.
  intros trap q1. destruct (plic_registered _ _ _ _ _ _ _ _ _ _ Hd HD Hops Hreg)
    as (y' & p & l & w0 & Hy' & Hf & -> & Hp & Hv & Hold & Hl & ->).
  rewrite Hy in Hy'. injection Hy' as <-. specialize (Hlen p Hp).
  set (e := mk_events _ _) in *. set (q := with_io (put_plic _ _ _) w0) in *.
  assert (irq_wired e (with_io q w) RV_CAUSE_INT_EX hx hp FN_intc_plic_intr plic) as Hw'
    by exact (irq_wired_set_event e0 q0 _ hx hp _ plic h _ (_, w0) w Hw Hhx Hhp).
  pose proof (iw_child _ _ _ _ _ _ _ Hw') as Hhp'.
  pose proof (plic_intr_eq (call_hnd acc_ops ext (S n) hart t) t RV_CAUSE_INT_EX hp plic _ d e (with_io q w) _ v' w1
    Hhp' eq_refl Hd (lookup_insert_eq _ _ _) Hclaim) as Hi.
  rewrite <- call_hnd_plic in Hi. change (with_io (with_io q w) (complete d v' w1)) with q1 in Hi. cbn [plic_hnd] in Hi.
  rewrite (zget_zset _ _ _ _ _ Hl) in Hi. split; [|split].
  - intros -> r e' q' Hext Eh Ep. rewrite Z.eqb_refl in Hi. mstep_in Hi.
    assert (e_heap e !! h = Some (mk_hnd (h_func y) (h_priv y) v None)) as Heh.
    { subst e. cbn [e_heap]. by rewrite lookup_insert_eq, Hnext. }
    pose proof (handle_single (call_hnd acc_ops ext (S n) hart t) v h e q1 _ r e' q' _ Heh eq_refl
      (eq_trans (call_hnd_ext _ _ _ _ _ _ _ _ Hown) Hext) (eq_trans Eh Heh) eq_refl) as Hs.
    rewrite Hs in Hi. unfold trap.
    rewrite (trap_to_child _ _ _ _ _ _ _ _ _ _ _ _ _ _ Hw' Hm Hi) by (rewrite Ep, Hhp'; eauto).
    by destruct (r =? EVENT_HANDLED).
  - intros Hne Hnone. rewrite (proj2 (Z.eqb_neq _ _) Hne), (Hnone p Hp) in Hi. mstep_in Hi.
    unfold trap. by rewrite (trap_to_child _ _ _ _ _ _ _ _ _ _ _ _ _ _ Hw' Hm Hi) by (rewrite Hhp'; eauto).
  - intros Hge. rewrite (proj2 (Z.eqb_neq v' v)), (proj2 (zget_None _ _)) in Hi by lia. mstep_in Hi.
    unfold trap. by eapply trap_to_child_undef.
Qed.
End Delivery.

(** A PLIC, device 10 with driver 5, whose handler 0 is on the list 100 of a CPU, and the
    handler 1 of a device. *)
Definition demo_plic_dev : k_device :=
  mk_device (Some "plic"%string) "sifive" "plic0" None (Some 5) None None None 0xc000000 0x2000000 0xc000000 true false.
Definition demo_irq_tree : devtree := mk_tree ∅ {[ 10 := demo_plic_dev ]} ∅ 1.
Definition demo_irq_events : events :=
  mk_events {[ 0 := mk_hnd FN_intc_plic_intr 10 RV_CAUSE_INT_EX None; 1 := mk_hnd 9 77 0 None;
    100 := mk_hnd FN_intc_priv_intr 20 0 (Some 0) ]} [1; 1].
Definition demo_irq : irq regfile :=
  mk_irq two_cpus (replicate 11 None ++ [Some 100]) (replicate 16 None) ∅
    {[ 10 := mk_plic_priv 64 64 (replicate 64 None) ]} ∅ None ∅ ∅ {[ 0 := 0x800 ]} ∅.
Definition no_acc (d : Z) : option (k_device_driver_ops regfile) := None.
Definition demo_intc_ops (d : Z) : option (k_intc_driver_ops regfile) :=
  if d =? 5 then Some (@intc_plic_intc_ops rv64 _ _ no_acc) else None.
Definition demo_ext (f event h : Z) (e : events) (q : irq regfile) : exec (Z * events * irq regfile) :=
  Ret (EVENT_HANDLED, e, with_io q (<[ 0x9000 := event ]> (q_io q))).

Definition demo_registered : events * irq regfile :=
  match k_intc_add_handler demo_intc_ops (Some 10) 4 (Some 1) demo_irq_tree demo_irq_events demo_irq with
  | Ret (_, e, q) => (e, q)
  | _ => (demo_irq_events, demo_irq)
  end.

Lemma demo_wired : irq_wired demo_irq_events demo_irq RV_CAUSE_INT_EX 100 0 FN_intc_plic_intr 10.
Proof. constructor; [done|by left| |done]. eexists. split; [vm_compute; reflexivity|done]. Qed.

(** Source 4 is pending: the interrupt reaches the handler 1 and its pending bit is cleared. *)
Lemma plic_handler_receives_witness :
  ∃ q', @k_arch_riscv_interrupt regfile (@call_hnd rv64 _ _ no_acc demo_ext 3 0 demo_irq_tree) 0 (2 ^ 63 + 11)
      demo_registered.1 (with_io demo_registered.2 {[ 0xc200004 := 4 ]}) = Ret (0, demo_registered.1, q') ∧
    q_io q' !! 0x9000 = Some 4 ∧ csr (q_mip q') 0 = 0.
Proof.
  assert (k_intc_add_handler demo_intc_ops (Some 10) 4 (Some 1) demo_irq_tree demo_irq_events demo_irq =
    Ret (0, demo_registered.1, demo_registered.2)) as Hreg by (vm_compute; reflexivity).
  assert (∀ p, q_plic demo_irq !! 10 = Some p → zlen (plic_hnd p) = PLIC_SOURCES_MAX) as Hlen
    by (intros p Hp; change (Some (mk_plic_priv 64 64 (replicate 64 None)) = Some p) in Hp; by injection Hp as <-).
  destruct (@plic_handler_receives rv64 regfile _ demo_intc_ops no_acc demo_ext demo_irq_tree demo_irq_events demo_irq
    10 4 1 _ _ 5 demo_plic_dev 100 0 (mk_hnd 9 77 0 None) 0 0 (2 ^ 63 + 11) {[ 0xc200004 := 4 ]} {[ 0xc200004 := 4 ]} 4
    eq_refl eq_refl eq_refl Hreg Hlen demo_wired ltac:(done) ltac:(done) eq_refl eq_refl
    ltac:(unfold own_func; cbn; lia) eq_refl eq_refl) as [H1 _].
  eexists. split; [exact (H1 eq_refl EVENT_HANDLED _ _ eq_refl eq_refl eq_refl)|].
  split; vm_compute; reflexivity.
Defined.

(** ** Well-formed handlers and controllers *)

(** The pointers of the handlers lead to elements of the pool and never in a circle. *)
Definition in_pool `{Config} (h : Z) : Prop := 0 <= h < CONFIG_MAX_EVENT_HANDLERS.

Record hnds_ok `{Config} (e : events) : Prop := {
  ho_next h x n : e_heap e !! h = Some x → h_next x = Some n → in_pool n ∧ is_Some (e_heap e !! n);
  ho_list h : is_Some (e_heap e !! h) → ∃ l, hlist e (Some h) (h :: l)
}.

(** The bits [has_] say whether the list has a handler behind its head. *)
Definition next_bit (e : events) (h : Z) : Z :=
  match e_heap e !! h ≫= h_next with Some _ => 1 | None => 0 end.

Record rv_ok `{Config} (e : events) (p : intc_priv_priv) : Prop := {
  ro_heads c : is_Some (e_heap e !! head_of p c) ∧ ¬ in_pool (head_of p c);
  ro_has : (has_ex p, has_tm p, has_sw p) = (next_bit e (hnd_ex p), next_bit e (hnd_tm p), next_bit e (hnd_sw p))
}.

Definition entries_ok (e : events) (l : list (option Z)) : Prop := ∀ h, Some h ∈ l → is_Some (e_heap e !! h).

Record irq_ok `{Config} {W} (e : events) (q : irq W) : Prop := {
  io_hnds : hnds_ok e;
  io_int : zlen (k_int_handlers q) = RV_CAUSE_INT_MAX_NUM ∧ entries_ok e (k_int_handlers q);
  io_exc : zlen (k_exc_handlers q) = RV_CAUSE_EXC_MAX_NUM ∧ entries_ok e (k_exc_handlers q);
  io_rv dev p : q_rv q !! dev = Some p → rv_ok e p;
  io_heads dev1 dev2 p1 p2 c1 c2 : q_rv q !! dev1 = Some p1 → q_rv q !! dev2 = Some p2 →
    head_of p1 c1 = head_of p2 c2 → dev1 = dev2 ∧ c1 = c2;
  io_plic dev p : q_plic q !! dev = Some p →
    zlen (plic_hnd p) = PLIC_SOURCES_MAX ∧ entries_ok e (plic_hnd p)
}.

Section Typing.
Context `{Arch} `{Config}.

Lemma list_pool e h l z : hnds_ok e → hlist e (Some h) (h :: l) → z ∈ l → in_pool z.
Proof.
  intros Ho. revert h. induction l as [|z' l IH]; intros h Hl Hz; [by apply elem_of_nil in Hz|].
  inversion Hl as [|? x ? Hx Hn]; simplify_eq. inversion Hn as [|? x' ? Hx' Hn' E]; simplify_eq.
  apply elem_of_cons in Hz as [->|Hz].
  - by destruct (ho_next _ Ho h x z').
  - apply (IH z'); [by econstructor|done].
Qed.

(** Giving one handler another successor that does not lead back to it. *)
Lemma hnds_relink e p x y l' :
  hnds_ok e → e_heap e !! p = Some x → hlist e (h_next y) l' → p ∉ l' →
  (∀ n, h_next y = Some n → in_pool n) →
  hnds_ok (mk_events (<[p := y]> (e_heap e)) (e_stat e)).
Proof.
  intros [Hn Hl] Hp Hl' Hnp Hpool. split.
  - cbn [e_heap]. intros h z n Hz Hzn. destruct (decide (h = p)) as [->|Hne].
    + rewrite lookup_insert_eq in Hz. simplify_eq. split; [by apply Hpool|].
      rewrite Hzn in Hl'. inversion Hl'; simplify_eq.
      destruct (decide (n = p)) as [->|?]; [by rewrite lookup_insert_eq|]. rewrite lookup_insert_ne by done. eauto.
    + rewrite lookup_insert_ne in Hz by done. destruct (Hn _ _ _ Hz Hzn) as [? ?]. split; [done|].
      destruct (decide (n = p)) as [->|?]; [by rewrite lookup_insert_eq|]. by rewrite lookup_insert_ne.
  - intros h Hh. assert (is_Some (e_heap e !! h)) as Hh'.
    { cbn [e_heap] in Hh. destruct (decide (h = p)) as [->|?]; [eauto|]. by rewrite lookup_insert_ne in Hh. }
    destruct (Hl h Hh') as [l Hhl]. destruct (decide (p ∈ h :: l)) as [Hin|Hnin].
    + apply list_elem_of_split in Hin as (l1 & l2 & E). rewrite E in Hhl.
      pose proof (hlist_cut e (Some h) l1 p l2 x (mk_hnd 0 0 0 None) Hhl Hp eq_refl) as Hc.
      pose proof (hlist_relink _ _ _ _ _ y l' Hc ltac:(cbn [e_heap]; by rewrite lookup_insert_eq)) as Hr.
      cbn [e_heap e_stat] in Hr. rewrite insert_insert_eq in Hr.
      assert (hlist (mk_events (<[p := y]> (e_heap e)) (e_stat e)) (Some h) (l1 ++ p :: l')) as Hres.
      { apply Hr. by apply hlist_frame. }
      destruct l1 as [|a l1]; simpl in *; simplify_eq; eauto.
    + exists l. by apply hlist_frame.
Qed.

(** What a change of the list of [a] may do: the objects stay, and only elements of the
    pool and [a] itself change. *)
Record ev_step (e e' : events) (a : Z) : Prop := {
  es_ok : hnds_ok e';
  es_dom h : is_Some (e_heap e' !! h) ↔ is_Some (e_heap e !! h);
  es_rest h : ¬ in_pool h → h ≠ a → e_heap e' !! h = e_heap e !! h
}.

Lemma ev_step_trans e1 e2 e3 a : ev_step e1 e2 a → ev_step e2 e3 a → ev_step e1 e3 a.
Proof.
  intros [_ Hd1 Hr1] [Ho Hd2 Hr2]. split; [done| |].
  - intros h. by rewrite Hd2, Hd1.
  - intros h Hp Hne. by rewrite Hr2, Hr1.
Qed.

Lemma ev_step_insert e p x y l' a :
  hnds_ok e → e_heap e !! p = Some x → hlist e (h_next y) l' → p ∉ l' →
  (∀ n, h_next y = Some n → in_pool n) → in_pool p ∨ p = a →
  ev_step e (mk_events (<[p := y]> (e_heap e)) (e_stat e)) a.
Proof.
  intros Ho Hp Hl Hn Hpool Ha. split.
  - by eapply hnds_relink.
  - intros h. cbn [e_heap]. destruct (decide (h = p)) as [->|?].
    + rewrite lookup_insert_eq, Hp. split; eauto.
    + by rewrite lookup_insert_ne.
  - intros h Hnp Hne. cbn [e_heap]. rewrite lookup_insert_ne; [done|]. intros ->. destruct Ha; done.
Qed.

Lemma set_next_None_step e h y a :
  hnds_ok e → e_heap e !! h = Some y → in_pool h →
  ∃ e', set_next e h None = Ret e' ∧ ev_step e e' a.
Proof.
  intros Ho Hy Hp. rewrite (set_next_Some _ _ y) by done. eexists. split; [done|].
  eapply (ev_step_insert _ _ _ _ []); [done|done|constructor|apply not_elem_of_nil|done|by left].
Qed.

Lemma set_event_step e h y a event :
  hnds_ok e → e_heap e !! h = Some y → in_pool h →
  ∃ e', set_hnd_event e h event = Ret e' ∧ ev_step e e' a.
Proof.
  intros Ho Hy Hp. unfold set_hnd_event, get_hnd. rewrite Hy. mstep. eexists. split; [done|].
  destruct (ho_list _ Ho h) as [l Hl]; [eauto|]. pose proof (hlist_nodup _ _ _ Hl) as Hnd.
  inversion Hl; simplify_eq. apply NoDup_cons in Hnd as [Hnd _].
  eapply ev_step_insert; [done|done|cbn [h_next]; eassumption|done| |by left].
  cbn [h_next]. intros n Hn. by eapply ho_next.
Qed.

Lemma add_handler_step e a h y :
  hnds_ok e → is_Some (e_heap e !! a) → e_heap e !! h = Some y → in_pool h →
  ∃ e', k_event_add_handler e (Some a) (Some h) = Ret (0, e') ∧ ev_step e e' a.
Proof.
  intros Ho Ha Hy Hp. destruct (ho_list _ Ho a Ha) as [l Hl].
  destruct (exists_last (l := a :: l)) as (l0 & z & El); [done|]. rewrite El in Hl.
  destruct (hlist_dom _ _ _ z Hl) as [x Hx]; [apply elem_of_app; right; left|].
  rewrite (add_handler_eq e a l0 z h x y Hl Hx Hy). eexists. split; [done|].
  destruct (set_next_None_step e h y a Ho Hy Hp) as (e1 & E1 & H1). rewrite (set_next_Some _ _ y) in E1 by done.
  injection E1 as <-. destruct (decide (h = z)) as [->|Hne]; [by rewrite insert_insert_eq|].
  eapply ev_step_trans; [exact H1|]. rewrite insert_insert_ne by done.
  eapply (ev_step_insert (mk_events _ _) z x _ [h]); cbn [e_heap h_next].
  - by apply H1.
  - by rewrite lookup_insert_ne.
  - econstructor; [cbn [e_heap]; by rewrite lookup_insert_eq|constructor].
  - apply not_elem_of_cons. split; [done|apply not_elem_of_nil].
  - intros n [= <-]. done.
  - assert (z ∈ a :: l) as Hz by (rewrite El; apply elem_of_app; right; left).
    apply elem_of_cons in Hz as [->|Hz]; [by right|left]. rewrite <- El in Hl. by eapply list_pool.
Qed.

Lemma remove_handler_step e a h y :
  hnds_ok e → is_Some (e_heap e !! a) → e_heap e !! h = Some y →
  k_event_remove_handler e (Some a) (Some h) = Ret (- EINVAL, e) ∨
  ∃ e', k_event_remove_handler e (Some a) (Some h) = Ret (0, e') ∧ ev_step e e' a.
Proof.
  intros Ho Ha Hy. destruct (ho_list _ Ho a Ha) as [l Hl]. pose proof (hlist_length _ _ _ Hl) as Hlen.
  unfold k_event_remove_handler. destruct (decide (h ∈ l)) as [Hin|Hnin].
  - right. apply list_elem_of_split in Hin as (l1 & l2 & ->).
    destruct (exists_last (l := a :: l1)) as (l0 & p & El); [done|].
    assert (hlist e (Some a) (l0 ++ p :: h :: l2)) as Hl'.
    { change (a :: l1 ++ h :: l2) with ((a :: l1) ++ h :: l2) in Hl. by rewrite El, <- app_assoc in Hl. }
    rewrite (prev_handler_ok e l0 p h l2 _ _ Hl').
    2:{ apply (f_equal length) in El. rewrite length_app in El. simpl in *. rewrite length_app in Hlen. simpl in Hlen.
        unfold evt_fuel. lia. }
    mstep. unfold get_hnd. rewrite Hy. mstep.
    pose proof (hlist_suffix _ _ _ _ _ Hl') as Hs. inversion Hs as [|? xp ? Hxp Hnp]; simplify_eq.
    inversion Hnp as [|? xh ? Hxh Hnh E]; simplify_eq.
    rewrite (set_next_Some _ _ xp) by done. mstep. eexists. split; [done|].
    pose proof (hlist_nodup _ _ _ Hs) as Hnd. apply NoDup_cons in Hnd as [Hnd _].
    apply not_elem_of_cons in Hnd as [_ Hnd].
    eapply ev_step_insert; [done|done|cbn [h_next]; exact Hnh|done| |].
    + cbn [h_next]. intros n Hn. by destruct (ho_next _ Ho h _ n Hy Hn).
    + assert (p ∈ a :: l1) as Hz by (rewrite El; apply elem_of_app; right; left).
      apply elem_of_cons in Hz as [->|Hz]; [by right|left].
      eapply list_pool; [done|exact Hl|]. apply elem_of_app. by left.
  - left. rewrite (prev_handler_none e h (a :: l)); [done|done|done|].
    unfold evt_fuel. simpl in *. lia.
Qed.

Lemma entries_step e e' a l : ev_step e e' a → entries_ok e l → entries_ok e' l.
Proof. intros Hs Hl h Hh. apply (es_dom _ _ _ Hs). by apply Hl. Qed.

Lemma rv_ok_same e e' p :
  rv_ok e p → (∀ c, e_heap e' !! head_of p c = e_heap e !! head_of p c) → rv_ok e' p.
Proof.
  intros [Hh Hb] Hs. split.
  - intros c. rewrite Hs. apply Hh.
  - rewrite Hb. unfold next_bit. pose proof (Hs ClassEx) as E1. pose proof (Hs ClassTm) as E2.
    pose proof (Hs ClassSw) as E3. cbn [head_of] in E1, E2, E3. by rewrite E1, E2, E3.
Qed.

Context {W : Type}.
Implicit Type q : irq W.

(** A change of elements of the pool only. *)
Lemma irq_ok_pool e e' q a : irq_ok e q → in_pool a → ev_step e e' a → irq_ok e' q.
Proof.
  intros Hq Ha Hs. split.
  - apply Hs.
  - split; [apply Hq|]. eapply entries_step; [done|apply Hq].
  - split; [apply Hq|]. eapply entries_step; [done|apply Hq].
  - intros dev p Hp. pose proof (io_rv _ _ Hq _ _ Hp) as Hr. apply (rv_ok_same e); [done|].
    intros c. destruct (ro_heads _ _ Hr c) as [_ Hn]. apply (es_rest _ _ _ Hs); [done|]. by intros E; rewrite E in Hn.
  - apply Hq.
  - intros dev p Hp. destruct (io_plic _ _ Hq _ _ Hp). split; [done|]. by eapply entries_step.
Qed.

(** A change of one of the lists of a CPU's controller, with the bits brought up to date. *)
Lemma irq_ok_rv e e' q dev p c :
  irq_ok e q → q_rv q !! dev = Some p → ev_step e e' (head_of p c) →
  ∃ p', update_has e' p = Ret p' ∧ irq_ok e' (put_rv q dev p').
Proof.
  intros Hq Hp Hs. pose proof (io_rv _ _ Hq _ _ Hp) as Hr.
  assert (∀ c, is_Some (e_heap e' !! head_of p c)) as Hd by (intros c'; apply (es_dom _ _ _ Hs), Hr).
  destruct (Hd ClassEx) as [x1 E1], (Hd ClassTm) as [x2 E2], (Hd ClassSw) as [x3 E3]. cbn [head_of] in *.
  unfold update_has, k_event_has_next, get_hnd. rewrite E1, E2, E3. mstep. eexists. split; [done|].
  set (p' := rv_set_has p _ _ _). assert (∀ c, head_of p' c = head_of p c) as Hh by (by intros []).
  split; cbn [put_rv k_int_handlers k_exc_handlers q_rv q_plic].
  - apply Hs.
  - split; [apply Hq|]. eapply entries_step; [done|apply Hq].
  - split; [apply Hq|]. eapply entries_step; [done|apply Hq].
  - intros dev2 p2. destruct (decide (dev2 = dev)) as [->|Hne].
    + rewrite lookup_insert_eq. intros [= <-]. split.
      * intros c'. rewrite Hh. split; [apply Hd|apply (ro_heads _ _ Hr)].
      * unfold p', next_bit. cbn [rv_set_has has_ex has_tm has_sw hnd_ex hnd_tm hnd_sw]. rewrite E1, E2, E3. cbn [mbind option_bind]. by destruct (h_next x1), (h_next x2), (h_next x3).
    + rewrite lookup_insert_ne by done. intros Hp2. pose proof (io_rv _ _ Hq _ _ Hp2) as Hr2.
      apply (rv_ok_same e); [done|]. intros c'. apply (es_rest _ _ _ Hs); [apply Hr2|].
      intros E. by destruct (io_heads _ _ Hq _ _ _ _ _ _ Hp2 Hp E).
  - intros dev1 dev2 p1 p2 c1 c2 H1 H2 E.
    assert (∀ d x, <[dev := p']> (q_rv q) !! d = Some x → ∃ y, q_rv q !! d = Some y ∧ ∀ c, head_of x c = head_of y c) as Hold.
    { intros d x. destruct (decide (d = dev)) as [->|?].
      - rewrite lookup_insert_eq. intros [= <-]. eauto.
      - rewrite lookup_insert_ne by done. eauto. }
    destruct (Hold _ _ H1) as (y1 & Hy1 & F1), (Hold _ _ H2) as (y2 & Hy2 & F2).
    rewrite F1, F2 in E. by apply (io_heads _ _ Hq _ _ _ _ _ _ Hy1 Hy2 E).
  - intros d x Hx. destruct (io_plic _ _ Hq _ _ Hx). split; [done|]. by eapply entries_step.
Qed.

(** Fields that the well-formedness does not speak of. *)
Lemma irq_ok_put_rv e q dev p p' :
  irq_ok e q → q_rv q !! dev = Some p → (∀ c, head_of p' c = head_of p c) →
  (has_ex p', has_tm p', has_sw p') = (has_ex p, has_tm p, has_sw p) → irq_ok e (put_rv q dev p').
Proof.
  intros Hq Hp Hh Hb. pose proof (io_rv _ _ Hq _ _ Hp) as Hr.
  assert (∀ d x, <[dev := p']> (q_rv q) !! d = Some x →
    ∃ y, q_rv q !! d = Some y ∧ (∀ c, head_of x c = head_of y c) ∧ (has_ex x, has_tm x, has_sw x) = (has_ex y, has_tm y, has_sw y)) as Hold.
  { intros d x. destruct (decide (d = dev)) as [->|?].
    - rewrite lookup_insert_eq. intros [= <-]. eauto.
    - rewrite lookup_insert_ne by done. eauto. }
  split; cbn [put_rv k_int_handlers k_exc_handlers q_rv q_plic]; try apply Hq.
  - intros d x Hx. destruct (Hold _ _ Hx) as (y & Hy & F & B). pose proof (io_rv _ _ Hq _ _ Hy) as [R1 R2].
    pose proof (F ClassEx). pose proof (F ClassTm). pose proof (F ClassSw). cbn [head_of] in *. split.
    + intros c. rewrite F. apply R1.
    + congruence.
  - intros dev1 dev2 p1 p2 c1 c2 H1 H2 E.
    destruct (Hold _ _ H1) as (y1 & Hy1 & F1 & _), (Hold _ _ H2) as (y2 & Hy2 & F2 & _).
    rewrite F1, F2 in E. by apply (io_heads _ _ Hq _ _ _ _ _ _ Hy1 Hy2 E).
Qed.

Lemma irq_ok_plic e q dev p p' w :
  irq_ok e q → q_plic q !! dev = Some p → zlen (plic_hnd p') = PLIC_SOURCES_MAX → entries_ok e (plic_hnd p') →
  irq_ok e (with_io (put_plic q dev p') w).
Proof.
  intros Hq Hp Hl He. split; cbn [with_io put_plic k_int_handlers k_exc_handlers q_rv q_plic]; try apply Hq.
  intros d x. destruct (decide (d = dev)) as [->|?].
  - rewrite lookup_insert_eq. by intros [= <-].
  - rewrite lookup_insert_ne by done. apply Hq.
Qed.
End Typing.

Section Typed.
Context `{Arch} `{Config} {W : Type} `{Mmio W}.
Variable intc_ops : Z → option (k_intc_driver_ops W).
Variable acc_ops : Z → option (k_device_driver_ops W).

(** A device that is a controller: the operations of its driver fit its private data. *)
Inductive controller (t : devtree) (q : irq W) (dev : Z) : Prop :=
| ctl_rv d D p : t_devices t !! dev = Some d → dev_drv d = Some D →
    intc_ops D = Some intc_priv_intc_ops → q_rv q !! dev = Some p → controller t q dev
| ctl_plic d D p : t_devices t !! dev = Some d → dev_drv d = Some D →
    intc_ops D = Some (intc_plic_intc_ops acc_ops) → q_plic q !! dev = Some p → controller t q dev.

(** The operation returns, and either does its work or refuses and changes nothing. *)
Definition result_ok (e : events) (q : irq W) (x : exec (Z * events * irq W)) : Prop :=
  ∃ r e' q', x = Ret (r, e', q') ∧ irq_ok e' q' ∧ (r = 0 ∨ r = - EINVAL ∧ e' = e ∧ q' = q).

Lemma result_refused e q : irq_ok e q → result_ok e q (Ret (- EINVAL, e, q)).
Proof. intros Hq. exists (- EINVAL), e, q. split; [done|]. split; [done|by right]. Qed.

Lemma rv_add_ok t e q dev p event h y :
  irq_ok e q → q_rv q !! dev = Some p → in_pool h → e_heap e !! h = Some y →
  result_ok e q ('(r, e, q) ← intc_priv_add_handler dev event h t e q;
    if r =? 0 then e ← set_hnd_event e h event; Ret (r, e, q) else Ret (r, e, q)).
Proof.
  intros Hq Hp Hh Hy. unfold intc_priv_add_handler, get_rv. rewrite Hp. mstep.
  destruct (irq_class_of event) as [c|]; mstep; [|by apply result_refused].
  destruct (add_handler_step e (head_of p c) h y) as (e1 & E1 & S1); [apply Hq|apply (io_rv _ _ Hq _ _ Hp)|done..|].
  rewrite E1. mstep. change (truth 0) with false. mstep.
  destruct (irq_ok_rv e e1 q dev p c Hq Hp S1) as (p' & Eu & Hq1). rewrite Eu. mstep. change (0 =? 0) with true. mstep.
  destruct (proj2 (es_dom _ _ _ S1 h)) as [y1 Hy1]; [eauto|].
  destruct (set_event_step e1 h y1 h event) as (e2 & E2 & S2); [by apply S1|done|done|]. rewrite E2. mstep.
  eexists 0, e2, _. split; [done|]. split; [by eapply irq_ok_pool|by left].
Qed.

Lemma rv_remove_ok t e q dev p event h y :
  irq_ok e q → q_rv q !! dev = Some p → in_pool h → e_heap e !! h = Some y →
  result_ok e q ('(r, e, q) ← intc_priv_remove_handler dev event h t e q;
    if r =? 0 then e ← set_next e h None; Ret (r, e, q) else Ret (r, e, q)).
Proof.
  intros Hq Hp Hh Hy. unfold intc_priv_remove_handler, get_rv. rewrite Hp. mstep.
  destruct (irq_class_of event) as [c|]; mstep; [|by apply result_refused].
  destruct (remove_handler_step e (head_of p c) h y) as [E|(e1 & E1 & S1)];
    [apply Hq|apply (io_rv _ _ Hq _ _ Hp)|done|rewrite E; mstep; by apply result_refused|].
  rewrite E1. mstep. change (truth 0) with false. mstep.
  destruct (irq_ok_rv e e1 q dev p c Hq Hp S1) as (p' & Eu & Hq1). rewrite Eu. mstep. change (0 =? 0) with true. mstep.
  destruct (proj2 (es_dom _ _ _ S1 h)) as [y1 Hy1]; [eauto|].
  destruct (set_next_None_step e1 h y1 h) as (e2 & E2 & S2); [by apply S1|done|done|]. rewrite E2. mstep.
  eexists 0, e2, _. split; [done|]. split; [by eapply irq_ok_pool|by left].
Qed.

Lemma entries_set e l i o l' :
  entries_ok e l → (∀ h, o = Some h → is_Some (e_heap e !! h)) → zset l i o = Some l' → entries_ok e l'.
Proof.
  intros Hl Ho [_ ->]%zset_Some h Hin. apply list_elem_of_lookup in Hin as [k Hk].
  apply list_lookup_insert_Some in Hk as [(_ & -> & _)|[_ Hk]]; [by apply Ho|].
  apply Hl. by eapply list_elem_of_lookup_2.
Qed.

(** A write of a table entry, with the range of the table known. *)
Lemma entry_write e l i o n :
  entries_ok e l → zlen l = n → 0 <= i < n → (∀ h, o = Some h → is_Some (e_heap e !! h)) →
  ∃ l', zset l i o = Some l' ∧ zlen l' = n ∧ entries_ok e l'.
Proof.
  intros He Hl Hi Ho. assert (∃ l', zset l i o = Some l') as [l' E] by (rewrite zset_in by lia; eauto).
  exists l'. split; [done|]. split; [rewrite (zset_length _ _ _ _ E); lia|by eapply entries_set].
Qed.

Lemma enable_eq t dev d event q : t_devices t !! dev = Some d →
  ∃ w, intc_plic_enable_interrupt acc_ops t dev event 0 q = Ret (0, with_io q w).
Proof.
  intros Hd. unfold intc_plic_enable_interrupt, write32, read32, get_device. rewrite Hd. mstep.
  destruct (k_device_read32 _ _ _ _) as [tmp w1]. mstep. by eexists.
Qed.

Lemma disable_eq t dev d event q : t_devices t !! dev = Some d →
  ∃ w, intc_plic_disable_interrupt acc_ops t dev event 0 q = Ret (0, with_io q w).
Proof.
  intros Hd. unfold intc_plic_disable_interrupt, write32, read32, get_device. rewrite Hd. mstep.
  destruct (k_device_read32 _ _ _ _) as [tmp w1]. mstep. by eexists.
Qed.

Lemma plic_add_ok t e q dev d p event h y :
  irq_ok e q → t_devices t !! dev = Some d → q_plic q !! dev = Some p → in_pool h → e_heap e !! h = Some y →
  result_ok e q ('(r, e, q) ← intc_plic_add_handler acc_ops dev event h t e q;
    if r =? 0 then e ← set_hnd_event e h event; Ret (r, e, q) else Ret (r, e, q)).
Proof.
  intros Hq Hd Hp Hh Hy. unfold intc_plic_add_handler. rewrite Hp. destruct (io_plic _ _ Hq _ _ Hp) as [Hl He].
  destruct ((event <? 0) || (PLIC_SOURCES_MAX <=? event)) eqn:Ev; mstep; [by apply result_refused|]. bsplit.
  destruct (zget_is_Some (plic_hnd p) event) as [old Eo]; [lia|]. rewrite Eo. mstep.
  case_bool_decide; mstep; [by apply result_refused|].
  destruct (entry_write e (plic_hnd p) event (Some h) _ He Hl ltac:(lia)) as (l & El & Hl' & He'); [naive_solver|].
  unfold plic_set_hnd. rewrite El. mstep.
  destruct (enable_eq t dev d event (put_plic q dev (mk_plic_priv (n_event p) (n_ctx p) l)) Hd) as [w ->]. mstep.
  change (0 =? 0) with true. mstep.
  destruct (set_event_step e h y h event) as (e1 & E1 & S1); [apply Hq|done..|]. rewrite E1. mstep.
  eexists 0, e1, _. split; [done|]. split; [|by left].
  eapply irq_ok_pool; [by eapply irq_ok_plic|done..].
Qed.

Lemma plic_remove_ok t e q dev d p event h y :
  irq_ok e q → t_devices t !! dev = Some d → q_plic q !! dev = Some p → in_pool h → e_heap e !! h = Some y →
  result_ok e q ('(r, e, q) ← intc_plic_remove_handler acc_ops dev event h t e q;
    if r =? 0 then e ← set_next e h None; Ret (r, e, q) else Ret (r, e, q)).
Proof.
  intros Hq Hd Hp Hh Hy. unfold intc_plic_remove_handler. rewrite Hp. destruct (io_plic _ _ Hq _ _ Hp) as [Hl He].
  destruct ((event <? 0) || (PLIC_SOURCES_MAX <=? event)) eqn:Ev; mstep; [by apply result_refused|]. bsplit.
  destruct (zget_is_Some (plic_hnd p) event) as [old Eo]; [lia|]. rewrite Eo. mstep.
  case_bool_decide; mstep; [by apply result_refused|].
  destruct (disable_eq t dev d event q Hd) as [w ->]. mstep. change (truth 0) with false. mstep.
  destruct (entry_write e (plic_hnd p) event None _ He Hl ltac:(lia)) as (l & El & Hl' & He'); [done|].
  unfold plic_set_hnd. rewrite El. mstep. change (0 =? 0) with true. mstep.
  destruct (set_next_None_step e h y h) as (e1 & E1 & S1); [apply Hq|done..|]. rewrite E1. mstep.
  eexists 0, e1, _. split; [done|]. split; [|by left]. eapply irq_ok_pool; [|done..].
  exact (irq_ok_plic e q dev p (mk_plic_priv (n_event p) (n_ctx p) l) w Hq Hp Hl' He').
Qed.

(** C14: the controllers keep their data well-formed. With handler lists that stay inside
    of the pool and end, tables of their length, and bits [has_] that say which lists
    are not empty, adding or removing any handler of the pool at a controller of either
    kind, for any event number, returns: it either does its work or is [-EINVAL] and
    changes nothing, and the data is well-formed again. Enabling and disabling an
    interrupt, and installing the handler of a cause, keep it so as well. *)
Theorem k_intc_handlers_typed t e q dev event h y (Hq : irq_ok e q) (Hc : controller t q dev)
    (Hh : in_pool h) (Hy : e_heap e !! h = Some y) (Hf : h_func y ≠ 0) :
  result_ok e q (k_intc_add_handler intc_ops (Some dev) event (Some h) t e q) ∧
  result_ok e q (k_intc_remove_handler intc_ops (Some dev) event (Some h) t e q) ∧
  (∀ v p, q_rv q !! dev = Some p → ∃ r q', set_enabled v dev event q = Ret (r, q') ∧ irq_ok e q') ∧
  (∃ r q', k_arch_riscv_set_intr_handler q event (Some h) = Ret (r, q') ∧ irq_ok e q').
Proof.
  unfold k_intc_add_handler, k_intc_remove_handler, k_device_get_drv, get_device, get_hnd.
  split; [|split; [|split]].
  - destruct Hc as [d D p Hd HD Ho Hp|d D p Hd HD Ho Hp]; rewrite Hd; mstep; rewrite Hy; mstep;
      rewrite (proj2 (Z.eqb_neq _ _) Hf), HD; cbn [mbind option_bind]; rewrite Ho.
    + by eapply rv_add_ok.
    + by eapply plic_add_ok.
  - destruct Hc as [d D p Hd HD Ho Hp|d D p Hd HD Ho Hp]; rewrite Hd; mstep; rewrite Hy; mstep;
      rewrite (proj2 (Z.eqb_neq _ _) Hf), HD; cbn [mbind option_bind]; rewrite Ho.
    + by eapply rv_remove_ok.
    + by eapply plic_remove_ok.
  - intros v p Hp. unfold set_enabled, get_rv. rewrite Hp. mstep.
    destruct (irq_class_of event) as [[| |]|]; eexists _, _; (split; [done|]); try done;
      by (eapply irq_ok_put_rv; [done|exact Hp|intros []; done|done]).
  - unfold k_arch_riscv_set_intr_handler. destruct (int_event event) eqn:Ei; [|by eexists _, _].
    destruct (io_int _ _ Hq) as [Hl He].
    destruct (entry_write e (k_int_handlers q) event (Some h) _ He Hl) as (l & -> & Hl' & He'); [|naive_solver|].
    + unfold int_event, RV_CAUSE_INT_MAX_NUM in *. apply existsb_exists in Ei as (z & Hz & ->%Z.eqb_eq).
      simpl in Hz. lia.
    + mstep. eexists _, _. split; [done|]. split; try apply Hq. done.
Qed.
End Typed.

(** A CPU's controller, device 20 with driver 4 and the lists 100 to 102. *)
Definition demo_rv : intc_priv_priv := mk_rv_priv (Some 30) 100 101 102 103 104 1 1 0 1 0 1.
Definition demo_rv_events : events :=
  mk_events {[ 0 := mk_hnd FN_intc_plic_intr 10 RV_CAUSE_INT_EX None; 1 := mk_hnd 9 77 0 None;
    100 := mk_hnd FN_intc_priv_intr 20 0 (Some 0); 101 := mk_hnd FN_intc_priv_intr 20 0 None;
    102 := mk_hnd FN_intc_priv_intr 20 0 None ]} [1; 1].
Definition demo_rv_irq : irq regfile :=
  mk_irq two_cpus (replicate 11 None ++ [Some 100]) (replicate 16 None) {[ 20 := demo_rv ]}
    {[ 10 := mk_plic_priv 64 64 (replicate 64 None) ]} ∅ None ∅ ∅ ∅ ∅.
Definition demo_rv_tree : devtree :=
  mk_tree ∅ {[ 20 := mk_device (Some "rvintc0"%string) "riscv" "priv1_10" None (Some 4) None None None 0 0 0 true false ]} ∅ 1.
Definition demo_rv_ops (d : Z) : option (k_intc_driver_ops regfile) :=
  if d =? 4 then Some intc_priv_intc_ops else None.

Lemma demo_rv_heap h x : e_heap demo_rv_events !! h = Some x →
  h = 0 ∧ h_next x = None ∨ h = 1 ∧ h_next x = None ∨ h = 100 ∧ h_next x = Some 0 ∨
  h = 101 ∧ h_next x = None ∨ h = 102 ∧ h_next x = None.
Proof.
  unfold demo_rv_events. cbn [e_heap]. intros Hx.
  repeat (apply lookup_insert_Some in Hx as [[<- <-]|[_ Hx]]; [cbn; tauto|]).
  apply lookup_singleton_Some in Hx as [<- <-]. cbn. tauto.
Qed.

Lemma demo_entries l : (∀ h, Some h ∈ l → h = 100) → entries_ok demo_rv_events l.
Proof. intros Hl h ->%Hl. vm_compute. by eexists. Qed.

Lemma demo_rv_ok : @irq_ok qemu_virt regfile demo_rv_events demo_rv_irq.
Proof.
  split.
  - split.
    + intros h x n Hx Hn. apply demo_rv_heap in Hx as [[-> E]|[[-> E]|[[-> E]|[[-> E]|[-> E]]]]]; simplify_eq.
      split; [unfold in_pool; cbn; lia|by eexists].
    + intros h [x Hx]. destruct (demo_rv_heap h x Hx) as [[-> E]|[[-> E]|[[-> E]|[[-> E]|[-> E]]]]].
      3: { exists [0]. econstructor; [exact Hx|]. rewrite E. econstructor; [by vm_compute|constructor]. }
      all: exists []; econstructor; [exact Hx|]; rewrite E; constructor.
  - split; [done|]. apply demo_entries. intros h Hh. vm_compute in Hh.
    repeat (apply elem_of_cons in Hh as [Hh|Hh]; [by simplify_eq|]). by apply elem_of_nil in Hh.
  - split; [done|]. apply demo_entries. intros h Hh. vm_compute in Hh.
    repeat (apply elem_of_cons in Hh as [Hh|Hh]; [by simplify_eq|]). by apply elem_of_nil in Hh.
  - intros dev p Hp. cbn [q_rv demo_rv_irq] in Hp. apply lookup_singleton_Some in Hp as [<- <-]. split; [|done].
    intros []; (split; [vm_compute; by eexists|unfold in_pool; cbn; lia]).
  - intros dev1 dev2 p1 p2 c1 c2 H1 H2. cbn [q_rv demo_rv_irq] in H1, H2.
    apply lookup_singleton_Some in H1 as [<- <-]. apply lookup_singleton_Some in H2 as [<- <-].
    by destruct c1, c2.
  - intros dev p Hp. cbn [q_plic demo_rv_irq] in Hp. apply lookup_singleton_Some in Hp as [<- <-].
    split; [done|]. apply demo_entries.
    intros h Hh. apply list_elem_of_lookup in Hh as [i Hi].
    apply lookup_replicate in Hi as [Hi _]. done.
Qed.

Lemma k_intc_handlers_typed_witness :
  @result_ok qemu_virt regfile demo_rv_events demo_rv_irq
    (k_intc_add_handler demo_rv_ops (Some 20) RV_IX_TIX (Some 1) demo_rv_tree demo_rv_events demo_rv_irq).
Proof.
  apply (@k_intc_handlers_typed rv64 qemu_virt regfile _ demo_rv_ops no_acc demo_rv_tree demo_rv_events demo_rv_irq
    20 RV_IX_TIX 1 (mk_hnd 9 77 0 None) demo_rv_ok).
  - by eapply (ctl_rv _ _ _ _ _ _ 4 demo_rv).
  - unfold in_pool. cbn. lia.
  - reflexivity.
  - cbn. lia.
Defined.

(** ** Interrupts between CPUs *)

(** C25: an interrupt from one CPU to another through the CLINT. The running CPU raises
    it by setting the bit of the other hart and no other register; a CPU that is not the
    running one is refused as the source. When the software interrupt is taken on the
    other hart, whatever the registers hold by then, its trap clears the bit of that
    hart and no other register, and its pending bit. *)
Theorem k_intc_raise_ipi_delivered `{Arch} (intc_ops : Z → option (k_intc_driver_ops regfile)) acc_ops ext
    t e (q : irq regfile) clint d D src dest x y hart hx hc n mcause
    (Hipi : intc_ipi q = Some clint) (Hd : t_devices t !! clint = Some d) (HD : dev_drv d = Some D)
    (Hops : intc_ops D = Some (intc_clint_intc_ops acc_ops)) (Hv : dev_virt d ≠ 0)
    (Hx : k_cpu_objs (q_kern q) !! src = Some x) (Hy : k_cpu_objs (q_kern q) !! dest = Some y)
    (Hw : irq_wired e q RV_CAUSE_INT_SW hx hc FN_intc_clint_intr clint)
    (Hm : Z.land mcause 0x7fffffff = RV_CAUSE_INT_SW) :
  let msip := usize (dev_virt d + REG_MSIP (id_phys y)) in
  k_intc_raise_ipi intc_ops hart src dest t q =
    (if hart =? id_phys x then Ret (0, with_io q (<[msip := 1]> (q_io q))) else Ret (- EINVAL, q)) ∧
  ∀ w, k_arch_riscv_interrupt (call_hnd acc_ops ext (S (S n)) (id_phys y) t) (id_phys y) mcause e (with_io q w) =
    Ret (0, e, put_mip (with_io q (<[msip := 0]> w)) (id_phys y)
                 (clear (csr (q_mip q) (id_phys y)) (BIT RV_CAUSE_INT_SW))).
Proof.
  intros msip. split.
  - unfold k_intc_raise_ipi, k_device_get_drv, get_device. rewrite Hipi, Hd. mstep. rewrite HD.
    cbn [mbind option_bind]. rewrite Hops. cbn [mbind option_bind iop_raise_ipi intc_clint_intc_ops].
    unfold intc_clint_raise_ipi, k_cpu_get_id_phys, get_cpu. rewrite Hy, Hx. mstep.
    destruct (hart =? id_phys x); [|done]. cbn [negb]. unfold write32, get_device. rewrite Hd. mstep.
    by rewrite write32_reg.
  - intros w. assert (irq_wired e (with_io q w) RV_CAUSE_INT_SW hx hc FN_intc_clint_intr clint) as Hw'
      by (by destruct Hw).
    pose proof (iw_child _ _ _ _ _ _ _ Hw') as Hc.
    assert (intc_clint_intr acc_ops (id_phys y) t RV_CAUSE_INT_SW hc e (with_io q w) =
      Ret (EVENT_HANDLED, e, with_io q (<[msip := 0]> w))) as Hi.
    { unfold intc_clint_intr, get_hnd. rewrite Hc. mstep. change (RV_CAUSE_INT_SW =? RV_IX_MSIX) with true.
      unfold write32, get_device. cbn [h_priv]. rewrite Hd. mstep. by rewrite write32_reg. }
    rewrite <- (call_hnd_clint acc_ops ext n) in Hi.
    rewrite (trap_to_child acc_ops ext _ _ _ _ _ _ _ _ _ _ _ _ _ _ Hw' Hm Hi) by (rewrite Hc; eauto). done.
Qed.

(** The second hart is interrupted by the first through the CLINT, device 12 with driver 6. *)
Definition demo_ipi_tree : devtree :=
  mk_tree ∅ {[ 12 := mk_device (Some "clint"%string) "sifive" "clint0" None (Some 6) None None None
    0x2000000 0x1000 0x2000000 true false ]} ∅ 1.
Definition demo_ipi_events : events :=
  mk_events {[ 0 := mk_hnd FN_intc_clint_intr 12 RV_CAUSE_INT_SW None; 102 := mk_hnd FN_intc_priv_intr 20 0 (Some 0) ]} [1].
Definition demo_ipi : irq regfile :=
  mk_irq two_cpus (replicate 3 None ++ [Some 102] ++ replicate 8 None) (replicate 16 None) ∅ ∅ {[ 12 ]} (Some 12)
    ∅ ∅ {[ 1 := 8 ]} ∅.
Definition demo_ipi_ops (d : Z) : option (k_intc_driver_ops regfile) :=
  if d =? 6 then Some (@intc_clint_intc_ops rv64 _ _ no_acc) else None.

Lemma k_intc_raise_ipi_delivered_witness :
  k_intc_raise_ipi demo_ipi_ops 0 10 11 demo_ipi_tree demo_ipi = Ret (0, with_io demo_ipi {[ 0x2000004 := 1 ]}) ∧
  ∃ q', @k_arch_riscv_interrupt regfile (@call_hnd rv64 _ _ no_acc demo_ext 2 1 demo_ipi_tree) 1 (2 ^ 63 + 3)
      demo_ipi_events (with_io demo_ipi {[ 0x2000004 := 1 ]}) = Ret (0, demo_ipi_events, q') ∧
    q_io q' !! 0x2000004 = Some 0 ∧ csr (q_mip q') 1 = 0.
Proof.
  assert (irq_wired demo_ipi_events demo_ipi RV_CAUSE_INT_SW 102 0 FN_intc_clint_intr 12) as Hw.
  { constructor; [done|by right; right| |done]. eexists. split; [vm_compute; reflexivity|done]. }
  destruct (@k_intc_raise_ipi_delivered rv64 demo_ipi_ops no_acc demo_ext demo_ipi_tree demo_ipi_events demo_ipi
    12 _ 6 10 11 _ _ 0 102 0 0 (2 ^ 63 + 3) eq_refl eq_refl eq_refl eq_refl ltac:(cbn; lia) eq_refl eq_refl Hw eq_refl)
    as [E1 E2].
  split; [exact E1|]. eexists. split; [exact (E2 _)|]. split; vm_compute; reflexivity.
Defined.

(** ** Interrupt enables of a hart *)

(** The interrupts that a controller enables. *)
Definition enables (p : intc_priv_priv) (b : Z) : bool :=
  (b =? RV_IX_SIX) || (b =? RV_IX_TIX) && truth (has_tm p) && truth (enabled_tm p) ||
  (b =? RV_IX_EIX) && truth (has_ex p) && truth (enabled_ex p).

Lemma BIT_testbit n b : 0 <= n → 0 <= b → Z.testbit (BIT n) b = (b =? n).
Proof.
  intros Hn Hb. unfold BIT. rewrite Z.shiftl_1_l. destruct (b =? n) eqn:E; bsplit.
  - subst. by apply Z.pow2_bits_true.
  - apply Z.pow2_bits_false. lia.
Qed.

Lemma intr_mask_bits p b : 0 <= b → Z.testbit (intr_mask p) b = enables p b.
Proof.
  intros Hb. unfold intr_mask, enables, XIX_SIX, XIX_TIX, XIX_EIX, RV_IX_SIX, RV_IX_TIX, RV_IX_EIX, RV_IX_MSIX, RV_IX_MTIX, RV_IX_MEIX.
  destruct (truth (has_ex p)), (truth (enabled_ex p)), (truth (has_tm p)), (truth (enabled_tm p)); cbn [andb];
    rewrite ?Z.lor_spec, ?BIT_testbit, ?Z.testbit_0_l by lia; by destruct (b =? 3), (b =? 7), (b =? 11).
Qed.

Lemma cpu_event_run `{Arch} {W} `{Mmio W} acc_ops ext n hart t event (q : irq W) e c x hd z hw dev p :
  event = CPU_EVENT_ON_WAKEUP ∨ event = CPU_EVENT_ON_SLEEP →
  k_cpu_objs (q_kern q) !! c = Some x → zget (cpu_handlers x) event = Some hd →
  e_heap e !! hd = Some z → h_next z = Some hw →
  e_heap e !! hw = Some (mk_hnd FN_intc_priv_cpu_event dev event None) → q_rv q !! dev = Some p →
  k_cpu_call_handler (call_hnd acc_ops ext (S n) hart t) q e c event =
    Ret (0, e, put_mie q hart (if event =? CPU_EVENT_ON_WAKEUP then Z.lor (csr (q_mie q) hart) (intr_mask p)
                               else clear (csr (q_mie q) hart) (intr_mask p))).
Proof.
  intros Hev Hx Hh Hz Hn Hw Hp. unfold k_cpu_call_handler, k_cpu_get_handler_head, get_cpu. cbn [kern_of irq_has_kern].
  rewrite Hx. assert ((CPU_EVENT_MAX <=? event) = false ∧ (event =? CPU_EVENT_ON_WAKEUP) || (event =? CPU_EVENT_ON_SLEEP) = true)
    as [-> Eb] by (destruct Hev as [->| ->]; done).
  rewrite Eb. cbn [orb]. mstep. rewrite Hh. mstep. change (truth 0) with false. mstep.
  unfold get_hnd. rewrite Hz. mstep. rewrite Hn.
  assert (call_hnd acc_ops ext (S n) hart t FN_intc_priv_cpu_event event hw e q =
    Ret (EVENT_HANDLED, e, put_mie q hart (if event =? CPU_EVENT_ON_WAKEUP then Z.lor (csr (q_mie q) hart) (intr_mask p)
      else clear (csr (q_mie q) hart) (intr_mask p)))) as Hc.
  { cbn [call_hnd]. change (FN_intc_priv_cpu_event =? FN_intc_priv_intr) with false.
    change (FN_intc_priv_cpu_event =? FN_intc_priv_cpu_event) with true. unfold intc_priv_cpu_event, get_hnd.
    rewrite Hw. mstep. rewrite Eb. cbn [h_priv]. unfold intc_priv_update_intr_mask, get_rv. rewrite Hp. mstep. done. }
  by rewrite (handle_single _ event hw e q _ _ _ _ _ Hw eq_refl Hc Hw eq_refl).
Qed.

(** When a CPU wakes up, its controller, which was added to its two lists of
    handlers, enables on that hart the software interrupt, and the timer and the external
    interrupt exactly when a handler was registered and the interrupt was not disabled;
    when it goes to sleep, those are disabled. Other bits and other harts stay. *)
Theorem k_cpu_on_wakeup_enables `{Arch} {W} `{Mmio W} acc_ops ext n hart t (q : irq W) e c x hd1 hd2 z1 z2 hw hs dev p
    (Hc : k_cpu_get_current (q_kern q) hart = Ret c) (Hx : k_cpu_objs (q_kern q) !! c = Some x)
    (Hh1 : zget (cpu_handlers x) CPU_EVENT_ON_WAKEUP = Some hd1) (Hz1 : e_heap e !! hd1 = Some z1)
    (Hn1 : h_next z1 = Some hw) (Hw : e_heap e !! hw = Some (mk_hnd FN_intc_priv_cpu_event dev CPU_EVENT_ON_WAKEUP None))
    (Hh2 : zget (cpu_handlers x) CPU_EVENT_ON_SLEEP = Some hd2) (Hz2 : e_heap e !! hd2 = Some z2)
    (Hn2 : h_next z2 = Some hs) (Hs : e_heap e !! hs = Some (mk_hnd FN_intc_priv_cpu_event dev CPU_EVENT_ON_SLEEP None))
    (Hp : q_rv q !! dev = Some p) :
  ∃ q1 q2, k_cpu_on_wakeup (call_hnd acc_ops ext (S n) hart t) None q e hart = Ret (0, e, q1) ∧
    k_cpu_on_sleep (call_hnd acc_ops ext (S n) hart t) None q1 e hart = Ret (0, e, q2) ∧
    (∀ b, 0 <= b → Z.testbit (csr (q_mie q1) hart) b = Z.testbit (csr (q_mie q) hart) b || enables p b ∧
       Z.testbit (csr (q_mie q2) hart) b = Z.testbit (csr (q_mie q) hart) b && negb (enables p b)) ∧
    (∀ hart', hart' ≠ hart → csr (q_mie q1) hart' = csr (q_mie q) hart' ∧ csr (q_mie q2) hart' = csr (q_mie q) hart').
Proof.
  unfold k_cpu_on_wakeup, k_cpu_on_sleep. cbn [kern_of put_kern irq_has_kern]. rewrite Hc. mstep. change (truth 0) with false.
  rewrite (cpu_event_run acc_ops ext n hart t CPU_EVENT_ON_WAKEUP _ e c x hd1 z1 hw dev p); [|by left|done..].
  change (CPU_EVENT_ON_WAKEUP =? CPU_EVENT_ON_WAKEUP) with true. eexists _, _. split; [done|].
  cbn [put_mie q_kern]. rewrite Hc. mstep.
  rewrite (cpu_event_run acc_ops ext n hart t CPU_EVENT_ON_SLEEP _ e c x hd2 z2 hs dev p); [|by right|done..].
  change (CPU_EVENT_ON_SLEEP =? CPU_EVENT_ON_WAKEUP) with false. mstep. split; [done|].
  cbn [put_mie q_mie]. unfold csr, clear. split.
  - intros b Hb. rewrite !lookup_insert_eq. cbn [from_option id].
    rewrite Z.ldiff_spec, !Z.lor_spec, intr_mask_bits by done. split; [done|].
    by destruct (Z.testbit _ b), (enables p b).
  - intros h' Hne. by rewrite !lookup_insert_ne.
Qed.

(** CPU 30 with its lists 200 to 205, and the controller 20 with a timer handler. *)
Definition demo_wake_events : events :=
  mk_events {[ 103 := mk_hnd FN_intc_priv_cpu_event 20 CPU_EVENT_ON_WAKEUP None;
    104 := mk_hnd FN_intc_priv_cpu_event 20 CPU_EVENT_ON_SLEEP None;
    201 := mk_hnd 0 0 0 (Some 103); 202 := mk_hnd 0 0 0 (Some 104) ]} [].
Definition demo_wake_cpu : k_cpu_device :=
  mk_cpu 0 5 1 None 0 None None None [200; 201; 202; 203; 204; 205] futex_none 64 64.
Definition demo_wake : irq regfile :=
  mk_irq (mk_kern [Some 30] {[ 30 := demo_wake_cpu ]} 1 [] 1 (mk_proc 1 1 0 None []) 0 ∅)
    (replicate 12 None) (replicate 16 None) {[ 20 := mk_rv_priv (Some 30) 100 101 102 103 104 0 1 1 1 0 1 ]} ∅ ∅ None
    ∅ {[ 5 := 1 ]} ∅ ∅.

Lemma k_cpu_on_wakeup_enables_witness :
  ∃ q1, @k_cpu_on_wakeup (irq regfile) _ (@call_hnd rv64 _ _ no_acc demo_ext 1 5 demo_irq_tree) None demo_wake
      demo_wake_events 5 = Ret (0, demo_wake_events, q1) ∧
    Z.testbit (csr (q_mie q1) 5) RV_IX_MTIX = true ∧ Z.testbit (csr (q_mie q1) 5) RV_IX_MEIX = false.
Proof.
  destruct (@k_cpu_on_wakeup_enables rv64 regfile _ no_acc demo_ext 0 5 demo_irq_tree demo_wake demo_wake_events
    30 demo_wake_cpu 201 202 (mk_hnd 0 0 0 (Some 103)) (mk_hnd 0 0 0 (Some 104)) 103 104 20 _
    eq_refl eq_refl eq_refl eq_refl eq_refl eq_refl eq_refl eq_refl eq_refl eq_refl eq_refl) as (q1 & q2 & E & _ & Hb & _).
  exists q1. split; [exact E|]. unfold RV_IX_MTIX, RV_IX_MEIX. split; [rewrite (proj1 (Hb 7 ltac:(lia)))|rewrite (proj1 (Hb 11 ltac:(lia)))]; reflexivity.
Defined.

(** The table of causes is one for all CPUs: what the controller of a second CPU installs
    replaces what the first one has installed. *)
Lemma set_intr_handler_shared {W} (q : irq W) h1 h2 q1 q2 :
  k_arch_riscv_set_intr_handler q RV_CAUSE_INT_EX (Some h1) = Ret (0, q1) →
  k_arch_riscv_set_intr_handler q1 RV_CAUSE_INT_EX (Some h2) = Ret (0, q2) →
  zget (k_int_handlers q2) RV_CAUSE_INT_EX = Some (Some h2).
Proof.
  unfold k_arch_riscv_set_intr_handler. change (int_event RV_CAUSE_INT_EX) with true. intros _.
  destruct (zset (k_int_handlers q1) _ _) as [l|] eqn:E; mstep; [|discriminate]. intros [= <-].
  rewrite (zget_zset _ _ _ _ _ E). by rewrite Z.eqb_refl.
Qed.
