(* ===== verification/Boot.v ===== *)
(** * Waking up and waiting (driver/cpu/riscv.c, arch/riscv/start.S, sys/thread.c,
      driver/cpu/cpu.c)

    What several harts do at the same time, as interleavings of their accesses to memory
    (the fences of the code keep the accesses in their order).  [Boot] is the hand-shake
    by which the main CPU starts the others one after the other (Reset.v shows that the
    instructions of start.S refine it); [Wait] is a CPU that
    waits for another one, in the idle thread and in a futex call.  A schedule says
    which hart does its next access; it is fair to a hart that it never forgets. *)

From S2P Require Import Prelude Config Event Cpu Args.

(** ** Progress under a fair schedule *)

Section Progress.
Context {S A : Type}.
Variable step : A → S → S.

(** The state after the first [n] steps of a schedule. *)
Fixpoint run (sched : nat → A) (n : nat) (s : S) : S :=
  match n with
  | O => s
  | Datatypes.S n => step (sched n) (run sched n s)
  end.

Definition fair (sched : nat → A) (a : A) : Prop := ∀ n, ∃ m, (n <= m)%nat ∧ sched m = a.

(** In a state that is not final some hart is the one whose next step brings the end
    nearer; steps of the others do not take it away, and leave the same hart in charge. *)
Variable I final : S → Prop.
Variable μ : S → nat.
Variable helper : S → A.
Variable ok : A → Prop.
Hypothesis I_step : ∀ a s, I s → ok a → I (step a s).
Hypothesis final_dec : ∀ s, I s → final s ∨ ¬ final s.
Hypothesis other : ∀ a s, I s → ok a → ¬ final s →
  (μ (step a s) < μ s)%nat ∨ μ (step a s) = μ s ∧ helper (step a s) = helper s.
Hypothesis helps : ∀ s, I s → ¬ final s → (μ (step (helper s) s) < μ s)%nat.

Lemma run_inv sched n s : (∀ k, ok (sched k)) → I s → I (run sched n s).
Proof. intros Hok Hs. induction n; simpl; auto. Qed.

Lemma fair_progress sched s : (∀ k, ok (sched k)) → I s →
  (∀ s, I s → ¬ final s → fair sched (helper s)) → ∃ n, final (run sched n s).
Proof.
  intros Hok Hs Hf.
  assert (∀ k n, (μ (run sched n s) <= k)%nat → ∃ n', final (run sched n' s)) as Hall; [|exact (Hall _ 0%nat (le_n _))].
  induction k as [k IH] using lt_wf_ind. intros n Hk.
  pose proof (run_inv sched n s Hok Hs) as HI.
  destruct (final_dec _ HI) as [?|Hnf]; [by exists n|].
  destruct (Hf _ HI Hnf n) as (m & Hm & Ea).
  assert (∀ d, (∃ n', final (run sched n' s)) ∨
    μ (run sched (n + d) s) = μ (run sched n s) ∧ helper (run sched (n + d) s) = helper (run sched n s)) as Hw.
  { induction d as [|d [?|[E1 E2]]]; [right; by rewrite Nat.add_0_r|by left|].
    rewrite Nat.add_succ_r. cbn [run]. pose proof (run_inv sched (n + d)%nat s Hok Hs) as HI'.
    destruct (final_dec _ HI') as [?|Hnf']; [by left; exists (n + d)%nat|].
    destruct (other (sched (n + d)%nat) _ HI' (Hok _) Hnf') as [Hlt|[F1 F2]].
    - left. apply (IH (μ (run sched (Datatypes.S (n + d)%nat) s))) with (n := Datatypes.S (n + d)%nat); cbn [run]; lia.
    - right. by rewrite F1, F2. }
  destruct (Hw (m - n)%nat) as [?|[E1 E2]]; [done|]. replace (n + (m - n))%nat with m in * by lia.
  pose proof (run_inv sched m s Hok Hs) as HI'.
  destruct (final_dec _ HI') as [?|Hnf']; [by exists m|].
  pose proof (helps _ HI' Hnf') as Hlt. rewrite E2, <- Ea in Hlt.
  apply (IH (μ (run sched (Datatypes.S m) s))) with (n := Datatypes.S m); cbn [run]; lia.
Qed.
End Progress.

Module Boot.

(** ** Starting the other CPUs *)

(** Where a hart is in start.S: before it clears the notify area, polling, before it
    loads each of its stack pointers, before it says that it is done, and running. *)
Inductive hart_pc :=
| HClear
| HPoll
| HSpIdle
| HSpIntr (sp : Z)
| HDone (sp intr : Z)
| HRun (sp intr : Z).

#[export] Instance hart_pc_eq_dec : EqDecision hart_pc.
Proof. solve_decision. Defined.

(** Where the main CPU is in [cpu_riscv_wakeup], the CPUs it still has to wake up with
    the one it is waking first, and each CPU as [id_cpu] and [id_phys]. *)
Inductive main_pc := WClear | WIdle | WIntr | WTest | WStore | WReset.

Record boot := mk_boot {
  k_boot_proc : Z;
  k_boot_sp_idle : Z;
  k_boot_sp_intr : Z;
  k_boot_done : Z;
  b_pc : main_pc;
  b_todo : list (Z * Z);
  b_harts : gmap Z hart_pc
}.

Inductive agent := Main | Hart (h : Z).

Section Boot.
Context `{Arch} `{Config}.
Variable L : layout.

(** The tops of the stacks of a CPU. *)
Definition sp_idle (id : Z) : Z := usize (k_stack_idle L + usize ((id + 1) * CONFIG_IDLE_STACK_SIZE)).
Definition sp_intr (id : Z) : Z := usize (k_stack_intr L + usize ((id + 1) * CONFIG_INTR_STACK_SIZE)).
Definition no_proc : Z := usize (-1).

(** The next access of the main CPU: [cpu_riscv_wakeup] for each CPU in turn. *)
Definition main_step (b : boot) : boot :=
  match b_todo b with
  | [] => b
  | (id, phys) :: rest =>
    match b_pc b with
    | WClear => mk_boot (k_boot_proc b) (k_boot_sp_idle b) (k_boot_sp_intr b) 0 WIdle (b_todo b) (b_harts b)
    | WIdle => mk_boot (k_boot_proc b) (sp_idle id) (k_boot_sp_intr b) (k_boot_done b) WIntr (b_todo b) (b_harts b)
    | WIntr => mk_boot (k_boot_proc b) (k_boot_sp_idle b) (sp_intr id) (k_boot_done b) WTest (b_todo b) (b_harts b)
    | WTest => mk_boot (k_boot_proc b) (k_boot_sp_idle b) (k_boot_sp_intr b) (k_boot_done b)
                 (if truth (k_boot_done b) then WReset else WStore) (b_todo b) (b_harts b)
    | WStore => mk_boot (usize phys) (k_boot_sp_idle b) (k_boot_sp_intr b) (k_boot_done b) WTest (b_todo b) (b_harts b)
    | WReset => mk_boot no_proc (k_boot_sp_idle b) (k_boot_sp_intr b) (k_boot_done b) WClear rest (b_harts b)
    end
  end.

Definition put_hart (b : boot) (h : Z) (p : hart_pc) : gmap Z hart_pc := <[h := p]> (b_harts b).

(** The next access of another hart (start.S, [k_start] and [k_start_for_sub]). *)
Definition hart_step (h : Z) (b : boot) : boot :=
  match b_harts b !! h with
  | Some HClear => mk_boot no_proc (k_boot_sp_idle b) (k_boot_sp_intr b) (k_boot_done b) (b_pc b) (b_todo b) (put_hart b h HPoll)
  | Some HPoll =>
    if k_boot_proc b =? h
    then mk_boot (k_boot_proc b) (k_boot_sp_idle b) (k_boot_sp_intr b) (k_boot_done b) (b_pc b) (b_todo b) (put_hart b h HSpIdle)
    else b
  | Some HSpIdle =>
    mk_boot (k_boot_proc b) (k_boot_sp_idle b) (k_boot_sp_intr b) (k_boot_done b) (b_pc b) (b_todo b)
      (put_hart b h (HSpIntr (k_boot_sp_idle b)))
  | Some (HSpIntr sp) =>
    mk_boot (k_boot_proc b) (k_boot_sp_idle b) (k_boot_sp_intr b) (k_boot_done b) (b_pc b) (b_todo b)
      (put_hart b h (HDone sp (k_boot_sp_intr b)))
  | Some (HDone sp intr) =>
    mk_boot (k_boot_proc b) (k_boot_sp_idle b) (k_boot_sp_intr b) 1 (b_pc b) (b_todo b) (put_hart b h (HRun sp intr))
  | Some (HRun _ _) | None => b
  end.

Definition step (a : agent) (b : boot) : boot :=
  match a with
  | Main => main_step b
  | Hart h => hart_step h b
  end.

(** The main CPU has cleared the notify area and begins; the others have not run yet. *)
Definition boot_start (todo : list (Z * Z)) (harts : list Z) : boot :=
  mk_boot no_proc 0 0 0 WClear todo (list_to_map (map (fun h => (h, HClear)) harts)).
End Boot.

(** ** The hand-shake *)

Section Handshake.
Context `{Arch} `{Config}.
Variable L : layout.
Variable all : list (Z * Z).

Definition asleep (p : hart_pc) : Prop := p = HClear ∨ p = HPoll.
Definition started (id : Z) : hart_pc := HRun (sp_idle L id) (sp_intr L id).

(** What the hart that is being woken up may be doing. *)
Definition target_ok (pc : main_pc) (done id : Z) (p : hart_pc) : Prop :=
  match pc with
  | WClear => asleep p
  | WIdle | WIntr => done = 0 ∧ asleep p
  | WTest | WStore =>
    match p with
    | HClear | HPoll | HSpIdle => done = 0
    | HSpIntr sp => done = 0 ∧ sp = sp_idle L id
    | HDone sp intr => done = 0 ∧ sp = sp_idle L id ∧ intr = sp_intr L id
    | HRun sp intr => done = 1 ∧ sp = sp_idle L id ∧ intr = sp_intr L id
    end
  | WReset => done = 1 ∧ p = started id
  end.

Definition area_ok (b : boot) (id phys : Z) : Prop :=
  match b_pc b with
  | WClear | WIdle => k_boot_proc b = no_proc
  | WIntr => k_boot_proc b = no_proc ∧ k_boot_sp_idle b = sp_idle L id
  | _ => (k_boot_proc b = no_proc ∨ k_boot_proc b = phys) ∧
         k_boot_sp_idle b = sp_idle L id ∧ k_boot_sp_intr b = sp_intr L id
  end.

(** The CPUs of [all] were woken up in their order; those that are not yet are asleep. *)
Record binv (b : boot) : Prop := {
  bi_harts h : is_Some (b_harts b !! h) → 0 <= h < 2 ^ 31;
  bi_all : ∃ woken, all = woken ++ b_todo b ∧
    (∀ id phys, (id, phys) ∈ woken → b_harts b !! phys = Some (started id)) ∧
    ∀ h p, b_harts b !! h = Some p → h ∉ map snd woken → h ∉ map snd (take 1 (b_todo b)) → asleep p;
  bi_there id phys : (id, phys) ∈ b_todo b → is_Some (b_harts b !! phys);
  bi_now : match b_todo b with
           | [] => k_boot_proc b = no_proc
           | (id, phys) :: _ => ∃ p, b_harts b !! phys = Some p ∧ target_ok (b_pc b) (k_boot_done b) id p ∧ area_ok b id phys
           end;
  bi_pc : b_todo b = [] → b_pc b = WClear
}.

Hypothesis Hnd : NoDup (map snd all).

Lemma no_proc_not h : 0 <= h < 2 ^ 31 → no_proc ≠ h.
Proof.
  intros Hh. unfold no_proc. replace (-1) with (0 - 1) by lia. rewrite uwrap_wrap_neg1 by (pose proof xlen_ge; lia).
  pose proof xlen_ge. assert (2 ^ 32 <= 2 ^ xlen) by (apply Z.pow_le_mono_r; lia). lia.
Qed.

Lemma usize_hart h : 0 <= h < 2 ^ 31 → usize h = h.
Proof.
  intros Hh. apply uwrap_small. pose proof xlen_ge. assert (2 ^ 32 <= 2 ^ xlen) by (apply Z.pow_le_mono_r; lia). lia.
Qed.

Lemma not_woken woken todo : all = woken ++ todo → ∀ phys, phys ∈ map snd todo → phys ∉ map snd woken.
Proof.
  intros -> phys Ht Hw. rewrite map_app in Hnd. apply NoDup_app in Hnd as (_ & Hd & _). by apply (Hd phys).
Qed.

(** The CPU that is being woken up is not among those woken up before, nor later. *)
Lemma target_fresh b id phys rest woken :
  binv b → b_todo b = (id, phys) :: rest → all = woken ++ b_todo b → phys ∉ map snd woken ∧ phys ∉ map snd rest.
Proof.
  intros Hb E Ea. rewrite E in Ea. split.
  - eapply not_woken; [exact Ea|]. left.
  - rewrite Ea, map_app in Hnd. apply NoDup_app in Hnd as (_ & _ & Hn). cbn [map snd] in Hn.
    by apply NoDup_cons in Hn as [Hn _].
Qed.

Lemma binv_main b : binv b → binv (main_step L b).
Proof.
  intros Hb. unfold main_step. destruct (b_todo b) as [|[id phys] rest] eqn:Et; [done|].
  destruct (bi_all _ Hb) as (woken & Ea & Hw & Hs).
  pose proof (bi_now _ Hb) as Hn. rewrite Et in Hn. destruct Hn as (p & Hp & Ht & Har).
  unfold area_ok in Har.
  assert (0 <= phys < 2 ^ 31) as Hr by (apply (bi_harts _ Hb); eauto).
  destruct (b_pc b) eqn:Epc; cbn [target_ok] in Ht.
  6: { destruct Ht as [_ ->]. destruct (target_fresh b id phys rest woken Hb Et Ea) as [Hf1 Hf2].
       split; cbn [b_harts b_todo b_pc k_boot_proc k_boot_done]; [apply Hb| | | |done].
       - exists (woken ++ [(id, phys)]). rewrite Et in Ea. split; [by rewrite <- app_assoc|]. split.
         + intros id' phys' [Hin|Hin]%elem_of_app; [by apply Hw|]. apply list_elem_of_singleton in Hin. by simplify_eq.
         + intros h p Hh Hn1 Hn2. rewrite map_app in Hn1. apply not_elem_of_app in Hn1 as [Hn1 Hn3].
           apply (Hs h p Hh Hn1). by rewrite Et.
       - intros id' phys' Hin. apply (bi_there _ Hb id'). rewrite Et. by right.
       - destruct rest as [|[id' phys'] rest]; [done|].
         destruct (bi_there _ Hb id' phys') as [p' Hp']; [rewrite Et; right; left|]. exists p'. split; [done|].
         split; [|done]. apply (Hs phys' p' Hp').
         + eapply not_woken; [exact Ea|]. rewrite Et. cbn [map snd]. right. left.
         + rewrite Et. cbn [take map snd]. rewrite list_elem_of_singleton. intros ->.
           apply Hf2. cbn [map snd]. left. }
  all: split; cbn [b_harts b_todo b_pc k_boot_proc k_boot_done]; [apply Hb| | | |intros E; congruence].
  all: try (exists woken; split; [by rewrite Ea, Et|split; [done|by rewrite Et in Hs]]).
  all: try (intros id' phys' Hin; apply (bi_there _ Hb id'); by rewrite Et).
  all: exists p; (split; [done|]); unfold area_ok;
    cbn [b_harts b_todo b_pc k_boot_proc k_boot_done k_boot_sp_idle k_boot_sp_intr target_ok].
  - by split.
  - by split.
  - destruct Ht as [Hd [->| ->]], Har as [Hpr Hi]; (split; [done|]); auto.
  - destruct (truth (k_boot_done b)) eqn:Ed; [apply truth_true in Ed|apply truth_false in Ed].
    + split; [|done]. destruct p; try (lia || (destruct Ht; lia)). destruct Ht as (? & -> & ->). done.
    + by split.
  - split; [done|]. rewrite usize_hart by done. destruct Har as (_ & ? & ?). auto.
Qed.

Lemma put_dom b h p p' k : b_harts b !! h = Some p → is_Some (put_hart b h p' !! k) ↔ is_Some (b_harts b !! k).
Proof.
  intros Hh. unfold put_hart. destruct (decide (k = h)) as [->|?].
  - rewrite lookup_insert_eq, Hh. split; eauto.
  - by rewrite lookup_insert_ne.
Qed.

(** A step of the hart that is being woken up, which leaves the notify area to it. *)
Lemma binv_target b b' id h rest p p' :
  binv b → b_todo b = (id, h) :: rest → b_harts b !! h = Some p →
  b_harts b' = put_hart b h p' → b_todo b' = b_todo b → b_pc b' = b_pc b →
  target_ok (b_pc b) (k_boot_done b') id p' → area_ok b' id h → binv b'.
Proof.
  intros Hb Et Hp Eh Et' Ep Ht Ha. destruct (bi_all _ Hb) as (woken & Ea & Hw & Hs).
  destruct (target_fresh b id h rest woken Hb Et Ea) as [Hf1 _]. split; rewrite ?Eh, ?Et', ?Ep.
  - intros k Hk. apply (bi_harts _ Hb). by eapply put_dom.
  - exists woken. split; [done|]. split.
    + intros id' phys Hin. unfold put_hart. rewrite lookup_insert_ne; [by apply Hw|].
      intros <-. apply Hf1. apply list_elem_of_fmap. by exists (id', h).
    + intros k q Hk Hn1 Hn2. unfold put_hart in Hk. rewrite lookup_insert_ne in Hk; [by apply (Hs k)|].
      intros <-. apply Hn2. rewrite Et. cbn [take map snd]. left.
  - intros id' phys Hin. eapply put_dom; [exact Hp|]. by apply (bi_there _ Hb id').
  - rewrite Et. exists p'. unfold put_hart. by rewrite lookup_insert_eq.
  - apply Hb.
Qed.

Lemma hart_is_target b h p :
  binv b → b_harts b !! h = Some p → ¬ asleep p → (∀ id, p ≠ started id) → ∃ id rest, b_todo b = (id, h) :: rest.
Proof.
  intros Hb Hp Hn1 Hn2. destruct (bi_all _ Hb) as (woken & _ & Hw & Hs).
  destruct (decide (h ∈ map snd woken)) as [Hin|Hnin].
  - apply list_elem_of_fmap in Hin as ([id h'] & -> & Hin). apply Hw in Hin. cbn [snd] in Hp.
    rewrite Hp in Hin. by destruct (Hn2 id); simplify_eq.
  - destruct (b_todo b) as [|[id phys] rest]; [by destruct Hn1; apply (Hs h p Hp Hnin (not_elem_of_nil _))|].
    destruct (decide (h = phys)) as [->|Hne]; [eauto|]. destruct Hn1. apply (Hs h p Hp Hnin).
    cbn [take map snd]. by rewrite list_elem_of_singleton.
Qed.

Lemma binv_clear b h :
  binv b → b_harts b !! h = Some HClear →
  binv (mk_boot no_proc (k_boot_sp_idle b) (k_boot_sp_intr b) (k_boot_done b) (b_pc b) (b_todo b) (put_hart b h HPoll)).
Proof.
  intros Hb Hp. destruct (bi_all _ Hb) as (woken & Ea & Hw & Hs). pose proof (bi_now _ Hb) as Hn.
  split; cbn [b_harts b_todo b_pc k_boot_proc k_boot_done].
  - intros k Hk. apply (bi_harts _ Hb). by eapply put_dom.
  - exists woken. split; [done|]. split.
    + intros id phys Hin. apply Hw in Hin. unfold put_hart. rewrite lookup_insert_ne; [done|]. intros <-. by rewrite Hp in Hin.
    + intros k q Hk. unfold put_hart in Hk. destruct (decide (k = h)) as [->|?].
      * rewrite lookup_insert_eq in Hk. intros _ _. right. congruence.
      * rewrite lookup_insert_ne in Hk by done. by apply Hs.
  - intros id phys Hin. eapply put_dom; [exact Hp|]. by apply (bi_there _ Hb id).
  - destruct (b_todo b) as [|[id phys] rest]; [done|]. destruct Hn as (p & Hp' & Ht & Ha).
    unfold put_hart. destruct (decide (phys = h)) as [->|?].
    + rewrite Hp in Hp'. injection Hp' as <-. exists HPoll. rewrite lookup_insert_eq. split; [done|].
      unfold area_ok in *. cbn [b_pc k_boot_proc k_boot_sp_idle k_boot_sp_intr].
      destruct (b_pc b); cbn [target_ok] in *; (split; [|tauto]); try (by right); try (split; [tauto|by right]); try done.
      by destruct Ht.
    + exists p. rewrite lookup_insert_ne by done. split; [done|]. split; [done|]. unfold area_ok in *.
      cbn [b_pc k_boot_proc k_boot_sp_idle k_boot_sp_intr]. destruct (b_pc b); tauto.
  - apply Hb.
Qed.

(** Reading the own number from the notify area means that it is one's turn. *)
Lemma poll_target b h : binv b → 0 <= h < 2 ^ 31 → k_boot_proc b = h →
  ∃ id rest, b_todo b = (id, h) :: rest ∧ (b_pc b = WTest ∨ b_pc b = WStore ∨ b_pc b = WReset).
Proof.
  intros Hb Hr Hh. pose proof (bi_now _ Hb) as Hn. pose proof (no_proc_not h Hr).
  destruct (b_todo b) as [|[id phys] rest]; [congruence|]. destruct Hn as (p & _ & _ & Ha). unfold area_ok in Ha.
  destruct (b_pc b); try congruence; [destruct Ha; congruence|..];
    (destruct Ha as [[?|Ha] _]; [congruence|]); rewrite <- Hh, Ha; eauto 6.
Qed.

(** The steps of the hart that is being woken up once it has left the poll loop. *)
Definition start_step (b : boot) (p : hart_pc) : Z * hart_pc :=
  match p with
  | HSpIdle => (k_boot_done b, HSpIntr (k_boot_sp_idle b))
  | HSpIntr sp => (k_boot_done b, HDone sp (k_boot_sp_intr b))
  | HDone sp intr => (1, HRun sp intr)
  | _ => (k_boot_done b, p)
  end.

Lemma binv_start b h p :
  binv b → b_harts b !! h = Some p → ¬ asleep p → (∀ id, p ≠ started id) →
  binv (mk_boot (k_boot_proc b) (k_boot_sp_idle b) (k_boot_sp_intr b) (start_step b p).1 (b_pc b) (b_todo b)
    (put_hart b h (start_step b p).2)).
Proof.
  intros Hb Hp Hna Hns. destruct (hart_is_target b h _ Hb Hp Hna Hns) as (id & rest & Et).
  pose proof (bi_now _ Hb) as Hn. rewrite Et in Hn. destruct Hn as (p' & Hp' & Ht & Ha).
  rewrite Hp in Hp'. injection Hp' as <-.
  eapply (binv_target b _ id h rest); [done|done|exact Hp|done|done|done| |exact Ha].
  cbn [k_boot_done]. unfold area_ok in Ha.
  destruct (b_pc b); cbn [target_ok] in *; try (by destruct Hna); try (by destruct Ht);
    destruct p; cbn [start_step fst snd] in *; try (by destruct Hna; (by left || by right)); try tauto.
  all: destruct Ht as [_ Ht]; by destruct (Hns id).
Qed.

Lemma binv_hart h b : binv b → binv (hart_step h b).
Proof.
  intros Hb. unfold hart_step. destruct (b_harts b !! h) as [p|] eqn:Hp; [|done].
  assert (0 <= h < 2 ^ 31) as Hr by (apply (bi_harts _ Hb); eauto).
  destruct p as [| | |sp|sp intr|sp intr]; [by apply binv_clear| | | | |done].
  - destruct (k_boot_proc b =? h) eqn:E; bsplit; [|done].
    destruct (poll_target b h Hb Hr E) as (id & rest & Et & Hpc). pose proof (bi_now _ Hb) as Hn. rewrite Et in Hn.
    destruct Hn as (p & Hp' & Ht & Ha). rewrite Hp in Hp'. injection Hp' as <-.
    eapply (binv_target b _ id h rest); [done|done|exact Hp|done|done|done| |exact Ha].
    cbn [k_boot_done]. destruct Hpc as [E'|[E'|E']]; rewrite E' in *; cbn [target_ok] in *; [done..|by destruct Ht].
  - apply (binv_start b h HSpIdle); [done|done|by intros [?|?]|done].
  - apply (binv_start b h (HSpIntr sp)); [done|done|by intros [?|?]|done].
  - apply (binv_start b h (HDone sp intr)); [done|done|by intros [?|?]|done].
Qed.

(** *** The measure *)

(** Harts that have not cleared the notify area yet: each does so once. *)
Definition n_clear (m : gmap Z hart_pc) : nat := size (filter (fun x => x.2 = HClear) m).

Lemma n_clear_insert m h p : p ≠ HClear →
  n_clear (<[h := p]> m) = size (delete h (filter (fun x => x.2 = HClear) m)).
Proof.
  intros Hp. unfold n_clear. rewrite map_filter_insert. rewrite decide_False by done. by rewrite map_filter_delete.
Qed.

Lemma n_clear_clear m h p : m !! h = Some HClear → p ≠ HClear → Datatypes.S (n_clear (<[h := p]> m)) = n_clear m.
Proof.
  intros Hh Hp. rewrite n_clear_insert by done. unfold n_clear.
  assert (filter (fun x : Z * hart_pc => x.2 = HClear) m !! h = Some HClear) as E by (by apply map_lookup_filter_Some).
  rewrite map_size_delete, E.
  assert (size (filter (fun x : Z * hart_pc => x.2 = HClear) m) ≠ 0%nat); [|lia].
  intros Hz%map_size_empty_inv. by rewrite Hz in E.
Qed.

Lemma n_clear_same m h q p : m !! h = Some q → q ≠ HClear → p ≠ HClear → n_clear (<[h := p]> m) = n_clear m.
Proof.
  intros Hh Hq Hp. rewrite n_clear_insert by done. unfold n_clear. f_equal. apply delete_id.
  apply map_lookup_filter_None. right. by intros x [= <-]%(eq_trans (eq_sym Hh)).
Qed.

(** How far the hand-shake with the current CPU is. *)
Definition phase (b : boot) : nat :=
  match b_todo b with
  | [] => 0
  | (id, phys) :: _ =>
    match b_pc b with
    | WClear => 12
    | WIdle => 11
    | WIntr => 10
    | WReset => 0
    | pc =>
      match b_harts b !! phys with
      | Some HClear => 9
      | Some HPoll => if (k_boot_proc b =? phys)%Z then 6 else match pc with WTest => 8 | _ => 7 end
      | Some HSpIdle => 5
      | Some (HSpIntr _) => 4
      | Some (HDone _ _) => 3
      | Some (HRun _ _) => match pc with WTest => 1 | _ => 2 end
      | None => 0
      end
    end
  end%nat.

Definition measure (b : boot) : nat := 13 * (length (b_todo b) + n_clear (b_harts b)) + phase b.

(** The hart whose step is needed next. *)
Definition helper (b : boot) : agent :=
  match b_todo b with
  | [] => Main
  | (id, phys) :: _ =>
    match b_pc b with
    | WTest | WStore =>
      match b_harts b !! phys with
      | Some HPoll => if k_boot_proc b =? phys then Hart phys else Main
      | Some (HRun _ _) | None => Main
      | Some _ => Hart phys
      end
    | _ => Main
    end
  end.

Lemma phase_le b : (phase b <= 12)%nat.
Proof. unfold phase. destruct (b_todo b) as [|[]]; [lia|]. destruct (b_pc b); try lia; repeat case_match; lia. Qed.

Lemma measure_clear b h :
  b_harts b !! h = Some HClear → (measure (hart_step h b) < measure b)%nat.
Proof.
  intros Hh. unfold hart_step. rewrite Hh. unfold measure at 1. cbn [b_todo b_harts].
  pose proof (n_clear_clear (b_harts b) h HPoll Hh ltac:(done)). unfold put_hart.
  match goal with |- (_ + phase ?x < _)%nat => pose proof (phase_le x) end. unfold measure. lia.
Qed.

Lemma main_measure b : binv b → b_todo b ≠ [] →
  (measure (main_step L b) < measure b)%nat ∨
  measure (main_step L b) = measure b ∧ helper (main_step L b) = helper b ∧ helper b ≠ Main.
Proof.
  intros Hb Hne. pose proof (bi_now _ Hb) as Hn. unfold main_step.
  destruct (b_todo b) as [|[id phys] rest] eqn:Et; [done|]. destruct Hn as (p & Hp & Ht & Ha). unfold area_ok in Ha.
  assert (0 <= phys < 2 ^ 31) as Hr by (apply (bi_harts _ Hb); eauto). pose proof (no_proc_not phys Hr) as Hnp.
  unfold measure, helper.
  destruct (b_pc b) eqn:Epc; cbn [target_ok] in Ht.
  - left. unfold phase. rewrite Et, Epc. cbn [b_todo b_pc b_harts]. lia.
  - left. unfold phase. rewrite Et, Epc. cbn [b_todo b_pc b_harts]. lia.
  - left. unfold phase. rewrite Et, Epc. cbn [b_todo b_pc b_harts k_boot_proc]. rewrite Hp.
    destruct Ht as [_ [->| ->]], Ha as [Hpr _]; [lia|]. rewrite Hpr, (proj2 (Z.eqb_neq _ _) Hnp). lia.
  - unfold phase. rewrite Et, Epc. cbn [b_todo b_pc b_harts k_boot_proc]. rewrite Hp.
    destruct p; try (rewrite (proj2 (truth_false _)) by tauto); try (right; done).
    + destruct (k_boot_proc b =? phys); [by right|]. left. lia.
    + rewrite (proj2 (truth_true _)) by lia. left. lia.
  - unfold phase. rewrite Et, Epc. cbn [b_todo b_pc b_harts k_boot_proc]. rewrite Hp, usize_hart, Z.eqb_refl by done.
    destruct p; try (right; done).
    + destruct (k_boot_proc b =? phys); [by right|]. left. lia.
    + left. lia.
  - left. unfold phase at 2. rewrite Et, Epc. cbn [b_todo b_harts length].
    match goal with |- (_ + phase ?x < _)%nat => pose proof (phase_le x) end. lia.
Qed.

(** While the target is out of its poll loop and not done, the main CPU is waiting. *)
Lemma target_waits b id h rest p :
  binv b → b_todo b = (id, h) :: rest → b_harts b !! h = Some p → (∀ id, p ≠ started id) →
  ¬ asleep p ∨ k_boot_proc b = h → b_pc b = WTest ∨ b_pc b = WStore.
Proof.
  intros Hb Et Hp Hns Hcase. assert (0 <= h < 2 ^ 31) as Hr by (apply (bi_harts _ Hb); eauto).
  pose proof (no_proc_not h Hr). pose proof (bi_now _ Hb) as Hn. rewrite Et in Hn. destruct Hn as (p' & Hp' & Ht & Ha).
  rewrite Hp in Hp'. injection Hp' as <-. unfold area_ok in Ha.
  destruct (b_pc b); cbn [target_ok] in Ht; try (by left); try (by right); exfalso.
  - destruct Hcase; [done|congruence].
  - destruct Ht, Hcase; [done|congruence].
  - destruct Ht, Ha, Hcase; [done|congruence].
  - destruct Ht as [_ Ht]. by destruct (Hns id).
Qed.

(** Whether a hart changes anything with its next step. *)
Definition moves (b : boot) (h : Z) (p : hart_pc) : bool :=
  match p with
  | HRun _ _ => false
  | HPoll => k_boot_proc b =? h
  | _ => true
  end.

Lemma helper_hart b h : helper b = Hart h → ∃ p, b_harts b !! h = Some p ∧ moves b h p = true.
Proof.
  unfold helper. intros E. destruct (b_todo b) as [|[id phys] rest]; [done|].
  destruct (b_pc b); try done; destruct (b_harts b !! phys) as [[]|] eqn:Ep; try done;
    try (destruct (k_boot_proc b =? phys) eqn:Ek; [|done]); injection E as <-; eexists; (split; [exact Ep|done]).
Qed.

Lemma hart_measure b h : binv b →
  (measure (hart_step h b) < measure b)%nat ∨ hart_step h b = b ∧ helper b ≠ Hart h.
Proof.
  intros Hb. destruct (b_harts b !! h) as [p|] eqn:Hp.
  2:{ right. unfold hart_step. rewrite Hp. split; [done|]. intros (p & Hp' & _)%helper_hart. congruence. }
  destruct (moves b h p) eqn:Hm.
  2:{ right. unfold hart_step. rewrite Hp. split.
      - destruct p; try done. cbn [moves] in Hm. by rewrite Hm.
      - intros (q & Hq & Hm')%helper_hart. congruence. }
  left. destruct (decide (p = HClear)) as [->|Hnc]; [by apply measure_clear|].
  assert (∀ id, p ≠ started id) as Hns by (by destruct p).
  assert (∃ id rest, b_todo b = (id, h) :: rest ∧ (b_pc b = WTest ∨ b_pc b = WStore)) as (id & rest & Et & Hpc).
  { destruct (decide (p = HPoll)) as [->|Hnp].
    - cbn [moves] in Hm. bsplit. destruct (poll_target b h Hb) as (id & rest & Et & _); [apply (bi_harts _ Hb); eauto|done|].
      exists id, rest. split; [done|]. eapply target_waits; eauto.
    - assert (¬ asleep p) as Hna by (by intros [?|?]).
      destruct (hart_is_target b h p Hb Hp Hna Hns) as (id & rest & Et). exists id, rest. split; [done|].
      eapply target_waits; eauto. }
  unfold measure, phase, hart_step. rewrite Hp.
  destruct p; try done; cbn [moves] in Hm; rewrite ?Hm; cbn [b_todo b_pc b_harts k_boot_proc]; rewrite Et;
    unfold put_hart; rewrite (n_clear_same _ _ _ _ Hp), lookup_insert_eq, Hp by done;
    destruct Hpc as [->| ->]; rewrite ?Hm; lia.
Qed.

Lemma binv_step a b : binv b → binv (step L a b).
Proof. intros Hb. destruct a; [by apply binv_main|by apply binv_hart]. Qed.

Lemma helper_main_or_target b : binv b → b_todo b ≠ [] →
  helper b = Main ∨ ∃ id phys, (id, phys) ∈ b_todo b ∧ helper b = Hart phys.
Proof.
  intros Hb Hne. unfold helper. destruct (b_todo b) as [|[id phys] rest]; [done|].
  destruct (b_pc b); try (by left); destruct (b_harts b !! phys) as [[]|]; try (by left);
    try (destruct (k_boot_proc b =? phys); [|by left]); right; exists id, phys; (split; [left|done]).
Qed.

Lemma boot_start_inv harts :
  (∀ id phys, (id, phys) ∈ all → phys ∈ harts) → (∀ h, h ∈ harts → 0 <= h < 2 ^ 31) → binv (boot_start all harts).
Proof.
  intros Hin Hr. assert (∀ h p, b_harts (boot_start all harts) !! h = Some p → h ∈ harts ∧ p = HClear) as Hl.
  { cbn [boot_start b_harts]. intros h p Hp%elem_of_list_to_map_2. apply list_elem_of_fmap in Hp as (x & [= -> ->] & Hx). done. }
  assert (∀ h, h ∈ harts → b_harts (boot_start all harts) !! h = Some HClear) as Hs.
  { intros h Hh. cbn [boot_start b_harts]. destruct (list_to_map (map (fun h => (h, HClear)) harts) !! h) as [p|] eqn:E.
    - by destruct (Hl h p E) as [_ ->].
    - exfalso. apply not_elem_of_list_to_map in E. apply E. apply list_elem_of_fmap. exists (h, HClear). split; [done|].
      apply list_elem_of_fmap. by exists h. }
  split.
  - intros h [p Hp]. apply Hr. by destruct (Hl h p Hp).
  - exists []. split; [done|]. split; [intros id phys Hn; by apply elem_of_nil in Hn|].
    intros h p Hp _ _. left. by destruct (Hl h p Hp).
  - intros id phys Hi. rewrite Hs; [eauto|]. by eapply Hin.
  - cbn [boot_start b_todo k_boot_proc b_pc]. destruct all as [|[id phys] rest] eqn:Ea; [done|].
    exists HClear. split; [|by split; [left|]].
    apply Hs. apply (Hin id). left.
  - done.
Qed.

Lemma run_stays sched n m b : b_todo (run (step L) sched n b) = [] → (n <= m)%nat → b_todo (run (step L) sched m b) = [].
Proof.
  intros E Hm. induction Hm as [|m Hm IH]; [done|]. cbn [run]. destruct (sched m) as [|h]; cbn [step].
  - unfold main_step. by rewrite IH.
  - unfold hart_step. rewrite <- IH. repeat case_match; done.
Qed.
End Handshake.

(** What the invariant says when all CPUs were woken up, and of any hart that runs. *)
Lemma binv_done `{Arch} `{Config} (L : layout) all b : binv L all b → b_todo b = [] →
  k_boot_proc b = no_proc ∧ ∀ id phys, (id, phys) ∈ all → b_harts b !! phys = Some (HRun (sp_idle L id) (sp_intr L id)).
Proof.
  intros Hb E. pose proof (bi_now _ _ _ Hb) as Hnow. rewrite E in Hnow. split; [done|]. intros id phys Hi.
  destruct (bi_all _ _ _ Hb) as (woken & Ea & Hw & _). rewrite E, app_nil_r in Ea. apply Hw. by rewrite <- Ea.
Qed.

Lemma binv_own_stacks `{Arch} `{Config} (L : layout) all b h sp intr : binv L all b → b_harts b !! h = Some (HRun sp intr) →
  ∃ id, (id, h) ∈ all ∧ sp = sp_idle L id ∧ intr = sp_intr L id.
Proof.
  intros Hb Hh. destruct (bi_all _ _ _ Hb) as (woken & Ea & Hw & Hs).
  destruct (decide (h ∈ map snd woken)) as [Hin'|Hnin].
  - apply list_elem_of_fmap in Hin' as ([id h'] & -> & Hi). pose proof (Hw _ _ Hi) as Hh'. cbn [snd] in Hh.
    rewrite Hh in Hh'. exists id. split; [rewrite Ea; apply elem_of_app; by left|]. by injection Hh'.
  - destruct (b_todo b) as [|[id phys] rest] eqn:Et; [by destruct (Hs h _ Hh Hnin (not_elem_of_nil _))|].
    destruct (decide (h = phys)) as [->|Hne].
    + exists id. split; [rewrite Ea; apply elem_of_app; right; left|].
      pose proof (bi_now _ _ _ Hb) as Hnow. rewrite Et in Hnow. destruct Hnow as (p & Hp & Ht & _).
      rewrite Hh in Hp. injection Hp as <-.
      destruct (b_pc b); cbn [target_ok] in Ht; try tauto; try (by destruct Ht as [|]); try (by destruct Ht as [_ [|]]).
      destruct Ht as [_ Ht]. by injection Ht.
    + destruct (Hs h _ Hh Hnin); [|done..]. cbn [take map snd]. by rewrite list_elem_of_singleton.
Qed.

Lemma binv_reach `{Arch} `{Config} (L : layout) all harts sched n :
  NoDup (map snd all) → (∀ id phys, (id, phys) ∈ all → phys ∈ harts) → (∀ h, h ∈ harts → 0 <= h < 2 ^ 31) →
  binv L all (run (step L) sched n (boot_start all harts)).
Proof.
  intros Hnd Hin Hr. apply (run_inv (step L) (binv L all) (fun _ => True)); [|done|by apply boot_start_inv].
  intros a s Hs _. by apply binv_step.
Qed.

Lemma wakeup_ends `{Arch} `{Config} (L : layout) all harts sched
    (Hnd : NoDup (map snd all)) (Hin : ∀ id phys, (id, phys) ∈ all → phys ∈ harts)
    (Hr : ∀ h, h ∈ harts → 0 <= h < 2 ^ 31)
    (Hmain : fair sched Main) (Hfair : ∀ id phys, (id, phys) ∈ all → fair sched (Hart phys)) :
  ∃ n, ∀ m, (n <= m)%nat → b_todo (run (step L) sched m (boot_start all harts)) = [].
Proof.
  pose proof (boot_start_inv L all Hnd harts Hin Hr) as Hstart.
  destruct (fair_progress (step L) (binv L all) (fun b => b_todo b = []) measure helper (fun _ => True)) with
    (sched := sched) (s := boot_start all harts) as [n Hn]; [..|exists n; intros m Hm; by eapply run_stays]; try done.
  - intros a s Hs _. by apply binv_step.
  - intros s _. destruct (b_todo s); [by left|by right].
  - intros a s Hs _ Hf. destruct a as [|h]; cbn [step].
    + destruct (main_measure L all s Hs Hf) as [?|(? & ? & _)]; [by left|by right].
    + destruct (hart_measure L all s h Hs) as [?|[-> _]]; [by left|by right].
  - intros s Hs Hf. destruct (helper_main_or_target L all s Hs Hf) as [E|(id & phys & _ & E)]; rewrite E; cbn [step].
    + destruct (main_measure L all s Hs Hf) as [?|(_ & _ & ?)]; done.
    + destruct (hart_measure L all s phys Hs) as [?|[_ ?]]; done.
  - intros s Hs Hf. destruct (helper_main_or_target L all s Hs Hf) as [->|(id & phys & Hi & ->)]; [done|].
    destruct (bi_all _ _ _ Hs) as (woken & Ea & _). apply (Hfair id). rewrite Ea. apply elem_of_app. by right.
Qed.

(** Starting the other CPUs. Whatever the order in which the harts proceed, as long
    as the main CPU and each CPU of the list go on, [cpu_riscv_wakeup] comes back for
    every CPU of the list, and from then on each of them runs with the stacks of its
    own logical number and the notify area is clear. At no time does any hart run with
    other stacks than its own, and a hart that is not in the list never runs. Harts that
    are late, whose start code clears the notify area under the main CPU, only delay it. *)
Theorem cpu_riscv_wakeup_live `{Arch} `{Config} (L : layout) all harts sched
    (Hnd : NoDup (map snd all)) (Hin : ∀ id phys, (id, phys) ∈ all → phys ∈ harts)
    (Hr : ∀ h, h ∈ harts → 0 <= h < 2 ^ 31)
    (Hmain : fair sched Main) (Hfair : ∀ id phys, (id, phys) ∈ all → fair sched (Hart phys)) :
  let state n := run (step L) sched n (boot_start all harts) in
  (∃ n, ∀ m, (n <= m)%nat → b_todo (state m) = [] ∧ k_boot_proc (state m) = no_proc ∧
     ∀ id phys, (id, phys) ∈ all → b_harts (state m) !! phys = Some (HRun (sp_idle L id) (sp_intr L id))) ∧
  (∀ m h sp intr, b_harts (state m) !! h = Some (HRun sp intr) →
     ∃ id, (id, h) ∈ all ∧ sp = sp_idle L id ∧ intr = sp_intr L id).
Proof.
  intros state. assert (∀ n, binv L all (state n)) as Hinv by (intros n; by apply binv_reach).
  split; [|intros m h sp intr; by apply binv_own_stacks].
  destruct (wakeup_ends L all harts sched Hnd Hin Hr Hmain Hfair) as [n Hn]. exists n. intros m Hm.
  split; [by apply Hn|]. by apply (binv_done L all), Hn.
Qed.

(** Two CPUs to start, and a third hart that is not in the list; each in turn. *)
Definition in_turn (n : nat) : agent :=
  match (n mod 4)%nat with
  | 0%nat => Main
  | 1%nat => Hart 1
  | 2%nat => Hart 3
  | _ => Hart 5
  end.

Lemma in_turn_fair k a : (k < 4)%nat → in_turn k = a → fair in_turn a.
Proof.
  intros Hk <- n. exists (k + n * 4)%nat. split; [lia|]. unfold in_turn.
  rewrite Nat.Div0.mod_add, Nat.mod_small by lia. done.
Qed.

Definition demo_layout : layout := mk_layout 0x80000000 0x80100000 0x80200000 0x80300000 0 0 0 0 0 0 0.

Lemma cpu_riscv_wakeup_live_witness :
  ∃ n, b_harts (run (@step rv64 qemu_virt demo_layout) in_turn n (@boot_start rv64 [(1, 1); (2, 3)] [1; 3; 5])) !! 3 =
    Some (HRun (0x80300000 + 3 * 4096) (0x80200000 + 3 * 4096)).
Proof.
  destruct (@cpu_riscv_wakeup_live rv64 qemu_virt demo_layout [(1, 1); (2, 3)] [1; 3; 5] in_turn) as [(n & Hn) _].
  - by apply (bool_decide_unpack _).
  - intros id phys Hi. rewrite !elem_of_cons in Hi. destruct Hi as [Hi|[Hi|Hi]]; [| |by apply elem_of_nil in Hi];
      simplify_eq; by apply (bool_decide_unpack _).
  - intros h Hh. rewrite !elem_of_cons in Hh. destruct Hh as [->|[->|[->|Hh]]]; [lia..|]. by apply elem_of_nil in Hh.
  - apply (in_turn_fair 0); [lia|done].
  - intros id phys Hi. rewrite !elem_of_cons in Hi. destruct Hi as [Hi|[Hi|Hi]]; [| |by apply elem_of_nil in Hi]; simplify_eq.
    + apply (in_turn_fair 1); [lia|done].
    + apply (in_turn_fair 2); [lia|done].
  - exists n. destruct (Hn n (le_n n)) as (_ & _ & Hall). rewrite (Hall 2 3); [reflexivity|]. right. left.
Defined.
End Boot.

Module Wait.

(** ** Waiting for another CPU

    The one who waits looks at a word of memory and executes [wfi], which goes on when an
    interrupt is pending, whether interrupts are enabled or not; when they are, the trap
    is taken at some point and its handler clears the pending bit.  The other CPU stores
    the word and then raises its interrupt. *)

Inductive agent := Waiter | Sender | Trap | Noise | Store.

(** Where the waiting CPU is: in the inner loop of [k_thread_idle_main] (before it loads
    the task, tests it, executes [wfi], while [wfi] waits, and before it switches), or in
    the loop of [k_cpu_futex_wait]. *)
Inductive pc :=
| ILoad | ITest (ti : option Z) | IWfi | IWait | ISwitch (ti : option Z)
| FTest | FVal | FWfi | FWait | FEnable | FDisable | FOut (res : Z).

Record wait := mk_wait {
  w_pc : pc;
  w_task : option Z;
  w_wakeup : Z;
  w_same : bool;
  w_pending : bool;
  w_enabled : bool;
  w_sent : nat
}.

Section Wait.

(** The thread that the sender hands over, in the case of the idle loop. *)
Variable t : Z.

Definition go (w : wait) (p : pc) : wait :=
  mk_wait p (w_task w) (w_wakeup w) (w_same w) (w_pending w) (w_enabled w) (w_sent w).
Definition enable (w : wait) (p : pc) (en : bool) : wait :=
  mk_wait p (w_task w) (w_wakeup w) (w_same w) (w_pending w) en (w_sent w).

(** The idle thread runs with interrupts enabled. *)
Definition idle_step (w : wait) : wait :=
  match w_pc w with
  | ILoad => go w (ITest (w_task w))
  | ITest None => go w IWfi
  | ITest ti => go w (ISwitch ti)
  | IWfi => go w (if w_pending w then ILoad else IWait)
  | IWait => if w_pending w then go w ILoad else w
  | _ => w
  end.

(** The futex call enables them only after each wait, to have the pending ones handled. *)
Definition futex_step (w : wait) : wait :=
  match w_pc w with
  | FTest => go w (if truth (w_wakeup w) then FOut 0 else FVal)
  | FVal => go w (if negb (w_same w) then FOut (- EWOULDBLOCK) else FWfi)
  | FWfi => go w (if w_pending w then FEnable else FWait)
  | FWait => if w_pending w then go w FEnable else w
  | FEnable => enable w FDisable true
  | FDisable => enable w FTest false
  | _ => w
  end.

Definition waiter_step (w : wait) : wait :=
  match w_pc w with
  | ILoad | ITest _ | IWfi | IWait | ISwitch _ => idle_step w
  | _ => futex_step w
  end.

(** [k_thread_run] or [k_cpu_futex_wake] store first and raise the interrupt then. *)
Definition sender_step (w : wait) : wait :=
  match w_sent w with
  | O => mk_wait (w_pc w) (Some t) 1 (w_same w) (w_pending w) (w_enabled w) 1
  | 1%nat => mk_wait (w_pc w) (w_task w) (w_wakeup w) (w_same w) true (w_enabled w) 2
  | _ => w
  end.

(** A trap in the [wfi] of the idle loop returns behind it. *)
Definition trap_step (w : wait) : wait :=
  if w_pending w && w_enabled w then
    mk_wait (match w_pc w with IWait => ILoad | p => p end) (w_task w) (w_wakeup w) (w_same w) false (w_enabled w) (w_sent w)
  else w.

(** Another interrupt becomes pending; another CPU changes the word of the futex. *)
Definition step (a : agent) (w : wait) : wait :=
  match a with
  | Waiter => waiter_step w
  | Sender => sender_step w
  | Trap => trap_step w
  | Noise => mk_wait (w_pc w) (w_task w) (w_wakeup w) (w_same w) true (w_enabled w) (w_sent w)
  | Store => mk_wait (w_pc w) (w_task w) (w_wakeup w) false (w_pending w) (w_enabled w) (w_sent w)
  end.

Definition futex_start : wait := mk_wait FTest None 0 true false false 0.
Definition idle_start : wait := mk_wait ILoad None 0 true false true 0.

(** The interrupt that was sent is pending until the call is on its way to its test. *)
Record fwait_ok (w : wait) : Prop := {
  fo_pc : match w_pc w with ILoad | ITest _ | IWfi | IWait | ISwitch _ => False | _ => True end;
  fo_enabled : w_enabled w = true → w_pc w = FDisable;
  fo_sent : (1 <= w_sent w)%nat → w_wakeup w = 1;
  fo_max : (w_sent w <= 2)%nat;
  fo_pend : w_sent w = 2%nat → w_pending w = false → w_pc w = FDisable ∨ w_pc w = FTest ∨ ∃ r, w_pc w = FOut r
}.

Definition frank (w : wait) : nat :=
  match w_pc w with
  | FVal => 6 | FWfi => 5 | FWait => 4 | FEnable => 3 | FDisable => 2 | FTest => 1 | _ => 0
  end.
Definition fmeasure (w : wait) : nat := if (w_sent w =? 2)%nat then frank w else (100 - w_sent w)%nat.
Definition fhelper (w : wait) : agent := if (w_sent w =? 2)%nat then Waiter else Sender.
Definition fdone (w : wait) : Prop := ∃ r, w_pc w = FOut r.

Lemma fwait_step a w : fwait_ok w → fwait_ok (step a w).
Proof.
  intros [H1 H2 H3 H4 H5]. destruct w as [p task wk same pend en sent]; cbn [w_pc w_enabled w_sent w_wakeup w_pending] in *.
  destruct a; cbn [step].
  - unfold waiter_step, idle_step, futex_step. cbn [w_pc]. destruct p; try done; cbn [w_pending w_wakeup w_same].
    all: try (destruct pend); try (destruct (truth wk) eqn:Ew); try (destruct same); cbn [negb].
    all: split; cbn; try done; try (intros E; specialize (H2 E); done); eauto.
    all: intros E1 E2; try (destruct (H5 E1 E2) as [?|[?|[? ?]]]; discriminate); eauto; try discriminate.
    all: rewrite H3 in Ew by lia; discriminate.
  - unfold sender_step. cbn [w_sent]. destruct sent as [|[|n]]; split; cbn; try done; try lia; auto.
  - unfold trap_step. cbn [w_pending w_enabled w_pc]. destruct (pend && en) eqn:E; bsplit; [|by split].
    subst. specialize (H2 eq_refl) as ->. split; cbn; auto.
  - split; cbn; auto. done.
  - split; cbn; auto.
Qed.

Lemma fmeasure_other a w : fwait_ok w → ¬ fdone w →
  (fmeasure (step a w) < fmeasure w)%nat ∨ fmeasure (step a w) = fmeasure w ∧ fhelper (step a w) = fhelper w.
Proof.
  intros [H1 H2 H3 H4 H5] Hd. destruct w as [p task wk same pend en sent]. cbn [w_pc w_enabled w_sent w_wakeup w_pending] in *.
  unfold fmeasure, fhelper, frank. destruct a; cbn [step].
  - unfold waiter_step, idle_step, futex_step. cbn [w_pc w_sent]. destruct (Nat.eqb_spec sent 2) as [->|Hs].
    + assert (wk = 1) as -> by (apply H3; lia).
      destruct p; try done; cbn [w_pending w_wakeup w_same w_pc w_sent go enable].
      all: try change (truth 1) with true; try (destruct pend); try (destruct same); cbn; try (left; lia); try (right; done).
      all: destruct (H5 eq_refl eq_refl) as [?|[?|[? ?]]]; discriminate.
    + right. destruct p; cbn [w_pending]; try destruct pend; try (destruct ti);
        cbn -[Nat.eqb Nat.sub]; by rewrite ?(proj2 (Nat.eqb_neq _ _) Hs).
  - unfold sender_step. cbn [w_sent]. destruct sent as [|[|n]]; [left; cbn; lia|left; cbn; destruct p; cbn; lia|].
    right. by destruct n.
  - right. unfold trap_step. cbn [w_pending w_enabled w_pc]. destruct (pend && en) eqn:E; bsplit; [|done].
    subst. by specialize (H2 eq_refl) as ->.
  - by right.
  - by right.
Qed.

Lemma fmeasure_helps w : fwait_ok w → ¬ fdone w → (fmeasure (step (fhelper w) w) < fmeasure w)%nat.
Proof.
  intros [H1 H2 H3 H4 H5] Hd. destruct w as [p task wk same pend en sent]. cbn [w_pc w_enabled w_sent w_wakeup w_pending] in *.
  unfold fhelper. cbn [w_sent]. unfold fmeasure, frank. cbn [w_sent]. destruct (Nat.eqb_spec sent 2) as [->|Hs]; cbn [step].
  - assert (wk = 1) as -> by (apply H3; lia).
    unfold waiter_step, idle_step, futex_step. cbn [w_pc]. destruct p; try done; cbn [w_pending w_wakeup w_same go enable].
    all: try change (truth 1) with true; try (destruct pend); try (destruct same); cbn; try lia.
    all: try (destruct (H5 eq_refl eq_refl) as [?|[?|[? ?]]]; discriminate). all: by destruct Hd; exists res.
  - unfold sender_step. cbn [w_sent]. destruct sent as [|[|n]]; cbn; [lia|destruct p; cbn; lia|lia].
Qed.
End Wait.

(** C17: a futex call is not left waiting. Whatever the order in which the waiting CPU, the
    CPU that wakes it up, the taking of traps, other interrupts and changes of the word
    follow each other, as long as the two CPUs go on, the waiting one comes out of its
    loop: an interrupt that arrives between the test of [wakeup] and [wfi] stays pending
    until [wfi], because the call enables interrupts only behind it. *)
Theorem k_cpu_futex_wait_live t sched (Hw : fair sched Waiter) (Hs : fair sched Sender) :
  ∃ n, fdone (run (step t) sched n futex_start).
Proof.
  apply (fair_progress (step t) fwait_ok fdone fmeasure fhelper (fun _ => True)); try done.
  - intros a s Hok _. by apply fwait_step.
  - intros s _. unfold fdone. destruct (w_pc s); try (by right; intros [? ?]); left; eauto.
  - intros a s Hok _ Hd. by apply fmeasure_other.
  - intros s Hok Hd. by apply fmeasure_helps.
  - split; cbn; auto; try done; lia.
  - intros s _ _. unfold fhelper. by destruct (_ =? _)%nat.
Qed.

Definition two_in_turn (n : nat) : agent := if Nat.even n then Waiter else Sender.

Lemma k_cpu_futex_wait_live_witness : ∃ n, fdone (run (step 7) two_in_turn n futex_start).
Proof.
  apply k_cpu_futex_wait_live; intros n.
  - exists (2 * n)%nat. split; [lia|]. unfold two_in_turn. by rewrite Nat.even_even.
  - exists (2 * n + 1)%nat. split; [lia|]. unfold two_in_turn. by rewrite Nat.even_odd.
Defined.

(** C18: the idle thread can miss the interrupt. There is a beginning, after which the
    thread has been given to the CPU and its interrupt has been raised, such that however
    the idle thread and the sender go on, the CPU waits for ever and never switches to
    the thread: the trap was taken between the test of the task and [wfi]. *)
Theorem k_thread_idle_main_lost_wakeup t :
  ∃ start, let w0 := foldl (fun w a => step t a w) idle_start start in
    w_task w0 = Some t ∧ w_sent w0 = 2%nat ∧
    ∀ sched, (∀ n, sched n ≠ Noise) → ∀ n, let w := run (step t) sched n w0 in
      w_task w = Some t ∧ (w_pc w = IWfi ∨ w_pc w = IWait).
Proof.
  exists [Waiter; Waiter; Sender; Sender; Trap]. split; [done|]. split; [done|]. intros sched Hn n.
  set (w0 := foldl _ _ _). assert (∀ w, run (step t) sched n w0 = w →
    w_task w = Some t ∧ (w_pc w = IWfi ∨ w_pc w = IWait) ∧ w_pending w = false ∧ w_sent w = 2%nat) as Hall.
  { induction n as [|n IH]; intros w <-; [by vm_compute; auto|]. cbn [run].
    destruct (IH _ eq_refl) as (H1 & H2 & H3 & H4). specialize (Hn n).
    set (w' := run (step t) sched n w0) in *. destruct w' as [p task wk same pend en sent]; cbn in *; subst.
    destruct (sched n); [|by auto|by auto|done|by auto].
    unfold step, waiter_step, idle_step. cbn. destruct H2 as [->| ->]; cbn; auto. }
  destruct (Hall _ eq_refl) as (? & ? & _). done.
Qed.

Lemma k_thread_idle_main_lost_wakeup_witness :
  ∃ start, w_sent (foldl (fun w a => step 7 a w) idle_start start) = 2%nat.
Proof. destruct (k_thread_idle_main_lost_wakeup 7) as (start & _ & E & _). by exists start. Defined.
End Wait.
