(* ===== verification/Clk.v ===== *)
(** * Clocks of devices (driver/clk/clk.c, driver/clk/clk_fixed.c, and the probe of
      driver/clk/sifive/prci.c)

    A clock is given by the number of its device and the index of an output.  The private
    data of the two drivers is [clks]; the system they are part of is an instance of
    [HasClks], and of [HasIo] for the registers.  The functions that only look at the
    PLLs are in Prci.v. *)

From S2P Require Import Prelude Config Device Prci.

(** [clk_in], [index_clk_in] and the rest of the private data of [prci]. *)
Record prci_dev := mk_prci_dev {
  pd_clk_in : option Z;
  pd_index : Z;
  pd_priv : clk_prci_priv
}.

(** The private data by the number of the device; [clk_fixed_priv] is the frequency. *)
Record clks := mk_clks {
  c_fixed : gmap Z Z;
  c_prci : gmap Z prci_dev
}.

Class HasClks (St : Type) := {
  clks_get : St → clks;
  clks_put : clks → St → St
}.

Record k_clk_driver_ops (St : Type) := mk_clk_ops {
  cop_get_freq : option (Z → Z → devtree → St → exec (Z * option Z * St));
  cop_set_freq : option (Z → Z → Z → devtree → St → exec (Z * St));
  cop_enable : option (Z → Z → devtree → St → exec (Z * St));
  cop_disable : option (Z → Z → devtree → St → exec (Z * St))
}.
Arguments mk_clk_ops {St}.
Arguments cop_get_freq {St}.
Arguments cop_set_freq {St}.
Arguments cop_enable {St}.
Arguments cop_disable {St}.

Section Clk.
Context `{Arch} {St W : Type} `{Mmio W} `{HasIo St W} `{HasClks St}.
Variable dev_ops : Z → option (k_device_driver_ops St).
Variable bus_ops : Z → option (k_bus_driver_ops St).
Variable clk_ops : Z → option (k_clk_driver_ops St).
Variable acc_ops : Z → option (k_device_driver_ops W).

(** ** Clocks *)

Definition k_clk_add_device (clk : Z) (parent : option Z) (t : devtree) (s : St) : exec (Z * devtree * St) :=
  '(r, t, s) ← k_device_add dev_ops bus_ops (Some clk) parent t s;
  if IS_ERROR r then Ret (r, t, s) else Ret (0, t, s).

Definition k_clk_remove_device (clk : option Z) (t : devtree) : Z * devtree := k_device_remove clk t.

Definition k_clk_enable (clk : option Z) (index : Z) (t : devtree) (s : St) : exec (Z * St) :=
  drv ← k_device_get_drv t clk;
  match drv ≫= (fun d => clk_ops d ≫= cop_enable), clk with
  | Some f, Some c => f c index t s
  | _, _ => Ret (- ENODEV, s)
  end.

Definition k_clk_disable (clk : option Z) (index : Z) (t : devtree) (s : St) : exec (Z * St) :=
  drv ← k_device_get_drv t clk;
  match drv ≫= (fun d => clk_ops d ≫= cop_disable), clk with
  | Some f, Some c => f c index t s
  | _, _ => Ret (- ENODEV, s)
  end.

(** The frequency, when the driver has stored one. *)
Definition k_clk_get_frequency (clk : option Z) (index : Z) (t : devtree) (s : St) : exec (Z * option Z * St) :=
  drv ← k_device_get_drv t clk;
  match drv ≫= (fun d => clk_ops d ≫= cop_get_freq), clk with
  | Some f, Some c => f c index t s
  | _, _ => Ret (- ENODEV, None, s)
  end.

Definition k_clk_set_frequency (clk : option Z) (index freq : Z) (t : devtree) (s : St) : exec (Z * St) :=
  drv ← k_device_get_drv t clk;
  match drv ≫= (fun d => clk_ops d ≫= cop_set_freq), clk with
  | Some f, Some c => f c index freq t s
  | _, _ => Ret (- ENODEV, s)
  end.

(** The clock and the output of the [index]-th entry of [clocks]. *)
Definition k_clk_get_clk_from_config (t : devtree) (dev index : Z) : exec (Z * option (Z * Z)) :=
  x ← get_device t dev;
  '(r, name) ← k_device_read_conf_str (Some x) (Some "clocks"%string) (index * 2);
  if truth r then Ret (- EINVAL, None) else
  '(r, val) ← k_device_read_conf_u32 (Some x) (Some "clocks"%string) (index * 2 + 1);
  if truth r then Ret (- EINVAL, None) else
  '(r, tmp) ← k_bus_find_device t (Some bus_root) name;
  if r =? - EAGAIN then Ret (- EAGAIN, None) else
  if truth r then Ret (- EINVAL, None) else
  tmp ← of_opt tmp;
  val ← of_opt val;
  Ret (0, Some (tmp, i32 val)).

(** What the probes of the drivers do with their input clock: it is looked up, its
    frequency is read, and it is enabled.  The result has what was stored by then: the
    clock with its output, and the frequency. *)
Definition clk_input (dev : Z) (t : devtree) (s : St) : exec (Z * option (Z * Z) * option Z * St) :=
  '(r, ck) ← k_clk_get_clk_from_config t dev 0;
  if truth r then Ret (r, None, None, s) else
  '(clk, index) ← of_opt ck;
  '(r, freq, s) ← k_clk_get_frequency (Some clk) index t s;
  if truth r then Ret (r, ck, freq, s) else
  '(r, s) ← k_clk_enable (Some clk) index t s;
  Ret (r, ck, freq, s).

(** ** Fixed clocks (clk_fixed.c) *)

Definition put_fixed (dev freq : Z) (s : St) : St :=
  clks_put (mk_clks (<[dev := freq]> (c_fixed (clks_get s))) (c_prci (clks_get s))) s.

Definition clk_fixed_add (dev : Z) (t : devtree) (s : St) : exec (Z * devtree * St) :=
  match c_fixed (clks_get s) !! dev with
  | None => Ret (- EINVAL, t, s)
  | Some _ =>
    x ← get_device t dev;
    '(r, f) ← k_device_read_conf_u64 (Some x) (Some "frequency"%string) 0;
    if truth r then Ret (- EINVAL, t, s) else
    f ← of_opt f;
    Ret (0, t, put_fixed dev f s)
  end.

Definition clk_fixed_remove (dev : Z) (t : devtree) (s : St) : exec (Z * St) := Ret (0, s).
Definition clk_fixed_enable (dev index : Z) (t : devtree) (s : St) : exec (Z * St) := Ret (0, s).
Definition clk_fixed_disable (dev index : Z) (t : devtree) (s : St) : exec (Z * St) := Ret (0, s).
Definition clk_fixed_get_freq (dev index : Z) (t : devtree) (s : St) : exec (Z * option Z * St) :=
  if negb (index =? 0) then Ret (- EINVAL, None, s) else
  f ← of_opt (c_fixed (clks_get s) !! dev);
  Ret (0, Some f, s).
Definition clk_fixed_clk_ops : k_clk_driver_ops St :=
  mk_clk_ops (Some clk_fixed_get_freq) None (Some clk_fixed_enable) (Some clk_fixed_disable).

(** ** The PRCI (sifive/prci.c) *)

Definition put_prci (dev : Z) (p : prci_dev) (s : St) : St :=
  clks_put (mk_clks (c_fixed (clks_get s)) (<[dev := p]> (c_prci (clks_get s)))) s.
Definition get_prci (dev : Z) (s : St) : exec prci_dev := of_opt (c_prci (clks_get s) !! dev).

Definition prci_enable (dev index : Z) (t : devtree) (s : St) : exec (Z * St) :=
  with_regs acc_ops t dev (fun ops x => clk_prci_enable ops x index) s.
Definition prci_disable (dev index : Z) (t : devtree) (s : St) : exec (Z * St) :=
  with_regs acc_ops t dev (fun ops x => clk_prci_disable ops x index) s.
Definition prci_get_freq (dev index : Z) (t : devtree) (s : St) : exec (Z * option Z * St) :=
  p ← get_prci dev s;
  let '(r, f) := clk_prci_get_freq (pd_priv p) index in
  Ret (r, f, s).
Definition prci_set_freq (fuel : nat) (dev index freq : Z) (t : devtree) (s : St) : exec (Z * St) :=
  p ← get_prci dev s;
  '(r, pr, s) ← with_regs acc_ops t dev (fun ops x => clk_prci_set_freq ops x fuel (pd_priv p) index freq) s;
  Ret (r, put_prci dev (mk_prci_dev (pd_clk_in p) (pd_index p) pr) s).

(** One of the outputs of [clk_prci_add]: its frequency is read and set. *)
Definition set_output (fuel : nat) (dev index : Z) (t : devtree) (s : St) : exec (Z * St) :=
  x ← get_device t dev;
  '(r, f) ← k_device_read_conf_u64 (Some x) (Some "frequency"%string) index;
  if truth r then Ret (- EINVAL, s) else
  f ← of_opt f;
  prci_set_freq fuel dev index f t s.

Definition clk_prci_add (fuel : nat) (dev : Z) (t : devtree) (s : St) : exec (Z * devtree * St) :=
  match c_prci (clks_get s) !! dev with
  | None => Ret (- EINVAL, t, s)
  | Some p =>
    '(r, t) ← k_io_mmap_device dev_ops 0 dev t;
    if truth r then Ret (r, t, s) else
    '(r, ck, freq, s) ← clk_input dev t s;
    let pr := pd_priv p in
    let s := put_prci dev (mk_prci_dev (default (pd_clk_in p) (Some ∘ fst <$> ck)) (default (pd_index p) (snd <$> ck))
      (mk_prci (default (freq_in pr) freq) (freq_ddrctrl pr) (freq_core pr) (freq_gemgxl pr))) s in
    if truth r then Ret (r, t, s) else
    '(r, s) ← set_output fuel dev PRCI_INDEX_DDRCTRLCLK t s;
    if truth r then Ret (r, t, s) else
    '(r, s) ← set_output fuel dev PRCI_INDEX_CORECLK t s;
    if truth r then Ret (r, t, s) else
    '(r, s) ← set_output fuel dev PRCI_INDEX_GEMGXLCLK t s;
    Ret (r, t, s)
  end.

Definition clk_prci_remove (dev : Z) (t : devtree) (s : St) : exec (Z * St) := Ret (0, s).

Definition clk_prci_clk_ops (fuel : nat) : k_clk_driver_ops St :=
  mk_clk_ops (Some prci_get_freq) (Some (prci_set_freq fuel)) (Some prci_enable) (Some prci_disable).
End Clk.
