(* ===== verification/Uart.v ===== *)
(** * Serial ports (driver/uart/uart.c and the drivers ns/16550.c, sifive/uart0.c and
      xilinx/uart_lite.c)

    The private data of the three drivers, by the number of the device, and the default
    console are [uarts]; a system has them as an instance of [HasUarts].  The loops that
    poll a status register are given a number of iterations. *)

From S2P Require Import Prelude Config Event Device File Regfile Intr Prci Clk.

(** ** State *)

(** [intc], [hnd_irq] and [num_irq] of the private data of a device that raises interrupts;
    the handler is an object. *)
Record dev_irq := mk_dev_irq {
  ui_intc : option Z;
  ui_hnd : Z;
  ui_num : Z
}.

Record uart_ns16550_priv := mk_ns16550 {
  ns_clk : option Z;
  ns_index_clk : Z;
  ns_freq_in : Z;
  ns_addr_shift : Z;
  ns_irq : dev_irq;
  ns_baud : Z
}.

Record uart_sifive_priv := mk_sifive {
  sf_clk : option Z;
  sf_index_clk : Z;
  sf_freq_in : Z;
  sf_irq : dev_irq;
  sf_baud : Z
}.

Record uart_lite_priv := mk_lite { lt_irq : dev_irq }.

Record uarts := mk_uarts {
  u_ns : gmap Z uart_ns16550_priv;
  u_sf : gmap Z uart_sifive_priv;
  u_lt : gmap Z uart_lite_priv;
  uart_default : option Z;
  (** [k_pri_getchar_in] and [k_pri_putchar_in] (sys/printk.c) are [uart_getc] and [uart_putc]. *)
  uart_console : bool
}.

Class HasUarts (St : Type) := {
  uarts_get : St → uarts;
  uarts_put : uarts → St → St
}.

(** [conf] of the functions below is its [baud]. *)
Record k_uart_driver_ops (St : Type) := mk_uart_ops {
  uop_char_in : option (Z → devtree → St → exec (Z * St));
  uop_char_out : option (Z → Z → devtree → St → exec St);
  uop_get_config : option (Z → St → exec (Z * Z));
  uop_set_config : option (Z → Z → devtree → St → exec (Z * St))
}.
Arguments mk_uart_ops {St}.
Arguments uop_char_in {St}.
Arguments uop_char_out {St}.
Arguments uop_get_config {St}.
Arguments uop_set_config {St}.

(** ** Registers *)

Definition NS_REG_RBR : Z := 0x00.
Definition NS_REG_THR : Z := 0x00.
Definition NS_REG_IER : Z := 0x01.
Definition NS_REG_LCR : Z := 0x03.
Definition NS_REG_LSR : Z := 0x05.
Definition NS_REG_DLL : Z := 0x00.
Definition NS_REG_DLM : Z := 0x01.
Definition IER_ERBFI : Z := BIT 0.
Definition IER_ETBEI : Z := BIT 1.
Definition LSR_RX_READY : Z := BIT 0.
Definition LSR_THR_EMPTY : Z := BIT 5.
Definition UART_NS16550_DEFAULT_BAUD : Z := 9600.
Definition REG_WIDTH_DEFAULT : Z := 4.

Definition SF_REG_TXDATA : Z := 0x00.
Definition SF_REG_RXDATA : Z := 0x04.
Definition SF_REG_TXCTRL : Z := 0x08.
Definition SF_REG_RXCTRL : Z := 0x0c.
Definition SF_REG_IE : Z := 0x10.
Definition SF_REG_DIV : Z := 0x18.
Definition TXDATA_FULL : Z := BIT 31.
Definition RXDATA_EMPTY : Z := BIT 31.
Definition TXCTRL_TXEN : Z := BIT 0.
Definition TXCTRL_TXCNT_SHIFT : Z := 16.
Definition RXCTRL_RXEN : Z := BIT 0.
Definition RXCTRL_RXCNT_SHIFT : Z := 16.
Definition IE_TXWM : Z := BIT 0.
Definition IE_RXWM : Z := BIT 1.
Definition UART_SIFIVE_DEFAULT_BAUD : Z := 9600.

Definition LT_REG_RXFIFO : Z := 0x00.
Definition LT_REG_TXFIFO : Z := 0x04.
Definition LT_REG_STAT : Z := 0x08.
Definition LT_REG_CTRL : Z := 0x0c.
Definition STAT_RXFIFO_VALID : Z := BIT 0.
Definition STAT_TXFIFO_FULL : Z := BIT 3.
Definition CTRL_ENA_INTR : Z := BIT 4.

Section Registers.
Context `{Arch} {W : Type} `{Mmio W}.
Variable ops : option (k_device_driver_ops W).
Variable dev : k_device.

(** *** ns16550: the distance of the registers is a power of two *)

Section Ns16550.
Variable shift : Z.

Definition uart_read (off : Z) (w : W) : Z * W :=
  let shifted := usize (Z.shiftl off shift) in
  let '(v, w) :=
    if shift =? 0 then k_device_read8 ops dev shifted w
    else if shift =? 1 then k_device_read16 ops dev shifted w
    else if shift =? 2 then k_device_read32 ops dev shifted w
    else (-1, w) in
  (u8 v, w).

Definition uart_write (dat off : Z) (w : W) : W :=
  let shifted := usize (Z.shiftl off shift) in
  let dat := u8 dat in
  if shift =? 0 then k_device_write8 ops dev dat shifted w
  else if shift =? 1 then k_device_write16 ops dev dat shifted w
  else if shift =? 2 then k_device_write32 ops dev dat shifted w
  else w.

Definition ns16550_divisor (freq baud : Z) : Z := u32 (freq / baud / 16).

(** The division by a [baud] of 0 is not defined. *)
Definition uart_ns16550_set_baud (freq baud : Z) (w : W) : exec (Z * W) :=
  if baud =? 0 then Undef else
  let d := ns16550_divisor freq baud in
  if d =? 0 then Ret (- EINVAL, w) else
  if d >? 0xffff then Ret (- EINVAL, w) else
  let '(v, w) := uart_read NS_REG_LCR w in
  let w := uart_write (Z.lor v 0x80) NS_REG_LCR w in
  let w := uart_write d NS_REG_DLL w in
  let w := uart_write (Z.shiftr d 8) NS_REG_DLM w in
  let '(v, w) := uart_read NS_REG_LCR w in
  Ret (0, uart_write (clear v 0x80) NS_REG_LCR w).

(** [while ((status & mask) == 0)] *)
Fixpoint ns16550_poll (fuel : nat) (mask : Z) (w : W) : exec W :=
  match fuel with
  | O => Hang
  | S fuel =>
    let '(v, w) := uart_read NS_REG_LSR w in
    if Z.land v mask =? 0 then ns16550_poll fuel mask w else Ret w
  end.

Definition uart_ns16550_char_in (fuel : nat) (w : W) : exec (Z * W) :=
  w ← ns16550_poll fuel LSR_RX_READY w; Ret (uart_read NS_REG_RBR w).

Definition uart_ns16550_char_out (fuel : nat) (value : Z) (w : W) : exec W :=
  w ← ns16550_poll fuel LSR_THR_EMPTY w; Ret (uart_write value NS_REG_THR w).

Definition uart_ns16550_enable_intr (w : W) : W :=
  let '(v, w) := uart_read NS_REG_IER w in
  uart_write (Z.lor v (Z.lor IER_ERBFI IER_ETBEI)) NS_REG_IER w.
Definition uart_ns16550_disable_intr (w : W) : W :=
  let '(v, w) := uart_read NS_REG_IER w in
  uart_write (clear v (Z.lor IER_ERBFI IER_ETBEI)) NS_REG_IER w.
End Ns16550.

(** *** sifive uart0 *)

Fixpoint uart_sifive_char_in (fuel : nat) (w : W) : exec (Z * W) :=
  match fuel with
  | O => Hang
  | S fuel =>
    let '(v, w) := k_device_read32 ops dev SF_REG_RXDATA w in
    if Z.land v RXDATA_EMPTY =? 0 then Ret (Z.land v 0xff, w) else uart_sifive_char_in fuel w
  end.

Fixpoint sifive_poll (fuel : nat) (w : W) : exec W :=
  match fuel with
  | O => Hang
  | S fuel =>
    let '(v, w) := k_device_read32 ops dev SF_REG_TXDATA w in
    if Z.land v TXDATA_FULL =? 0 then Ret w else sifive_poll fuel w
  end.
Definition uart_sifive_char_out (fuel : nat) (value : Z) (w : W) : exec W :=
  w ← sifive_poll fuel w; Ret (k_device_write32 ops dev (Z.land value 0xff) SF_REG_TXDATA w).

Definition uart_sifive_enable_intr (w : W) : W :=
  let '(v, w) := k_device_read32 ops dev SF_REG_IE w in
  k_device_write32 ops dev (Z.lor v IE_RXWM) SF_REG_IE w.
Definition uart_sifive_disable_intr (w : W) : W :=
  let '(v, w) := k_device_read32 ops dev SF_REG_IE w in
  k_device_write32 ops dev (clear v (Z.lor IE_TXWM IE_RXWM)) SF_REG_IE w.

Definition sifive_divisor (freq baud : Z) : Z := u32 (u64 (freq / baud - 1)).
Definition uart_sifive_set_baud (freq baud : Z) (w : W) : exec W :=
  if baud =? 0 then Undef else Ret (k_device_write32 ops dev (sifive_divisor freq baud) SF_REG_DIV w).

(** *** uart_lite *)

(** [while ((status & mask) != want)], for a mask of one bit. *)
Fixpoint lite_poll (fuel : nat) (mask want : Z) (w : W) : exec W :=
  match fuel with
  | O => Hang
  | S fuel =>
    let '(v, w) := k_device_read32 ops dev LT_REG_STAT w in
    if Z.land v mask =? want then Ret w else lite_poll fuel mask want w
  end.
Definition uart_lite_char_in (fuel : nat) (w : W) : exec (Z * W) :=
  w ← lite_poll fuel STAT_RXFIFO_VALID STAT_RXFIFO_VALID w;
  let '(v, w) := k_device_read32 ops dev LT_REG_RXFIFO w in
  Ret (i32 v, w).
Definition uart_lite_char_out (fuel : nat) (value : Z) (w : W) : exec W :=
  w ← lite_poll fuel STAT_TXFIFO_FULL 0 w; Ret (k_device_write32 ops dev value LT_REG_TXFIFO w).

Definition uart_lite_enable_intr (w : W) : W :=
  let '(v, w) := k_device_read32 ops dev LT_REG_CTRL w in
  k_device_write32 ops dev (Z.lor v CTRL_ENA_INTR) LT_REG_CTRL w.
Definition uart_lite_disable_intr (w : W) : W :=
  let '(v, w) := k_device_read32 ops dev LT_REG_CTRL w in
  k_device_write32 ops dev (clear v CTRL_ENA_INTR) LT_REG_CTRL w.
End Registers.

(** ** Drivers *)

(** The functions of the handlers, by number (those of the controllers are 1 to 4). *)
Definition FN_uart_ns16550_intr : Z := 5.
Definition FN_uart_sifive_intr : Z := 6.
Definition FN_uart_lite_intr : Z := 7.

Definition no_intc (u : dev_irq) : dev_irq := mk_dev_irq None (ui_hnd u) (ui_num u).

Section Drivers.
Context `{Arch} `{Config} {St W : Type} `{Mmio W} `{HasIrq St W} `{HasClks St} `{HasUarts St}.
Variable dev_ops : Z → option (k_device_driver_ops St).
Variable bus_ops : Z → option (k_bus_driver_ops St).
Variable intc_ops : Z → option (k_intc_driver_ops W).
Variable clk_ops : Z → option (k_clk_driver_ops St).
Variable acc_ops : Z → option (k_device_driver_ops W).
(** Iterations of the loops that wait for a device. *)
Variable fuel : nat.

(** Functions of the registers that give no result, or cannot fail. *)
Definition on_regs {X} `{HasIo X W} (t : devtree) (dev : Z)
    (f : option (k_device_driver_ops W) → k_device → W → exec W) (s : X) : exec X :=
  '(_, s) ← with_regs acc_ops t dev (fun ops x w => w ← f ops x w; Ret (tt, w)) s;
  Ret s.

Definition put_ns (dev : Z) (p : uart_ns16550_priv) (s : St) : St :=
  let u := uarts_get s in
  uarts_put (mk_uarts (<[dev := p]> (u_ns u)) (u_sf u) (u_lt u) (uart_default u) (uart_console u)) s.
Definition put_sf (dev : Z) (p : uart_sifive_priv) (s : St) : St :=
  let u := uarts_get s in
  uarts_put (mk_uarts (u_ns u) (<[dev := p]> (u_sf u)) (u_lt u) (uart_default u) (uart_console u)) s.
Definition put_lt (dev : Z) (p : uart_lite_priv) (s : St) : St :=
  let u := uarts_get s in
  uarts_put (mk_uarts (u_ns u) (u_sf u) (<[dev := p]> (u_lt u)) (uart_default u) (uart_console u)) s.
Definition set_default (d : option Z) (s : St) : St :=
  let u := uarts_get s in uarts_put (mk_uarts (u_ns u) (u_sf u) (u_lt u) d true) s.

(** [k_uart_read_default_config]: the [baud] of the device's configuration, or 0. *)
Definition k_uart_read_default_config (t : devtree) (uart : Z) : exec (Z * Z) :=
  x ← get_device t uart;
  '(_, v) ← k_device_read_conf_u32 (Some x) (Some "baud"%string) 0;
  Ret (0, default 0 v).

(** The part of the probes (of the GPIO as well) that looks up the controller, registers the handler and
    lets the device raise interrupts; and the part of the removals that undoes it. *)
Definition add_dev_irq (func dev : Z) (enable : option (k_device_driver_ops W) → k_device → W → exec W)
    (u : dev_irq) (t : devtree) (s : St) : exec (Z * dev_irq * St) :=
  '(r, ic) ← k_intc_get_intc_from_config t dev 0;
  if truth r then Ret (0, no_intc u, s) else
  '(intc, num) ← of_opt ic;
  let u := mk_dev_irq (Some intc) (ui_hnd u) num in
  let '(e, q) := irq_get s in
  e ← set_hnd_func e (ui_hnd u) func dev;
  '(r, e, q) ← k_intc_add_handler intc_ops (Some intc) num (Some (ui_hnd u)) t e q;
  let s := irq_put (e, q) s in
  if truth r then Ret (r, u, s) else
  s ← on_regs t dev enable s;
  Ret (0, u, s).

Definition remove_dev_irq (dev : Z) (disable : option (k_device_driver_ops W) → k_device → W → exec W)
    (u : dev_irq) (t : devtree) (s : St) : exec (Z * dev_irq * St) :=
  match ui_intc u with
  | None => Ret (0, u, s)
  | Some intc =>
    s ← on_regs t dev disable s;
    let '(e, q) := irq_get s in
    '(r, e, q) ← k_intc_remove_handler intc_ops (Some intc) (ui_num u) (Some (ui_hnd u)) t e q;
    if truth r then Ret (r, u, irq_put (e, q) s) else
    e ← set_hnd_func e (ui_hnd u) 0 0;
    Ret (0, mk_dev_irq None (ui_hnd u) 0, irq_put (e, q) s)
  end.

(** *** ns16550 *)

Definition get_ns (dev : Z) (s : St) : exec uart_ns16550_priv := of_opt (u_ns (uarts_get s) !! dev).

Definition ns16550_char_in (dev : Z) (t : devtree) (s : St) : exec (Z * St) :=
  p ← get_ns dev s;
  with_regs acc_ops t dev (fun ops x => uart_ns16550_char_in ops x (ns_addr_shift p) fuel) s.
Definition ns16550_char_out (dev value : Z) (t : devtree) (s : St) : exec St :=
  p ← get_ns dev s;
  on_regs t dev (fun ops x => uart_ns16550_char_out ops x (ns_addr_shift p) fuel value) s.
Definition uart_ns16550_get_config (dev : Z) (s : St) : exec (Z * Z) :=
  p ← get_ns dev s; Ret (0, ns_baud p).
Definition uart_ns16550_set_config (dev baud : Z) (t : devtree) (s : St) : exec (Z * St) :=
  p ← get_ns dev s;
  with_regs acc_ops t dev (fun ops x => uart_ns16550_set_baud ops x (ns_addr_shift p) (ns_freq_in p) baud) s.

(** The private data are those of the system when the interrupt comes. *)
Definition uart_ns16550_intr (us : uarts) (t : devtree) (event hnd : Z) (e : events) (q : irq W) :
    exec (Z * events * irq W) :=
  x ← get_hnd e hnd;
  p ← of_opt (u_ns us !! h_priv x);
  '(e, q) ← on_regs t (h_priv x) (fun ops d w => Ret (uart_ns16550_disable_intr ops d (ns_addr_shift p) w)) (e, q);
  Ret (EVENT_HANDLED, e, q).

(** [addr_shift] for a register width. *)
Definition reg_shift (width : Z) : option Z :=
  if width =? 1 then Some 0 else if width =? 2 then Some 1 else if width =? 4 then Some 2 else None.

Definition ns_set_shift (p : uart_ns16550_priv) (sh : Z) : uart_ns16550_priv :=
  mk_ns16550 (ns_clk p) (ns_index_clk p) (ns_freq_in p) sh (ns_irq p) (ns_baud p).
Definition ns_set_clk (p : uart_ns16550_priv) (ck : option (Z * Z)) (freq : option Z) : uart_ns16550_priv :=
  mk_ns16550 (default (ns_clk p) (Some ∘ fst <$> ck)) (default (ns_index_clk p) (snd <$> ck))
    (default (ns_freq_in p) freq) (ns_addr_shift p) (ns_irq p) (ns_baud p).
Definition ns_set_irq (p : uart_ns16550_priv) (u : dev_irq) : uart_ns16550_priv :=
  mk_ns16550 (ns_clk p) (ns_index_clk p) (ns_freq_in p) (ns_addr_shift p) u (ns_baud p).

Definition uart_ns16550_add (dev : Z) (t : devtree) (s : St) : exec (Z * devtree * St) :=
  match u_ns (uarts_get s) !! dev with
  | None => Ret (- EINVAL, t, s)
  | Some p =>
    x ← get_device t dev;
    '(r, w) ← k_device_read_conf_u32 (Some x) (Some "reg-width"%string) 0;
    w ← (if truth r then Ret REG_WIDTH_DEFAULT else of_opt w);
    match reg_shift w with
    | None => Ret (- EINVAL, t, s)
    | Some sh =>
      let p := ns_set_shift p sh in
      '(r, ck, freq, s) ← clk_input clk_ops dev t (put_ns dev p s);
      let p := ns_set_clk p ck freq in
      let s := put_ns dev p s in
      if truth r then Ret (r, t, s) else
      '(r, t) ← k_io_mmap_device dev_ops 0 dev t;
      if truth r then Ret (r, t, s) else
      '(r, u, s) ← add_dev_irq FN_uart_ns16550_intr dev
        (fun ops x w => Ret (uart_ns16550_enable_intr ops x sh w)) (ns_irq p) t s;
      let s := put_ns dev (ns_set_irq p u) s in
      if truth r then Ret (r, t, s) else
      '(_, baud) ← k_uart_read_default_config t dev;
      let baud := if baud =? 0 then UART_NS16550_DEFAULT_BAUD else baud in
      '(r, s) ← uart_ns16550_set_config dev baud t s;
      Ret (r, t, s)
    end
  end.

Definition uart_ns16550_remove (dev : Z) (t : devtree) (s : St) : exec (Z * St) :=
  match u_ns (uarts_get s) !! dev with
  | None => Ret (- EINVAL, s)
  | Some p =>
    '(r, u, s) ← remove_dev_irq dev (fun ops x w => Ret (uart_ns16550_disable_intr ops x (ns_addr_shift p) w))
      (ns_irq p) t s;
    let s := put_ns dev (ns_set_irq p u) s in
    if truth r then Ret (r, s) else
    '(r, s) ← k_clk_disable clk_ops (ns_clk p) (ns_index_clk p) t s;
    Ret (if truth r then r else - ENOTSUP, s)
  end.

Definition ns16550_uart_ops : k_uart_driver_ops St :=
  mk_uart_ops (Some ns16550_char_in) (Some ns16550_char_out) (Some uart_ns16550_get_config)
    (Some uart_ns16550_set_config).

(** *** sifive uart0 *)

Definition get_sf (dev : Z) (s : St) : exec uart_sifive_priv := of_opt (u_sf (uarts_get s) !! dev).
Definition sf_set_clk (p : uart_sifive_priv) (ck : option (Z * Z)) (freq : option Z) : uart_sifive_priv :=
  mk_sifive (default (sf_clk p) (Some ∘ fst <$> ck)) (default (sf_index_clk p) (snd <$> ck))
    (default (sf_freq_in p) freq) (sf_irq p) (sf_baud p).
Definition sf_set_irq (p : uart_sifive_priv) (u : dev_irq) : uart_sifive_priv :=
  mk_sifive (sf_clk p) (sf_index_clk p) (sf_freq_in p) u (sf_baud p).
Definition sf_set_baud (p : uart_sifive_priv) (baud : Z) : uart_sifive_priv :=
  mk_sifive (sf_clk p) (sf_index_clk p) (sf_freq_in p) (sf_irq p) baud.

Definition sifive_char_in (dev : Z) (t : devtree) (s : St) : exec (Z * St) :=
  with_regs acc_ops t dev (fun ops x => uart_sifive_char_in ops x fuel) s.
Definition sifive_char_out (dev value : Z) (t : devtree) (s : St) : exec St :=
  on_regs t dev (fun ops x => uart_sifive_char_out ops x fuel value) s.
Definition uart_sifive_get_config (dev : Z) (s : St) : exec (Z * Z) := p ← get_sf dev s; Ret (0, sf_baud p).
Definition uart_sifive_set_config (dev baud : Z) (t : devtree) (s : St) : exec (Z * St) :=
  p ← get_sf dev s;
  s ← on_regs t dev (fun ops x => uart_sifive_set_baud ops x (sf_freq_in p) baud) s;
  Ret (0, put_sf dev (sf_set_baud p baud) s).

Definition uart_sifive_intr (event hnd : Z) (e : events) (q : irq W) : exec (Z * events * irq W) :=
  Ret (EVENT_HANDLED, e, q).

Definition TXCTRL_VALUE : Z := Z.lor TXCTRL_TXEN (Z.shiftl 1 TXCTRL_TXCNT_SHIFT).
Definition RXCTRL_VALUE : Z := Z.lor RXCTRL_RXEN (Z.shiftl 0 RXCTRL_RXCNT_SHIFT).

Definition uart_sifive_add (dev : Z) (t : devtree) (s : St) : exec (Z * devtree * St) :=
  match u_sf (uarts_get s) !! dev with
  | None => Ret (- EINVAL, t, s)
  | Some p =>
    '(r, ck, freq, s) ← clk_input clk_ops dev t s;
    let p := sf_set_clk p ck freq in
    let s := put_sf dev p s in
    if truth r then Ret (r, t, s) else
    '(r, t) ← k_io_mmap_device dev_ops 0 dev t;
    if truth r then Ret (r, t, s) else
    s ← on_regs t dev (fun ops x w =>
      let w := k_device_write32 ops x TXCTRL_VALUE SF_REG_TXCTRL w in
      Ret (k_device_write32 ops x RXCTRL_VALUE SF_REG_RXCTRL w)) s;
    '(r, u, s) ← add_dev_irq FN_uart_sifive_intr dev
      (fun ops x w => Ret (uart_sifive_enable_intr ops x w)) (sf_irq p) t s;
    let s := put_sf dev (sf_set_irq p u) s in
    if truth r then Ret (r, t, s) else
    '(_, baud) ← k_uart_read_default_config t dev;
    let baud := if baud =? 0 then UART_SIFIVE_DEFAULT_BAUD else baud in
    '(r, s) ← uart_sifive_set_config dev baud t s;
    Ret (r, t, s)
  end.

Definition uart_sifive_remove (dev : Z) (t : devtree) (s : St) : exec (Z * St) :=
  p ← get_sf dev s;
  '(r, u, s) ← remove_dev_irq dev (fun ops x w => Ret (uart_sifive_disable_intr ops x w)) (sf_irq p) t s;
  let s := put_sf dev (sf_set_irq p u) s in
  if truth r then Ret (r, s) else
  '(r, s) ← k_clk_disable clk_ops (sf_clk p) (sf_index_clk p) t s;
  Ret (if truth r then r else - ENOTSUP, s).

Definition uart_sifive_uart_ops : k_uart_driver_ops St :=
  mk_uart_ops (Some sifive_char_in) (Some sifive_char_out) (Some uart_sifive_get_config)
    (Some uart_sifive_set_config).

(** *** uart_lite *)

Definition get_lt (dev : Z) (s : St) : exec uart_lite_priv := of_opt (u_lt (uarts_get s) !! dev).
Definition lite_char_in (dev : Z) (t : devtree) (s : St) : exec (Z * St) :=
  with_regs acc_ops t dev (fun ops x => uart_lite_char_in ops x fuel) s.
Definition lite_char_out (dev value : Z) (t : devtree) (s : St) : exec St :=
  on_regs t dev (fun ops x => uart_lite_char_out ops x fuel value) s.

Definition uart_lite_intr (t : devtree) (event hnd : Z) (e : events) (q : irq W) : exec (Z * events * irq W) :=
  x ← get_hnd e hnd;
  '(_, q) ← read32 acc_ops t (h_priv x) LT_REG_STAT q;
  Ret (EVENT_HANDLED, e, q).

Definition uart_lite_add (dev : Z) (t : devtree) (s : St) : exec (Z * devtree * St) :=
  match u_lt (uarts_get s) !! dev with
  | None => Ret (- EINVAL, t, s)
  | Some p =>
    '(r, t) ← k_io_mmap_device dev_ops 0 dev t;
    if truth r then Ret (r, t, s) else
    '(r, u, s) ← add_dev_irq FN_uart_lite_intr dev
      (fun ops x w => Ret (uart_lite_enable_intr ops x w)) (lt_irq p) t s;
    Ret (r, t, put_lt dev (mk_lite u) s)
  end.

Definition uart_lite_remove (dev : Z) (t : devtree) (s : St) : exec (Z * St) :=
  p ← get_lt dev s;
  '(r, u, s) ← remove_dev_irq dev (fun ops x w => Ret (uart_lite_disable_intr ops x w)) (lt_irq p) t s;
  Ret (if truth r then r else - ENOTSUP, put_lt dev (mk_lite u) s).

Definition lite_uart_ops : k_uart_driver_ops St :=
  mk_uart_ops (Some lite_char_in) (Some lite_char_out) None None.

(** The handlers of the serial ports, for [call_hnd]. *)
Definition uart_call (us : uarts) (t : devtree) (func event hnd : Z) (e : events) (q : irq W) :
    exec (Z * events * irq W) :=
  if func =? FN_uart_ns16550_intr then uart_ns16550_intr us t event hnd e q
  else if func =? FN_uart_sifive_intr then uart_sifive_intr event hnd e q
  else if func =? FN_uart_lite_intr then uart_lite_intr t event hnd e q
  else Undef.

(** ** The device class (uart.c) *)

Variable uart_ops : Z → option (k_uart_driver_ops St).

Definition k_uart_get_config (t : devtree) (uart : option Z) (s : St) : exec (Z * option Z) :=
  drv ← k_device_get_drv t uart;
  match uart with
  | None => Ret (- EINVAL, None)
  | Some u =>
    match drv ≫= (fun d => uart_ops d ≫= uop_get_config) with
    | Some f => '(r, conf) ← f u s; Ret (r, Some conf)
    | None => Ret (0, None)
    end
  end.

Definition k_uart_set_config (t : devtree) (uart : option Z) (baud : Z) (s : St) : exec (Z * St) :=
  drv ← k_device_get_drv t uart;
  match uart with
  | None => Ret (- EINVAL, s)
  | Some u =>
    match drv ≫= (fun d => uart_ops d ≫= uop_set_config) with
    | Some f => f u baud t s
    | None => Ret (0, s)
    end
  end.

Definition uart_getc (t : devtree) (s : St) : exec (Z * St) :=
  match uart_default (uarts_get s) with
  | None => Ret (EOF, s)
  | Some u =>
    x ← get_device t u;
    if negb (dev_probed x) then Ret (EOF, s) else
    match dev_drv x ≫= (fun d => uart_ops d ≫= uop_char_in) with
    | Some f => f u t s
    | None => Ret (EOF, s)
    end
  end.

Definition uart_putc (c : Z) (t : devtree) (s : St) : exec (Z * St) :=
  match uart_default (uarts_get s) with
  | None => Ret (u8 c, s)
  | Some u =>
    x ← get_device t u;
    if negb (dev_probed x) then Ret (u8 c, s) else
    match dev_drv x ≫= (fun d => uart_ops d ≫= uop_char_out) with
    | Some f => s ← f u c t s; Ret (u8 c, s)
    | None => Ret (u8 c, s)
    end
  end.

(** [k_pri_getchar_in] and [k_pri_putchar_in] of the console. *)
Definition pri_getchar (t : devtree) (s : St) : exec (Z * St) :=
  if uart_console (uarts_get s) then uart_getc t s else null_getchar s.
Definition pri_putchar (c : Z) (t : devtree) (s : St) : exec (Z * St) :=
  if uart_console (uarts_get s) then uart_putc c t s else null_putchar c s.

Definition uart_get_default_console (s : St) : option Z := uart_default (uarts_get s).
Definition k_uart_set_default_console (uart : option Z) (s : St) : Z * St := (0, set_default uart s).

Definition k_uart_add_device (uart : Z) (parent : option Z) (as_default : bool) (t : devtree) (s : St) :
    exec (Z * devtree * St) :=
  '(r, t, s) ← k_device_add dev_ops bus_ops (Some uart) parent t s;
  if IS_ERROR r then Ret (r, t, s) else
  if as_default then Ret (0, t, (k_uart_set_default_console (Some uart) s).2) else Ret (0, t, s).

Definition k_uart_remove_device (uart : option Z) (t : devtree) (s : St) : Z * devtree * St :=
  let s := if decide (uart_get_default_console s = uart) then (k_uart_set_default_console None s).2 else s in
  (k_device_remove uart t, s).
End Drivers.
