(* ===== verification/Console.v ===== *)
(** * Properties of the serial ports

    What a transmitter of each kind promises ([Transmitter]), that the drivers send a
    byte to it, and that what is written to the standard output leaves the default serial
    port; the divisor that [uart_ns16550_set_baud] programs ([Latch]). *)

From S2P Require Import Prelude Config CString Event Cpu Device File Regfile Intr Prci Clk Uart.

(** ** Accesses to the registers *)

(** [uart_read] and [uart_write] of a mapped device, by the distance of the registers. *)
Definition ns_width (shift : Z) : Z := Z.shiftl 8 shift.

Section Access.
Context `{Arch} {W : Type} `{Mmio W}.
Variable ops : option (k_device_driver_ops W).
Variable d : k_device.
Hypothesis Hvirt : dev_virt d ≠ 0.

Definition uart_addr (off : Z) : Z := usize (dev_virt d + off).
Definition ns_addr (shift off : Z) : Z := uart_addr (usize (Z.shiftl off shift)).

Lemma uwrap_u8 w z : 8 <= w → u8 (uwrap w z) = u8 z.
Proof.
  intros Hw. unfold uwrap. symmetry. apply Znumtheory.Zmod_div_mod; [lia|by apply Z.pow_pos_nonneg; lia|].
  exists (2 ^ (w - 8)). rewrite <- Z.pow_add_r by lia. f_equal. lia.
Qed.

Lemma dev_read_mapped width rd off w : dev_read ops d width rd off w = rd (uart_addr off) w.
Proof. unfold dev_read. by rewrite (proj2 (truth_true _)). Qed.
Lemma dev_write_mapped width wr v off w : dev_write ops d width wr v off w = wr v (uart_addr off) w.
Proof. unfold dev_write. by rewrite (proj2 (truth_true _)). Qed.

Lemma uart_read_eq shift off w : 0 <= shift <= 2 →
  uart_read ops d shift off w =
    (u8 (io_read (ns_width shift) (ns_addr shift off) w).1, (io_read (ns_width shift) (ns_addr shift off) w).2).
Proof.
  intros Hs. unfold uart_read, k_device_read8, k_device_read16, k_device_read32. rewrite !dev_read_mapped.
  assert (shift = 0 ∨ shift = 1 ∨ shift = 2) as [-> | [-> | ->]] by lia; cbn [Z.eqb Pos.eqb];
    unfold k_io_read8, k_io_read16, k_io_read32, ns_width, ns_addr; cbn [Z.shiftl Pos.iter Z.mul Pos.mul];
    destruct (io_read _ _ w) as [v w']; cbn [fst snd]; by rewrite uwrap_u8 by lia.
Qed.

Lemma uart_write_eq shift v off w : 0 <= shift <= 2 →
  uart_write ops d shift v off w = io_write (ns_width shift) (u8 v) (ns_addr shift off) w.
Proof.
  intros Hs. unfold uart_write, k_device_write8, k_device_write16, k_device_write32. rewrite !dev_write_mapped.
  assert (∀ n, 8 <= n → uwrap n (u8 v) = u8 v) as E.
  { intros n Hn. apply uwrap_small. pose proof (uwrap_range 8 v ltac:(lia)).
    pose proof (Z.pow_le_mono_r 2 8 n ltac:(lia) ltac:(lia)). lia. }
  assert (shift = 0 ∨ shift = 1 ∨ shift = 2) as [-> | [-> | ->]] by lia; cbn [Z.eqb Pos.eqb];
    unfold k_io_write8, k_io_write16, k_io_write32, ns_width, ns_addr; by rewrite E by lia.
Qed.
End Access.

(** ** Transmitters *)

Inductive uart_kind := KNs16550 (shift : Z) | KSifive | KLite.

Definition kind_ok (k : uart_kind) : Prop :=
  match k with
  | KNs16550 shift => 0 <= shift <= 2
  | _ => True
  end.
Definition tx_width (k : uart_kind) : Z :=
  match k with
  | KNs16550 shift => ns_width shift
  | _ => 32
  end.
(** Offsets of the status and of the data register. *)
Definition status_off `{Arch} (k : uart_kind) : Z :=
  match k with
  | KNs16550 shift => usize (Z.shiftl NS_REG_LSR shift)
  | KSifive => SF_REG_TXDATA
  | KLite => LT_REG_STAT
  end.
Definition data_off `{Arch} (k : uart_kind) : Z :=
  match k with
  | KNs16550 shift => usize (Z.shiftl NS_REG_THR shift)
  | KSifive => SF_REG_TXDATA
  | KLite => LT_REG_TXFIFO
  end.
(** The status says that there is room for a byte. *)
Definition has_room (k : uart_kind) (v : Z) : bool :=
  match k with
  | KNs16550 _ => negb (Z.land (u8 v) LSR_THR_EMPTY =? 0)
  | KSifive => Z.land (u32 v) TXDATA_FULL =? 0
  | KLite => Z.land (u32 v) STAT_TXFIFO_FULL =? 0
  end.

(** What a transmitter promises: while it is set up ([tx_on]) it finds room for a byte
    after at most [patience] looks at its status, which have no other effect; and the
    byte that is written when there is room is the next one to leave. *)
Class Transmitter (W : Type) `{Mmio W} (k : uart_kind) (status data : Z) := {
  sent : W → list Z;
  tx_on : W → Prop;
  busy : W → nat;
  patience : nat;
  busy_le w : tx_on w → (busy w <= patience)%nat;
  status_room w : tx_on w → has_room k (io_read (tx_width k) status w).1 = (busy w =? 0)%nat;
  status_keeps w : tx_on w → let w' := (io_read (tx_width k) status w).2 in
    tx_on w' ∧ sent w' = sent w ∧ busy w' = pred (busy w);
  data_sends w v : tx_on w → busy w = 0%nat → let w' := io_write (tx_width k) v data w in
    tx_on w' ∧ sent w' = sent w ++ [u8 v]
}.

(** The value a driver writes for a character. *)
Definition tx_value (k : uart_kind) (value : Z) : Z :=
  match k with
  | KNs16550 _ => u8 value
  | KSifive => u32 (Z.land value 0xff)
  | KLite => u32 value
  end.

Lemma tx_value_u8 k value : u8 (tx_value k value) = u8 value.
Proof.
  destruct k; cbn [tx_value]; rewrite ?uwrap_idem, ?uwrap_u8 by lia; try done.
  change 0xff with (Z.ones 8). rewrite Z.land_ones by lia. apply uwrap_idem.
Qed.

Section Tx.
Context `{Arch} {W : Type} `{Mmio W}.
Variable ops : option (k_device_driver_ops W).
Variable d : k_device.
Variable k : uart_kind.

Definition char_out (fuel : nat) (value : Z) (w : W) : exec W :=
  match k with
  | KNs16550 shift => uart_ns16550_char_out ops d shift fuel value w
  | KSifive => uart_sifive_char_out ops d fuel value w
  | KLite => uart_lite_char_out ops d fuel value w
  end.

(** The three loops are the same one. *)
Fixpoint wait_room (fuel : nat) (w : W) : exec W :=
  match fuel with
  | O => Hang
  | S fuel =>
    let '(v, w) := io_read (tx_width k) (uart_addr d (status_off k)) w in
    if has_room k v then Ret w else wait_room fuel w
  end.
End Tx.

Section TxProofs.
Context `{Arch} {W : Type} `{Mmio W}.
Variable ops : option (k_device_driver_ops W).
Variable d : k_device.
Variable k : uart_kind.
Hypothesis Hvirt : dev_virt d ≠ 0.
Hypothesis Hkind : kind_ok k.

Lemma char_out_wait fuel value w :
  char_out ops d k fuel value w = (w ← wait_room d k fuel w;
    Ret (io_write (tx_width k)
      (tx_value k value)
      (uart_addr d (data_off k)) w)).
Proof.
  unfold char_out. destruct k as [shift| |]; cbn [kind_ok tx_width status_off data_off] in *.
  - unfold uart_ns16550_char_out. revert w. induction fuel as [|fuel IH]; intros w; [done|].
    cbn [ns16550_poll wait_room tx_width status_off has_room]. rewrite uart_read_eq by done. unfold ns_addr.
    destruct (io_read _ _ w) as [v w']. cbn [fst snd]. case_match; cbn [negb]; [apply IH|].
    mstep. by rewrite uart_write_eq.
  - unfold uart_sifive_char_out. revert w. induction fuel as [|fuel IH]; intros w; [done|].
    cbn [sifive_poll wait_room tx_width status_off has_room].
    unfold k_device_read32 at 1, k_io_read32. rewrite dev_read_mapped by done.
    destruct (io_read _ _ w) as [v w']. case_match; [|apply IH]. mstep.
    unfold k_device_write32. by rewrite dev_write_mapped.
  - unfold uart_lite_char_out. revert w. induction fuel as [|fuel IH]; intros w; [done|].
    cbn [lite_poll wait_room tx_width status_off has_room].
    unfold k_device_read32 at 1, k_io_read32. rewrite dev_read_mapped by done.
    destruct (io_read _ _ w) as [v w']. case_match; [|apply IH]. mstep.
    unfold k_device_write32. by rewrite dev_write_mapped.
Qed.

Context `{T : !Transmitter W k (uart_addr d (status_off k)) (uart_addr d (data_off k))}.

Lemma wait_room_ok w fuel : tx_on w → (busy w < fuel)%nat →
  ∃ w', wait_room d k fuel w = Ret w' ∧ tx_on w' ∧ sent w' = sent w ∧ busy w' = 0%nat.
Proof.
  revert w. induction fuel as [|fuel IH]; intros w Hon Hf; [lia|]. cbn [wait_room].
  pose proof (status_room w Hon) as Hr. destruct (status_keeps w Hon) as (Hon' & Hs & Hb).
  destruct (io_read _ _ w) as [v w']. cbn [fst snd] in *. rewrite Hr. destruct (busy w =? 0)%nat eqn:E.
  - apply Nat.eqb_eq in E. exists w'. by rewrite Hb, E.
  - apply Nat.eqb_neq in E. destruct (IH w' Hon' ltac:(lia)) as (w'' & ? & ? & E' & ?). exists w''. by rewrite E'.
Qed.

Lemma char_out_sends w fuel value : tx_on w → (patience < fuel)%nat →
  ∃ w', char_out ops d k fuel value w = Ret w' ∧ tx_on w' ∧ sent w' = sent w ++ [u8 value].
Proof.
  intros Hon Hf. rewrite char_out_wait. pose proof (busy_le w Hon).
  destruct (wait_room_ok w fuel Hon ltac:(lia)) as (w1 & -> & Hon1 & <- & Hb). mstep.
  eexists. split; [done|].
  rewrite <- (tx_value_u8 k). by apply data_sends.
Qed.
End TxProofs.

(** ** The console *)

(** The parts of a system do not overlap. *)
Class UartSys (St W : Type) `{HasIrq St W} `{HasUarts St} := {
  irq_get_put (x : isys W) (s : St) : irq_get (irq_put x s) = x;
  uarts_of_irq_put (x : isys W) (s : St) : uarts_get (irq_put x s) = uarts_get s
}.

Section Port.
Context `{Arch} `{Config} {St W : Type} `{Mmio W} `{HasIrq St W} `{HasUarts St}.
Variable acc_ops : Z → option (k_device_driver_ops W).
Variable uart_ops : Z → option (k_uart_driver_ops St).
Variable fuel : nat.
Variable t : devtree.
Variables u drv : Z.
Variable d : k_device.
Variable k : uart_kind.

Definition kind_ops : k_uart_driver_ops St :=
  match k with
  | KNs16550 _ => ns16550_uart_ops acc_ops fuel
  | KSifive => uart_sifive_uart_ops acc_ops fuel
  | KLite => lite_uart_ops acc_ops fuel
  end.

(** The device [u] is probed and mapped, its driver is the one of the kind [k]. *)
Record serial_port : Prop := {
  sp_dev : t_devices t !! u = Some d;
  sp_probed : dev_probed d = true;
  sp_drv : dev_drv d = Some drv;
  sp_virt : dev_virt d ≠ 0;
  sp_kind : kind_ok k;
  sp_ops : uart_ops drv = Some kind_ops
}.

(** It is the default console, with the distance of its registers in the private data. *)
Record console_on (s : St) : Prop := {
  co_default : uart_default (uarts_get s) = Some u;
  co_set : uart_console (uarts_get s) = true;
  co_shift shift : k = KNs16550 shift → ∃ p, u_ns (uarts_get s) !! u = Some p ∧ ns_addr_shift p = shift
}.

Definition io_of (s : St) : W := q_io (irq_get s).2.
End Port.

Section Stdout.
Context `{Arch} `{Config} {St W : Type} `{Mmio W} `{HasIrq St W} `{HasUarts St} `{L : !UartSys St W}.
Variable acc_ops : Z → option (k_device_driver_ops W).
Variable uart_ops : Z → option (k_uart_driver_ops St).
Variable fuel : nat.
Variable t : devtree.
Variables u drv : Z.
Variable d : k_device.
Variable k : uart_kind.

Hypothesis Hport : serial_port acc_ops uart_ops fuel t u drv d k.
Context `{T : !Transmitter W k (uart_addr d (status_off k)) (uart_addr d (data_off k))}.
Hypothesis Hfuel : (patience < fuel)%nat.

Lemma io_of_put w s : io_of (io_put w s) = w ∧ uarts_get (io_put w s) = uarts_get s.
Proof.
  unfold io_of. cbn. destruct (irq_get s) as [e q] eqn:E. by rewrite irq_get_put, uarts_of_irq_put.
Qed.

Lemma console_on_same s s' : uarts_get s' = uarts_get s → console_on u k s → console_on u k s'.
Proof. intros E [H1' H2' H3']. split; rewrite E; done. Qed.

Lemma pri_putchar_sends c s : console_on u k s → tx_on (io_of s) →
  ∃ s', pri_putchar uart_ops c t s = Ret (u8 c, s') ∧ console_on u k s' ∧ tx_on (io_of s') ∧
    sent (io_of s') = sent (io_of s) ++ [u8 c].
Proof.
  intros Hc Hon. destruct Hport as [Hd Hp Hdrv Hv Hk Hops]. pose proof Hc as [Hdef Hset Hsh].
  unfold pri_putchar, uart_putc. rewrite Hset, Hdef. unfold get_device. rewrite Hd. mstep. rewrite Hp. cbn [negb].
  rewrite Hdrv. cbn [mbind option_bind]. rewrite Hops. cbn [mbind option_bind].
  destruct (char_out_sends (acc_ops drv) d k Hv Hk (io_of s) fuel c Hon Hfuel) as (w' & Hco & Hon' & Hs).
  assert (∀ f, (∀ ops x w, f ops x w = char_out ops x k fuel c w) →
    on_regs acc_ops t u f s = Ret (io_put w' s)) as Hregs.
  { intros f Ef. unfold on_regs, with_regs, get_device. rewrite Hd. mstep. rewrite Ef, Hdrv.
    cbn [mbind option_bind]. change (io_get s) with (io_of s). rewrite Hco. by mstep. }
  destruct (io_of_put w' s) as [E1 E2].
  assert (console_on u k (io_put w' s)) as Hc' by by apply (console_on_same s).
  exists (io_put w' s). rewrite E1. split; [|done].
  destruct k as [shift| |]; cbn [kind_ops uop_char_out ns16550_uart_ops uart_sifive_uart_ops lite_uart_ops].
  - unfold ns16550_char_out, get_ns. destruct (Hsh shift eq_refl) as (p & -> & Ep). mstep.
    rewrite Ep, Hregs by done. by mstep.
  - unfold sifive_char_out. rewrite Hregs by done. by mstep.
  - unfold lite_char_out. rewrite Hregs by done. by mstep.
Qed.

Lemma put_all_sends l s : console_on u k s → tx_on (io_of s) →
  ∃ s', put_all (fun c => pri_putchar uart_ops c t) s l = Ret s' ∧
    console_on u k s' ∧ tx_on (io_of s') ∧ sent (io_of s') = sent (io_of s) ++ (u8 <$> l).
Proof.
  revert s. induction l as [|c l IH]; intros s Hc Hon; cbn [put_all fmap list_fmap].
  - exists s. by rewrite app_nil_r.
  - destruct (pri_putchar_sends c s Hc Hon) as (s' & Hr & Hc' & Hon' & Hs').
    rewrite Hr. mstep. destruct (IH s' Hc' Hon') as (s2 & H0' & H1' & H2' & H3').
    exists s2. by rewrite H3', Hs', <- app_assoc.
Qed.
End Stdout.

Lemma block_u8 m a n : u8 <$> block m a n = block m a n.
Proof.
  unfold block. rewrite <- list_fmap_compose. apply list_fmap_ext. intros i x _. apply uwrap_idem.
Qed.

(** Standard output reaches the serial port.  When the default console is a probed
    serial port of any of the three kinds, [k_pri_write_stdout] terminates and the bytes of
    the buffer leave the port in their order, one each and none else, with the number of them
    as the result; the status of the interrupts is what it was and the lock is free again.
    (The port is free again within [patience] looks at its status, and the loops are given more than that.) *)
Theorem k_pri_write_stdout_sent `{Arch} `{Config} {St W : Type} `{Mmio W} `{HasIrq St W} `{HasUarts St}
    `{L : !UartSys St W} acc_ops uart_ops (fuel : nat) t u drv d k
    `{T : !Transmitter W k (uart_addr d (status_off k)) (uart_addr d (data_off k))}
    m s st buf count
    (Hport : serial_port acc_ops uart_ops fuel t u drv d k) (Hfuel : (patience < fuel)%nat)
    (Hc : console_on u k s) (Hon : tx_on (io_of s)) (Hcount : 0 <= count) :
  ∃ s', k_pri_write_stdout (fun c => pri_putchar uart_ops c t) m (mk_console 0 st s) buf count = Ret (i32 count, mk_console 0 st s') ∧
    console_on u k s' ∧ tx_on (io_of s') ∧ sent (io_of s') = sent (io_of s) ++ block m buf count.
Proof.
  rewrite write_stdout_eq by done. cbn [con_dev].
  destruct (put_all_sends acc_ops uart_ops fuel t u drv d k Hport Hfuel (block m buf count) s Hc Hon) as (s' & -> & Hp).
  exists s'. rewrite block_u8 in Hp. by mstep.
Qed.

(** A port that is busy for two looks at its status after each byte. *)
Record demo_tx := mk_demo_tx { dt_sent : list Z; dt_busy : nat }.
#[export] Instance demo_tx_mmio : Mmio demo_tx := {|
  io_read width a w := (if dt_busy w then 0 else STAT_TXFIFO_FULL, mk_demo_tx (dt_sent w) (pred (dt_busy w)));
  io_write width v a w := mk_demo_tx (dt_sent w ++ [u8 v]) 2
|}.
#[export] Instance demo_transmitter a b : Transmitter demo_tx KLite a b.
Proof.
  refine {| sent := dt_sent; tx_on w := (dt_busy w <= 2)%nat; busy := dt_busy; patience := 2 |}.
  - done.
  - intros [l [|n]] _; reflexivity.
  - intros w Hw. cbn in *. split; [lia|done].
  - intros w v _ _. cbn. split; [lia|done].
Defined.

(** The system of a serial port and nothing else. *)
#[export] Instance demo_has_uarts {I} : HasUarts (I * uarts) := {| uarts_get := snd; uarts_put u s := (s.1, u) |}.
#[export] Instance demo_has_irq {W} : HasIrq (isys W * uarts) W := {| irq_get := fst; irq_put x s := (x, s.2) |}.
#[export] Instance demo_uart_sys {W} : UartSys (isys W * uarts) W.
Proof. by split. Qed.

Definition demo_lite : k_device :=
  mk_device (Some "uart0"%string) "xilinx" "uart_lite" None (Some 7) None None None 0 0 0x40600000 true false.
Definition demo_lite_tree : devtree := mk_tree ∅ {[ 12 := demo_lite ]} ∅ 1.
Definition demo_port : isys demo_tx * uarts :=
  ((mk_events ∅ [], mk_irq two_cpus [] [] ∅ ∅ ∅ None ∅ ∅ ∅ (mk_demo_tx [] 0)),
   mk_uarts ∅ ∅ {[ 12 := mk_lite (mk_dev_irq None 40 0) ]} (Some 12) true).
Definition demo_uart_ops (drv : Z) : option (k_uart_driver_ops (isys demo_tx * uarts)) :=
  if drv =? 7 then Some (@lite_uart_ops rv64 _ _ _ _ (fun _ => None) 3) else None.
Definition demo_putchar (c : Z) (s : isys demo_tx * uarts) : exec (Z * (isys demo_tx * uarts)) :=
  pri_putchar demo_uart_ops c demo_lite_tree s.
Definition demo_hello : mem := list_to_map (zip (seqZ 0x100 3) [0x48; 0x69; 0x0a]).

Lemma k_pri_write_stdout_sent_witness :
  ∃ s', k_pri_write_stdout demo_putchar demo_hello (mk_console 0 8 demo_port) 0x100 3 = Ret (3, mk_console 0 8 s') ∧
    dt_sent (io_of s') = [0x48; 0x69; 0x0a].
Proof.
  destruct (@k_pri_write_stdout_sent rv64 qemu_virt _ _ _ _ _ _ (fun _ => None) demo_uart_ops 3 demo_lite_tree 12 7
    demo_lite KLite (demo_transmitter _ _) demo_hello demo_port 8 0x100 3) as (s' & E & _ & _ & Hs).
  - split; try reflexivity. done.
  - cbn. lia.
  - split; try reflexivity. intros; discriminate.
  - cbn. lia.
  - lia.
  - exists s'. split; [exact E|exact Hs].
Defined.

(** ** The divisor of a 16550 *)

(** What the line control register and the divisor latch promise: a register keeps what
    is written to it, and while bit 7 of the line control is set the two halves of the
    latch are at the addresses [dll_at] and [dlm_at]. *)
Class Latch (W : Type) `{Mmio W} (width lcr_at dll_at dlm_at : Z) := {
  lcr : W → Z;
  dll : W → Z;
  dlm : W → Z;
  lcr_range w : 0 <= lcr w < 256;
  lcr_read w : let '(v, w') := io_read width lcr_at w in
    u8 v = lcr w ∧ lcr w' = lcr w ∧ dll w' = dll w ∧ dlm w' = dlm w;
  lcr_write v w : let w' := io_write width v lcr_at w in
    lcr w' = u8 v ∧ dll w' = dll w ∧ dlm w' = dlm w;
  dll_write v w : Z.testbit (lcr w) 7 = true → let w' := io_write width v dll_at w in
    lcr w' = lcr w ∧ dll w' = u8 v ∧ dlm w' = dlm w;
  dlm_write v w : Z.testbit (lcr w) 7 = true → let w' := io_write width v dlm_at w in
    lcr w' = lcr w ∧ dll w' = dll w ∧ dlm w' = u8 v
}.

Section Baud.
Context `{Arch} {W : Type} `{Mmio W}.
Variable ops : option (k_device_driver_ops W).
Variable dev : k_device.
Variable shift : Z.
Hypothesis Hvirt : dev_virt dev ≠ 0.
Hypothesis Hshift : 0 <= shift <= 2.
Context `{L : !Latch W (ns_width shift) (ns_addr dev shift NS_REG_LCR) (ns_addr dev shift NS_REG_DLL)
  (ns_addr dev shift NS_REG_DLM)}.

Lemma read_lcr w : ∃ w', uart_read ops dev shift NS_REG_LCR w = (lcr w, w') ∧
  lcr w' = lcr w ∧ dll w' = dll w ∧ dlm w' = dlm w.
Proof.
  rewrite uart_read_eq by done. pose proof (lcr_read w) as Hl. destruct (io_read _ _ w) as [v w'].
  destruct Hl as (<- & ? & ? & ?). eauto.
Qed.

Lemma write_lcr v w : 0 <= v < 256 → let w' := uart_write ops dev shift v NS_REG_LCR w in
  lcr w' = v ∧ dll w' = dll w ∧ dlm w' = dlm w.
Proof.
  intros Hv. cbv zeta. rewrite uart_write_eq by done. rewrite (uwrap_small 8 v) by done.
  destruct (lcr_write v w) as (E & ?). by rewrite uwrap_small in E.
Qed.

Lemma write_dll v w : Z.testbit (lcr w) 7 = true → let w' := uart_write ops dev shift v NS_REG_DLL w in
  lcr w' = lcr w ∧ dll w' = u8 v ∧ dlm w' = dlm w.
Proof. intros Hb. cbv zeta. rewrite uart_write_eq by done. pose proof (dll_write (u8 v) w Hb) as Hw. by rewrite uwrap_idem in Hw. Qed.

Lemma write_dlm v w : Z.testbit (lcr w) 7 = true → let w' := uart_write ops dev shift v NS_REG_DLM w in
  lcr w' = lcr w ∧ dll w' = dll w ∧ dlm w' = u8 v.
Proof. intros Hb. cbv zeta. rewrite uart_write_eq by done. pose proof (dlm_write (u8 v) w Hb) as Hw. by rewrite uwrap_idem in Hw. Qed.

Lemma byte_land_mask v : 0 <= v < 256 → 0 <= Z.lor v 0x80 < 256 ∧ Z.testbit (Z.lor v 0x80) 7 = true ∧
  clear (Z.lor v 0x80) 0x80 = clear v 0x80 ∧ 0 <= clear v 0x80 < 256.
Proof.
  intros Hv. assert (v = Z.land v (Z.ones 8)) as E by (rewrite Z.land_ones by lia; symmetry; by apply Z.mod_small).
  assert (∀ x, x = Z.land x (Z.ones 8) → 0 <= x < 256) as Hr.
  { intros x ->. rewrite Z.land_ones by lia. apply Z.mod_pos_bound. lia. }
  unfold clear. repeat split; try apply Hr.
  - rewrite Z.land_lor_distr_l, <- E. done.
  - rewrite Z.land_lor_distr_l, <- E. done.
  - rewrite Z.lor_spec. by destruct (Z.testbit v 7).
  - apply Z.bits_inj'. intros n Hn. rewrite !Z.ldiff_spec, Z.lor_spec. by destruct (Z.testbit v n), (Z.testbit 0x80 n).
  - apply Z.bits_inj'. intros n Hn. rewrite Z.land_spec, !Z.ldiff_spec. rewrite E at 1. rewrite Z.land_spec.
    by destruct (Z.testbit v n), (Z.testbit (Z.ones 8) n), (Z.testbit 0x80 n).
  - apply Z.bits_inj'. intros n Hn. rewrite Z.land_spec, !Z.ldiff_spec. rewrite E at 1. rewrite Z.land_spec.
    by destruct (Z.testbit v n), (Z.testbit (Z.ones 8) n), (Z.testbit 0x80 n).
Qed.
End Baud.

(** C24: the divisor of a 16550.  For an input clock below [2^36] times the rate,
    [uart_ns16550_set_baud] succeeds exactly when the rate can be made, i.e. when the clock is
    at least 16 and less than [2^20] times the rate; the latch then holds the largest divisor
    that does not make the port slower than the rate, in its two halves, and the line control
    is what it was with the latch closed.  Otherwise the result is [-EINVAL] and no register
    is touched. *)
Theorem uart_ns16550_set_baud_spec `{Arch} {W : Type} `{Mmio W} ops dev shift
    `{L : !Latch W (ns_width shift) (ns_addr dev shift NS_REG_LCR) (ns_addr dev shift NS_REG_DLL)
      (ns_addr dev shift NS_REG_DLM)} freq baud w
    (Hvirt : dev_virt dev ≠ 0) (Hshift : 0 <= shift <= 2) (Hbaud : 0 < baud) (Hfreq : 0 <= freq < 2 ^ 36 * baud) :
  if (16 * baud <=? freq) && (freq <? 2 ^ 20 * baud) then
    ∃ w', uart_ns16550_set_baud ops dev shift freq baud w = Ret (0, w') ∧
      lcr w' = clear (lcr w) 0x80 ∧ 0 <= dll w' < 256 ∧ 0 <= dlm w' < 256 ∧
      let d := dll w' + 256 * dlm w' in 16 * baud * d <= freq < 16 * baud * (d + 1)
  else uart_ns16550_set_baud ops dev shift freq baud w = Ret (- EINVAL, w).
Proof.
  unfold uart_ns16550_set_baud. rewrite (proj2 (Z.eqb_neq _ _)) by lia. unfold ns16550_divisor.
  rewrite Z.div_div by lia. rewrite (Z.mul_comm baud 16).
  assert (0 <= freq / (16 * baud) < 2 ^ 32).
  { split; [apply Z.div_pos; lia|apply Z.div_lt_upper_bound; lia]. }
  rewrite uwrap_small by done. pose proof (Z_div_mod_eq_full freq (16 * baud)).
  pose proof (Z.mod_pos_bound freq (16 * baud) ltac:(lia)). set (d := freq / (16 * baud)) in *.
  destruct (_ && _) eqn:E.
  - bsplit. assert (0 < d < 2 ^ 16) by nia. rewrite (proj2 (Z.eqb_neq _ _)) by lia.
    rewrite Z.gtb_ltb, (proj2 (Z.ltb_ge _ _)) by lia.
    destruct (byte_land_mask (lcr w) (lcr_range w)) as (Hr & Hb & Hc & Hcr).
    destruct (read_lcr ops dev shift Hvirt Hshift w) as (w1 & -> & E1 & _ & _).
    set (w2 := uart_write ops dev shift (Z.lor (lcr w) 128) NS_REG_LCR w1).
    destruct (write_lcr ops dev shift Hvirt Hshift _ w1 Hr) as (E2 & _ & _). fold w2 in E2. rewrite <- E2 in Hb.
    set (w3 := uart_write ops dev shift d NS_REG_DLL w2).
    destruct (write_dll ops dev shift Hvirt Hshift d w2 Hb) as (E3 & D3 & _). fold w3 in E3, D3. rewrite <- E3 in Hb.
    set (w4 := uart_write ops dev shift (d ≫ 8) NS_REG_DLM w3).
    destruct (write_dlm ops dev shift Hvirt Hshift (d ≫ 8) w3 Hb) as (E4 & D4 & M4). fold w4 in E4, D4, M4.
    destruct (read_lcr ops dev shift Hvirt Hshift w4) as (w5 & -> & E5 & D5 & M5).
    rewrite E4, E3, E2, Hc. eexists. split; [done|].
    destruct (write_lcr ops dev shift Hvirt Hshift _ w5 Hcr) as (-> & -> & ->).
    rewrite D5, D4, D3, M5, M4, Z.shiftr_div_pow2, (uwrap_small 8 (d / 2 ^ 8)) by dlia.
    unfold uwrap. split; [done|]. split; [apply Z.mod_pos_bound; lia|]. split; [dlia|]. cbv zeta.
    replace (d mod 2 ^ 8 + 256 * (d / 2 ^ 8)) with d by (rewrite (Z_div_mod_eq_full d (2 ^ 8)) at 1; lia). nia.
  - apply andb_false_iff in E as [E|E]; bsplit.
    + rewrite (proj2 (Z.eqb_eq d 0)); [done|nia].
    + rewrite (proj2 (Z.eqb_neq d 0)) by nia. by rewrite Z.gtb_ltb, (proj2 (Z.ltb_lt _ _)) by nia.
Qed.

(** The three registers of a port at [0x10000000] with registers of 32 bits. *)
Record demo_latch := mk_demo_latch { dl_lcr : Z; dl_dll : Z; dl_dlm : Z }.
#[export] Instance demo_latch_mmio : Mmio demo_latch := {|
  io_read width a w :=
    let open := Z.testbit (dl_lcr w) 7 in
    (u8 (if a =? 0x1000000c then dl_lcr w else if open && (a =? 0x10000000) then dl_dll w
         else if open && (a =? 0x10000004) then dl_dlm w else 0), w);
  io_write width v a w :=
    let open := Z.testbit (dl_lcr w) 7 in
    if a =? 0x1000000c then mk_demo_latch (u8 v) (dl_dll w) (dl_dlm w)
    else if open && (a =? 0x10000000) then mk_demo_latch (dl_lcr w) (u8 v) (dl_dlm w)
    else if open && (a =? 0x10000004) then mk_demo_latch (dl_lcr w) (dl_dll w) (u8 v) else w
|}.
Definition demo_ns : k_device :=
  mk_device (Some "uart0"%string) "ns" "ns16550" None (Some 5) None None None 0 0 0x10000000 true false.

#[export] Instance demo_is_latch : Latch demo_latch (ns_width 2) (@ns_addr rv64 demo_ns 2 NS_REG_LCR)
  (@ns_addr rv64 demo_ns 2 NS_REG_DLL) (@ns_addr rv64 demo_ns 2 NS_REG_DLM).
Proof.
  change (@ns_addr rv64 demo_ns 2 NS_REG_LCR) with 0x1000000c.
  change (@ns_addr rv64 demo_ns 2 NS_REG_DLL) with 0x10000000.
  change (@ns_addr rv64 demo_ns 2 NS_REG_DLM) with 0x10000004.
  refine {| lcr w := u8 (dl_lcr w); dll := dl_dll; dlm := dl_dlm |}.
  - intros w. apply (uwrap_range 8). lia.
  - intros w. cbn. by rewrite uwrap_idem.
  - intros v w. cbn. by rewrite uwrap_idem.
  - intros v w Hb. unfold uwrap in Hb. rewrite Z.mod_pow2_bits_low in Hb by lia. cbv zeta beta iota delta [io_write demo_latch_mmio]. by rewrite Hb.
  - intros v w Hb. unfold uwrap in Hb. rewrite Z.mod_pow2_bits_low in Hb by lia. cbv zeta beta iota delta [io_write demo_latch_mmio]. by rewrite Hb.
Defined.

(** A clock of 10 MHz at 115200 baud. *)
Lemma uart_ns16550_set_baud_spec_witness :
  ∃ w', @uart_ns16550_set_baud rv64 _ _ None demo_ns 2 10000000 115200 (mk_demo_latch 3 0 0) = Ret (0, w') ∧
    dl_lcr w' = 3 ∧ dl_dll w' + 256 * dl_dlm w' = 5.
Proof.
  pose proof (@uart_ns16550_set_baud_spec rv64 _ _ None demo_ns 2 demo_is_latch 10000000 115200 (mk_demo_latch 3 0 0)
    ltac:(done) ltac:(lia) ltac:(lia) ltac:(lia)) as (w' & E & El & Hl & Hm & Hd).
  exists w'. split; [exact E|]. vm_compute in E. injection E as <-. by vm_compute.
Defined.
