(* ===== verification/Printk.v ===== *)
(** * Formatted output on the console (sys/printk.c)

    The functions that take the lock of the console around the formatting of Vsprintf.v, on the
    console of File.v, and what leaves the serial port of Console.v. *)

From S2P Require Import Prelude Config CString Event Ntoa Ftoa Vsprintf Cpu Device File Regfile Intr Prci Clk Uart Console.

Section Print.
Context `{Arch} {D : Type}.
Variable putchar : Z → D → exec (Z * D).

(** [k_pri_out_char] on the device of the console, as far as it has got: a device that never takes a character ends the output. *)
Definition out_dev (c idx : Z) (d : exec D) : exec D := if truth c then d ← d; '(_, d) ← putchar c d; Ret d else d.

(** The arguments behind the format are a list, as [va_start] makes it. *)
Definition k_vprintf (fmt : list Z) (va : list va_value) (c : console D) : exec (Z * console D) :=
  '(st, c) ← pri_enter c;
  '(r, d) ← k_vsnprintf_inner out_dev false (usize (-1)) fmt va (Ret (con_dev c));
  d ← d;
  Ret (r, pri_leave (mk_console (con_lock c) (con_status c) d) st).
Definition k_printf (fmt : list Z) (va : list va_value) (c : console D) : exec (Z * console D) := k_vprintf fmt va c.

(** The buffers are only written, so they are functions of the offset. *)
Definition k_vsnprintf (null : bool) (count : Z) (fmt : list Z) (va : list va_value) (buf : Z → Z) (c : console D) :
    exec (Z * (Z → Z) * console D) :=
  '(st, c) ← pri_enter c;
  '(r, buf) ← k_vsnprintf_nolock null count fmt va buf;
  Ret (r, buf, pri_leave c st).
Definition k_vsprintf (null : bool) (fmt : list Z) (va : list va_value) (buf : Z → Z) (c : console D) : exec (Z * (Z → Z) * console D) :=
  k_vsnprintf null (usize (-1)) fmt va buf c.
Definition k_snprintf (null : bool) (count : Z) (fmt : list Z) (va : list va_value) (buf : Z → Z) (c : console D) :
    exec (Z * (Z → Z) * console D) :=
  k_vsnprintf null count fmt va buf c.
Definition k_sprintf (null : bool) (fmt : list Z) (va : list va_value) (buf : Z → Z) (c : console D) : exec (Z * (Z → Z) * console D) :=
  k_vsprintf null fmt va buf c.

(** [k_pri_level]; [CONFIG_PRINT_INFO] and [CONFIG_PRINT_DEBUG] lower the level from which messages are printed. *)
Definition PRI_LV_CUR (info debug : bool) : Z := if debug then 20 else if info then 30 else 40.
Definition k_pri_level (cur lv : Z) (fmt : list Z) (va : list va_value) (c : console D) : exec (console D) :=
  if cur <=? lv then '(_, c) ← k_printf fmt va c; Ret c else Ret c.

(** ** The console sees the characters of the format *)

Definition visible (cs : list Z) : list Z := filter (fun c => c ≠ 0) cs.

Lemma out_dev_all cs d i : fst (emit_all out_dev cs (d, i)) = (d ← d; put_all putchar d (visible cs)).
Proof.
  revert d i. induction cs as [|c cs IH]; intros d i; [by destruct d|].
  rewrite emit_all_cons. unfold emit, visible. cbn [fst snd]. rewrite IH. unfold out_dev, truth. destruct (c =? 0) eqn:E; bsplit; simpl.
  - by rewrite filter_cons_False by (intros ?; done).
  - rewrite filter_cons_True by done. cbn [put_all]. destruct d as [d| |]; mstep; [|done..]. by destruct (putchar c d) as [[r d']| |].
Qed.

Lemma k_vprintf_eq fmt va st d cs : fmt_output fmt va = Ret cs → zlen cs < 2 ^ 31 →
  k_vprintf fmt va (mk_console 0 st d) = (d ← put_all putchar d (visible cs); Ret (zlen cs, mk_console 0 st d)).
Proof.
  intros Hcs Hl. unfold k_vprintf, pri_enter, k_intr_save_local, k_vsnprintf_inner. cbn [con_lock con_status con_dev truth Z.eqb negb]. mstep.
  rewrite (vsnprintf_run_len _ _ _ _ _ cs Hcs Hl). mstep. by rewrite out_dev_all.
Qed.

Lemma k_vsnprintf_eq null count fmt va buf st d :
  k_vsnprintf null count fmt va buf (mk_console 0 st d) =
    ('(r, buf) ← k_vsnprintf_nolock null count fmt va buf; Ret (r, buf, mk_console 0 st d)).
Proof. reflexivity. Qed.
End Print.

(** C13: what is printed reaches the serial port.  When the default console is a probed serial port of any of the three
    kinds, [k_printf] terminates for every format and arguments that stand for the characters [cs]: exactly these leave
    the port in their order, null characters aside, and their number is the result.  The lock of the
    console is free again, and interrupts are as they were, after [k_printf] and after [k_snprintf], which writes to
    its buffer what it writes without the lock and sends nothing. *)
Theorem k_printf_sent `{Arch} `{Config} {St W : Type} `{Mmio W} `{HasIrq St W} `{HasUarts St}
    `{L : !UartSys St W} acc_ops uart_ops (fuel : nat) t u drv d k
    `{T : !Transmitter W k (uart_addr d (status_off k)) (uart_addr d (data_off k))}
    fmt va cs s st count buf
    (Hport : serial_port acc_ops uart_ops fuel t u drv d k) (Hfuel : (patience < fuel)%nat)
    (Hc : console_on u k s) (Hon : tx_on (io_of s)) (Hcs : fmt_output fmt va = Ret cs) (Hl : zlen cs < 2 ^ 31) :
  (∃ s', k_printf (fun c => pri_putchar uart_ops c t) fmt va (mk_console 0 st s) = Ret (zlen cs, mk_console 0 st s') ∧
    console_on u k s' ∧ tx_on (io_of s') ∧ sent (io_of s') = sent (io_of s) ++ (u8 <$> visible cs)) ∧
  (0 <= count < 2 ^ xlen → ∃ buf', k_vsnprintf_nolock false count fmt va buf = Ret (zlen cs, buf') ∧
    k_snprintf false count fmt va buf (mk_console 0 st s) = Ret (zlen cs, buf', mk_console 0 st s)).
Proof.
  split.
  - destruct (put_all_sends acc_ops uart_ops fuel t u drv d k Hport Hfuel (visible cs) s Hc Hon) as (s' & E & Hs).
    exists s'. split; [|done]. unfold k_printf. by rewrite (k_vprintf_eq _ _ _ _ _ cs), E by done.
  - intros _. assert (∃ b, k_vsnprintf_nolock false count fmt va buf = Ret (zlen cs, b)) as [b Hb].
    { unfold k_vsnprintf_nolock, k_vsnprintf_inner. rewrite (vsnprintf_run_len _ _ _ _ _ cs Hcs Hl). by eexists. }
    exists b. split; [done|]. unfold k_snprintf. rewrite k_vsnprintf_eq, Hb. by mstep.
Qed.

Lemma k_printf_sent_witness :
  ∃ s', @k_printf rv64 _ demo_putchar (text "n=%d") [VInt 42] (mk_console 0 8 demo_port) = Ret (4, mk_console 0 8 s') ∧
    dt_sent (io_of s') = text "n=42".
Proof.
  destruct (@k_printf_sent rv64 qemu_virt _ _ _ _ _ _ (fun _ => None) demo_uart_ops 3 demo_lite_tree 12 7
    demo_lite KLite (demo_transmitter _ _) (text "n=%d") [VInt 42] (text "n=42") demo_port 8 0 (fun _ => 0))
    as [(s' & E & _ & _ & Hs) _].
  - split; try reflexivity. done.
  - cbn. lia.
  - split; try reflexivity. intros; discriminate.
  - cbn. lia.
  - vm_compute. reflexivity.
  - vm_compute. reflexivity.
  - exists s'. split; [exact E|exact Hs].
Defined.
