(* ===== verification/Gpio.v ===== *)
(** * General purpose inputs and outputs (driver/gpio/gpio.c, driver/gpio/gpio_dev.c and the
      driver xilinx/gpio_v2.c)

    The system has one device, whose 32 lines a program reads and sets by [ioctl] on the
    descriptor 3.  The private data by the number of the device, and [k_gpio_system], are
    [gpios]. *)

From S2P Require Import Prelude Config CString Args Event Cpu Device File Regfile Intr Uart.

Record gpios := mk_gpios {
  g_v2 : gmap Z dev_irq;
  k_gpio_system : option Z
}.

Class HasGpios (St : Type) := {
  gpios_get : St → gpios;
  gpios_put : gpios → St → St
}.

Record k_gpio_driver_ops (St : Type) := mk_gpio_ops {
  gop_get : option (Z → Z → devtree → St → exec (Z * St));
  gop_set : option (Z → Z → Z → devtree → St → exec (Z * St));
  gop_get_config : option (Z → devtree → St → exec (Z * St));
  gop_set_config : option (Z → devtree → St → exec (Z * St))
}.
Arguments mk_gpio_ops {St}.
Arguments gop_get {St}.
Arguments gop_set {St}.
Arguments gop_get_config {St}.
Arguments gop_set_config {St}.

(** ** Command numbers (include/bmetal/sys/ioctl.h) *)

Definition _IOC_SIZEBITS : Z := 13.
Definition _IOC_TYPESHIFT : Z := 8.
Definition _IOC_SIZESHIFT : Z := _IOC_TYPESHIFT + 8.
Definition _IOC_DIRSHIFT : Z := _IOC_SIZESHIFT + _IOC_SIZEBITS.
Definition _IOC (dir type nr size : Z) : Z :=
  u32 (Z.lor (Z.lor (Z.lor (Z.shiftl dir _IOC_DIRSHIFT) (Z.shiftl type _IOC_TYPESHIFT)) nr)
    (Z.shiftl size _IOC_SIZESHIFT)).
Definition _IOWR (type nr size : Z) : Z := _IOC (Z.lor 2 4) type nr size.
Definition GPIO_V2_LINE_GET_VALUES_IOCTL : Z := _IOWR 0xB4 0x0E 16.
Definition GPIO_V2_LINE_SET_VALUES_IOCTL : Z := _IOWR 0xB4 0x0F 16.

(** ** gpio_v2 *)

Definition REG_DATA : Z := 0x000.
Definition REG_IP_IER : Z := 0x128.
Definition OFFSET_CH : Z := 0x008.

Section Registers.
Context `{Arch} {W : Type} `{Mmio W}.
Variable ops : option (k_device_driver_ops W).
Variable dev : k_device.

Definition data_reg (ch : Z) : Z := REG_DATA + OFFSET_CH * Z.quot ch 32.

Definition gpio_v2_get (ch : Z) (w : W) : exec (Z * W) :=
  let '(v, w) := k_device_read32 ops dev (data_reg ch) w in
  Ret (if has v (BIT (Z.rem ch 32)) then 1 else 0, w).

Definition gpio_v2_set (ch value : Z) (w : W) : exec (Z * W) :=
  let '(v, w) := k_device_read32 ops dev (data_reg ch) w in
  let v := if truth value then Z.lor v (BIT (Z.rem ch 32)) else clear v (BIT (Z.rem ch 32)) in
  Ret (0, k_device_write32 ops dev v (data_reg ch) w).

Definition gpio_v2_enable_intr (ch : Z) (w : W) : exec W :=
  let '(v, w) := k_device_read32 ops dev REG_IP_IER w in
  Ret (k_device_write32 ops dev (Z.lor v (BIT (Z.quot ch 32))) REG_IP_IER w).
Definition gpio_v2_disable_intr (ch : Z) (w : W) : exec W :=
  let '(v, w) := k_device_read32 ops dev REG_IP_IER w in
  Ret (k_device_write32 ops dev (clear v (BIT (Z.quot ch 32))) REG_IP_IER w).
End Registers.

(** The function of its handler, after those of the serial ports. *)
Definition FN_gpio_v2_intr : Z := 8.

Section Drivers.
Context `{Arch} `{Config} {St W : Type} `{Mmio W} `{HasIrq St W} `{HasGpios St}.
Variable dev_ops : Z → option (k_device_driver_ops St).
Variable bus_ops : Z → option (k_bus_driver_ops St).
Variable intc_ops : Z → option (k_intc_driver_ops W).
Variable acc_ops : Z → option (k_device_driver_ops W).

Definition put_v2 (dev : Z) (u : dev_irq) (s : St) : St :=
  let g := gpios_get s in gpios_put (mk_gpios (<[dev := u]> (g_v2 g)) (k_gpio_system g)) s.

Definition v2_get (dev ch : Z) (t : devtree) (s : St) : exec (Z * St) :=
  with_regs acc_ops t dev (fun ops x => gpio_v2_get ops x ch) s.
Definition v2_set (dev ch value : Z) (t : devtree) (s : St) : exec (Z * St) :=
  with_regs acc_ops t dev (fun ops x => gpio_v2_set ops x ch value) s.

Definition gpio_v2_intr (event hnd : Z) (e : events) (q : irq W) : exec (Z * events * irq W) :=
  Ret (EVENT_HANDLED, e, q).

Definition gpio_v2_add (dev : Z) (t : devtree) (s : St) : exec (Z * devtree * St) :=
  match g_v2 (gpios_get s) !! dev with
  | None => Ret (- EINVAL, t, s)
  | Some p =>
    '(r, t) ← k_io_mmap_device dev_ops 0 dev t;
    if truth r then Ret (r, t, s) else
    '(r, u, s) ← add_dev_irq intc_ops acc_ops FN_gpio_v2_intr dev
      (fun ops x => gpio_v2_enable_intr ops x 0) p t s;
    Ret (r, t, put_v2 dev u s)
  end.

Definition gpio_v2_remove (dev : Z) (t : devtree) (s : St) : exec (Z * St) :=
  p ← of_opt (g_v2 (gpios_get s) !! dev);
  '(r, u, s) ← remove_dev_irq intc_ops acc_ops dev (fun ops x => gpio_v2_disable_intr ops x 0) p t s;
  Ret (if truth r then r else - ENOTSUP, put_v2 dev u s).

Definition v2_gpio_ops : k_gpio_driver_ops St := mk_gpio_ops (Some v2_get) (Some v2_set) None None.

(** ** The device class (gpio.c) *)

Variable gpio_ops : Z → option (k_gpio_driver_ops St).

Definition k_gpio_config (op : k_gpio_driver_ops St → option (Z → devtree → St → exec (Z * St)))
    (t : devtree) (gpio : option Z) (s : St) : exec (Z * St) :=
  drv ← k_device_get_drv t gpio;
  match gpio with
  | None => Ret (- EINVAL, s)
  | Some g =>
    match drv ≫= (fun d => gpio_ops d ≫= op) with
    | Some f => f g t s
    | None => Ret (0, s)
    end
  end.
Definition k_gpio_get_config := k_gpio_config gop_get_config.
Definition k_gpio_set_config := k_gpio_config gop_set_config.

Definition k_gpio_add_device (gpio : Z) (parent : option Z) (t : devtree) (s : St) : exec (Z * devtree * St) :=
  '(r, t, s) ← k_device_add dev_ops bus_ops (Some gpio) parent t s;
  if IS_ERROR r then Ret (r, t, s) else
  let g := gpios_get s in
  match k_gpio_system g with
  | Some _ => Ret (0, t, s)
  | None => Ret (0, t, gpios_put (mk_gpios (g_v2 g) (Some gpio)) s)
  end.

Definition k_gpio_remove_device (gpio : option Z) (t : devtree) : Z * devtree := k_device_remove gpio t.

(** ** Lines (gpio_dev.c) *)

Definition lines : list Z := seqZ 0 32.

(** The loops over the lines; [m] is the bit of the line [i]. *)
Fixpoint get_loop (get : Z → St → exec (Z * St)) (mask : Z) (l : list Z) (ret bits : Z) (s : St) :
    exec (Z * Z * St) :=
  match l with
  | [] => Ret (ret, bits, s)
  | i :: l =>
    if negb (has mask (BIT i)) then get_loop get mask l ret bits s else
    '(r, s) ← get i s;
    if r =? -1 then get_loop get mask l (- EBADF) bits s
    else get_loop get mask l ret (if r =? 1 then Z.lor bits (BIT i) else bits) s
  end.

Fixpoint set_loop (set : Z → Z → St → exec (Z * St)) (mask bits : Z) (l : list Z) (ret : Z) (s : St) :
    exec (Z * St) :=
  match l with
  | [] => Ret (ret, s)
  | i :: l =>
    if negb (has mask (BIT i)) then set_loop set mask bits l ret s else
    '(r, s) ← set i (if has bits (BIT i) then 1 else 0) s;
    set_loop set mask bits l (if r =? -1 then - EBADF else ret) s
  end.

(** [bits] and [mask] of the structure at [arg]. *)
Definition line_bits (m : mem) (arg : Z) : Z := load_le 8 m arg.
Definition line_mask (m : mem) (arg : Z) : Z := load_le 8 m (arg + 8).

Definition k_gpio_line_get_values (t : devtree) (gpio arg : Z) (m : mem) (s : St) : exec (Z * mem * St) :=
  drv ← k_device_get_drv t (Some gpio);
  match drv ≫= (fun d => gpio_ops d ≫= gop_get) with
  | None => Ret (- EINVAL, m, s)
  | Some get =>
    if arg =? 0 then Ret (- EINVAL, m, s) else
    let mask := line_mask m arg in
    '(ret, bits, s) ← get_loop (fun i => get gpio i t) mask lines 0 0 s;
    Ret (ret, store_le 8 (store_le 8 m arg bits) (arg + 8) mask, s)
  end.

Definition k_gpio_line_set_values (t : devtree) (gpio arg : Z) (m : mem) (s : St) : exec (Z * St) :=
  drv ← k_device_get_drv t (Some gpio);
  match drv ≫= (fun d => gpio_ops d ≫= gop_set) with
  | None => Ret (- EINVAL, s)
  | Some set =>
    if arg =? 0 then Ret (- EINVAL, s) else
    set_loop (fun i v => set gpio i v t) (line_mask m arg) (line_bits m arg) lines 0 s
  end.

Definition k_gpio_line_read (m : mem) (c : console St) (buf count : Z) : exec (Z * mem * console St) := Ret (0, m, c).
Definition k_gpio_line_write (m : mem) (c : console St) (buf count : Z) : exec (Z * console St) := Ret (0, c).
Definition k_gpio_line_close (c : console St) : exec (Z * console St) := Ret (0, c).

Definition k_gpio_line_ioctl (t : devtree) (m : mem) (c : console St) (cmd arg : Z) : exec (Z * mem * console St) :=
  let s := con_dev c in
  match k_gpio_system (gpios_get s) with
  | None => Ret (- EBADF, m, c)
  | Some gpio =>
    if cmd =? GPIO_V2_LINE_GET_VALUES_IOCTL then
      '(r, m, s) ← k_gpio_line_get_values t gpio arg m s;
      Ret (r, m, mk_console (con_lock c) (con_status c) s)
    else if cmd =? GPIO_V2_LINE_SET_VALUES_IOCTL then
      '(r, s) ← k_gpio_line_set_values t gpio arg m s;
      Ret (r, m, mk_console (con_lock c) (con_status c) s)
    else Ret (- ENOTTY, m, c)
  end.

(** [k_file_stdio_init] (sys/file.c) of a system with a GPIO, whose file is the entry 3. *)
Definition k_file_stdio_init_gpio (f : files St) : exec (Z * files St) :=
  '(_, f) ← k_file_stdio_init f;
  '(_, f) ← k_file_set_desc f 3 (Some 3);
  Ret (0, f).

Definition gpio_line_ops (t : devtree) : k_file_ops St :=
  mk_ops (Some k_gpio_line_read) (Some k_gpio_line_write) (Some (k_gpio_line_ioctl t)) true (Some k_gpio_line_close).
End Drivers.

(** ** Setting and reading lines *)

(** The parts of a system do not overlap. *)
Class GpioSys (St W : Type) `{HasIrq St W} `{HasGpios St} := {
  gpio_irq_get_put (x : isys W) (s : St) : irq_get (irq_put x s) = x;
  gpios_of_irq_put (x : isys W) (s : St) : gpios_get (irq_put x s) = gpios_get s
}.

(** Bit by bit: the lines of [l] that are in the mask are those of [bits]. *)
Definition line_set (mask bits : Z) (l : list Z) (old n : Z) : bool :=
  if bool_decide (n ∈ l) && Z.testbit mask n then Z.testbit bits n else Z.testbit old n.

Lemma has_BIT v i : 0 <= i → has v (BIT i) = Z.testbit v i.
Proof.
  intros Hi. unfold has, BIT. rewrite Z.shiftl_1_l. destruct (Z.testbit v i) eqn:E.
  - apply truth_true. intros E0. apply (f_equal (fun x => Z.testbit x i)) in E0.
    rewrite Z.land_spec, Z.pow2_bits_true, E, Z.bits_0 in E0 by done. done.
  - apply truth_false. apply Z.bits_inj'. intros n Hn. rewrite Z.land_spec, Z.pow2_bits_eqb, Z.bits_0 by done.
    destruct (i =? n) eqn:En; bsplit; [by subst; rewrite E|apply andb_false_r].
Qed.

Lemma put_bit v i b n : 0 <= i → 0 <= n →
  Z.testbit (if truth (if b : bool then 1 else 0) then Z.lor v (BIT i) else clear v (BIT i)) n =
    if n =? i then b else Z.testbit v n.
Proof.
  intros Hi Hn. unfold BIT, clear. rewrite Z.shiftl_1_l. rewrite (Z.eqb_sym n i).
  destruct b; cbn [truth Z.eqb negb]; rewrite ?Z.lor_spec, ?Z.ldiff_spec, Z.pow2_bits_eqb by done;
    destruct (i =? n), (Z.testbit v n); done.
Qed.

Section Lines.
Context `{Arch} `{Config} {St : Type} `{HasIrq St regfile} `{HasGpios St} `{L : !GpioSys St regfile}.
Variable acc_ops : Z → option (k_device_driver_ops regfile).
Variable gpio_ops : Z → option (k_gpio_driver_ops St).
Variable t : devtree.
Variables g drv : Z.
Variable d : k_device.

(** The device [g] of the system: mapped, with the driver [gpio_v2]. *)
Record gpio_port : Prop := {
  gp_dev : t_devices t !! g = Some d;
  gp_drv : dev_drv d = Some drv;
  gp_virt : dev_virt d ≠ 0;
  gp_ops : gpio_ops drv = Some (v2_gpio_ops acc_ops)
}.
Hypothesis Hport : gpio_port.

Definition line_data (s : St) : Z := reg d (io_get s) REG_DATA.

Lemma io_get_put (w : regfile) (s : St) : io_get (io_put w s) = w ∧ gpios_get (io_put w s) = gpios_get s.
Proof. cbn. destruct (irq_get s) as [e q]. by rewrite gpio_irq_get_put, gpios_of_irq_put. Qed.

Lemma u32_bits v n : 0 <= n → Z.testbit (u32 v) n = (n <? 32) && Z.testbit v n.
Proof.
  intros Hn. unfold uwrap. destruct (n <? 32) eqn:E; bsplit.
  - by rewrite Z.mod_pow2_bits_low.
  - by rewrite Z.mod_pow2_bits_high by lia.
Qed.

Lemma data_reg_low i : 0 <= i < 32 → data_reg i = REG_DATA ∧ Z.rem i 32 = i.
Proof. intros Hi. unfold data_reg. by rewrite Z.quot_small, Z.rem_small by lia. Qed.

Lemma v2_get_line i s : 0 <= i < 32 →
  v2_get acc_ops g i t s = Ret (if Z.testbit (u32 (line_data s)) i then 1 else 0, io_put (io_get s) s).
Proof.
  intros Hi. destruct Hport as [Hd Hdrv Hv _]. unfold v2_get, with_regs, get_device. rewrite Hd. mstep.
  unfold gpio_v2_get. destruct (data_reg_low i Hi) as [-> ->]. rewrite read32_reg by done. mstep.
  by rewrite has_BIT by lia.
Qed.

Lemma v2_set_line i b s : 0 <= i < 32 → ∃ s',
  v2_set acc_ops g i (if b : bool then 1 else 0) t s = Ret (0, s') ∧ gpios_get s' = gpios_get s ∧
  0 <= line_data s' < 2 ^ 32 ∧
  ∀ n, 0 <= n < 32 → Z.testbit (line_data s') n = if n =? i then b else Z.testbit (line_data s) n.
Proof.
  intros Hi. destruct Hport as [Hd Hdrv Hv _]. unfold v2_set, with_regs, get_device. rewrite Hd. mstep.
  unfold gpio_v2_set. destruct (data_reg_low i Hi) as [-> ->]. rewrite read32_reg by done. mstep.
  rewrite write32_reg by done. eexists. split; [done|]. unfold line_data.
  match goal with |- context [io_put ?w s] => destruct (io_get_put w s) as [-> ->] end.
  rewrite reg_same.
  split; [done|]. split; [apply (uwrap_range 32); lia|]. intros n Hn.
  rewrite u32_bits, put_bit, u32_bits by lia. rewrite (proj2 (Z.ltb_lt _ _)) by lia. done.
Qed.

Lemma set_loop_lines mask bits l s : (∀ i, i ∈ l → 0 <= i < 32) → 0 <= line_data s < 2 ^ 32 → ∃ s',
  set_loop (fun i v => v2_set acc_ops g i v t) mask bits l 0 s = Ret (0, s') ∧ gpios_get s' = gpios_get s ∧
  0 <= line_data s' < 2 ^ 32 ∧
  ∀ n, 0 <= n < 32 → Z.testbit (line_data s') n = line_set mask bits l (line_data s) n.
Proof.
  revert s. induction l as [|i l IH]; intros s Hl Hs; cbn [set_loop].
  { exists s. do 2 (split; [done|]). split; [done|]. intros n Hn. unfold line_set. by rewrite bool_decide_eq_false_2 by apply not_elem_of_nil. }
  pose proof (Hl i ltac:(left)) as Hi. assert (∀ j, j ∈ l → 0 <= j < 32) as Hl' by (intros; apply Hl; by right).
  rewrite !has_BIT by lia. destruct (Z.testbit mask i) eqn:Em; cbn [negb].
  - destruct (v2_set_line i (Z.testbit bits i) s Hi) as (s1 & -> & Hg1 & Hr1 & Hb1). mstep. cbn [Z.eqb].
    destruct (IH s1 Hl' Hr1) as (s' & -> & Hg & Hr & Hb). exists s'. split; [done|]. split; [congruence|]. split; [done|].
    intros n Hn. rewrite Hb by done. unfold line_set. rewrite Hb1 by done.
    destruct (n =? i) eqn:En; bsplit.
    + subst. rewrite Em, (bool_decide_eq_true_2 (i ∈ i :: l)) by left. by case_match.
    + by rewrite (bool_decide_ext (n ∈ i :: l) (n ∈ l)) by (rewrite elem_of_cons; intuition lia).
  - destruct (IH s Hl' Hs) as (s' & -> & Hg & Hr & Hb). exists s'. split; [done|]. split; [done|]. split; [done|].
    intros n Hn. rewrite Hb by done. unfold line_set. destruct (n =? i) eqn:En; bsplit.
    + subst. by rewrite Em, !andb_false_r.
    + by rewrite (bool_decide_ext (n ∈ i :: l) (n ∈ l)) by (rewrite elem_of_cons; intuition lia).
Qed.

(** Reading changes no register. *)
Lemma get_loop_lines mask l ret bits s : (∀ i, i ∈ l → 0 <= i < 32) → 0 <= line_data s < 2 ^ 32 → ∃ bits' s',
  get_loop (fun i => v2_get acc_ops g i t) mask l ret bits s = Ret (ret, bits', s') ∧
  gpios_get s' = gpios_get s ∧ io_get s' = io_get s ∧
  ∀ n, 0 <= n → Z.testbit bits' n =
    Z.testbit bits n || (bool_decide (n ∈ l) && Z.testbit mask n && Z.testbit (line_data s) n).
Proof.
  revert bits s. induction l as [|i l IH]; intros bits s Hl Hs; cbn [get_loop].
  { exists bits, s. do 3 (split; [done|]). intros n Hn.
    rewrite bool_decide_eq_false_2 by apply not_elem_of_nil. by rewrite orb_false_r. }
  pose proof (Hl i ltac:(left)) as Hi. assert (∀ j, j ∈ l → 0 <= j < 32) as Hl' by (intros; apply Hl; by right).
  rewrite has_BIT by lia. destruct (Z.testbit mask i) eqn:Em; cbn [negb].
  - rewrite v2_get_line by done. mstep. rewrite uwrap_small by done. destruct (io_get_put (io_get s) s) as [Ew Eg].
    set (s1 := io_put (io_get s) s) in *.
    set (b1 := if (if Z.testbit (line_data s) i then 1 else 0) =? 1 then Z.lor bits (BIT i) else bits).
    assert (line_data s1 = line_data s) as Ed by (unfold line_data; by rewrite Ew).
    assert (((if Z.testbit (line_data s) i then 1 else 0) =? -1) = false) as -> by by case_match.
    destruct (IH b1 s1 Hl' ltac:(by rewrite Ed)) as (b' & s' & -> & Hg & Hw & Hb).
    exists b', s'. split; [done|]. split; [congruence|]. split; [congruence|]. intros n Hn. rewrite Hb, Ed by done.
    assert (Z.testbit b1 n = Z.testbit bits n || ((n =? i) && Z.testbit (line_data s) i)) as ->.
    { subst b1. destruct (Z.testbit (line_data s) i); cbn [Z.eqb Pos.eqb]; [|by rewrite andb_false_r, orb_false_r].
      unfold BIT. rewrite Z.lor_spec, Z.shiftl_1_l, Z.pow2_bits_eqb, (Z.eqb_sym i n) by lia. by destruct (n =? i). }
    destruct (n =? i) eqn:En; bsplit.
    + subst. rewrite Em, (bool_decide_eq_true_2 (i ∈ i :: l)) by left.
      destruct (Z.testbit bits i), (Z.testbit (line_data s) i), (bool_decide _); done.
    + rewrite (bool_decide_ext (n ∈ i :: l) (n ∈ l)) by (rewrite elem_of_cons; intuition lia). by rewrite orb_false_r.
  - destruct (IH bits s Hl' Hs) as (b' & s' & -> & Hg & Hw & Hb). exists b', s'. do 3 (split; [done|]).
    intros n Hn. rewrite Hb by done. destruct (n =? i) eqn:En; bsplit.
    + subst. by rewrite Em, !andb_false_r.
    + by rewrite (bool_decide_ext (n ∈ i :: l) (n ∈ l)) by (rewrite elem_of_cons; intuition lia).
Qed.
End Lines.

Lemma bits_above v w n : 0 <= v < 2 ^ w → w <= n → Z.testbit v n = false.
Proof.
  intros Hv Hn. destruct (decide (v = 0)) as [->|]; [apply Z.bits_0|]. apply Z.bits_above_log2; [lia|].
  apply Z.log2_lt_pow2; [lia|]. eapply Z.lt_le_trans; [apply Hv|]. apply Z.pow_le_mono_r; lia.
Qed.

Lemma in_lines n : n ∈ lines ↔ 0 <= n < 32.
Proof. unfold lines. rewrite elem_of_seqZ. lia. Qed.

Lemma load_store_le n m a v : load_le n (store_le n m a v) a = v mod 2 ^ (8 * Z.of_nat n).
Proof.
  apply load_le_bytes. intros i Hi. rewrite load8_store_le.
  rewrite (proj2 (Z.leb_le _ _)), (proj2 (Z.ltb_lt _ _)) by lia. do 3 f_equal. lia.
Qed.

Lemma load_le_range n m a : 0 <= load_le n m a < 2 ^ (8 * Z.of_nat n).
Proof.
  rewrite (load_le_bytes n m a (load_le n m a)) by (intros; symmetry; by apply load_le_byte).
  apply Z.mod_pos_bound. apply Z.pow_pos_nonneg; lia.
Qed.

Lemma load_store_le_other n k m a b v : b + Z.of_nat k <= a → load_le k (store_le n m a v) b = load_le k m b.
Proof.
  intros Hb. apply load_le_ext. intros i Hi. rewrite load8_store_le. by rewrite (proj2 (Z.leb_gt _ _)) by lia.
Qed.

(** The result of a set: the lines of the mask are those of [bits], the others as before. *)
Definition merged (old mask bits : Z) : Z := Z.lor (Z.ldiff old (u32 mask)) (Z.land (u32 mask) bits).

Lemma merged_line_set old mask bits v :
  0 <= old < 2 ^ 32 → 0 <= v < 2 ^ 32 →
  (∀ n, 0 <= n < 32 → Z.testbit v n = line_set mask bits lines old n) → v = merged old mask bits.
Proof.
  intros Ho Hv Hb. unfold merged. apply Z.bits_inj'. intros n Hn.
  rewrite Z.lor_spec, Z.ldiff_spec, Z.land_spec, u32_bits by done. destruct (n <? 32) eqn:E; bsplit.
  - rewrite Hb by lia. unfold line_set. rewrite bool_decide_eq_true_2 by (apply in_lines; lia). cbn [andb].
    destruct (Z.testbit mask n), (Z.testbit bits n), (Z.testbit old n); done.
  - rewrite (bits_above v 32), (bits_above old 32) by lia. done.
Qed.

Section Ioctl.
Context `{Arch} `{Config} {St : Type} `{HasIrq St regfile} `{HasGpios St} `{L : !GpioSys St regfile}.
Variable acc_ops : Z → option (k_device_driver_ops regfile).
Variable gpio_ops : Z → option (k_gpio_driver_ops St).
Variable t : devtree.
Variables g drv : Z.
Variable d : k_device.
Hypothesis Hport : gpio_port acc_ops gpio_ops t g drv d.

Lemma gpio_drv : k_device_get_drv t (Some g) = Ret (Some drv).
Proof. destruct Hport as [Hd Hdrv _ _]. unfold k_device_get_drv, get_device. rewrite Hd. mstep. by rewrite Hdrv. Qed.

Lemma set_values m arg s : arg ≠ 0 → 0 <= line_data d s < 2 ^ 32 → ∃ s',
  k_gpio_line_set_values gpio_ops t g arg m s = Ret (0, s') ∧ gpios_get s' = gpios_get s ∧
  0 <= line_data d s' < 2 ^ 32 ∧
  line_data d s' = merged (line_data d s) (line_mask m arg) (line_bits m arg).
Proof.
  intros Ha Hs. unfold k_gpio_line_set_values. rewrite gpio_drv. mstep. cbn [mbind option_bind].
  rewrite (gp_ops _ _ _ _ _ _ Hport). cbn [mbind option_bind gop_set v2_gpio_ops]. rewrite (proj2 (Z.eqb_neq _ _)) by done.
  destruct (set_loop_lines acc_ops gpio_ops t g drv d Hport (line_mask m arg) (line_bits m arg) lines s) as
    (s' & E & Hg & Hr & Hb); [apply in_lines|done|].
  exists s'. split; [exact E|]. do 2 (split; [done|]). by apply merged_line_set.
Qed.

Lemma get_values m arg s : arg ≠ 0 → 0 <= line_data d s < 2 ^ 32 → ∃ m' s',
  k_gpio_line_get_values gpio_ops t g arg m s = Ret (0, m', s') ∧ gpios_get s' = gpios_get s ∧
  io_get s' = io_get s ∧
  line_bits m' arg = Z.land (line_data d s) (line_mask m arg) ∧ line_mask m' arg = line_mask m arg.
Proof.
  intros Ha Hs. unfold k_gpio_line_get_values. rewrite gpio_drv. mstep. cbn [mbind option_bind].
  rewrite (gp_ops _ _ _ _ _ _ Hport). cbn [mbind option_bind gop_get v2_gpio_ops]. rewrite (proj2 (Z.eqb_neq _ _)) by done.
  destruct (get_loop_lines acc_ops gpio_ops t g drv d Hport (line_mask m arg) lines 0 0 s) as
    (bits & s' & E & Hg & Hw & Hb); [apply in_lines|done|].
  rewrite E. mstep. do 2 eexists. split; [done|]. do 2 (split; [done|]).
  assert (bits = Z.land (line_data d s) (line_mask m arg)) as ->.
  { apply Z.bits_inj'. intros n Hn. rewrite Hb, Z.bits_0, Z.land_spec by done. cbn [orb].
    destruct (decide (n < 32)).
    - rewrite bool_decide_eq_true_2 by (apply in_lines; lia). apply andb_comm.
    - rewrite (bits_above (line_data d s) 32) by lia. by rewrite andb_false_r. }
  unfold line_bits, line_mask. rewrite load_store_le_other by lia. rewrite !load_store_le. split.
  - rewrite <- Z.land_ones by lia. apply Z.bits_inj'. intros n Hn. rewrite !Z.land_spec, Z.testbit_ones by lia.
    destruct (n <? _) eqn:E64; bsplit; [by rewrite (proj2 (Z.leb_le _ _)), andb_true_r by lia|].
    by rewrite (bits_above (line_data d s) 32) by lia.
  - apply Z.mod_small. apply load_le_range.
Qed.
End Ioctl.

(** C22: the lines of the GPIO.  [ioctl] with the command that sets values makes the lines
    that the mask selects (of the 32 there are) those of [bits] and leaves the others;
    the command that gets values, given any structure afterwards, stores the selected lines
    of the device in [bits], keeps the mask and changes no register. *)
Theorem k_gpio_line_ioctl_set_get `{Arch} `{Config} {St : Type} `{HasIrq St regfile} `{HasGpios St} `{L : !GpioSys St regfile}
    acc_ops gpio_ops t g drv d m lk st s arg
    (Hport : gpio_port acc_ops gpio_ops t g drv d) (Hg : k_gpio_system (gpios_get s) = Some g)
    (Ha : arg ≠ 0) (Hs : 0 <= line_data d s < 2 ^ 32) :
  ∃ s1, k_gpio_line_ioctl gpio_ops t m (mk_console lk st s) GPIO_V2_LINE_SET_VALUES_IOCTL arg =
          Ret (0, m, mk_console lk st s1) ∧
    line_data d s1 = merged (line_data d s) (line_mask m arg) (line_bits m arg) ∧
    ∀ m2 arg2, arg2 ≠ 0 → ∃ m' s2,
      k_gpio_line_ioctl gpio_ops t m2 (mk_console lk st s1) GPIO_V2_LINE_GET_VALUES_IOCTL arg2 =
        Ret (0, m', mk_console lk st s2) ∧
      io_get s2 = io_get s1 ∧ line_mask m' arg2 = line_mask m2 arg2 ∧
      line_bits m' arg2 = Z.land (line_data d s1) (line_mask m2 arg2).
Proof.
  destruct (set_values acc_ops gpio_ops t g drv d Hport m arg s Ha Hs) as (s1 & E & Hg1 & Hr & Hv).
  exists s1. unfold k_gpio_line_ioctl at 1. cbn [con_dev con_lock con_status]. rewrite Hg.
  change (GPIO_V2_LINE_SET_VALUES_IOCTL =? GPIO_V2_LINE_GET_VALUES_IOCTL) with false. rewrite Z.eqb_refl, E. mstep.
  split; [done|]. split; [done|]. intros m2 arg2 Ha2.
  destruct (get_values acc_ops gpio_ops t g drv d Hport m2 arg2 s1 Ha2 Hr) as (m' & s2 & E2 & _ & Hw & Hb & Hm).
  exists m', s2. unfold k_gpio_line_ioctl. cbn [con_dev con_lock con_status]. rewrite Hg1, Hg, Z.eqb_refl, E2. by mstep.
Qed.

(** A device with the data [0xf0], of which the lower five lines are set to [0b00011]. *)
Definition demo_gpio : k_device :=
  mk_device (Some "gpio0"%string) "xilinx" "gpio_v2" None (Some 8) None None None 0 0 0x40000000 true false.
Definition demo_gpio_tree : devtree := mk_tree ∅ {[ 13 := demo_gpio ]} ∅ 1.
#[export] Instance demo_has_gpios {I} : HasGpios (I * gpios) := {| gpios_get := snd; gpios_put g s := (s.1, g) |}.
#[export] Instance demo_gpio_has_irq {W} : HasIrq (isys W * gpios) W := {| irq_get := fst; irq_put x s := (x, s.2) |}.
#[export] Instance demo_gpio_sys {W} : GpioSys (isys W * gpios) W.
Proof. by split. Qed.
Definition demo_gpio_ops (drv : Z) : option (k_gpio_driver_ops (isys regfile * gpios)) :=
  if drv =? 8 then Some (@v2_gpio_ops rv64 _ _ _ _ no_acc) else None.
Definition demo_gpio_sys_of (w : regfile) : isys regfile * gpios := ((demo_irq_events, with_io demo_irq w), mk_gpios ∅ (Some 13)).
Definition demo_values : mem := store_le 8 (store_le 8 ∅ 0x200 0x3) 0x208 0x1f.

Lemma k_gpio_line_ioctl_set_get_witness : ∃ s1,
  k_gpio_line_ioctl demo_gpio_ops demo_gpio_tree demo_values
    (mk_console 0 8 (demo_gpio_sys_of {[ 0x40000000 := 0xf0 ]})) GPIO_V2_LINE_SET_VALUES_IOCTL 0x200 =
      Ret (0, demo_values, mk_console 0 8 s1) ∧
  @line_data rv64 _ _ demo_gpio s1 = 0xe3.
Proof.
  destruct (@k_gpio_line_ioctl_set_get rv64 qemu_virt _ _ _ _ no_acc demo_gpio_ops demo_gpio_tree 13 8 demo_gpio
    demo_values 0 8 (demo_gpio_sys_of {[ 0x40000000 := 0xf0 ]}) 0x200) as (s1 & E & Hd & _).
  - split; try reflexivity. done.
  - reflexivity.
  - done.
  - vm_compute. split; [discriminate|reflexivity].
  - exists s1. split; [exact E|]. rewrite Hd. vm_compute. reflexivity.
Defined.
