(* ===== verification/SysDev.v ===== *)
(** * Timer and reset devices (driver/timer/timer.c, driver/reset/reset.c, the probes of
      driver/timer/sifive/clint_timer.c and of driver/timer/nsitexe/icu_timer.c, and
      driver/reset/sifive/qemu_test.c)

    The system keeps one device of each class as its own.  The private data of the drivers by
    the number of the device, and the two devices of the system, are [sysdevs].  The functions
    that only look at the counter are in Timer.v, the clock over them in Clock.v, and what
    uses the system reset in Syscall.v. *)

From S2P Require Import Prelude Config Clock Event Cpu Device Timer Syscall Regfile Intr Prci Clk Uart.

Record timer_priv := mk_timer_priv {
  tm_clk_in : option Z;
  tm_index : Z;
  tm_freq_in : Z
}.

Record sysdevs := mk_sysdevs {
  sd_clint : gmap Z timer_priv;
  sd_icu : gmap Z timer_priv;
  sd_test : list Z;
  timer_default : option Z;
  reset_system : option Z
}.

Class HasSysDevs (St : Type) := {
  sysdevs_get : St → sysdevs;
  sysdevs_put : sysdevs → St → St
}.

(** The operations of a reset device; no driver's operations are empty. *)
Record k_reset_driver_ops (W : Type) := mk_reset_ops {
  rop_reboot : option (W → exec (Z * W));
  rop_shutdown : option (W → exec (Z * W));
  rop_power_off : option (W → exec (Z * W))
}.
Arguments mk_reset_ops {W}.
Arguments rop_reboot {W}.
Arguments rop_shutdown {W}.
Arguments rop_power_off {W}.

(** ** qemu_test *)

Definition REG_FINISH : Z := 0x00.
Definition FINISH_PASS : Z := 0x5555.
Definition FINISH_RESET : Z := 0x7777.

Section QemuTest.
Context `{Arch} {W : Type} `{Mmio W}.
Variable ops : option (k_device_driver_ops W).
Variable dev : k_device.

Definition reset_sifive_qemu_test_reboot (w : W) : exec (Z * W) :=
  Ret (0, k_device_write32 ops dev FINISH_RESET REG_FINISH w).
Definition reset_sifive_qemu_test_shutdown (w : W) : exec (Z * W) :=
  Ret (0, k_device_write32 ops dev FINISH_PASS REG_FINISH w).
Definition reset_sifive_qemu_test_power_off (w : W) : exec (Z * W) :=
  Ret (0, k_device_write32 ops dev FINISH_PASS REG_FINISH w).
Definition sifive_qemu_test_reset_ops : k_reset_driver_ops W :=
  mk_reset_ops (Some reset_sifive_qemu_test_reboot) (Some reset_sifive_qemu_test_shutdown)
    (Some reset_sifive_qemu_test_power_off).
End QemuTest.

(** The function of the timer's handlers, after that of the GPIO. *)
Definition FN_timer_clint_intr : Z := 9.

Section Devices.
Context `{Arch} `{Config} {St W : Type} `{Mmio W} `{HasIrq St W} `{HasClks St} `{HasSysDevs St}.
Variable dev_ops : Z → option (k_device_driver_ops St).
Variable bus_ops : Z → option (k_bus_driver_ops St).
Variable intc_ops : Z → option (k_intc_driver_ops W).
Variable clk_ops : Z → option (k_clk_driver_ops St).
Variable acc_ops : Z → option (k_device_driver_ops W).

(** ** Timers *)

Definition put_clint (dev : Z) (p : timer_priv) (s : St) : St :=
  let d := sysdevs_get s in
  sysdevs_put (mk_sysdevs (<[dev := p]> (sd_clint d)) (sd_icu d) (sd_test d) (timer_default d) (reset_system d)) s.
Definition put_icu (dev : Z) (p : timer_priv) (s : St) : St :=
  let d := sysdevs_get s in
  sysdevs_put (mk_sysdevs (sd_clint d) (<[dev := p]> (sd_icu d)) (sd_test d) (timer_default d) (reset_system d)) s.
Definition tm_set_clk (p : timer_priv) (ck : option (Z * Z)) (freq : option Z) : timer_priv :=
  mk_timer_priv (default (tm_clk_in p) (Some ∘ fst <$> ck)) (default (tm_index p) (snd <$> ck))
    (default (tm_freq_in p) freq).

Definition k_timer_get_default (s : St) : option Z := timer_default (sysdevs_get s).
Definition k_timer_set_default (timer : option Z) (s : St) : Z * St :=
  let d := sysdevs_get s in
  (0, sysdevs_put (mk_sysdevs (sd_clint d) (sd_icu d) (sd_test d) timer (reset_system d)) s).

(** The value of [system], 0 when the configuration has none. *)
Definition conf_system (t : devtree) (dev : Z) : exec Z :=
  x ← get_device t dev;
  '(r, v) ← k_device_read_conf_u32 (Some x) (Some "system"%string) 0;
  if truth r then Ret 0 else of_opt v.

Definition k_timer_add_device (timer : Z) (parent : option Z) (t : devtree) (s : St) : exec (Z * devtree * St) :=
  '(r, t, s) ← k_device_add dev_ops bus_ops (Some timer) parent t s;
  if IS_ERROR r then Ret (r, t, s) else
  val ← conf_system t timer;
  Ret (0, t, if truth val then (k_timer_set_default (Some timer) s).2 else s).

Definition k_timer_remove_device (timer : option Z) (t : devtree) : Z * devtree := k_device_remove timer t.

Definition timer_clint_add (dev : Z) (t : devtree) (s : St) : exec (Z * devtree * St) :=
  match sd_clint (sysdevs_get s) !! dev with
  | None => Ret (- EINVAL, t, s)
  | Some p =>
    '(r, ck, freq, s) ← clk_input clk_ops dev t s;
    let s := put_clint dev (tm_set_clk p ck freq) s in
    if truth r then Ret (r, t, s) else
    '(r, t) ← k_io_mmap_device dev_ops 0 dev t;
    if truth r then Ret (r, t, s) else
    '(r, len) ← k_intc_get_conf_length t dev;
    if truth r then Ret (r, t, s) else
    len ← of_opt len;
    let '(e, q) := irq_get s in
    '(r, e, q) ← add_parents intc_ops FN_timer_clint_intr dev (seqZ 0 len) t e q;
    Ret (r, t, irq_put (e, q) s)
  end.
Definition timer_clint_remove (dev : Z) (t : devtree) (s : St) : exec (Z * St) := Ret (0, s).

(** Without interrupts; the registers are mapped first. *)
Definition timer_icu_add (dev : Z) (t : devtree) (s : St) : exec (Z * devtree * St) :=
  match sd_icu (sysdevs_get s) !! dev with
  | None => Ret (- EINVAL, t, s)
  | Some p =>
    '(r, t) ← k_io_mmap_device dev_ops 0 dev t;
    if truth r then Ret (r, t, s) else
    '(r, ck, freq, s) ← clk_input clk_ops dev t s;
    Ret (r, t, put_icu dev (tm_set_clk p ck freq) s)
  end.
Definition timer_icu_remove (dev : Z) (t : devtree) (s : St) : exec (Z * St) := Ret (0, s).

(** The timer of the system for the clock: no timer, one without a driver, or the
    operations of its driver. *)
Definition system_timer (fuel : nat) (timer_ops : Z → option (option (k_device_driver_ops W) → k_device → Z → nat → k_timer_driver_ops W))
    (t : devtree) (d : sysdevs) : exec (option (option (k_timer_driver_ops W))) :=
  match timer_default d with
  | None => Ret None
  | Some tm =>
    x ← get_device t tm;
    match dev_drv x with
    | None => Ret (Some None)
    | Some drv =>
      let freq := default 0 (tm_freq_in <$> (sd_clint d ∪ sd_icu d) !! tm) in
      Ret (Some ((fun ops => ops (acc_ops drv) x freq fuel) <$> timer_ops drv))
    end
  end.

(** The tick on the running CPU, whose physical number is [hart]. *)
Definition timer_clint_intr (timer : option (option (k_timer_driver_ops W))) (hart : Z) (event hnd : Z)
    (e : events) (q : irq W) : exec (Z * events * irq W) :=
  '(r, w) ← k_clock_on_tick timer hart (q_io q);
  Ret (if truth r then EVENT_NOT_HANDLED else EVENT_HANDLED, e, with_io q w).

(** ** Reset *)

Definition k_reset_get_system (s : St) : option Z := reset_system (sysdevs_get s).
Definition k_reset_set_system (reset : option Z) (s : St) : Z * St :=
  let d := sysdevs_get s in
  (0, sysdevs_put (mk_sysdevs (sd_clint d) (sd_icu d) (sd_test d) (timer_default d) reset) s).

Definition k_reset_add_device (reset : Z) (parent : option Z) (t : devtree) (s : St) : exec (Z * devtree * St) :=
  '(r, t, s) ← k_device_add dev_ops bus_ops (Some reset) parent t s;
  if IS_ERROR r then Ret (r, t, s) else
  val ← conf_system t reset;
  Ret (0, t, if truth val then (k_reset_set_system (Some reset) s).2 else s).

Definition k_reset_remove_device (reset : option Z) (t : devtree) : Z * devtree := k_device_remove reset t.

Definition reset_sifive_qemu_test_add (dev : Z) (t : devtree) (s : St) : exec (Z * devtree * St) :=
  if bool_decide (dev ∉ sd_test (sysdevs_get s)) then Ret (- EINVAL, t, s) else
  '(r, t) ← k_io_mmap_device dev_ops 0 dev t;
  Ret (r, t, s).
Definition reset_sifive_qemu_test_remove (dev : Z) (t : devtree) (s : St) : exec (Z * St) := Ret (- ENOTSUP, s).

(** The reset of the system for [k_fini_reboot] and [k_fini_power_off]. *)
Definition system_reset (reset_ops : Z → option (option (k_device_driver_ops W) → k_device → k_reset_driver_ops W))
    (t : devtree) (d : sysdevs) : exec (option (option (option (W → exec (Z * W)) * option (W → exec (Z * W))))) :=
  match reset_system d with
  | None => Ret None
  | Some rst =>
    x ← get_device t rst;
    match dev_drv x with
    | None => Ret (Some None)
    | Some drv =>
      Ret (Some ((fun ops => let o := ops (acc_ops drv) x in (rop_reboot o, rop_power_off o)) <$> reset_ops drv))
    end
  end.
End Devices.

(** ** The tick *)

(** What the comparators of the CLINT promise: hart [h] has one, of 64 bits, at [base + 8 * h]; it is
    written whole or by halves, a write to it changes no other, and reads change none.  The harts are
    those whose comparators lie before the counter, which goes on when a comparator is written. *)
Class Comparators (W : Type) `{Mmio W} (base time_at : Z) `{C : !Counter W time_at} := {
  mtimecmp : Z → W → Z;
  cmp_range h w : 0 <= mtimecmp h w < 2 ^ 64;
  cmp_read h width a w : mtimecmp h (io_read width a w).2 = mtimecmp h w;
  cmp_write64 h k v w : 0 <= h < 4095 → 0 <= k < 4095 → 0 <= v < 2 ^ 64 →
    mtimecmp k (io_write 64 v (base + 8 * h) w) = if k =? h then v else mtimecmp k w;
  cmp_write_low h k v w : 0 <= h < 4095 → 0 <= k < 4095 → 0 <= v < 2 ^ 32 →
    mtimecmp k (io_write 32 v (base + 8 * h) w) = if k =? h then mtimecmp k w / 2 ^ 32 * 2 ^ 32 + v else mtimecmp k w;
  cmp_write_high h k v w : 0 <= h < 4095 → 0 <= k < 4095 → 0 <= v < 2 ^ 32 →
    mtimecmp k (io_write 32 v (base + 8 * h + 4) w) = if k =? h then v * 2 ^ 32 + mtimecmp k w mod 2 ^ 32 else mtimecmp k w;
  cmp_runs h width v o w : 0 <= h < 4095 → 0 <= o < 8 → mtime w <= mtime (io_write width v (base + 8 * h + o) w)
}.

Section Trigger.
Context `{Arch} {W : Type} `{Mmio W}.
Variable ops : option (k_device_driver_ops W).
Variable dev : k_device.
Context `{C : !Counter W (usize (dev_virt dev + 0x7ff8))} `{P : !Comparators W (dev_virt dev) (usize (dev_virt dev + 0x7ff8))}.
Hypothesis Hvirt : 0 < dev_virt dev < 2 ^ 31.

(** [timer_clint_set_timecmp] leaves the count in the comparator of the hart, and the others as they were. *)
Lemma set_timecmp_ok hart cnt w : 0 <= hart < 4095 → 0 <= cnt < 2 ^ 64 →
  let w' := timer_clint_set_timecmp ops dev hart cnt w in
  (∀ k, 0 <= k < 4095 → mtimecmp k w' = if k =? hart then cnt else mtimecmp k w) ∧ mtime w <= mtime w'.
Proof.
  intros Hh Hc. assert (∀ o, 0 <= o < 2 ^ 31 → usize (dev_virt dev + o) = dev_virt dev + o) as Hu.
  { intros o Ho. apply uwrap_small. pose proof xlen_ge. assert (2 ^ 32 <= 2 ^ xlen) by (apply Z.pow_le_mono_r; lia). lia. }
  assert (∀ o n, o = 8 * hart + n → 0 <= n < 8 → usize (dev_virt dev + o) = dev_virt dev + 8 * hart + n) as Ha by (intros o n -> Hn; rewrite Hu; lia).
  pose proof (cmp_runs (time_at := usize (dev_virt dev + 0x7ff8)) hart) as Hrun.
  cbv zeta. unfold timer_clint_set_timecmp, timecmp_writes, CLINT_REG_MTIMECMP, CLINT_REG_MTIMECMPH, CLINT_REG_MTIMECMPL.
  destruct (xlen =? 64); cbn [foldl]; unfold k_device_write64, k_device_write32, dev_write, k_io_write64, k_io_write32.
  all: rewrite (proj2 (truth_true (dev_virt dev))) by lia; rewrite (Ha (0 + hart * 8) 0), Z.add_0_r by lia.
  - rewrite (uwrap_small 64) by done. split; [intros k Hk; by apply cmp_write64|].
    specialize (Hrun 64 cnt 0 w Hh ltac:(lia)). by rewrite Z.add_0_r in Hrun.
  - rewrite (Ha (4 + hart * 8) 4), Z.shiftr_div_pow2 by lia. assert (0 <= cnt / 2 ^ 32 < 2 ^ 32) as Hhi by dlia. rewrite (uwrap_small 32 (cnt / _)) by done.
    pose proof (uwrap_range 32 cnt ltac:(lia)) as Hlo. split.
    + intros k Hk. rewrite cmp_write_low, cmp_write_high by done. destruct (k =? hart); [|done]. unfold uwrap.
      pose proof (cmp_range k w). dlia.
    + set (w1 := io_write 32 (cnt / 2 ^ 32) _ w). etransitivity; [apply (Hrun 32 (cnt / 2 ^ 32) 4 w); lia|]. fold w1.
      specialize (Hrun 32 (u32 cnt) 0 w1 Hh ltac:(lia)). by rewrite Z.add_0_r in Hrun.
Qed.

(** Reading the counter leaves the comparators alone. *)
Lemma get_raw_keeps fuel index w t w' k : timer_clint_get_raw ops dev fuel index w = Ret (0, t, w') → mtimecmp k w = mtimecmp k w'.
Proof.
  assert (∀ off w, mtimecmp k (k_device_read32 ops dev off w).2 = mtimecmp k w) as H32.
  { intros off w0. unfold k_device_read32, dev_read, k_io_read32. rewrite (proj2 (truth_true (dev_virt dev))) by lia.
    pose proof (cmp_read (time_at := usize (dev_virt dev + 0x7ff8)) k 32 (usize (dev_virt dev + off)) w0) as E. by destruct (io_read 32 _ w0). }
  unfold timer_clint_get_raw, get_raw_at. destruct (xlen =? 64).
  - unfold k_device_read64, dev_read, k_io_read64. rewrite (proj2 (truth_true (dev_virt dev))) by lia.
    pose proof (cmp_read (time_at := usize (dev_virt dev + 0x7ff8)) k 64 (usize (dev_virt dev + CLINT_REG_MTIME)) w) as E.
    destruct (io_read 64 _ w) as [v w1]. cbn. intros [= _ <-]. by rewrite <-E.
  - revert w. induction fuel as [|fuel IH]; intros w; [done|]. cbn [get_raw_loop].
    destruct (k_device_read32 ops dev CLINT_REG_MTIMEH w) as [v1 w1] eqn:E1. destruct (k_device_read32 ops dev CLINT_REG_MTIMEL w1) as [v2 w2] eqn:E2.
    destruct (k_device_read32 ops dev CLINT_REG_MTIMEH w2) as [v3 w3] eqn:E3.
    assert (mtimecmp k w = mtimecmp k w3) as ->.
    { pose proof (H32 CLINT_REG_MTIMEH w) as A1. pose proof (H32 CLINT_REG_MTIMEL w1) as A2. pose proof (H32 CLINT_REG_MTIMEH w2) as A3.
      rewrite E1 in A1. rewrite E2 in A2. rewrite E3 in A3. cbn in *. congruence. }
    destruct (negb _); [apply IH|]. cbn. by intros [= _ <-].
Qed.
End Trigger.

Section Tick.
Context `{Arch} {W : Type} `{Mmio W}.
Variable ops : option (k_device_driver_ops W).
Variable dev : k_device.
Context `{C : !Counter W (usize (dev_virt dev + CLINT_REG_MTIME))}.
Hypothesis Hvirt : 0 < dev_virt dev < 2 ^ 31.

(** What [timer_clint_get_raw] returns, and how far the counter gets meanwhile. *)
Lemma get_raw_bounded fuel index w : (2 <= fuel)%nat → ∃ t w',
  timer_clint_get_raw ops dev fuel index w = Ret (0, Some t, w') ∧ mtime w <= t <= mtime w' ∧
  mtime w' < mtime w + 2 ^ 32.
Proof.
  intros Hf. assert (∀ z, 0 <= z < 2 ^ 32 → usize z = z) as Hu.
  { intros z Hz. apply uwrap_small. pose proof xlen_ge. assert (2 ^ 32 <= 2 ^ xlen) by (apply Z.pow_le_mono_r; lia). lia. }
  destruct fuel as [|[|fuel]]; [lia|lia|]. unfold timer_clint_get_raw, get_raw_at. destruct (xlen =? 64).
  - destruct (read_whole ops dev CLINT_REG_MTIME ltac:(lia) w) as (t & w' & E & Ht). rewrite E.
    exists t, w'. split; [done|]. split; [done|].
    pose proof (mtime_steps 64 (usize (dev_virt dev + CLINT_REG_MTIME)) w) as Hs.
    assert (w' = (io_read 64 (usize (dev_virt dev + CLINT_REG_MTIME)) w).2) as ->; [|lia].
    unfold k_device_read64, dev_read, k_io_read64 in E. rewrite (proj2 (truth_true _)) in E by lia.
    destruct (io_read 64 _ w) as [v w1]. by simplify_eq/=.
  - unfold CLINT_REG_MTIMEL, CLINT_REG_MTIMEH. change 0x7ffc with (0x7ff8 + 4).
    destruct (get_raw_loop_ok ops dev 0x7ff8 ltac:(lia) ltac:(rewrite !Hu by lia; lia) fuel w) as (t & w' & -> & ?).
    mstep. eauto.
Qed.

(** The count of the time [tick] nanoseconds after the count [t]. *)
Lemma next_count freq t tick :
  0 < freq <= NSEC → 0 <= t < 2 ^ 61 → 0 <= tick < NSEC →
  let next := timespecadd (ts_of_raw t freq) (mk_timespec64 0 tick) in
  ∃ c, k_clock_timespec_to_raw (Some next) freq true = (0, Some c) ∧
    t + freq * tick / NSEC - 1 <= c <= t + freq * tick / NSEC ∧ 0 <= c.
Proof.
  intros Hf Ht Hk next. destruct (ts_of_raw_ns t freq Hf ltac:(lia)) as (Hn & Hs & Hns).
  destruct (timespecadd_ns (ts_of_raw t freq) (mk_timespec64 0 tick)) as [An Ar].
  { split; [lia|done]. } { split; [cbn; lia|done]. }
  fold next in An, Ar. change (ns (mk_timespec64 0 tick)) with (0 * NSEC + tick) in An. rewrite Hn in An.
  pose proof (Z.mul_div_le (t * NSEC) freq ltac:(lia)) as L1.
  pose proof (Z.mul_succ_div_gt (t * NSEC) freq ltac:(lia)) as U1. set (n := t * NSEC / freq) in *.
  assert (0 <= n) by (apply Z.div_pos; unfold NSEC in *; lia).
  assert (tv_sec next * NSEC <= n + tick) by (unfold ns in An; lia).
  assert (0 <= tv_sec next) by (unfold ns, NSEC in *; lia).
  rewrite timespec_to_raw_eq, raw_of_ns, An; [|done|done|done|unfold NSEC in *; nia].
  eexists. split; [done|].
  pose proof (Z.mul_div_le (freq * tick) NSEC ltac:(done)) as L2.
  pose proof (Z.mul_succ_div_gt (freq * tick) NSEC ltac:(done)) as U2. set (k := freq * tick / NSEC) in *.
  replace ((n + (0 * NSEC + tick)) * freq) with (freq * n + freq * tick) by lia.
  split; [|apply Z.div_pos; lia]. split; [apply Z.div_le_lower_bound; [done|lia]|].
  assert ((freq * n + freq * tick) / NSEC < t + k + 1); [|lia].
  apply Z.div_lt_upper_bound; [done|lia].
Qed.
End Tick.

(** C23: the tick re-arms itself.  The handler of the timer's interrupt is handled, and when it
    comes back the comparator of the hart it runs on holds the count at which the timer triggers next, those of
    all other harts what they held: one period of [CONFIG_SYSTEM_TIMER_HZ], rounded down to whole counts, or a
    count less, after a count that the timer had during the call; so the tick is never late by more than the call
    takes and, when a period is more than one count, the new trigger lies after the reading.  The
    comparators are those of the hardware, of 64 bits, which a machine of 32 bits writes by halves. *)
Theorem timer_clint_intr_rearms `{Arch} `{Config} {W : Type} `{Mmio W} (ops : option (k_device_driver_ops W)) dev
    `{C : !Counter W (usize (dev_virt dev + 0x7ff8))} `{P : !Comparators W (dev_virt dev) (usize (dev_virt dev + 0x7ff8))}
    freq fuel hart event hnd e q
    (Hvirt : 0 < dev_virt dev < 2 ^ 31) (Hfuel : (2 <= fuel)%nat) (Hfreq : 0 < freq <= NSEC) (Hhart : 0 <= hart < 4095)
    (Hhz : 1 < CONFIG_SYSTEM_TIMER_HZ) (Ht : mtime (q_io q) < 2 ^ 60) :
  let period := freq * (NSEC / CONFIG_SYSTEM_TIMER_HZ) / NSEC in
  ∃ t w',
    timer_clint_intr (Some (Some (timer_clint_timer_ops ops dev freq fuel))) hart event hnd e q = Ret (EVENT_HANDLED, e, with_io q w') ∧
    mtime (q_io q) <= t <= mtime w' ∧
    t + period - 1 <= mtimecmp hart w' <= t + period ∧
    ∀ k, 0 <= k < 4095 → k ≠ hart → mtimecmp k w' = mtimecmp k (q_io q).
Proof.
  cbv zeta. destruct (get_raw_bounded ops dev Hvirt fuel hart (q_io q) Hfuel) as (t & w1 & Er & Hr & Hb). change CLINT_REG_MTIME with 0x7ff8 in Hr, Hb.
  pose proof (mtime_range (q_io q)).
  destruct (next_count freq t (NSEC / CONFIG_SYSTEM_TIMER_HZ) Hfreq ltac:(lia)) as (c & Ec & Hc & Hc0).
  { split; [apply Z.div_pos; unfold NSEC; lia|apply Z.div_lt; unfold NSEC; lia]. }
  assert (freq * (NSEC / CONFIG_SYSTEM_TIMER_HZ) / NSEC <= NSEC) as Hp.
  { apply Z.div_le_upper_bound; [done|]. assert (NSEC / CONFIG_SYSTEM_TIMER_HZ <= NSEC) by (apply Z.div_le_upper_bound; unfold NSEC; lia). nia. }
  destruct (set_timecmp_ok ops dev Hvirt hart c w1 Hhart) as [Hcmp Hrun].
  { set (period := freq * _ / NSEC) in *. change NSEC with 1000000000 in Hp. lia. }
  exists t, (timer_clint_set_timecmp ops dev hart c w1). split; [|split; [lia|split]].
  - unfold timer_clint_intr, k_clock_on_tick. cbn [set_trigger timer_clint_timer_ops].
    rewrite (get_monotonic_reads (timer_clint_timer_ops ops dev freq fuel) hart freq t (q_io q) w1); [|done|lia|].
    2: { unfold reads. do 3 eexists. split; [done|]. split; [done|]. split; [exact Er|].
         unfold timer_get_freq. by rewrite (proj2 (Z.eqb_neq _ _)) by lia. }
    mstep. unfold timer_clint_set_trigger, timer_get_freq. rewrite (proj2 (Z.eqb_neq _ _)) by lia. mstep.
    rewrite Ec. by mstep.
  - by rewrite Hcmp, Z.eqb_refl.
  - intros k Hk Hne. rewrite Hcmp, (proj2 (Z.eqb_neq k hart)) by done. symmetry.
    by eapply (get_raw_keeps ops dev).
Qed.

(** A CLINT at 0x2000000: a counter as [ticking], and words of comparators, by address. *)
Record clint_io := mk_clint_io { ci_time : Z; ci_words : gmap Z Z }.
Definition clint_word (w : clint_io) (a : Z) : Z := u32 (default 0 (ci_words w !! a)).
#[export] Instance clint_mmio : Mmio clint_io := {|
  io_read width a w := ((io_read width a (ci_time w)).1, mk_clint_io (ci_time w + 1) (ci_words w));
  io_write width v a w := mk_clint_io (ci_time w + 1)
    (if width =? 64 then <[a := v mod 2 ^ 32]> (<[a + 4 := v / 2 ^ 32]> (ci_words w)) else <[a := v]> (ci_words w))
|}.
#[export] Instance clint_counter : Counter clint_io 0x2007ff8.
Proof. 
  refine (Build_Counter _ _ _ (fun w => now (ci_time w)) _ _ _ _ _); intros; destruct w as [w cs]; cbn [ci_time io_read clint_mmio fst snd].
  all: generalize w; clear; ticking_laws.
Defined.

Lemma clint_word_insert cs t a b v : clint_word (mk_clint_io t (<[a := v]> cs)) b = if b =? a then u32 v else clint_word (mk_clint_io t cs) b.
Proof.
  unfold clint_word. cbn [ci_words]. destruct (b =? a) eqn:E; bsplit; [subst; by rewrite lookup_insert_eq|by rewrite lookup_insert_ne by congruence].
Qed.
Lemma clint_word_range w a : 0 <= clint_word w a < 2 ^ 32.
Proof. by apply uwrap_range. Qed.

Lemma words_div l h : 0 <= l < 2 ^ 32 → (l + 2 ^ 32 * h) / 2 ^ 32 = h.
Proof. dlia. Qed.
Lemma words_mod l h : 0 <= l < 2 ^ 32 → (l + 2 ^ 32 * h) mod 2 ^ 32 = l.
Proof. dlia. Qed.

#[export] Instance clint_comparators : Comparators clint_io 0x2000000 0x2007ff8.
Proof.
  refine (Build_Comparators _ _ _ _ _ (fun h w => clint_word w (0x2000000 + 8 * h) + 2 ^ 32 * clint_word w (0x2000000 + 8 * h + 4)) _ _ _ _ _ _).
  - intros h w. pose proof (clint_word_range w (0x2000000 + 8 * h)). pose proof (clint_word_range w (0x2000000 + 8 * h + 4)). lia.
  - done.
  - intros h k v [t cs] Hh Hk Hv. cbn [io_write clint_mmio Z.eqb Pos.eqb ci_time ci_words]. rewrite !clint_word_insert.
    change (clint_word (mk_clint_io (t + 1) cs)) with (clint_word (mk_clint_io t cs)).
    rewrite (proj2 (Z.eqb_neq (_ + 8 * k + 4) (_ + 8 * h))), (proj2 (Z.eqb_neq (_ + 8 * k) (_ + 8 * h + 4))) by lia. destruct (k =? h) eqn:E; bsplit.
    + subst. rewrite !Z.eqb_refl. unfold uwrap. dlia.
    + by rewrite !(proj2 (Z.eqb_neq _ _)) by lia.
  - intros h k v [t cs] Hh Hk Hv. cbn [io_write clint_mmio Z.eqb Pos.eqb ci_time ci_words]. rewrite !clint_word_insert.
    change (clint_word (mk_clint_io (t + 1) cs)) with (clint_word (mk_clint_io t cs)).
    pose proof (clint_word_range (mk_clint_io t cs) (0x2000000 + 8 * k)) as Hr.
    rewrite (proj2 (Z.eqb_neq (_ + 8 * k + 4) (_ + 8 * h))) by lia. destruct (k =? h) eqn:E; bsplit.
    + subst. rewrite Z.eqb_refl, uwrap_small by done. rewrite words_div by done. lia.
    + by rewrite (proj2 (Z.eqb_neq _ _)) by lia.
  - intros h k v [t cs] Hh Hk Hv. cbn [io_write clint_mmio Z.eqb Pos.eqb ci_time ci_words]. rewrite !clint_word_insert.
    change (clint_word (mk_clint_io (t + 1) cs)) with (clint_word (mk_clint_io t cs)).
    pose proof (clint_word_range (mk_clint_io t cs) (0x2000000 + 8 * k)) as Hr.
    rewrite (proj2 (Z.eqb_neq (_ + 8 * k) (_ + 8 * h + 4))) by lia. destruct (k =? h) eqn:E; bsplit.
    + subst. rewrite Z.eqb_refl, uwrap_small by done. rewrite words_mod by done. lia.
    + by rewrite (proj2 (Z.eqb_neq _ _)) by lia.
  - intros h width v o [t cs] _ _. cbn. unfold now. lia.
Defined.

(** At 10 MHz and 250 Hz, on a machine of 32 bits, on hart 1; the trigger was for count 4000. *)
Definition tick_io : clint_io := mk_clint_io 5000 {[ 0x2000000 := 9; 0x2000008 := 4000 ]}.
Definition tick_irq (w : clint_io) : irq clint_io := mk_irq two_cpus [] [] ∅ ∅ ∅ None ∅ ∅ ∅ w.

Lemma timer_clint_intr_rearms_witness :
  ∃ t w', @timer_clint_intr qemu_virt clint_io
      (Some (Some (@timer_clint_timer_ops rv32 clint_io clint_mmio None timer_dev 10000000 2))) 1 7 100 demo_irq_events (tick_irq tick_io) =
    Ret (EVENT_HANDLED, demo_irq_events, tick_irq w') ∧
    5000 <= t ∧ t + 39999 <= mtimecmp 1 w' <= t + 40000 ∧ mtimecmp 0 w' = 9.
Proof.
  destruct (@timer_clint_intr_rearms rv32 qemu_virt clint_io clint_mmio None timer_dev clint_counter clint_comparators 10000000 2 1 7 100
    demo_irq_events (tick_irq tick_io)) as (t & w' & E & Hr & Hc & Ho).
  - by vm_compute.
  - lia.
  - by vm_compute.
  - lia.
  - by vm_compute.
  - by vm_compute.
  - exists t, w'. split; [exact E|]. destruct Hr as [Hr _]. change (5000 <= t) in Hr.
    assert (t + 40000 - 1 <= mtimecmp 1 w' <= t + 40000) as Hc' by exact Hc.
    split; [exact Hr|]. split; [lia|]. exact (Ho 0 ltac:(lia) ltac:(done)).
Defined.
