(* ===== verification/Boards.v ===== *)
(** * The boards (board/riscv/) and the start of their devices

    Every part of the system in one state, [sys]; the drivers by number with their
    operations; the devices of the three boards whose configuration compiles, as the
    board.c files declare them; and [start], [init_drivers] on one of them (Init.v shows that it ends).  The fourth board,
    hifive1, is data only, since sys/memory.c refuses its configuration. *)

From S2P Require Import Prelude Config Clock Event Regs Cpu Device File Timer Syscall Regfile Intr Prci Clk Uart Console Gpio SysDev.

(** ** The system *)

Record sys (W : Type) := mk_sys {
  s_events : events;
  s_irq : irq W;
  s_clks : clks;
  s_uarts : uarts;
  s_gpios : gpios;
  s_devs : sysdevs
}.
Arguments mk_sys {W}.
Arguments s_events {W}.
Arguments s_irq {W}.
Arguments s_clks {W}.
Arguments s_uarts {W}.
Arguments s_gpios {W}.
Arguments s_devs {W}.

#[export] Instance sys_has_irq {W} : HasIrq (sys W) W := {|
  irq_get s := (s_events s, s_irq s);
  irq_put x s := mk_sys x.1 x.2 (s_clks s) (s_uarts s) (s_gpios s) (s_devs s)
|}.
#[export] Instance sys_has_clks {W} : HasClks (sys W) := {|
  clks_get := s_clks;
  clks_put c s := mk_sys (s_events s) (s_irq s) c (s_uarts s) (s_gpios s) (s_devs s)
|}.
#[export] Instance sys_has_uarts {W} : HasUarts (sys W) := {|
  uarts_get := s_uarts;
  uarts_put u s := mk_sys (s_events s) (s_irq s) (s_clks s) u (s_gpios s) (s_devs s)
|}.
#[export] Instance sys_has_gpios {W} : HasGpios (sys W) := {|
  gpios_get := s_gpios;
  gpios_put g s := mk_sys (s_events s) (s_irq s) (s_clks s) (s_uarts s) g (s_devs s)
|}.
#[export] Instance sys_has_devs {W} : HasSysDevs (sys W) := {|
  sysdevs_get := s_devs;
  sysdevs_put d s := mk_sys (s_events s) (s_irq s) (s_clks s) (s_uarts s) (s_gpios s) d
|}.
#[export] Instance sys_uart_sys {W} : UartSys (sys W) W.
Proof. split; [|done]. by intros [e q] s. Qed.
#[export] Instance sys_gpio_sys {W} : GpioSys (sys W) W.
Proof. split; [|done]. by intros [e q] s. Qed.

(** ** Drivers

    The numbers after those of driver/device.c. *)

Definition drv_cpu : Z := 3.
Definition drv_rv_priv : Z := 4.
Definition drv_plic : Z := 5.
Definition drv_clint : Z := 6.
Definition drv_clk_fixed : Z := 7.
Definition drv_prci : Z := 8.
Definition drv_clint_timer : Z := 9.
Definition drv_icu_timer : Z := 10.
Definition drv_qemu_test : Z := 11.
Definition drv_ns16550 : Z := 12.
Definition drv_sifive_uart : Z := 13.
Definition drv_uart_lite : Z := 14.
Definition drv_gpio_v2 : Z := 15.

Definition driver_table : list (Z * k_driver) :=
  map (fun '(i, vendor, device) => (i, mk_driver (Some vendor) (Some device) None))
    [(drv_cpu, "none", "cpu_riscv"); (drv_rv_priv, "riscv", "priv1_10"); (drv_plic, "sifive", "plic0");
     (drv_clint, "sifive", "clint0"); (drv_clk_fixed, "none", "clk_fixed"); (drv_prci, "sifive", "prci0");
     (drv_clint_timer, "sifive", "clint0_timer"); (drv_icu_timer, "nsitexe", "icu_timer");
     (drv_qemu_test, "sifive", "qemu_test"); (drv_ns16550, "ns", "ns16550"); (drv_sifive_uart, "sifive", "uart0");
     (drv_uart_lite, "xilinx", "uart_lite"); (drv_gpio_v2, "xilinx", "gpio_v2")]%string.

Section Drivers.
Context `{Arch} `{Config} {W : Type} `{Mmio W}.
Variable fuel : nat.

(** No driver has access functions of its own, and the root bus no operations. *)
Definition acc_ops (drv : Z) : option (k_device_driver_ops W) := None.
Definition sys_bus_ops (drv : Z) : option (k_bus_driver_ops (sys W)) := None.

(** The drivers with [.mmap = k_device_driver_mmap]; what a probe maps its registers with. *)
Definition maps (drv : Z) : bool :=
  existsb (Z.eqb drv) [drv_rv_priv; drv_plic; drv_clint; drv_prci; drv_clint_timer; drv_icu_timer; drv_qemu_test;
    drv_ns16550; drv_sifive_uart; drv_uart_lite; drv_gpio_v2].
Definition mmap_op (drv : Z) : option (Z → Z → Z → Z → Z → Z → devtree → exec Z) :=
  if maps drv then Some (fun addr len prot flags dev => k_device_driver_mmap sys_bus_ops addr len prot flags (Some dev))
  else None.
Definition mmap_ops (drv : Z) : option (k_device_driver_ops (sys W)) :=
  Some (mk_dev_ops _ None (mmap_op drv) (fun _ => None) (fun _ => None)).

Definition intc_ops (drv : Z) : option (k_intc_driver_ops W) :=
  if drv =? drv_rv_priv then Some intc_priv_intc_ops
  else if drv =? drv_plic then Some (intc_plic_intc_ops acc_ops)
  else if drv =? drv_clint then Some (intc_clint_intc_ops acc_ops) else None.
Definition clk_ops (drv : Z) : option (k_clk_driver_ops (sys W)) :=
  if drv =? drv_clk_fixed then Some clk_fixed_clk_ops
  else if drv =? drv_prci then Some (clk_prci_clk_ops acc_ops fuel) else None.
Definition uart_ops (drv : Z) : option (k_uart_driver_ops (sys W)) :=
  if drv =? drv_ns16550 then Some (ns16550_uart_ops acc_ops fuel)
  else if drv =? drv_sifive_uart then Some (uart_sifive_uart_ops acc_ops fuel)
  else if drv =? drv_uart_lite then Some (lite_uart_ops acc_ops fuel) else None.
Definition gpio_ops (drv : Z) : option (k_gpio_driver_ops (sys W)) :=
  if drv =? drv_gpio_v2 then Some (v2_gpio_ops acc_ops) else None.
Definition timer_ops (drv : Z) :
    option (option (k_device_driver_ops W) → k_device → Z → nat → k_timer_driver_ops W) :=
  if drv =? drv_clint_timer then Some timer_clint_timer_ops
  else if drv =? drv_icu_timer then Some timer_icu_timer_ops else None.
Definition reset_ops (drv : Z) : option (option (k_device_driver_ops W) → k_device → k_reset_driver_ops W) :=
  if drv =? drv_qemu_test then Some sifive_qemu_test_reset_ops else None.

(** [cpu_riscv_add] (driver/cpu/riscv.c) with the [hartid] of the configuration. *)
Definition cpu_add (dev : Z) (t : devtree) (s : sys W) : exec (Z * devtree * sys W) :=
  x ← get_device t dev;
  '(r, v) ← k_device_read_conf_u32 (Some x) (Some "hartid"%string) 0;
  let '(e, q) := irq_get s in
  '(r, k) ← cpu_riscv_add (q_kern q) dev true (r, default 0 v);
  Ret (r, t, irq_put (e, put_kern k q) s).

Definition add_op (drv : Z) : option (Z → devtree → sys W → exec (Z * devtree * sys W)) :=
  if drv =? drv_cpu then Some cpu_add
  else if drv =? drv_rv_priv then Some intc_priv_add
  else if drv =? drv_plic then Some (intc_plic_add mmap_ops intc_ops acc_ops)
  else if drv =? drv_clint then Some (intc_clint_add mmap_ops intc_ops)
  else if drv =? drv_clk_fixed then Some clk_fixed_add
  else if drv =? drv_prci then Some (clk_prci_add mmap_ops clk_ops acc_ops fuel)
  else if drv =? drv_clint_timer then Some (timer_clint_add mmap_ops intc_ops clk_ops)
  else if drv =? drv_icu_timer then Some (timer_icu_add mmap_ops clk_ops)
  else if drv =? drv_qemu_test then Some (reset_sifive_qemu_test_add mmap_ops)
  else if drv =? drv_ns16550 then Some (uart_ns16550_add mmap_ops intc_ops clk_ops acc_ops)
  else if drv =? drv_sifive_uart then Some (uart_sifive_add mmap_ops intc_ops clk_ops acc_ops)
  else if drv =? drv_uart_lite then Some (uart_lite_add mmap_ops intc_ops acc_ops)
  else if drv =? drv_gpio_v2 then Some (gpio_v2_add mmap_ops intc_ops acc_ops)
  else None.

(** The operations of the drivers; those of driver/device.c have none. *)
Definition sys_dev_ops (drv : Z) : option (k_device_driver_ops (sys W)) :=
  if drv <? drv_cpu then None
  else Some (mk_dev_ops _ (add_op drv) (mmap_op drv) (fun _ => None) (fun _ => None)).

(** The function of a handler, for every driver. *)
Definition sys_call (hart : Z) (t : devtree) (s : sys W) (timer : option (option (k_timer_driver_ops W))) :
    Z → Z → Z → events → irq W → exec (Z * events * irq W) :=
  let other f event h e q :=
    if f =? FN_timer_clint_intr then timer_clint_intr timer hart event h e q
    else if f =? FN_gpio_v2_intr then gpio_v2_intr event h e q
    else uart_call acc_ops (s_uarts s) t f event h e q in
  call_hnd acc_ops other 8 hart t.

(** An interrupt of a hart, in the booted system. *)
Definition sys_interrupt (hart cause : Z) (t : devtree) (s : sys W) : exec (Z * sys W) :=
  timer ← system_timer acc_ops fuel timer_ops t (s_devs s);
  '(r, e, q) ← k_arch_riscv_interrupt (sys_call hart t s timer) hart cause (s_events s) (s_irq s);
  Ret (r, irq_put (e, q) s).
End Drivers.

(** ** Boards *)

(** How board.c adds a device. *)
Inductive add_as :=
| AddCpu (dev : Z)
| AddIntc (dev : Z)
| AddClk (dev : Z)
| AddTimer (dev : Z)
| AddReset (dev : Z)
| AddUart (dev : Z) (as_default : bool)
| AddGpio (dev : Z)
| SetConsole (dev : Z).

(** The drivers that the configuration selects, in the order of driver/CMakeLists.txt, the
    devices by number, and the steps of the board's initialisation function. *)
Record board := mk_board {
  b_drivers : list Z;
  b_devices : list (Z * k_device);
  b_adds : list add_as
}.

Definition num (name : string) (l : list Z) : k_device_config := mk_conf name (zlen l) (map CNum l).
Definition KHZ : Z := 1000.
Definition MHZ : Z := 1000000.
Definition GHZ : Z := 1000000000.

(** [UPTR("a"), n, UPTR("b"), m, ...] *)
Definition refs (name : string) (l : list (string * Z)) : k_device_config :=
  mk_conf name (2 * zlen l) (concat (map (fun '(s, n) => [CStr s; CNum n]) l)).

(** The numbers of devices. *)
Definition d_cpu (i : Z) : Z := 10 + i.
Definition d_rvintc (i : Z) : Z := 20 + i.
Definition d_clint : Z := 30.
Definition d_plic : Z := 31.
Definition d_clk (i : Z) : Z := 40 + i.
Definition d_timer : Z := 50.
Definition d_reset : Z := 60.
Definition d_uart (i : Z) : Z := 70 + i.
Definition d_gpio : Z := 80.

Definition digit (i : Z) : string := nth (Z.to_nat i) ["0"; "1"; "2"; "3"; "4"]%string "?"%string.
Definition cpu_name (i : Z) : string := ("cpu" ++ digit i)%string.
Definition rvintc_name (i : Z) : string := ("rvintc" ++ digit i)%string.

(** [CPU_DEVICE] with [CPU_CONF], and [INTC_DEVICE] with [INTC_CONF]. *)
Definition cpu_device (i : Z) : Z * k_device :=
  (d_cpu i, device_of (cpu_name i) "none" "cpu_riscv" (Some [num "hartid" [i]])).
Definition rvintc_device (i : Z) : Z * k_device :=
  (d_rvintc i, device_of (rvintc_name i) "riscv" "priv1_10" (Some [mk_conf "cpu" 1 [CStr (cpu_name i)]])).
Definition parents (cores irq : Z) : k_device_config :=
  refs "interrupts" (map (fun i => (rvintc_name i, irq)) (seqZ 0 cores)).

Definition clint_device (cores : Z) : Z * k_device :=
  (d_clint, device_of "clint" "sifive" "clint0"
    (Some [num "reg" [0x2000000]; num "reg-size" [0x1000]; parents cores RV_IX_SIX; num "ipi" [1]])).
Definition plic_device (cores : Z) : Z * k_device :=
  (d_plic, device_of "plic" "sifive" "plic0"
    (Some [num "reg" [0xc000000]; num "reg-size" [0x2000000]; parents cores RV_IX_EIX])).
Definition fixed_clk (i : Z) (name : string) (freq : Z) : Z * k_device :=
  (d_clk i, device_of name "none" "clk_fixed" (Some [num "frequency" [freq]])).
Definition clint_timer_device (cores : Z) (clk : string) : Z * k_device :=
  (d_timer, device_of "clint_timer" "sifive" "clint0_timer"
    (Some [num "reg" [0x2004000]; num "reg-size" [0xc000]; parents cores RV_IX_TIX; refs "clocks" [(clk, 0)];
           num "system" [1]])).
Definition cpus_and_intcs (cores : Z) : list (Z * k_device) :=
  concat (map (fun i => [cpu_device i; rvintc_device i]) (seqZ 0 cores)).
Definition add_cpus (cores : Z) : list add_as :=
  concat (map (fun i => [AddCpu (d_cpu i); AddIntc (d_rvintc i)]) (seqZ 0 cores)).

(** board/riscv/qemu_virt/board.c *)
Definition qemu_virt_board : board := mk_board
  [drv_cpu; drv_clk_fixed; drv_prci; drv_rv_priv; drv_clint; drv_plic; drv_qemu_test; drv_clint_timer; drv_ns16550;
   drv_sifive_uart; drv_uart_lite]
  (cpus_and_intcs 4 ++
   [clint_device 4; plic_device 4; fixed_clk 0 "rtcclk" (10 * MHZ);
    (d_reset, device_of "reset0" "sifive" "qemu_test"
      (Some [num "reg" [0x00100000]; num "reg-size" [0x1000]; num "system" [1]]));
    clint_timer_device 4 "rtcclk";
    (d_uart 0, device_of "uart0" "ns" "ns16550"
      (Some [num "reg" [0x10000000]; num "reg-size" [0x100]; num "reg-width" [1]; refs "clocks" [("rtcclk", 0)];
             refs "interrupts" [("plic", 10)]]))]%string)
  (add_cpus 4 ++ [AddIntc d_plic; AddIntc d_clint; AddClk (d_clk 0); AddTimer d_timer; AddReset d_reset; AddUart (d_uart 0) true]).

(** board/riscv/sifive_hifive_unleashed/board.c *)
Definition unleashed_board : board := mk_board
  [drv_cpu; drv_clk_fixed; drv_prci; drv_rv_priv; drv_clint; drv_plic; drv_clint_timer; drv_sifive_uart]
  (cpus_and_intcs 5 ++
   [clint_device 5; plic_device 5; fixed_clk 0 "hfclk" 33333333; fixed_clk 1 "rtcclk" (1 * MHZ);
    (d_clk 2, device_of "prci" "sifive" "prci0"
      (Some [num "reg" [0x10000000]; num "reg-size" [0x1000]; refs "clocks" [("hfclk", 0)];
             num "frequency" [600 * MHZ; 0; 1 * GHZ; 125 * MHZ]]));
    clint_timer_device 5 "rtcclk";
    (d_uart 0, device_of "uart0" "sifive" "uart0"
      (Some [num "reg" [0x10010000]; num "reg-size" [0x1000]; refs "clocks" [("prci", PRCI_INDEX_TLCLK)];
             refs "interrupts" [("plic", 4)]; num "baud" [115200]]));
    (d_uart 1, device_of "uart1" "sifive" "uart0"
      (Some [num "reg" [0x10011000]; num "reg-size" [0x1000]; refs "clocks" [("prci", PRCI_INDEX_TLCLK)];
             num "baud" [115200]]))]%string)
  (add_cpus 5 ++ [AddIntc d_clint; AddIntc d_plic; AddClk (d_clk 0); AddClk (d_clk 1); AddClk (d_clk 2); AddTimer d_timer;
     AddUart (d_uart 0) true; AddUart (d_uart 1) true; SetConsole (d_uart 0)]).

(** board/riscv/nsitexe_ns31_arty/board.c *)
Definition ns31_arty_board : board := mk_board
  [drv_cpu; drv_clk_fixed; drv_rv_priv; drv_clint; drv_plic; drv_clint_timer; drv_uart_lite; drv_gpio_v2]
  (cpus_and_intcs 1 ++
   [clint_device 1; fixed_clk 0 "clk" (25 * MHZ); clint_timer_device 1 "clk"; plic_device 1;
    (d_uart 0, device_of "uart0" "xilinx" "uart_lite"
      (Some [num "reg" [0xe4006000]; num "reg-size" [0x1000]; refs "interrupts" [("plic", 9)]; num "baud" [9600]]));
    (d_gpio, device_of "gpio0" "xilinx" "gpio_v2"
      (Some [num "reg" [0xe4001000]; num "reg-size" [0x1000]; refs "interrupts" [("plic", 1)]]))]%string)
  (add_cpus 1 ++ [AddIntc d_clint; AddIntc d_plic; AddClk (d_clk 0); AddTimer d_timer; AddUart (d_uart 0) true; AddGpio d_gpio;
     SetConsole (d_uart 0)]).

(** board/riscv/sifive_hifive1/board.c *)
Definition hifive1_board : board := mk_board
  [drv_cpu; drv_clk_fixed; drv_prci; drv_clint_timer; drv_sifive_uart]
  (cpus_and_intcs 1 ++
   [clint_device 1; fixed_clk 0 "lfclk" (32 * KHZ); clint_timer_device 1 "lfclk"; fixed_clk 1 "hfclk" (16 * MHZ);
    (d_uart 0, device_of "uart0" "sifive" "uart0"
      (Some [num "reg" [0x10013000]; num "reg-size" [0x1000]; refs "clocks" [("hfclk", 0)]; num "baud" [115200]]));
    (d_uart 1, device_of "uart1" "sifive" "uart0"
      (Some [num "reg" [0x10023000]; num "reg-size" [0x1000]; refs "clocks" [("hfclk", 0)]; num "baud" [115200]]))]%string)
  (add_cpus 1 ++ [AddIntc d_clint; AddClk (d_clk 0); AddClk (d_clk 1); AddTimer d_timer; AddUart (d_uart 0) true;
     AddUart (d_uart 1) true; SetConsole (d_uart 0)]).

(** ** The start *)

Section Start.
Context `{Arch} `{Config} {W : Type} `{Mmio W}.
Variable fuel : nat.

Definition dev_ops := sys_dev_ops (W := W) fuel.

(** One step of the initialisation function of a board, which ignores the result. *)
Definition board_add (a : add_as) (t : devtree) (s : sys W) : exec (Z * devtree * sys W) :=
  let root := Some bus_root in
  match a with
  | AddCpu d => '(r, t, s) ← k_device_add dev_ops sys_bus_ops (Some d) root t s; Ret (r, t, s)
  | AddIntc d => k_intc_add_device dev_ops sys_bus_ops d root t s
  | AddClk d => k_clk_add_device dev_ops sys_bus_ops d root t s
  | AddTimer d => k_timer_add_device dev_ops sys_bus_ops d root t s
  | AddReset d => k_reset_add_device dev_ops sys_bus_ops d root t s
  | AddUart d b => k_uart_add_device dev_ops sys_bus_ops d root b t s
  | AddGpio d => k_gpio_add_device dev_ops sys_bus_ops d root t s
  | SetConsole d => let '(r, s) := k_uart_set_default_console (Some d) s in Ret (r, t, s)
  end.

Fixpoint board_steps (l : list add_as) (t : devtree) (s : sys W) : exec (devtree * sys W) :=
  match l with
  | [] => Ret (t, s)
  | a :: l => '(_, t, s) ← board_add a t s; board_steps l t s
  end.
Definition board_init (b : board) : initcall (W := sys W) := fun t s =>
  '(t, s) ← board_steps (b_adds b) t s; Ret (0, t, s).

(** The initialisation functions of the drivers: [k_*_add_driver], whose result is ignored. *)
Definition driver_init (drv : Z) : initcall (W := sys W) := fun t s =>
  '(_, t, s) ← k_driver_add dev_ops sys_bus_ops drv t s; Ret (0, t, s).

Definition initcalls (board_first : bool) (b : board) : list (initcall (W := sys W)) :=
  let drivers := bus_init dev_ops sys_bus_ops :: map driver_init (b_drivers b) in
  if board_first then board_init b :: drivers else drivers ++ [board_init b].

(** The devices of a driver. *)
Definition devices_of (b : board) (device : string) : list Z :=
  map fst (filter (fun x => dev_device x.2 = device) (b_devices b)).
Definition priv_of {A} (f : Z → A) (l : list Z) : gmap Z A := list_to_map (map (fun d => (d, f d)) l).

(** The handlers: the pool, five of each device and six of each CPU. *)
Definition own_hnd (dev i : Z) : Z := 1000 + 10 * dev + i.
Definition handlers (b : board) : gmap Z k_event_handler :=
  priv_of (fun _ => mk_hnd 0 0 0 None)
    (seqZ 0 CONFIG_MAX_EVENT_HANDLERS ++
     concat (map (fun x => map (own_hnd x.1) (seqZ 0 6)) (b_devices b))).

(** The static data before the start: everything zero. *)
Definition cpu_zero (dev : Z) : k_cpu_device :=
  mk_cpu 0 0 0 None 0 None None None (map (own_hnd dev) (seqZ 0 CPU_EVENT_MAX)) futex_none 0 0.
Definition rv_priv_zero (dev : Z) : intc_priv_priv :=
  mk_rv_priv None (own_hnd dev 0) (own_hnd dev 1) (own_hnd dev 2) (own_hnd dev 3) (own_hnd dev 4) 0 0 0 0 0 0.
Definition dev_irq_zero (dev : Z) : dev_irq := mk_dev_irq None (own_hnd dev 0) 0.

Definition thread_zero : k_thread_info := mk_thread 0 0 0 0 0 0 0 0 0 0 (replicate REG_ALL 0) None.

Definition sys_static (b : board) (w : W) : sys W :=
  mk_sys
    (mk_events (handlers b) (replicate (Z.to_nat CONFIG_MAX_EVENT_HANDLERS) 0))
    (mk_irq
       (mk_kern (replicate (Z.to_nat CONFIG_NUM_CORES) None) (priv_of cpu_zero (devices_of b "cpu_riscv")) 1
          (replicate (Z.to_nat (CONFIG_NUM_CORES * 2)) thread_zero) 1
          (mk_proc 0 0 0 None (replicate (Z.to_nat CONFIG_MAX_FD) None)) 0 ∅)
       (replicate (Z.to_nat RV_CAUSE_INT_MAX_NUM) None) (replicate (Z.to_nat RV_CAUSE_EXC_MAX_NUM) None)
       (priv_of rv_priv_zero (devices_of b "priv1_10"))
       (priv_of (fun _ => mk_plic_priv 0 0 (replicate (Z.to_nat PLIC_SOURCES_MAX) None)) (devices_of b "plic0"))
       (list_to_set (devices_of b "clint0")) None ∅ ∅ ∅ w)
    (mk_clks (priv_of (fun _ => 0) (devices_of b "clk_fixed"))
       (priv_of (fun _ => mk_prci_dev None 0 (mk_prci 0 0 0 0)) (devices_of b "prci0")))
    (mk_uarts
       (priv_of (fun d => mk_ns16550 None 0 0 0 (dev_irq_zero d) 0) (devices_of b "ns16550"))
       (priv_of (fun d => mk_sifive None 0 0 (dev_irq_zero d) 0) (devices_of b "uart0"))
       (priv_of (fun d => mk_lite (dev_irq_zero d)) (devices_of b "uart_lite")) None false)
    (mk_gpios (priv_of dev_irq_zero (devices_of b "gpio_v2")) None)
    (mk_sysdevs (priv_of (fun _ => mk_timer_priv None 0 0) (devices_of b "clint0_timer"))
       (priv_of (fun _ => mk_timer_priv None 0 0) (devices_of b "icu_timer")) (devices_of b "qemu_test") None None).

Definition tree_of (b : board) : devtree :=
  mk_tree (t_drivers tree_static ∪ list_to_map driver_table)
    (t_devices tree_static ∪ list_to_map (b_devices b)) (t_buses tree_static) 0.

(** [init_drivers] (sys/init.c) on a board; two rounds of the probe are more than enough. *)
Definition start (board_first : bool) (b : board) (w : W) : exec (Z * devtree * sys W) :=
  init_drivers dev_ops sys_bus_ops 2 (initcalls board_first b) (tree_of b) (sys_static b w).
End Start.

(** ** Registers of the boards for the examples

    Memory cells in which some bits always read as one, those that the drivers wait for:
    the lock of a PLL, the room in a transmitter; with the writes, the last first. *)
Record board_io := mk_board_io {
  bi_regs : gmap Z Z;
  bi_ones : gmap Z Z;
  bi_log : list (Z * Z)
}.
#[export] Instance board_io_mmio : Mmio board_io := {|
  io_read width a w := (Z.lor (default 0 (bi_regs w !! a)) (default 0 (bi_ones w !! a)), w);
  io_write width v a w := mk_board_io (<[a := v]> (bi_regs w)) (bi_ones w) ((a, v) :: bi_log w)
|}.

(** A PLL that is locked and a transmitter that has room, for each of the three boards. *)
Definition io_ones : list (Z * Z) :=
  [(0x10000004, PRCI_PLLCFG_LOCK); (0x1000000c, PRCI_PLLCFG_LOCK); (0x1000001c, PRCI_PLLCFG_LOCK)].
Definition io_start (extra : list (Z * Z)) : board_io := mk_board_io ∅ (list_to_map (extra ++ io_ones)) [].

(** A board with its architecture and its configuration. *)
Record build := mk_build {
  bd_arch : Arch;
  bd_config : Config;
  bd_board : board
}.
Definition builds : list build :=
  [mk_build rv64 qemu_virt qemu_virt_board; mk_build rv32 qemu_virt qemu_virt_board;
   mk_build rv64 unleashed unleashed_board; mk_build rv32 ns31_arty ns31_arty_board].

Definition start_build (first : bool) (b : build) (w : board_io) : exec (Z * devtree * sys board_io) :=
  @start (bd_arch b) (bd_config b) board_io _ 2 first (bd_board b) w.

(** What is to hold when the drivers are started. *)
Definition all_up (b : build) (t : devtree) (s : sys board_io) : bool :=
  let k := q_kern (s_irq s) in
  forallb (fun x => match t_devices t !! x.1 with Some d => dev_probed d && negb (dev_failed d) | None => false end)
    (b_devices (bd_board b)) &&
  bool_decide (uart_default (s_uarts s) = Some (d_uart 0)) && uart_console (s_uarts s) &&
  bool_decide (timer_default (s_devs s) = Some d_timer) &&
  bool_decide (intc_ipi (s_irq s) = Some d_clint) &&
  bool_decide (omap (fun c => id_phys <$> (c ≫= fun c => k_cpu_objs k !! c)) (k_cpus k) ≡ₚ
    seqZ 0 (@CONFIG_NUM_CORES (bd_config b))) &&
  bool_decide ((k_cpus k !! 0%nat ≫= fun c => id_phys <$> (c ≫= fun c => k_cpu_objs k !! c)) =
    Some (@CONFIG_MAIN_CORE (bd_config b))).

(** ** An interrupt of the serial port *)

Definition claim_at : Z := 0xc200004.
(** The PLIC names the source [n]; the number of the console's source on a board. *)
Definition console_of (b : build) : option k_device := t_devices (tree_of (bd_board b)) !! d_uart 0.
Definition uart_source (b : build) : Z :=
  match console_of b with
  | Some d => match k_device_read_conf_u32 (Some d) (Some "interrupts"%string) 1 with Ret (_, Some n) => n | _ => 0 end
  | None => 0
  end.
Definition after_start (b : build) : exec (devtree * sys board_io) :=
  '(_, t, s) ← start_build true b (io_start []); Ret (t, s).
Definition uart_interrupt (b : build) (hart : Z) (t : devtree) (s : sys board_io) : exec (Z * sys board_io) :=
  @sys_interrupt (bd_arch b) (bd_config b) board_io _ 2 hart RV_CAUSE_INT_EX t s.

(** The function that the driver of the console's port gives its handler, and that handler, of the port's own data. *)
Definition uart_fn (b : build) : Z :=
  match console_of b with
  | Some d => if String.eqb (dev_device d) "ns16550" then FN_uart_ns16550_intr
              else if String.eqb (dev_device d) "uart0" then FN_uart_sifive_intr else FN_uart_lite_intr
  | None => 0
  end.
Definition port_handler : Z := own_hnd (d_uart 0) 0.

(** What the handler does to the port: that of the ns16550 masks its two interrupts in the IER, the others
    leave the port as it is. *)
Definition served (b : build) (w : board_io) : board_io :=
  if uart_fn b =? FN_uart_ns16550_intr then
    let ier := 0x10000000 + NS_REG_IER in io_write 8 (Z.land (u8 (io_read 8 ier w).1) 0xfc) ier w
  else w.

Definition harts (b : build) : list Z := seqZ 0 (@CONFIG_NUM_CORES (bd_config b)).

(** The tables along the way of the interrupt. *)
Record port_wired (b : build) (t : devtree) (s : sys board_io) : Prop := {
  pw_plic : ∃ d p, t_devices t !! d_plic = Some d ∧ dev_virt d = 0xc000000 ∧
    q_plic (s_irq s) !! d_plic = Some p ∧ zget (plic_hnd p) (uart_source b) = Some (Some port_handler);
  pw_irq : ∃ hx hp, irq_wired (s_events s) (s_irq s) RV_CAUSE_INT_EX hx hp FN_intc_plic_intr d_plic;
  pw_hnd : e_heap (s_events s) !! port_handler = Some (mk_hnd (uart_fn b) (d_uart 0) (uart_source b) None);
  pw_timer : ∃ tm, system_timer acc_ops 2 (@timer_ops (bd_arch b) board_io _) t (s_devs s) = Ret tm;
  pw_uart : ∃ x, t_devices t !! d_uart 0 = Some x ∧ dev_virt x ≠ 0 ∧ (uart_fn b = FN_uart_ns16550_intr →
    dev_virt x = 0x10000000 ∧ ∃ p, u_ns (s_uarts s) !! d_uart 0 = Some p ∧ ns_addr_shift p = 0)
}.

#[export] Instance hnd_eq_dec : EqDecision k_event_handler.
Proof. solve_decision. Defined.

Definition plic_wired (b : build) (t : devtree) (s : sys board_io) : bool :=
  match t_devices t !! d_plic, q_plic (s_irq s) !! d_plic with
  | Some d, Some p => (dev_virt d =? 0xc000000) && bool_decide (zget (plic_hnd p) (uart_source b) = Some (Some port_handler))
  | _, _ => false
  end.
Definition cause_wired (s : sys board_io) : bool :=
  match zget (k_int_handlers (s_irq s)) RV_CAUSE_INT_EX with
  | Some (Some hx) =>
    match e_heap (s_events s) !! hx with
    | Some x => (h_func x =? FN_intc_priv_intr) &&
        match h_next x with
        | Some hp => bool_decide (e_heap (s_events s) !! hp = Some (mk_hnd FN_intc_plic_intr d_plic RV_CAUSE_INT_EX None))
        | None => false
        end
    | None => false
    end
  | _ => false
  end.
Definition uart_wired (b : build) (t : devtree) (s : sys board_io) : bool :=
  match t_devices t !! d_uart 0 with
  | Some x => negb (dev_virt x =? 0) && (if uart_fn b =? FN_uart_ns16550_intr then (dev_virt x =? 0x10000000) &&
      match u_ns (s_uarts s) !! d_uart 0 with Some p => ns_addr_shift p =? 0 | None => false end else true)
  | None => false
  end.
Definition all_wired (b : build) (t : devtree) (s : sys board_io) : bool :=
  plic_wired b t s && cause_wired s && uart_wired b t s &&
  bool_decide (e_heap (s_events s) !! port_handler = Some (mk_hnd (uart_fn b) (d_uart 0) (uart_source b) None)) &&
  match system_timer acc_ops 2 (@timer_ops (bd_arch b) board_io _) t (s_devs s) with Ret _ => true | _ => false end.

Lemma all_wired_ok b t s : all_wired b t s = true → port_wired b t s.
Proof.
  unfold all_wired. rewrite !andb_true_iff. intros [[[[Hp Hc] Hu] Hh] Ht]. split.
  - unfold plic_wired in Hp. destruct (t_devices t !! d_plic) as [d|]; [|done]. destruct (q_plic _ !! _) as [p|]; [|done].
    apply andb_prop in Hp as [Hv%Z.eqb_eq Hz%bool_decide_eq_true_1]. by exists d, p.
  - unfold cause_wired in Hc. destruct (zget _ _) as [[hx|]|] eqn:E1; [|done..]. destruct (e_heap _ !! hx) as [x|] eqn:E2; [|done].
    apply andb_prop in Hc as [Hf%Z.eqb_eq Hn]. destruct (h_next x) as [hp|] eqn:E3; [|done]. apply bool_decide_eq_true_1 in Hn.
    exists hx, hp. split; [done|by left|by exists x|done].
  - by apply bool_decide_eq_true_1 in Hh.
  - destruct (system_timer _ _ _ _ _) as [tm| |]; [|done..]. by exists tm.
  - unfold uart_wired in Hu. destruct (t_devices t !! d_uart 0) as [x|]; [|done]. apply andb_prop in Hu as [Hv%negb_true_iff%Z.eqb_neq Hn].
    exists x. split; [done|]. split; [done|]. intros E. rewrite E in Hn. change (_ =? _) with true in Hn at 1.
    apply andb_prop in Hn as [Hx%Z.eqb_eq Hp2]. split; [done|]. destruct (u_ns _ !! _) as [p|]; [|done]. apply Z.eqb_eq in Hp2. by exists p.
Qed.

Definition start_wired (b : build) : bool := match after_start b with Ret (t, s) => all_wired b t s | _ => false end.
Lemma boards_wired b : b ∈ builds → ∃ t s, after_start b = Ret (t, s) ∧ port_wired b t s ∧
  (uart_fn b = FN_uart_ns16550_intr ∨ uart_fn b = FN_uart_sifive_intr ∨ uart_fn b = FN_uart_lite_intr).
Proof.
  intros Hb. assert (start_wired b && bool_decide (uart_fn b = FN_uart_ns16550_intr ∨ uart_fn b = FN_uart_sifive_intr ∨ uart_fn b = FN_uart_lite_intr) = true) as H.
  { unfold builds in Hb. repeat (apply elem_of_cons in Hb as [->|Hb]; [vm_compute; reflexivity|]). by apply elem_of_nil in Hb. }
  apply andb_prop in H as [H Hf%bool_decide_eq_true_1]. unfold start_wired in H. destruct (after_start b) as [[t s]| |]; [|done..].
  exists t, s. split; [done|]. split; [by apply all_wired_ok|done].
Qed.

(** The registers of a device below 2^31, on memory cells. *)
Lemma usize_low `{Arch} z : 0 <= z < 2 ^ 32 → usize z = z.
Proof. intros Hz. apply uwrap_small. pose proof xlen_ge. assert (2 ^ 32 <= 2 ^ xlen) by (apply Z.pow_le_mono_r; lia). lia. Qed.
Lemma claim_reads `{Arch} d (w : board_io) v : dev_virt d = 0xc000000 → u32 (io_read 32 claim_at w).1 = v → claim acc_ops d w = (v, w).
Proof.
  intros Hd <-. unfold claim, k_device_read32, dev_read, k_io_read32. rewrite Hd.
  change (truth 0xc000000) with true. by rewrite usize_low by done.
Qed.
Lemma complete_writes `{Arch} d (w : board_io) v : dev_virt d = 0xc000000 → u32 v = v → complete acc_ops d v w = io_write 32 v claim_at w.
Proof.
  intros Hd Hv. unfold complete, k_device_write32, dev_write, k_io_write32. rewrite Hd.
  change (truth 0xc000000) with true. rewrite usize_low by done. by rewrite Hv.
Qed.

Lemma byte_mask v : 0 <= v < 256 → u8 (clear v (Z.lor IER_ERBFI IER_ETBEI)) = Z.land v 0xfc.
Proof.
  intros Hv. assert (forallb (fun v => u8 (clear v (Z.lor IER_ERBFI IER_ETBEI)) =? Z.land v 0xfc) (seqZ 0 256) = true) as H
    by (vm_compute; reflexivity).
  rewrite forallb_forall in H. apply Z.eqb_eq, H, list_elem_of_In, elem_of_seqZ. lia.
Qed.
Lemma disable_intr_cells `{Arch} ops x (w : board_io) : dev_virt x = 0x10000000 →
  uart_ns16550_disable_intr ops x 0 w =
    (let ier := 0x10000000 + NS_REG_IER in io_write 8 (Z.land (u8 (io_read 8 ier w).1) 0xfc) ier w).
Proof.
  intros Hx. unfold uart_ns16550_disable_intr, uart_read, uart_write, k_device_read8, k_device_write8, dev_read, dev_write, k_io_read8, k_io_write8.
  rewrite Hx. change (0 =? 0) with true. change (truth 0x10000000) with true.
  assert (usize (Z.shiftl NS_REG_IER 0) = NS_REG_IER) as -> by (by apply usize_low).
  assert (usize (0x10000000 + NS_REG_IER) = 0x10000000 + NS_REG_IER) as -> by (by apply usize_low).
  destruct (io_read 8 _ w) as [v w0] eqn:Er. unfold io_read, board_io_mmio in Er. injection Er as Ev <-. cbn [fst].
  rewrite !(uwrap_idem 8). by rewrite (byte_mask (u8 v)) by (by apply uwrap_range).
Qed.

(** C19: an interrupt of the serial port, all the way.  On each of the boards, when the drivers are started, and
    whatever the registers of the devices hold by then, with the PLIC naming the source of the console: when a hart takes
    the external interrupt, the source is completed at the PLIC with its number, and then the handler of the port's own data
    runs, which has the function of the port's driver and the port as its device; this is shown for any functions in place of
    those of the drivers: the trap ends as the function called for that handler says.  With the functions of the drivers, a
    ns16550 has its two interrupts masked and the other ports are left as they are (so a port with
    the driver uart0 or uart_lite still asks for the interrupt after it), the pending bit of the hart is cleared, and nothing else changes. *)
Theorem uart_interrupt_handled b hart (Hb : b ∈ builds) :
  ∃ t s, after_start b = Ret (t, s) ∧
    e_heap (s_events s) !! port_handler = Some (mk_hnd (uart_fn b) (d_uart 0) (uart_source b) None) ∧
    ∀ w, u32 (io_read 32 claim_at w).1 = uart_source b →
    let q := with_io (s_irq s) w in
    let q1 := with_io (s_irq s) (io_write 32 (uart_source b) claim_at w) in
    let ended q := put_mip q hart (clear (csr (q_mip q) hart) (BIT RV_CAUSE_INT_EX)) in
    (∀ ext r e' q', ext (uart_fn b) (uart_source b) port_handler (s_events s) q1 = Ret (r, e', q') → e_heap e' = e_heap (s_events s) →
       @k_arch_riscv_interrupt board_io (@call_hnd (bd_arch b) board_io _ acc_ops ext 8 hart t) hart RV_CAUSE_INT_EX (s_events s) q =
         Ret (0, e', if r =? EVENT_HANDLED then ended q' else q')) ∧
    uart_interrupt b hart t (irq_put (s_events s, q) s) =
      Ret (0, irq_put (s_events s, ended (with_io q1 (served b (q_io q1)))) s).
Proof.
  destruct (boards_wired b Hb) as (t & s & E & Hw & Hfn). exists t, s. split; [done|]. destruct Hw as [(d & p & Hd & Hv & Hp & Hz) (hx & hp & Hi) Hh [tm Ht] Hu].
  assert (¬ own_func (uart_fn b)) as Hf by (destruct Hfn as [->|[->| ->]]; unfold own_func; vm_compute; intuition congruence).
  split; [done|]. intros w Hc q q1 ended.
  assert (∀ ext r e' q', ext (uart_fn b) (uart_source b) port_handler (s_events s) q1 = Ret (r, e', q') → e_heap e' = e_heap (s_events s) →
       @k_arch_riscv_interrupt board_io (@call_hnd (bd_arch b) board_io _ acc_ops ext 8 hart t) hart RV_CAUSE_INT_EX (s_events s) q =
         Ret (0, e', if r =? EVENT_HANDLED then ended q' else q')) as Htrap.
  { intros ext r e' q' Hext He. apply (@trap_to_source (bd_arch b) board_io _ acc_ops ext t d_plic d p (uart_source b) port_handler (uart_fn b) (d_uart 0) _ _ hx hp 5 _ _ w w); try done.
    - by apply claim_reads.
    - rewrite complete_writes; [exact Hext|done|]. rewrite <- Hc. apply uwrap_idem.
    - by rewrite He.
    - by rewrite He. }
  split; [exact Htrap|].
  unfold uart_interrupt, sys_interrupt. cbn [irq_put sys_has_irq fst snd s_devs s_events s_irq]. rewrite Ht. mstep. unfold sys_call.
  erewrite (Htrap _ EVENT_HANDLED (s_events s) (with_io q1 (served b (q_io q1)))); [by mstep| |done]. cbv beta zeta.
  destruct Hu as (x & Hx & Hvx & Hns). cbn [s_uarts]. unfold served.
  destruct Hfn as [Hfn|[Hfn|Hfn]]; rewrite Hfn; cbn [Z.eqb Pos.eqb FN_timer_clint_intr FN_gpio_v2_intr FN_uart_ns16550_intr FN_uart_sifive_intr FN_uart_lite_intr]; unfold uart_call;
    cbn [Z.eqb Pos.eqb FN_uart_ns16550_intr FN_uart_sifive_intr FN_uart_lite_intr].
  - destruct (Hns Hfn) as (Hb0 & pn & Hpn & Hsh). unfold uart_ns16550_intr, get_hnd. rewrite Hh. mstep. cbn [h_priv]. rewrite Hpn. mstep.
    unfold on_regs, with_regs, get_device. rewrite Hx. mstep. rewrite Hsh.
    rewrite disable_intr_cells by done. reflexivity.
  - by destruct q1.
  - unfold uart_lite_intr, get_hnd. rewrite Hh. mstep. cbn [h_priv]. unfold read32, get_device. rewrite Hx. mstep.
    unfold k_device_read32, dev_read. rewrite (proj2 (truth_true _)) by done. unfold k_io_read32. cbn. by destruct q1.
Qed.

(** A driver that writes the number of its function at the number of the source: the log is that of the way to it. *)
Definition tracing (f event h : Z) (e : events) (q : irq board_io) : exec (Z * events * irq board_io) :=
  Ret (EVENT_HANDLED, e, with_io q (io_write 32 f event (q_io q))).
Definition claiming (b : build) : board_io := mk_board_io ∅ {[ claim_at := uart_source b ]} [].

Lemma uart_interrupt_handled_witness :
  let arty := mk_build rv32 ns31_arty ns31_arty_board in
  ∃ t s q1 s2, after_start arty = Ret (t, s) ∧
    @k_arch_riscv_interrupt board_io (@call_hnd rv32 board_io _ acc_ops tracing 8 0 t) 0 RV_CAUSE_INT_EX (s_events s) (with_io (s_irq s) (claiming arty)) =
      Ret (0, s_events s, q1) ∧ bi_log (q_io q1) = [(9, FN_uart_lite_intr); (claim_at, 9)] ∧
    uart_interrupt arty 0 t (irq_put (s_events s, with_io (s_irq s) (claiming arty)) s) = Ret (0, s2) ∧
    bi_log (q_io (s_irq s2)) = [(claim_at, 9)].
Proof.
  destruct (uart_interrupt_handled (mk_build rv32 ns31_arty ns31_arty_board) 0) as (t & s & E & _ & H); [do 3 right; left|].
  destruct (H (claiming (mk_build rv32 ns31_arty ns31_arty_board))) as [Ht Hu]; [by vm_compute|].
  cbv zeta. do 4 eexists. split; [exact E|]. split; [by apply (Ht tracing)|]. split; [vm_compute; reflexivity|].
  split; [exact Hu|]. vm_compute. reflexivity.
Defined.
