(* ===== verification/Probe.v ===== *)
(** * The probe of the system's devices (driver/device.c with the drivers of Boards.v)

    What a probe of all devices does on any tree, with the drivers as they are: their [add] operations keep the names and
    the links of the tree, whatever the configuration of a device and the state are. *)

From S2P Require Import Prelude Config Event Regs Cpu Device Regfile Intr Prci Clk Uart Timer Gpio SysDev Boards.

(** ** The drivers keep the tree *)

(** What returns has kept names and links. *)
Definition keeps {S} (t : devtree) (e : exec (Z * devtree * S)) : Prop := ∀ r t' s', e = Ret (r, t', s') → grows t t'.

Lemma keeps_ret {S} t r t' (s : S) : grows t t' → keeps t (Ret (r, t', s)).
Proof. by intros G ??? [= _ <- _]. Qed.
Lemma keeps_bind {S A} t (e : exec A) (f : A → exec (Z * devtree * S)) : (∀ a, keeps t (f a)) → keeps t (e ≫= f).
Proof. intros Hf. destruct e; [apply Hf|done..]. Qed.
Lemma keeps_mmap `{Arch} {S W} t0 t (ops : Z → option (k_device_driver_ops W)) addr dev (f : Z * devtree → exec (Z * devtree * S)) :
  grows t0 t → (∀ r t1, grows t0 t1 → keeps t0 (f (r, t1))) → keeps t0 (k_io_mmap_device ops addr dev t ≫= f).
Proof.
  intros G Hf. destruct (k_io_mmap_device _ _ _ _) as [[r t1]| |] eqn:E; [|done..]. apply Hf. etransitivity; [done|by eapply mmap_grows].
Qed.

(** An [add] operation: registers are mapped, and the rest leaves the tree alone. *)
Ltac keeps_tree :=
  lazymatch goal with
  | |- keeps _ (Ret _) => apply keeps_ret; done
  | |- keeps _ (k_io_mmap_device _ _ _ _ ≫= _) => apply keeps_mmap; [done|]; intros ???; cbv beta iota
  | |- keeps _ (_ ≫= _) => apply keeps_bind; intros ?; cbv beta iota
  | |- _ => case_match
  end.

Section Keep.
Context `{Arch} `{Config} {W : Type} `{Mmio W}.
Variable fuel : nat.

Lemma add_op_keeps d add dev t (s : sys W) : add_op fuel d = Some add → keeps t (add dev t s).
Proof.
  unfold add_op. assert (grows t t) by done.
  repeat case_match; intros [= <-].
  all: unfold cpu_add, intc_priv_add, intc_plic_add, intc_clint_add, clk_fixed_add, clk_prci_add, timer_clint_add, timer_icu_add,
    reset_sifive_qemu_test_add, uart_ns16550_add, uart_sifive_add, uart_lite_add, gpio_v2_add; cbv zeta; repeat keeps_tree.
Qed.

Lemma sys_ops_keep : ops_keep (sys_dev_ops (W := W) fuel) sys_bus_ops.
Proof.
  split; [|done]. intros d add dev t w r t' w'. unfold sys_dev_ops. case_match; [done|]. cbn. intros Ha. by eapply add_op_keeps.
Qed.
End Keep.

(** C29: a probe of all devices, with the drivers of the system, on every tree of devices that the links describe (no
    device or bus occurs twice), for whatever configurations, memory and device registers.  When it returns, names, links,
    the drivers that were attached and probed devices are as they were, and when it reports success every device of the
    tree is probed.  When it does not return, that is the doing of one driver: its [add] operation, on a device of the
    tree that it is attached to and that was not probed, does not; the probe itself always finds its way through the tree. *)
Theorem k_device_probe_all_ok `{Arch} `{Config} {W : Type} `{Mmio W} fuel l T t (s : sys W)
    (Hr : registry t l) (HT : rep t T) (Hroot : droot T = dev_root)
    (Hd : NoDup (devs T)) (Hb : NoDup (busses T)) (Hen : truth (t_probe_all_enabled t) = true) :
  match k_device_probe_all (dev_ops fuel) sys_bus_ops t s with
  | Ret (r, t', _) => grows t t' ∧ (r = 0 → all_probed t' T)
  | e => ∃ i x d add t1 s1, i ∈ devs T ∧ grows t t1 ∧ t_devices t1 !! i = Some x ∧ dev_drv x = Some d ∧
      dev_probed x = false ∧ add_op fuel d = Some add ∧ add i t1 s1 = e
  end.
Proof.
  pose proof (probe_all_ok (dev_ops fuel) sys_bus_ops l T t s (sys_ops_keep fuel) Hr HT Hroot Hd Hb Hen) as Hp.
  assert (∀ e, add_outcome (dev_ops fuel) sys_bus_ops (devs T) (busses T) t e →
    ∃ i x d add t1 s1, i ∈ devs T ∧ grows t t1 ∧ t_devices t1 !! i = Some x ∧ dev_drv x = Some d ∧
      dev_probed x = false ∧ add_op fuel d = Some add ∧ add i t1 s1 = e) as Ho.
  { intros e [i x d add t1 s1 Hi Hg Hx Hdrv Hp' Hadd He|]; [|done]. exists i, x, d, add, t1, s1. split_and!; try done.
    unfold dev_ops, sys_dev_ops in Hadd. by destruct (d <? drv_cpu). }
  unfold probes in Hp. by destruct (k_device_probe_all _ _ t s) as [[[r t'] s']| |]; [|apply Ho..].
Qed.

(** ** A board with all its drivers *)

(** The board qemu_virt, all devices and drivers registered and none probed. *)
Definition virt_registered : devtree * sys board_io :=
  let t := k_device_set_probe_all_enabled (tree_of qemu_virt_board) 0 in
  match @run_initcalls (sys board_io) (@initcalls rv64 qemu_virt board_io _ 2 true qemu_virt_board) 0 t (@sys_static qemu_virt board_io qemu_virt_board (io_start [])) with
  | Ret (_, t, s) => (k_device_set_probe_all_enabled t 1, s)
  | _ => (t, @sys_static qemu_virt board_io qemu_virt_board (io_start []))
  end.
Definition virt_dtree : dtree :=
  DNode dev_root (Some bus_root) (map (fun i => DNode i None []) [10; 20; 11; 21; 12; 22; 13; 23; 31; 30; 40; 50; 60; 70]).
Definition virt_registry : list (Z * (string * string)) :=
  [(2, ("none", "bus_root")); (1, ("none", "dev_root")); (drv_cpu, ("none", "cpu_riscv")); (drv_clk_fixed, ("none", "clk_fixed"));
   (drv_prci, ("sifive", "prci0")); (drv_rv_priv, ("riscv", "priv1_10")); (drv_clint, ("sifive", "clint0")); (drv_plic, ("sifive", "plic0"));
   (drv_qemu_test, ("sifive", "qemu_test")); (drv_clint_timer, ("sifive", "clint0_timer")); (drv_ns16550, ("ns", "ns16550"));
   (drv_sifive_uart, ("sifive", "uart0")); (drv_uart_lite, ("xilinx", "uart_lite"))]%string.

Notation virt_probe := (@k_device_probe_all _ (@dev_ops rv64 qemu_virt board_io _ 2) sys_bus_ops virt_registered.1 virt_registered.2).

Definition first_result {S} (e : exec (Z * devtree * S)) : option Z := match e with Ret (r, _, _) => Some r | _ => None end.
Lemma virt_probe_returns : first_result virt_probe = Some 0.
Proof. vm_compute. reflexivity. Qed.
Lemma virt_registry_ok : registry virt_registered.1 virt_registry.
Proof.
  split.
  - repeat (eapply drv_chain_cons; [vm_compute; reflexivity..|]). apply drv_chain_nil.
  - apply (bool_decide_unpack _). vm_compute. done.
Qed.
Lemma virt_dtree_ok : rep virt_registered.1 virt_dtree.
Proof. vm_compute. repeat eexists. Qed.

Lemma k_device_probe_all_ok_witness :
  ∃ t' s', virt_probe = Ret (0, t', s') ∧ grows virt_registered.1 t' ∧ all_probed t' virt_dtree ∧
    ∀ x, t_devices virt_registered.1 !! 70 = Some x → dev_probed x = false.
Proof.
  pose proof (@k_device_probe_all_ok rv64 qemu_virt board_io _ 2 virt_registry virt_dtree virt_registered.1 virt_registered.2
    virt_registry_ok virt_dtree_ok eq_refl) as Hp.
  pose proof virt_probe_returns as Er. destruct virt_probe as [[[r t'] s']| |]; [|discriminate Er..]. injection Er as ->.
  destruct Hp as [G Ha].
  - apply (bool_decide_unpack _). vm_compute. done.
  - apply (bool_decide_unpack _). vm_compute. done.
  - vm_compute. reflexivity.
  - exists t', s'. split; [done|]. split; [done|]. split; [by apply Ha|].
    intros x. vm_compute. by intros [= <-].
Defined.
