(* ===== verification/Trap.v ===== *)
(** * Traps and contexts (arch/riscv/isr.S, arch/riscv/switch.S, arch/riscv/include/bmetal/arch/cpu.h)

    The code that saves the registers of a trap and gives them back, as lists of
    instructions with a small semantics of RISC-V: registers, the CSRs of a trap, and a memory of words,
    since every access of this code is one of an aligned word.  The functions in C that
    it calls are functions on the machine; what is asked of them is the calling convention. *)

From S2P Require Import Prelude Config Event Regs Cpu Thread.

(** ** The machine *)

Inductive reg :=
| X0 | RA | SP | GP | TP
| T0 | T1 | T2 | T3 | T4 | T5 | T6
| A0 | A1 | A2 | A3 | A4 | A5 | A6 | A7
| S0 | S1 | S2 | S3 | S4 | S5 | S6 | S7 | S8 | S9 | S10 | S11.
#[export] Instance reg_eq_dec : EqDecision reg.
Proof. solve_decision. Defined.
Scheme Boolean Equality for reg.

(** The word of a register in [struct k_arch_riscv_user_regs]. *)
Definition reg_no (r : reg) : Z :=
  match r with
  | X0 => -1 | RA => 0 | SP => 1 | GP => 2 | TP => 3
  | T0 => 4 | T1 => 5 | T2 => 6 | T3 => 7 | T4 => 8 | T5 => 9 | T6 => 10
  | A0 => 11 | A1 => 12 | A2 => 13 | A3 => 14 | A4 => 15 | A5 => 16 | A6 => 17 | A7 => 18
  | S0 => 19 | S1 => 20 | S2 => 21 | S3 => 22 | S4 => 23 | S5 => 24 | S6 => 25 | S7 => 26 | S8 => 27 | S9 => 28
  | S10 => 29 | S11 => 30
  end.

(** [CSR_XSCRATCH] and so on, in machine mode. *)
Inductive csr_name := XSCRATCH | XEPC | XCAUSE | XSTATUS.

Record machine := mk_machine {
  x : reg → Z;
  words : gmap Z Z;
  scratch : Z;
  epc : Z;
  cause : Z;
  status : Z
}.

Inductive instr :=
| OP_ST (rs : reg) (off : Z) (base : reg)
| OP_LD (rd : reg) (off : Z) (base : reg)
| Iaddi (rd rs : reg) (imm : Z)
| Iadd (rd r1 r2 : reg)
| Iand (rd r1 r2 : reg)
| Inot (rd rs : reg)
| Islli (rd rs : reg) (n : Z)
| Isrli (rd rs : reg) (n : Z)
| Imv (rd rs : reg)
| Ili (rd : reg) (imm : Z)
| Icsrr (rd : reg) (c : csr_name)
| Icsrw (c : csr_name) (rs : reg)
| Icsrrw (rd : reg) (c : csr_name) (rs : reg)
| Icsrc (c : csr_name) (rs : reg).

(** Which C library the configuration selects; each has numbers of its own for the system calls. *)
Class Libc := { CONFIG_USE_LIBC : bool }.

Section Trap.
Context `{Arch} `{Libc}.

(** [REGSIZE] and [REGOFF] *)
Definition REGSIZE : Z := xlen / 8.
Definition REGOFF : Z := if xlen =? 64 then 3 else 2.

Definition word (w : gmap Z Z) (a : Z) : Z := default 0 (w !! a).

Definition set_x (m : machine) (r : reg) (v : Z) : machine :=
  if reg_beq r X0 then m else
  mk_machine (fun r' => if reg_beq r' r then v else x m r') (words m) (scratch m) (epc m) (cause m) (status m).
Definition set_words (m : machine) (w : gmap Z Z) : machine :=
  mk_machine (x m) w (scratch m) (epc m) (cause m) (status m).
Definition get_csr (m : machine) (c : csr_name) : Z :=
  match c with XSCRATCH => scratch m | XEPC => epc m | XCAUSE => cause m | XSTATUS => status m end.
Definition set_csr (m : machine) (c : csr_name) (v : Z) : machine :=
  match c with
  | XSCRATCH => mk_machine (x m) (words m) v (epc m) (cause m) (status m)
  | XEPC => mk_machine (x m) (words m) (scratch m) v (cause m) (status m)
  | XCAUSE => mk_machine (x m) (words m) (scratch m) (epc m) v (status m)
  | XSTATUS => mk_machine (x m) (words m) (scratch m) (epc m) (cause m) v
  end.

Definition step (m : machine) (i : instr) : machine :=
  match i with
  | OP_ST rs off base => set_words m (<[usize (x m base + off) := x m rs]> (words m))
  | OP_LD rd off base => set_x m rd (word (words m) (usize (x m base + off)))
  | Iaddi rd rs imm => set_x m rd (usize (x m rs + imm))
  | Iadd rd r1 r2 => set_x m rd (usize (x m r1 + x m r2))
  | Iand rd r1 r2 => set_x m rd (Z.land (x m r1) (x m r2))
  | Inot rd rs => set_x m rd (usize (Z.lnot (x m rs)))
  | Islli rd rs n => set_x m rd (usize (Z.shiftl (x m rs) n))
  | Isrli rd rs n => set_x m rd (Z.shiftr (x m rs) n)
  | Imv rd rs => set_x m rd (x m rs)
  | Ili rd imm => set_x m rd (usize imm)
  | Icsrr rd c => set_x m rd (get_csr m c)
  | Icsrw c rs => set_csr m c (x m rs)
  | Icsrrw rd c rs => set_x (set_csr m c (x m rs)) rd (get_csr m c)
  | Icsrc c rs => set_csr m c (clear (get_csr m c) (x m rs))
  end.
Definition run (l : list instr) (m : machine) : machine := foldl step m l.

(** ** The context (cpu.h) *)

Definition REGOFF_OF (r : reg) : Z := REGSIZE * reg_no r.
Definition REGOFF_MEPC : Z := REGSIZE * REG_MEPC.
Definition REGOFF_MSTATUS : Z := REGSIZE * REG_MSTATUS.
Definition REGOFF_MSCRATCH : Z := REGSIZE * REG_MSCRATCH.
Definition REGOFF_ALL : Z := REGSIZE * Z.of_nat REG_ALL.

Definition caller_regs : list reg := [RA; T0; T1; T2; T3; T4; T5; T6; A0; A1; A2; A3; A4; A5; A6; A7].
Definition callee_regs : list reg := [S0; S1; S2; S3; S4; S5; S6; S7; S8; S9; S10; S11].
Definition special_regs : list reg := [GP; TP].

Definition op_regs (l : list reg) (op : reg → Z → reg → instr) (pt : reg) : list instr :=
  map (fun r => op r (REGOFF_OF r) pt) l.
Definition OP_CALLER_REGS := op_regs caller_regs.
Definition OP_CALLEE_REGS := op_regs callee_regs.
Definition OP_SPECIAL_REGS := op_regs special_regs.

Definition store_status_regs (tmp : reg) : list instr :=
  [Icsrr tmp XEPC; OP_ST tmp REGOFF_MEPC SP; Icsrr tmp XSTATUS; OP_ST tmp REGOFF_MSTATUS SP;
   Icsrr tmp XSCRATCH; OP_ST tmp REGOFF_MSCRATCH SP].
Definition load_status_regs (tmp : reg) : list instr :=
  [OP_LD tmp REGOFF_MEPC SP; Icsrw XEPC tmp; OP_LD tmp REGOFF_MSTATUS SP; Icsrw XSTATUS tmp;
   OP_LD tmp REGOFF_MSCRATCH SP; Icsrw XSCRATCH tmp].

(** ** switch.S *)

Definition k_arch_riscv_copy_current_context : machine → machine :=
  run ([OP_ST SP (REGOFF_OF SP) A0] ++ OP_CALLER_REGS OP_ST A0 ++ OP_CALLEE_REGS OP_ST A0 ++ OP_SPECIAL_REGS OP_ST A0 ++
       [Icsrr T0 XEPC; OP_ST T0 REGOFF_MEPC A0; Icsrr T0 XSTATUS; OP_ST T0 REGOFF_MSTATUS A0;
        Icsrr T0 XSCRATCH; OP_ST T0 REGOFF_MSCRATCH A0; OP_LD T0 (REGOFF_OF T0) A0]).

(** ** isr.S *)

Definition RV_CAUSE_EXC_ECALL_M : Z := 11.
Definition MAX_SYSCALLS : Z := if CONFIG_USE_LIBC then 448 else 2020.
Definition XSTATUS_IE_BIT : Z := BIT 3.

(** The functions in C, and the function at an address; the address of [k_table_syscalls]. *)
Variable set_current_user_regs sys_unknown arch_interrupt arch_exception : machine → machine.
Variable function_at : Z → machine → machine.
Variable table_syscalls : Z.

Definition save_regs : list instr :=
  OP_CALLER_REGS OP_ST SP ++ OP_CALLEE_REGS OP_ST SP ++ OP_SPECIAL_REGS OP_ST SP ++ store_status_regs T0.

Definition k_trap_in_user (m : machine) : machine :=
  let m := run ([Iaddi SP SP (- REGOFF_ALL)] ++ save_regs ++
                [Icsrr T0 XSCRATCH; OP_ST T0 (REGOFF_OF SP) SP; Iaddi T0 SP REGOFF_ALL; OP_ST T0 REGOFF_MSCRATCH SP;
                 Icsrw XSCRATCH X0; Imv A0 SP]) m in
  run (op_regs [A0; A1; A2; A3; A4; A5; A6; A7] OP_LD SP) (set_current_user_regs m).

Definition k_trap_in_kernel (m : machine) : machine :=
  run ([Icsrrw SP XSCRATCH SP; Iaddi SP SP (- REGOFF_ALL)] ++ save_regs ++
       [Iaddi T0 SP REGOFF_ALL; OP_ST T0 (REGOFF_OF SP) SP]) m.

Definition k_trap_start (m : machine) : machine :=
  let m := run [Icsrrw SP XSCRATCH SP] m in
  if x m SP =? x m X0 then k_trap_in_kernel m else k_trap_in_user m.

Definition k_trap_syscall_unknown (m : machine) : machine :=
  sys_unknown (run [Imv A6 A5; Imv A5 A4; Imv A4 A3; Imv A3 A2; Imv A2 A1; Imv A1 A0; Imv A0 A7] m).

(** [a7] is compared as a signed number. *)
Definition k_trap_syscall (m : machine) : machine :=
  let m := run [Icsrr T0 XEPC; Iaddi T0 T0 4; OP_ST T0 REGOFF_MEPC SP] m in
  let m :=
    if isize (x m A7) <? isize (x m X0) then k_trap_syscall_unknown m else
    let m := run [Ili T0 MAX_SYSCALLS] m in
    if isize (x m A7) >=? isize (x m T0) then k_trap_syscall_unknown m else
    let m := run [Ili T0 table_syscalls; Islli T1 A7 REGOFF; Iadd T0 T0 T1; OP_LD T0 0 T0] m in
    if x m T0 =? x m X0 then k_trap_syscall_unknown m else function_at (x m T0) m in
  run [OP_ST A0 (REGOFF_OF A0) SP] m.

Definition k_trap_interrupt (m : machine) : machine := arch_interrupt (run [Icsrr A0 XCAUSE] m).
Definition k_trap_exception (m : machine) : machine := arch_exception (run [Icsrr A0 XCAUSE] m).

Definition k_trap_common (m : machine) : machine :=
  let m := run [Icsrr T0 XCAUSE; Ili T1 RV_CAUSE_EXC_ECALL_M] m in
  if x m T0 =? x m T1 then k_trap_syscall m else
  let m := run [Inot T1 X0; Isrli T1 T1 1; Inot T1 T1; Iand T0 T0 T1] m in
  if negb (x m X0 =? x m T0) then k_trap_interrupt m else k_trap_exception m.

Definition k_trap_end : machine → machine :=
  run ([Ili T0 XSTATUS_IE_BIT; Icsrc XSTATUS T0] ++ load_status_regs T0 ++
       OP_CALLER_REGS OP_LD SP ++ OP_CALLEE_REGS OP_LD SP ++ OP_SPECIAL_REGS OP_LD SP ++ [OP_LD SP (REGOFF_OF SP) SP]).

(** The handler from the first instruction to [mret]. *)
Definition k_trap (m : machine) : machine := k_trap_end (k_trap_common (k_trap_start m)).
End Trap.

(** Run straight-line code on a symbolic machine. *)
Ltac steps :=
  cbv [app run foldl step set_x set_csr get_csr set_words reg_beq x words scratch epc cause status].

(** ** Saving and restoring *)

Section Frames.
Context `{Arch}.

Lemma regsize_pos : 0 < REGSIZE.
Proof. unfold REGSIZE. destruct xlen_cases as [-> | ->]; done. Qed.

(** The words of a context at [base] do not run over the end of the address space. *)
Definition in_frame (base : Z) : Prop := 0 <= base ∧ base + REGOFF_ALL <= 2 ^ xlen.
Definition slot (base i : Z) : Z := base + REGSIZE * i.

Lemma slot_usize base i : in_frame base → 0 <= i < 34 → usize (base + REGSIZE * i) = slot base i.
Proof.
  unfold in_frame, REGOFF_ALL, REG_ALL, slot. intros [Hb Hf] Hi. pose proof regsize_pos. apply Z.mod_small. nia.
Qed.
Lemma slot_inj base i j : slot base i = slot base j → i = j.
Proof. unfold slot. pose proof regsize_pos. nia. Qed.

Lemma reg_no_range r : r ≠ X0 → 0 <= reg_no r < 31.
Proof. by destruct r; cbn; try lia. Qed.
Lemma reg_no_inj r r' : reg_no r = reg_no r' → r = r'.
Proof. by destruct r, r'. Qed.

Lemma word_insert w a b v : word (<[a := v]> w) b = if decide (b = a) then v else word w b.
Proof. unfold word. destruct (decide (b = a)) as [->|]; [by rewrite lookup_insert_eq|by rewrite lookup_insert_ne by done]. Qed.

Lemma run_app l1 l2 m : run (l1 ++ l2) m = run l2 (run l1 m).
Proof. apply foldl_app. Qed.

(** Storing some registers: nothing but memory changes, and only in their words. *)
Definition stored (l : list reg) (base : Z) (f : reg → Z) (w : gmap Z Z) : gmap Z Z :=
  foldl (fun w r => <[slot base (reg_no r) := f r]> w) w l.

Lemma run_stores l pt m : X0 ∉ l → in_frame (x m pt) →
  run (op_regs l OP_ST pt) m = set_words m (stored l (x m pt) (x m) (words m)).
Proof.
  revert m. induction l as [|r l IH]; intros m Hx Hb; [by destruct m|].
  apply not_elem_of_cons in Hx as [Hr Hl]. cbn [op_regs map run foldl step].
  change (foldl step ?m (map _ l)) with (run (op_regs l OP_ST pt) m). unfold REGOFF_OF.
  rewrite slot_usize by (try done; pose proof (reg_no_range r); naive_solver lia).
  by rewrite IH.
Qed.

Lemma stored_other l base f a : ∀ w, (∀ r, r ∈ l → a ≠ slot base (reg_no r)) → word (stored l base f w) a = word w a.
Proof.
  induction l as [|r l IH]; intros w Ha; [done|]. unfold stored. cbn [foldl].
  change (foldl ?g ?w l) with (stored l base f w). rewrite IH by (intros; apply Ha; by right).
  rewrite word_insert. rewrite decide_False; [done|]. apply Ha. left.
Qed.
Lemma stored_reg l base f r : ∀ w, r ∈ l → word (stored l base f w) (slot base (reg_no r)) = f r.
Proof.
  induction l as [|r0 l IH]; intros w Hr; [by apply elem_of_nil in Hr|]. unfold stored. cbn [foldl].
  change (foldl ?g ?w l) with (stored l base f w). destruct (decide (r ∈ l)) as [Hin|Hin]; [by apply IH|].
  apply elem_of_cons in Hr as [->|]; [|done]. rewrite stored_other.
  - by rewrite word_insert, decide_True.
  - intros r Hr Hs. apply slot_inj, reg_no_inj in Hs. by subst.
Qed.

Lemma reg_beqP r r' : reflect (r = r') (reg_beq r r').
Proof. apply iff_reflect. split; [by intros ->; destruct r'|by destruct r, r']. Qed.
Lemma set_x_x m r v r' : r ≠ X0 → x (set_x m r v) r' = if decide (r' = r) then v else x m r'.
Proof.
  intros Hr. unfold set_x. destruct (reg_beqP r X0); [done|]. cbn. by destruct (reg_beqP r' r), (decide (r' = r)).
Qed.
Lemma set_x_rest m r v : words (set_x m r v) = words m ∧ scratch (set_x m r v) = scratch m ∧ epc (set_x m r v) = epc m ∧
  cause (set_x m r v) = cause m ∧ status (set_x m r v) = status m.
Proof. unfold set_x. by destruct (reg_beq r X0). Qed.

(** Loading some registers. *)
Lemma run_loads l pt m : X0 ∉ l → pt ∉ l → in_frame (x m pt) →
  let m' := run (op_regs l OP_LD pt) m in
  (∀ r, x m' r = if decide (r ∈ l) then word (words m) (slot (x m pt) (reg_no r)) else x m r) ∧
  words m' = words m ∧ scratch m' = scratch m ∧ epc m' = epc m ∧ cause m' = cause m ∧ status m' = status m.
Proof.
  revert m. induction l as [|r0 l IH]; intros m Hx Hpt Hb.
  { split; [|done]. intros r. rewrite decide_False; [done|]. apply not_elem_of_nil. }
  apply not_elem_of_cons in Hx as [Hr0 Hl], Hpt as [Hp Hpl]. cbn [op_regs map run foldl step]. unfold REGOFF_OF.
  rewrite slot_usize by (try done; pose proof (reg_no_range r0); naive_solver lia).
  set (m1' := set_x m r0 _). destruct (set_x_rest m r0 (word (words m) (slot (x m pt) (reg_no r0)))) as (Ew & Es & Ee & Ec & Et).
  fold m1' in Ew, Es, Ee, Ec, Et. pose proof (fun r => set_x_x m r0 (word (words m) (slot (x m pt) (reg_no r0))) r (not_eq_sym Hr0)) as Ex.
  fold m1' in Ex. assert (x m1' pt = x m pt) as Hpt1 by (rewrite Ex; by rewrite decide_False).
  change (foldl step m1' (map _ l)) with (run (op_regs l OP_LD pt) m1').
  destruct (IH m1' Hl Hpl) as (IHx & IHr); [by rewrite Hpt1|]. split; [|by rewrite <-Ew, <-Es, <-Ee, <-Ec, <-Et].
  intros r. rewrite IHx, Hpt1, Ew, Ex.
  destruct (decide (r ∈ l)) as [Hin|Hin]; [by rewrite decide_True by (by right)|].
  destruct (decide (r = r0)) as [->|Hne]; [by rewrite decide_True by left|].
  rewrite decide_False; [done|]. intros [?|?]%elem_of_cons; done.
Qed.

(** All registers but the stack pointer. *)
Definition saved_regs : list reg := caller_regs ++ callee_regs ++ special_regs.
Lemma saved_split op pt m :
  run (OP_CALLER_REGS op pt ++ OP_CALLEE_REGS op pt ++ OP_SPECIAL_REGS op pt) m = run (op_regs saved_regs op pt) m.
Proof. unfold OP_CALLER_REGS, OP_CALLEE_REGS, OP_SPECIAL_REGS, saved_regs, op_regs. by rewrite !map_app. Qed.
Lemma elem_of_saved r : r ∈ saved_regs ↔ r ≠ X0 ∧ r ≠ SP.
Proof.
  split; [|intros [? ?]; destruct r; try done; apply (bool_decide_unpack _); vm_compute; exact I].
  intros Hr. assert (Forall (fun r => r ≠ X0 ∧ r ≠ SP) saved_regs) as Hall by (apply (bool_decide_unpack _); vm_compute; exact I).
  by apply (proj1 (Forall_forall _ _) Hall).
Qed.

(** A context in memory: the values [f] of the registers and the three CSRs. *)
Record context (w : gmap Z Z) (base : Z) (f : reg → Z) (pc st sc : Z) : Prop := {
  ctx_reg r : r ≠ X0 → word w (slot base (reg_no r)) = f r;
  ctx_epc : word w (slot base REG_MEPC) = pc;
  ctx_status : word w (slot base REG_MSTATUS) = st;
  ctx_scratch : word w (slot base REG_MSCRATCH) = sc
}.

Lemma in_frame_csr base i : in_frame base → i ∈ [REG_MEPC; REG_MSTATUS; REG_MSCRATCH] → usize (base + REGSIZE * i) = slot base i.
Proof.
  intros Hb Hi. apply slot_usize; [done|]. repeat (apply elem_of_cons in Hi as [->|Hi]; [done|]). by apply elem_of_nil in Hi.
Qed.

Lemma status_loads m base : x m SP = base → in_frame base →
  let m' := run ([Ili T0 XSTATUS_IE_BIT; Icsrc XSTATUS T0] ++ load_status_regs T0) m in
  (∀ r, r ≠ T0 → x m' r = x m r) ∧ words m' = words m ∧ epc m' = word (words m) (slot base REG_MEPC) ∧
  status m' = word (words m) (slot base REG_MSTATUS) ∧ scratch m' = word (words m) (slot base REG_MSCRATCH) ∧ cause m' = cause m.
Proof.
  destruct m as [xs ws sc pc ca st]. cbn [x]. intros Hsp Hb.
  cbv zeta. unfold load_status_regs, REGOFF_MEPC, REGOFF_MSTATUS, REGOFF_MSCRATCH. steps. rewrite !Hsp, !in_frame_csr by (done || (apply (bool_decide_unpack _); vm_compute; exact I)). steps.
  split_and!; try done. intros r Hr. by destruct r.
Qed.

Lemma run_loads_sp m base : x m SP = base → in_frame base →
  let m' := run [OP_LD SP (REGOFF_OF SP) SP] m in
  (∀ r, x m' r = if decide (r = SP) then word (words m) (slot base (reg_no SP)) else x m r) ∧
  words m' = words m ∧ scratch m' = scratch m ∧ epc m' = epc m ∧ status m' = status m.
Proof.
  intros Hsp Hb. cbv zeta. cbn [run foldl step]. unfold REGOFF_OF. rewrite Hsp, slot_usize by done.
  destruct (set_x_rest m SP (word (words m) (slot base (reg_no SP)))) as (-> & -> & -> & _ & ->).
  split; [|done]. intros r. by apply set_x_x.
Qed.

(** What the end of a trap gives back. *)
Lemma trap_end_restores m base f pc st sc : x m SP = base → in_frame base → context (words m) base f pc st sc →
  let m' := k_trap_end m in
  (∀ r, r ≠ X0 → x m' r = f r) ∧ words m' = words m ∧ epc m' = pc ∧ status m' = st ∧ scratch m' = sc.
Proof.
  intros Hsp Hb [Hr <- <- <-]. cbv zeta.
  replace (k_trap_end m) with (run [OP_LD SP (REGOFF_OF SP) SP] (run (op_regs saved_regs OP_LD SP)
    (run ([Ili T0 XSTATUS_IE_BIT; Icsrc XSTATUS T0] ++ load_status_regs T0) m)))
    by (unfold k_trap_end; by rewrite <-saved_split, !run_app).
  destruct (status_loads m base Hsp Hb) as (Hx & Hw & He & Hs & Hc & _).
  set (m1 := run _ m) in *. assert (x m1 SP = base) as Hsp1 by (by rewrite Hx).
  destruct (run_loads saved_regs SP m1) as (Hx2 & Hw2 & Hc2 & He2 & _ & Hs2).
  { by intros [? _]%elem_of_saved. } { by intros [_ ?]%elem_of_saved. } { by rewrite Hsp1. }
  set (m2 := run _ m1) in *. assert (x m2 SP = base) as Hsp2.
  { rewrite Hx2, decide_False; [done|]. by intros [_ ?]%elem_of_saved. }
  destruct (run_loads_sp m2 base Hsp2 Hb) as (Hx3 & Hw3 & Hc3 & He3 & Hs3).
  split; [|split_and!; congruence].
  intros r Hr0. rewrite Hx3. destruct (decide (r = SP)) as [->|Hne]; [by rewrite Hw2, Hw, Hr|].
  rewrite Hx2, decide_True by (by apply elem_of_saved). by rewrite Hw, Hsp1, Hr.
Qed.

(** ** Entering *)

Lemma status_stores m base : x m SP = base → in_frame base →
  let m' := run (store_status_regs T0) m in
  (∀ r, r ≠ T0 → x m' r = x m r) ∧ scratch m' = scratch m ∧ epc m' = epc m ∧ cause m' = cause m ∧ status m' = status m ∧
  words m' = <[slot base REG_MSCRATCH := scratch m]> (<[slot base REG_MSTATUS := status m]>
               (<[slot base REG_MEPC := epc m]> (words m))).
Proof.
  destruct m as [xs ws sc pc ca st]. cbn [x]. intros Hsp Hb.
  cbv zeta. unfold store_status_regs, REGOFF_MEPC, REGOFF_MSTATUS, REGOFF_MSCRATCH. steps. rewrite !Hsp,
    !in_frame_csr by (done || (apply (bool_decide_unpack _); vm_compute; exact I)). steps.
  split_and!; try done. intros r Hr. by destruct r.
Qed.

(** The words that [save_regs] leaves: all registers but the stack pointer, and the CSRs. *)
Lemma save_regs_run m base : x m SP = base → in_frame base →
  let m' := run save_regs m in
  (∀ r, r ≠ T0 → x m' r = x m r) ∧ scratch m' = scratch m ∧ epc m' = epc m ∧ cause m' = cause m ∧ status m' = status m ∧
  (∀ r, r ≠ X0 → r ≠ SP → word (words m') (slot base (reg_no r)) = x m r) ∧
  word (words m') (slot base REG_MEPC) = epc m ∧ word (words m') (slot base REG_MSTATUS) = status m ∧
  word (words m') (slot base REG_MSCRATCH) = scratch m ∧
  (∀ a, (∀ i, 0 <= i < 34 → a ≠ slot base i) → word (words m') a = word (words m) a).
Proof.
  intros Hsp Hb. cbv zeta.
  replace (run save_regs m) with (run (store_status_regs T0) (run (op_regs saved_regs OP_ST SP) m))
    by (unfold save_regs; by rewrite <-saved_split, !run_app).
  rewrite run_stores by (first [by rewrite Hsp | by intros [? _]%elem_of_saved]). rewrite Hsp.
  set (m1 := set_words m _). destruct (status_stores m1 base Hsp Hb) as (Hx & Hs & He & Hc & Ht & Hw).
  do 5 (split; [done|]). rewrite Hw.
  assert (∀ i j, i ≠ j → slot base i ≠ slot base j) as Hne by (intros i j Hij Hs'; by apply slot_inj in Hs').
  split_and!.
  - intros r Hr0 Hrs. pose proof (reg_no_range r Hr0). rewrite !word_insert.
    rewrite !decide_False by (apply Hne; unfold REG_MSCRATCH, REG_MSTATUS, REG_MEPC; lia).
    apply stored_reg, elem_of_saved. done.
  - rewrite !word_insert. by rewrite !decide_False, decide_True by (done || by apply Hne).
  - rewrite !word_insert. by rewrite decide_False, decide_True by (done || by apply Hne).
  - by rewrite word_insert, decide_True.
  - intros a Ha. rewrite !word_insert. rewrite !decide_False by (apply Ha; unfold REG_MSCRATCH, REG_MSTATUS, REG_MEPC; lia).
    apply stored_other. intros r [Hr _]%elem_of_saved. apply Ha. pose proof (reg_no_range r Hr). lia.
Qed.

(** [switch.S]: the context of the caller, at the address in [a0], and nothing else changed. *)
Lemma copy_current_context_leaves m : in_frame (x m A0) → let m' := k_arch_riscv_copy_current_context m in
  context (words m') (x m A0) (x m) (epc m) (status m) (scratch m) ∧ (∀ r, x m' r = x m r) ∧
  scratch m' = scratch m ∧ epc m' = epc m ∧ status m' = status m ∧
  (∀ a, (∀ i, 0 <= i < 34 → a ≠ slot (x m A0) i) → word (words m') a = word (words m) a).
Proof.
  intros Hb. cbv zeta. set (tail := [Icsrr T0 XEPC; OP_ST T0 REGOFF_MEPC A0; Icsrr T0 XSTATUS; OP_ST T0 REGOFF_MSTATUS A0;
    Icsrr T0 XSCRATCH; OP_ST T0 REGOFF_MSCRATCH A0; OP_LD T0 (REGOFF_OF T0) A0]).
  assert (k_arch_riscv_copy_current_context m = run tail (run (op_regs (SP :: saved_regs) OP_ST A0) m)) as ->.
  { change (op_regs (SP :: saved_regs) OP_ST A0) with ([OP_ST SP (REGOFF_OF SP) A0] ++ op_regs saved_regs OP_ST A0).
    unfold k_arch_riscv_copy_current_context. fold tail. rewrite (run_app [_] (op_regs _ _ _)), <-saved_split, <-!run_app, <-!app_assoc.
    reflexivity. }
  assert (∀ r, r ∈ SP :: saved_regs ↔ r ≠ X0) as Hin.
  { intros r. rewrite elem_of_cons, elem_of_saved. destruct (decide (r = SP)) as [->|]; naive_solver. }
  rewrite run_stores by (first [exact Hb | by intros ?%Hin]). set (w := stored _ _ _ _).
  assert (∀ r, r ≠ X0 → word w (slot (x m A0) (reg_no r)) = x m r) as Hw by (intros r Hr; apply stored_reg; by apply Hin).
  assert (∀ a, (∀ i, 0 <= i < 34 → a ≠ slot (x m A0) i) → word w a = word (words m) a) as Ho.
  { intros a Ha. apply stored_other. intros r Hr%Hin. apply Ha. pose proof (reg_no_range r Hr). lia. }
  destruct m as [xs ws sc pc ca st]. cbn [x] in *. cbn [set_words].
  cbv zeta. unfold tail, REGOFF_MEPC, REGOFF_MSTATUS, REGOFF_MSCRATCH, REGOFF_OF. steps.
  rewrite !in_frame_csr, slot_usize by (done || (apply (bool_decide_unpack _); vm_compute; exact I)).
  assert (∀ i v w', word (<[slot (xs A0) i := v]> w') (slot (xs A0) i) = v) as Heq by (intros; by rewrite word_insert, decide_True).
  assert (∀ i j v w', i ≠ j → word (<[slot (xs A0) i := v]> w') (slot (xs A0) j) = word w' (slot (xs A0) j)) as Hne.
  { intros i j v w' Hij. rewrite word_insert, decide_False; [done|]. intros E%slot_inj. done. }
  split; [|split; [|do 3 (split; [done|])]].
  - split; [intros r Hr; pose proof (reg_no_range r Hr)|..];
      rewrite ?Hne by (unfold REG_MEPC, REG_MSTATUS, REG_MSCRATCH; lia); auto.
  - intros r. rewrite !Hne by done. destruct r; try done. by apply Hw.
  - intros a Ha. rewrite !word_insert, !decide_False by (by apply Ha). by apply Ho.
Qed.

(** What the calling convention leaves alone. *)
Definition kept_regs : list reg := X0 :: SP :: callee_regs ++ special_regs.
Definition keeps (m m' : machine) : Prop := ∀ r, r ∈ kept_regs → x m' r = x m r.
(** A function that runs with interrupts disabled leaves the CSRs of the trap alone. *)
Definition quiet (f : machine → machine) : Prop := ∀ m, epc (f m) = epc m ∧ cause (f m) = cause m.
Definition same_frame (base : Z) (m m' : machine) : Prop :=
  ∀ i, 0 <= i < 34 → word (words m') (slot base i) = word (words m) (slot base i).

(** A trap of a program runs on the interrupt stack of the hart, one of the kernel on the stack it has. *)
Definition trap_top (m : machine) : Z := if scratch m =? 0 then x m SP else scratch m.
Definition trap_base (m : machine) : Z := trap_top m - REGOFF_ALL.
Record trap_ok (m : machine) : Prop := {
  tr_zero : x m X0 = 0;
  tr_top : REGOFF_ALL <= trap_top m < 2 ^ xlen
}.

Lemma trap_in_frame m : trap_ok m → in_frame (trap_base m).
Proof. intros [_ Ht]. unfold in_frame, trap_base. unfold REGOFF_ALL, REG_ALL in *. pose proof regsize_pos. lia. Qed.

Lemma usize_down m : trap_ok m → usize (trap_top m + - REGOFF_ALL) = trap_base m.
Proof. intros [_ Ht]. unfold trap_base. apply Z.mod_small. unfold REGOFF_ALL, REG_ALL in *. pose proof regsize_pos. lia. Qed.
Lemma usize_up m : trap_ok m → usize (trap_base m + REGOFF_ALL) = trap_top m.
Proof.
  intros [_ Ht]. unfold trap_base. replace (_ - _ + _) with (trap_top m) by lia. apply Z.mod_small.
  unfold REGOFF_ALL, REG_ALL in *. pose proof regsize_pos. lia.
Qed.

(** The rest of the two entries, after [save_regs]. *)
Lemma user_tail m base : x m SP = base → x m X0 = 0 → in_frame base →
  let m' := run [Icsrr T0 XSCRATCH; OP_ST T0 (REGOFF_OF SP) SP; Iaddi T0 SP REGOFF_ALL; OP_ST T0 REGOFF_MSCRATCH SP;
                 Icsrw XSCRATCH X0; Imv A0 SP] m in
  (∀ r, r ≠ T0 → r ≠ A0 → x m' r = x m r) ∧ scratch m' = 0 ∧ epc m' = epc m ∧ cause m' = cause m ∧
  words m' = <[slot base REG_MSCRATCH := usize (base + REGOFF_ALL)]> (<[slot base (reg_no SP) := scratch m]> (words m)).
Proof.
  destruct m as [xs ws sc pc ca st]. cbn [x]. intros Hsp Hz Hb. cbv zeta. unfold REGOFF_OF, REGOFF_MSCRATCH. steps.
  rewrite !Hsp, Hz, (slot_usize base (reg_no SP)), (in_frame_csr base REG_MSCRATCH)
    by (done || (apply (bool_decide_unpack _); vm_compute; exact I)).
  split_and!; try done. intros r Hr Ha. by destruct r.
Qed.
Lemma kernel_tail m base : x m SP = base → in_frame base →
  let m' := run [Iaddi T0 SP REGOFF_ALL; OP_ST T0 (REGOFF_OF SP) SP] m in
  (∀ r, r ≠ T0 → x m' r = x m r) ∧ scratch m' = scratch m ∧ epc m' = epc m ∧ cause m' = cause m ∧
  words m' = <[slot base (reg_no SP) := usize (base + REGOFF_ALL)]> (words m).
Proof.
  destruct m as [xs ws sc pc ca st]. cbn [x]. intros Hsp Hb. cbv zeta. unfold REGOFF_OF. steps.
  rewrite !Hsp, (slot_usize base (reg_no SP)) by done.
  split_and!; try done. intros r Hr. by destruct r.
Qed.

Definition arg_regs : list reg := [A0; A1; A2; A3; A4; A5; A6; A7].
(** A function in C that keeps to the calling convention and does not write to the context. *)
Definition c_function (base : Z) (f : machine → machine) : Prop :=
  ∀ m, x m SP = base → keeps m (f m) ∧ same_frame base m (f m).

Lemma swap_sp m : let m' := run [Icsrrw SP XSCRATCH SP] m in
  (∀ r, r ≠ SP → x m' r = x m r) ∧ x m' SP = scratch m ∧ scratch m' = x m SP ∧ epc m' = epc m ∧ cause m' = cause m ∧
  status m' = status m ∧ words m' = words m.
Proof. destruct m. cbv zeta. steps. split_and!; try done. intros r Hr. by destruct r. Qed.
Lemma push_frame m top : x m SP = top → let m' := run [Iaddi SP SP (- REGOFF_ALL)] m in
  (∀ r, r ≠ SP → x m' r = x m r) ∧ x m' SP = usize (top + - REGOFF_ALL) ∧ scratch m' = scratch m ∧ epc m' = epc m ∧
  cause m' = cause m ∧ status m' = status m ∧ words m' = words m.
Proof. destruct m. cbn [x]. intros <-. cbv zeta. steps. split_and!; try done. intros r Hr. by destruct r. Qed.

Lemma slot_ne base i j : i ≠ j → slot base i ≠ slot base j.
Proof. intros Hij Hs. by apply slot_inj in Hs. Qed.

(** A context whose stack pointer and [mscratch] are written last. *)
Lemma context_patch w base f pc st sc sp l : 
  (∀ r, r ≠ X0 → r ≠ SP → word w (slot base (reg_no r)) = f r) → f SP = sp →
  word w (slot base REG_MEPC) = pc → word w (slot base REG_MSTATUS) = st →
  (l = Some sc ∨ l = None ∧ word w (slot base REG_MSCRATCH) = sc) →
  context (match l with Some v => <[slot base REG_MSCRATCH := v]> (<[slot base (reg_no SP) := sp]> w)
           | None => <[slot base (reg_no SP) := sp]> w end) base f pc st sc.
Proof.
  intros Hr Hsp He Hs Hl.
  assert (context (<[slot base (reg_no SP) := sp]> w) base f pc st (word w (slot base REG_MSCRATCH))) as Hc.
  { split; [|by rewrite word_insert, decide_False by (apply slot_ne; done)..].
    intros r Hr0. rewrite word_insert. destruct (decide (r = SP)) as [->|Hne]; [by rewrite decide_True|].
    rewrite decide_False; [by apply Hr|]. intros Hx%slot_inj%reg_no_inj. done. }
  destruct Hl as [->|[-> <-]]; [|done]. destruct Hc as [H1 H2 H3 H4].
  split; [intros r Hr0; rewrite word_insert, decide_False; [by apply H1|]|..].
  - apply slot_ne. pose proof (reg_no_range r Hr0). unfold REG_MSCRATCH. lia.
  - by rewrite word_insert, decide_False by (apply slot_ne; done).
  - by rewrite word_insert, decide_False by (apply slot_ne; done).
  - by rewrite word_insert, decide_True.
Qed.

(** What the handlers find: the context of the trap at the stack pointer, the arguments and
    the registers that calls keep. *)
Definition live_regs : list reg := X0 :: arg_regs ++ callee_regs ++ special_regs.
(** The words that a function in C does not write to, and those of no context at [base]. *)
Definition untouched (f : machine → machine) (a : Z) : Prop := ∀ m, word (words (f m)) a = word (words m) a.
Definition outside (base a : Z) : Prop := ∀ i, 0 <= i < 34 → a ≠ slot base i.
Record entered (set : machine → machine) (m m' : machine) : Prop := {
  en_context : context (words m') (trap_base m) (x m) (epc m) (status m) (scratch m);
  en_sp : x m' SP = trap_base m;
  en_live r : r ∈ live_regs → x m' r = x m r;
  en_other a : untouched set a → outside (trap_base m) a → word (words m') a = word (words m) a;
  en_epc : epc m' = epc m;
  en_cause : cause m' = cause m
}.

Lemma live_not r : r ∈ live_regs → r ≠ SP ∧ r ≠ T0 ∧ r ≠ T1.
Proof.
  apply (proj1 (Forall_forall (fun r => r ≠ SP ∧ r ≠ T0 ∧ r ≠ T1) live_regs)). apply (bool_decide_unpack _). vm_compute. exact I.
Qed.

Lemma kernel_enters set m m0 : trap_ok m → scratch m = 0 → m0 = run [Icsrrw SP XSCRATCH SP] m → entered set m (k_trap_in_kernel m0).
Proof.
  intros Hok Hs0 ->. unfold k_trap_in_kernel. change ([Icsrrw SP XSCRATCH SP; Iaddi SP SP (- REGOFF_ALL)] ++ ?l) with
    ([Icsrrw SP XSCRATCH SP] ++ [Iaddi SP SP (- REGOFF_ALL)] ++ l). rewrite !run_app.
  destruct (swap_sp m) as (X1 & P1 & S1' & E1 & C1 & T1' & W1). set (m1 := run _ m) in *.
  destruct (swap_sp m1) as (X2 & P2 & S2' & E2 & C2 & T2' & W2). set (m2 := run _ m1) in *.
  assert (trap_top m = x m SP) as Htop by (unfold trap_top; by rewrite Hs0).
  destruct (push_frame m2 (trap_top m)) as (X3 & P3 & S3' & E3 & C3 & T3' & W3); [congruence|].
  set (m3 := run _ m2) in *. rewrite usize_down in P3 by done.
  destruct (save_regs_run m3 (trap_base m) P3 (trap_in_frame m Hok)) as (X4 & S4' & E4 & C4 & T4' & R4 & A1' & A2' & A3' & O4).
  set (m4 := run _ m3) in *.
  destruct (kernel_tail m4 (trap_base m)) as (X5 & S5' & E5 & C5 & W5); [by rewrite X4|by apply trap_in_frame|].
  assert (∀ r, r ≠ SP → x m3 r = x m r) as H3 by (intros r Hr; by rewrite X3, X2, X1).
  split.
  - rewrite W5, usize_up, Htop by done. apply (context_patch (words m4) (trap_base m) (x m) _ _ _ _ None);
      [|done|congruence..|right; split; congruence].
    intros r Hr0 Hrs. by rewrite R4, H3.
  - by rewrite X5, X4.
  - intros r (Hrs & Hr0 & _)%live_not. by rewrite X5, X4, H3.
  - intros a _ Ha. rewrite W5, word_insert, decide_False by (by apply Ha). by rewrite O4, W3, W2, W1.
  - congruence.
  - congruence.
Qed.

Lemma user_enters set_regs m m0 : trap_ok m → scratch m ≠ 0 → c_function (trap_base m) set_regs → quiet set_regs →
  m0 = run [Icsrrw SP XSCRATCH SP] m → entered set_regs m (k_trap_in_user set_regs m0).
Proof.
  intros Hok Hs0 Hf Hq ->. unfold k_trap_in_user. fold arg_regs. rewrite !run_app.
  destruct (swap_sp m) as (X1 & P1 & S1' & E1 & C1 & T1' & W1). set (m1 := run _ m) in *.
  assert (trap_top m = scratch m) as Htop by (unfold trap_top; by rewrite (proj2 (Z.eqb_neq _ _) Hs0)).
  destruct (push_frame m1 (trap_top m)) as (X3 & P3 & S3' & E3 & C3 & T3' & W3); [congruence|].
  set (m3 := run _ m1) in *. rewrite usize_down in P3 by done.
  destruct (save_regs_run m3 (trap_base m) P3 (trap_in_frame m Hok)) as (X4 & S4' & E4 & C4 & T4' & R4 & A1' & A2' & _ & O4).
  set (m4 := run _ m3) in *.
  assert (∀ r, r ≠ SP → x m3 r = x m r) as H3 by (intros r Hr; by rewrite X3, X1).
  destruct (user_tail m4 (trap_base m)) as (X5 & S5' & E5 & C5 & W5);
    [by rewrite X4|rewrite X4, H3 by done; apply Hok|by apply trap_in_frame|].
  set (m5 := run _ m4) in *.
  assert (context (words m5) (trap_base m) (x m) (epc m) (status m) (scratch m)) as Hc5.
  { rewrite W5, usize_up, Htop by done. apply (context_patch (words m4) (trap_base m) (x m) _ _ _ _ (Some (scratch m)));
      [|congruence|congruence..|by left]. intros r Hr0 Hrs. by rewrite R4, H3. }
  destruct (Hf m5) as [Hk Hframe]; [by rewrite X5, X4|]. destruct (Hq m5) as [Hke Hkc]. set (m6 := set_regs m5) in *.
  assert (x m6 SP = trap_base m) as Hsp6 by (rewrite Hk by (apply (bool_decide_unpack _); vm_compute; exact I); by rewrite X5, X4).
  assert (context (words m6) (trap_base m) (x m) (epc m) (status m) (scratch m)) as Hc6.
  { destruct Hc5 as [Hr He Ht Hsc]. split; [intros r Hr0; pose proof (reg_no_range r Hr0)|..]; rewrite Hframe by (done || lia); auto. }
  destruct (run_loads arg_regs SP m6) as (X7 & W7 & _ & E7 & C7 & _).
  1-2: by apply (bool_decide_unpack _); vm_compute.
  { rewrite Hsp6. by apply trap_in_frame. }
  split.
  - by rewrite W7.
  - rewrite X7, decide_False by (apply (bool_decide_unpack _); vm_compute; exact I). done.
  - intros r Hlive. pose proof (live_not r Hlive) as (Hrs & Hrt & _). rewrite X7, Hsp6. destruct (decide (r ∈ arg_regs)) as [Ha|Ha].
    + apply (ctx_reg _ _ _ _ _ _ Hc6). intros ->. by apply (bool_decide_unpack (X0 ∉ arg_regs)) in Ha.
    + assert (r ≠ A0) as Hra by (intros ->; apply Ha; left).
      rewrite Hk. { by rewrite X5, X4, H3. }
      unfold live_regs, kept_regs in *. apply elem_of_cons in Hlive as [->|Hlive]; [left|].
      apply elem_of_app in Hlive as [?|Hlive]; [done|]. by do 2 right.
  - intros a Hu Ha. rewrite W7. subst m6. rewrite Hu, W5, !word_insert, !decide_False by (by apply Ha). by rewrite O4, W3, W1.
  - congruence.
  - congruence.
Qed.
End Frames.

(** ** Handling *)

Section Handling.
Context `{Arch} `{Libc}.
Variable set_current_user_regs sys_unknown arch_interrupt arch_exception : machine → machine.
Variable function_at : Z → machine → machine.
Variable table_syscalls : Z.

Notation start := (k_trap_start set_current_user_regs).
Notation syscall := (k_trap_syscall sys_unknown function_at table_syscalls).
Notation trap := (k_trap set_current_user_regs sys_unknown arch_interrupt arch_exception function_at table_syscalls).

Lemma k_trap_start_enters m : trap_ok m → c_function (trap_base m) set_current_user_regs → quiet set_current_user_regs →
  entered set_current_user_regs m (start m).
Proof.
  intros Hok Hf Hq. unfold k_trap_start. destruct (swap_sp m) as (X1 & P1 & _).
  rewrite P1, X1, (tr_zero m Hok) by done. destruct (Z.eqb_spec (scratch m) 0).
  - by apply kernel_enters.
  - by apply user_enters.
Qed.

(** Code that only changes temporary registers. *)
Lemma entered_temps m m1 m2 : entered set_current_user_regs m m1 → (∀ r, r ≠ T0 → r ≠ T1 → x m2 r = x m1 r) → words m2 = words m1 →
  epc m2 = epc m1 → cause m2 = cause m1 → entered set_current_user_regs m m2.
Proof.
  intros [Hc Hs Hl Ho He Hca] Hx Hw He2 Hc2. split; [by rewrite Hw|by rewrite Hx| |by rewrite Hw|congruence..].
  intros r Hr. pose proof (live_not r Hr) as (_ & ? & ?). rewrite Hx by done. by apply Hl.
Qed.

Lemma msb_test c : 0 <= c < 2 ^ xlen →
  Z.land c (usize (Z.lnot (Z.shiftr (usize (Z.lnot 0)) 1))) = if c <? 2 ^ (xlen - 1) then 0 else 2 ^ (xlen - 1).
Proof.
  intros Hc. assert (usize (Z.lnot (Z.shiftr (usize (Z.lnot 0)) 1)) = 2 ^ (xlen - 1)) as ->
    by (destruct xlen_cases as [-> | ->]; reflexivity).
  assert (0 <= xlen - 1) by (destruct xlen_cases as [-> | ->]; lia).
  assert (2 ^ xlen = 2 * 2 ^ (xlen - 1)) as Hx by (rewrite <-Z.pow_succ_r by done; f_equal; lia).
  apply Z.bits_inj'. intros i Hi. rewrite Z.land_spec, Z.pow2_bits_eqb by done.
  destruct (Z.eqb_spec (xlen - 1) i) as [<-|Hne].
  - rewrite andb_true_r. destruct (Z.ltb_spec c (2 ^ (xlen - 1))).
    + rewrite Z.bits_0. apply Z.testbit_false; [done|]. by rewrite Z.div_small by lia.
    + rewrite Z.pow2_bits_true by done. apply Z.testbit_true; [done|].
      replace (c / 2 ^ (xlen - 1)) with 1; [done|]. apply Z.div_unique with (c - 2 ^ (xlen - 1)); lia.
  - rewrite andb_false_r. destruct (_ <? _); [by rewrite Z.bits_0|]. by rewrite Z.pow2_bits_false.
Qed.

(** Which function a trap that is no system call leads to, and with what. *)
Lemma k_trap_common_other m m1 : trap_ok m → entered set_current_user_regs m m1 → 0 <= cause m < 2 ^ xlen → cause m ≠ RV_CAUSE_EXC_ECALL_M →
  ∃ m2, x m2 A0 = cause m ∧ x m2 SP = trap_base m ∧ words m2 = words m1 ∧
  k_trap_common sys_unknown arch_interrupt arch_exception function_at table_syscalls m1 =
    (if cause m <? 2 ^ (xlen - 1) then arch_exception else arch_interrupt) m2.
Proof.
  intros Hok [_ Hsp Hl _ _ Hca] Hc Hne. unfold k_trap_common, k_trap_interrupt, k_trap_exception.
  pose proof (Hl X0 ltac:(left)) as Hz. rewrite (tr_zero m Hok) in Hz.
  destruct m1 as [xs ws sc pc ca st]. cbn [x cause words] in *. subst ca.
  assert (usize RV_CAUSE_EXC_ECALL_M = RV_CAUSE_EXC_ECALL_M) as He by (destruct xlen_cases as [-> | ->]; reflexivity).
  clear Hl. revert Hc Hne. generalize (cause m). intros c Hc Hne.
  steps. rewrite He, (proj2 (Z.eqb_neq _ _) Hne). steps. rewrite Hz, msb_test by done.
  destruct (Z.ltb_spec c (2 ^ (xlen - 1))) as [Hlt|Hge].
  - rewrite Z.eqb_refl. cbn [negb]. eexists. split; [|split; [|split; [|reflexivity]]]; done.
  - assert (0 < 2 ^ (xlen - 1)) by (apply Z.pow_pos_nonneg; [lia|destruct xlen_cases as [-> | ->]; lia]).
    rewrite (proj2 (Z.eqb_neq 0 (2 ^ (xlen - 1)))) by lia. cbn [negb].
    eexists. split; [|split; [|split; [|reflexivity]]]; done.
Qed.

(** A context survives a function that does not write to it. *)
Lemma context_same base f pc st sc m1 m2 : same_frame base m1 m2 → context (words m1) base f pc st sc →
  context (words m2) base f pc st sc.
Proof.
  intros Hs [Hr He Ht Hc]. split; [intros r Hr0; pose proof (reg_no_range r Hr0)|..]; rewrite Hs by (done || lia); auto.
Qed.
Lemma keeps_sp m1 m2 : keeps m1 m2 → x m2 SP = x m1 SP.
Proof. intros Hk. apply Hk. right. left. Qed.

(** C10: an interrupt or an exception does not show in the code it interrupts.  Whether the trap
    comes from a program, on the interrupt stack of the hart, or from the kernel, on its own
    stack, the function that the highest bit of the cause selects is called once, with the cause
    as its argument, and when it returns every register, the program counter to return to,
    [mstatus] and [mscratch] are what they were at the trap, if the functions in C keep
    to the calling convention and do not write to the saved context. *)
Theorem trap_transparent m (Hok : trap_ok m) (Hc : 0 <= cause m < 2 ^ xlen) (Hne : cause m ≠ RV_CAUSE_EXC_ECALL_M)
    (Hset : c_function (trap_base m) set_current_user_regs) (Hquiet : quiet set_current_user_regs)
    (Hint : c_function (trap_base m) arch_interrupt) (Hexc : c_function (trap_base m) arch_exception) :
  let m' := trap m in
  (∀ r, r ≠ X0 → x m' r = x m r) ∧ epc m' = epc m ∧ status m' = status m ∧ scratch m' = scratch m ∧
  ∃ m1, x m1 A0 = cause m ∧ m' = k_trap_end ((if cause m <? 2 ^ (xlen - 1) then arch_exception else arch_interrupt) m1).
Proof.
  cbv zeta. unfold k_trap. pose proof (k_trap_start_enters m Hok Hset Hquiet) as Hen.
  destruct (k_trap_common_other m _ Hok Hen Hc Hne) as (m2 & Ha & Hsp & Hw & ->).
  set (h := if _ <? _ then arch_exception else arch_interrupt).
  assert (c_function (trap_base m) h) as Hh by (subst h; by destruct (_ <? _)).
  destruct (Hh m2 Hsp) as [Hk Hf].
  destruct (trap_end_restores (h m2) (trap_base m) (x m) (epc m) (status m) (scratch m)) as (Hx & _ & He & Hs & Hsc).
  - by rewrite (keeps_sp _ _ Hk).
  - by apply trap_in_frame.
  - apply (context_same _ _ _ _ _ m2); [done|]. rewrite Hw. apply Hen.
  - split; [done|]. do 3 (split; [done|]). by exists m2.
Qed.

(** The number of a system call as a signed number, and the word of its entry in the table. *)
Definition call_no (m : machine) : Z := isize (x m A7).
Definition entry_at (n : Z) : Z := usize (usize (usize table_syscalls + usize (Z.shiftl n REGOFF)) + 0).

(** The function that a call leads to, and what it is called with. *)
Inductive called (m m2 : machine) : (machine → machine) → Prop :=
| called_unknown : call_no m < 0 ∨ MAX_SYSCALLS <= call_no m ∨ word (words m) (entry_at (x m A7)) = 0 →
    x m2 A0 = x m A7 → (∀ i r r', arg_regs !! i = Some r → arg_regs !! S i = Some r' → (i < 6)%nat → x m2 r' = x m r) →
    called m m2 sys_unknown
| called_known : 0 <= call_no m < MAX_SYSCALLS → word (words m) (entry_at (x m A7)) ≠ 0 →
    (∀ r, r ∈ arg_regs → x m2 r = x m r) →
    called m m2 (function_at (word (words m) (entry_at (x m A7)))).
(** The table is constant and not on the stack. *)
Definition table_kept (m : machine) : Prop :=
  0 <= call_no m < MAX_SYSCALLS → untouched set_current_user_regs (entry_at (x m A7)) ∧ outside (trap_base m) (entry_at (x m A7)).

Lemma usize_small v : 0 <= v < 2 ^ 32 → usize v = v.
Proof. intros Hv. apply Z.mod_small. destruct xlen_cases as [-> | ->]; lia. Qed.
Lemma isize_small v : 0 <= v < 2 ^ 31 → isize v = v.
Proof.
  intros Hv. unfold swrap. destruct xlen_cases as [-> | ->]; rewrite Z.mod_small by lia; lia.
Qed.
Lemma usize_isize v : 0 <= v < 2 ^ xlen → usize (isize v) = v.
Proof.
  intros Hv. unfold uwrap, swrap. rewrite Zminus_mod_idemp_l. replace (v + _ - _) with v by lia. by apply Z.mod_small.
Qed.
Lemma tests_with : isize 0 = 0 ∧ isize (usize MAX_SYSCALLS) = MAX_SYSCALLS.
Proof. unfold MAX_SYSCALLS. destruct CONFIG_USE_LIBC; rewrite usize_small, !isize_small by lia; done. Qed.

(** The instructions in front of the choice of a function. *)
Lemma next_instruction m base : x m SP = base → in_frame base →
  let m' := run [Icsrr T0 XEPC; Iaddi T0 T0 4; OP_ST T0 REGOFF_MEPC SP] m in
  (∀ r, r ≠ T0 → x m' r = x m r) ∧ words m' = <[slot base REG_MEPC := usize (epc m + 4)]> (words m).
Proof.
  destruct m as [xs ws sc pc ca st]. cbn [x]. intros Hsp Hb. cbv zeta. unfold REGOFF_MEPC. steps.
  rewrite Hsp, (in_frame_csr base REG_MEPC) by (done || (apply (bool_decide_unpack _); vm_compute; exact I)).
  split; [|done]. intros r Hr. by destruct r.
Qed.
Lemma find_handler m : let m' := run [Ili T0 table_syscalls; Islli T1 A7 REGOFF; Iadd T0 T0 T1; OP_LD T0 0 T0] m in
  (∀ r, r ≠ T0 → r ≠ T1 → x m' r = x m r) ∧ words m' = words m ∧ x m' T0 = word (words m) (entry_at (x m A7)).
Proof. destruct m. cbv zeta. unfold entry_at. steps. split_and!; try done. intros r Hr0 Hr1. by destruct r. Qed.
Lemma shift_args m : let m' := run [Imv A6 A5; Imv A5 A4; Imv A4 A3; Imv A3 A2; Imv A2 A1; Imv A1 A0; Imv A0 A7] m in
  x m' A0 = x m A7 ∧ x m' SP = x m SP ∧ words m' = words m ∧
  ∀ i r r', arg_regs !! i = Some r → arg_regs !! S i = Some r' → (i < 6)%nat → x m' r' = x m r.
Proof.
  destruct m. cbv zeta. steps. split_and!; try done. intros i r r' Hr Hr' Hi.
  do 6 (destruct i as [|i]; [injection Hr as <-; injection Hr' as <-; done|]). lia.
Qed.

Lemma load_max m : let m' := run [Ili T0 MAX_SYSCALLS] m in
  (∀ r, r ≠ T0 → x m' r = x m r) ∧ x m' T0 = usize MAX_SYSCALLS ∧ words m' = words m.
Proof. destruct m. cbv zeta. steps. split_and!; try done. intros r Hr. by destruct r. Qed.
Lemma context_next w base f pc st sc pc' : context w base f pc st sc → context (<[slot base REG_MEPC := pc']> w) base f pc' st sc.
Proof.
  intros [Hr H1 H2 H3]. split; [|by rewrite word_insert, decide_True|by rewrite word_insert, decide_False by (apply slot_ne; done)..].
  intros r Hr0. pose proof (reg_no_range r Hr0). rewrite word_insert, decide_False; [auto|]. apply slot_ne. unfold REG_MEPC. lia.
Qed.

Lemma live_arg r : r ∈ arg_regs → r ∈ live_regs.
Proof. intros Hr. right. apply elem_of_app. by left. Qed.
(** The machine between the entry and the function: the live registers are those of the trap. *)
Record ready (m : machine) (w : gmap Z Z) (m4 : machine) : Prop := {
  rd_live r : r ∈ live_regs → x m4 r = x m r;
  rd_sp : x m4 SP = trap_base m;
  rd_words : words m4 = w
}.
Lemma ready_temps m w m4 m5 : ready m w m4 → (∀ r, r ≠ T0 → r ≠ T1 → x m5 r = x m4 r) → words m5 = words m4 → ready m w m5.
Proof.
  intros [Hl Hs Hw] Hx Hww. split; [|by rewrite Hx|congruence]. intros r Hr. pose proof (live_not r Hr) as (_ & ? & ?).
  rewrite Hx by done. by apply Hl.
Qed.

Lemma unknown_called m w m4 : ready m w m4 →
  call_no m < 0 ∨ MAX_SYSCALLS <= call_no m ∨ word (words m) (entry_at (x m A7)) = 0 →
  ∃ f m2, called m m2 f ∧ x m2 SP = trap_base m ∧ words m2 = w ∧
    run [OP_ST A0 (REGOFF_OF A0) SP] (k_trap_syscall_unknown sys_unknown m4) = run [OP_ST A0 (REGOFF_OF A0) SP] (f m2).
Proof.
  intros [Hl Hsp Hw4] Hno. exists sys_unknown. unfold k_trap_syscall_unknown.
  destruct (shift_args m4) as (Ha & Hs & Hw & Hshift). set (m5 := run _ m4) in *. exists m5.
  split; [|split; [by rewrite Hs|split; [by rewrite Hw|done]]].
  apply called_unknown; [done|rewrite Ha; apply Hl, live_arg; by apply (bool_decide_unpack _); vm_compute|].
  intros i r r' Hr Hr' Hi. rewrite (Hshift i r r') by done. apply Hl, live_arg. by eapply list_elem_of_lookup_2.
Qed.

(** The function that [k_trap_syscall] chooses for [m], and the machine it is given. *)
Lemma k_trap_syscall_calls m m1 : trap_ok m → table_kept m → entered set_current_user_regs m m1 →
  ∃ f m2, called m m2 f ∧ x m2 SP = trap_base m ∧ words m2 = <[slot (trap_base m) REG_MEPC := usize (epc m + 4)]> (words m1) ∧
    syscall m1 = run [OP_ST A0 (REGOFF_OF A0) SP] (f m2).
Proof.
  intros Hok Htk [Hctx Hsp Hl Ho He _]. destruct tests_with as [Hi0 Hmax].
  destruct (next_instruction m1 (trap_base m) Hsp (trap_in_frame m Hok)) as [Hx Hw]. rewrite He in Hw.
  unfold k_trap_syscall. cbv zeta. set (m3 := run _ m1) in *. set (w := <[slot _ _ := _]> _) in *.
  assert (ready m w m3) as R3.
  { split; [|by rewrite Hx|done]. intros r Hr. pose proof (live_not r Hr) as (_ & ? & _). by rewrite Hx, Hl. }
  assert (A7 ∈ live_regs) as H7 by (apply (bool_decide_unpack _); vm_compute; exact I).
  assert (X0 ∈ live_regs) as H0' by left.
  assert (isize (x m3 A7) = call_no m) as Hno by (unfold call_no; by rewrite (rd_live _ _ _ R3)).
  rewrite Hno, (rd_live _ _ _ R3 X0), (tr_zero m Hok), Hi0 by done.
  destruct (Z.ltb_spec (call_no m) 0) as [Hneg|Hpos]; [by apply unknown_called; auto|].
  destruct (load_max m3) as (Hx4 & HT4 & Hw4). set (m4 := run [Ili T0 MAX_SYSCALLS] m3) in *.
  assert (ready m w m4) as R4 by (apply (ready_temps _ _ m3); auto).
  rewrite HT4, Hmax, (Hx4 A7), Hno by done. rewrite Z.geb_leb.
  destruct (Z.leb_spec MAX_SYSCALLS (call_no m)) as [Hbig|Hfit]; [by apply unknown_called; auto|].
  destruct (find_handler m4) as (Hx5 & Hw5 & HT5). set (m5 := run _ m4) in *.
  assert (ready m w m5) as R5 by (by apply (ready_temps _ _ m4)).
  assert (word w (entry_at (x m A7)) = word (words m) (entry_at (x m A7))) as Htab.
  { destruct (Htk (conj Hpos Hfit)) as [Htu Hto]. subst w. rewrite word_insert, decide_False by (by apply Hto). by apply Ho. }
  rewrite (rd_live _ _ _ R4 A7), (rd_words _ _ _ R4), Htab in HT5 by done.
  rewrite HT5, (rd_live _ _ _ R5 X0), (tr_zero m Hok) by done.
  destruct (Z.eqb_spec (word (words m) (entry_at (x m A7))) 0) as [E|E]; [by apply unknown_called; auto|].
  exists (function_at (word (words m) (entry_at (x m A7)))), m5.
  split; [|split; [apply R5|split; [apply R5|done]]]. apply called_known; auto. intros r Hr. by apply R5, live_arg.
Qed.

(** A system call from the trap to [mret], once its function has come back. *)
Lemma k_trap_syscall_ends m : trap_ok m → table_kept m → cause m = RV_CAUSE_EXC_ECALL_M →
  c_function (trap_base m) set_current_user_regs → quiet set_current_user_regs →
  ∃ f m2, called m m2 f ∧ x m2 SP = trap_base m ∧
    context (words m2) (trap_base m) (x m) (usize (epc m + 4)) (status m) (scratch m) ∧
    (∀ a, outside (trap_base m) a → word (words m2) a = word (words (start m)) a) ∧
    trap m = k_trap_end (run [OP_ST A0 (REGOFF_OF A0) SP] (f m2)).
Proof.
  intros Hok Htk Hc Hset Hq. unfold k_trap. pose proof (k_trap_start_enters m Hok Hset Hq) as Hen.
  set (m1 := start m) in *. unfold k_trap_common. cbv zeta.
  assert (entered set_current_user_regs m (run [Icsrr T0 XCAUSE; Ili T1 RV_CAUSE_EXC_ECALL_M] m1)) as Hen'.
  { apply (entered_temps m m1); [done|..]; destruct m1; steps; try done. intros r Hr0 Hr1. by destruct r. }
  assert (x (run [Icsrr T0 XCAUSE; Ili T1 RV_CAUSE_EXC_ECALL_M] m1) T0 = cause m1 ∧
          x (run [Icsrr T0 XCAUSE; Ili T1 RV_CAUSE_EXC_ECALL_M] m1) T1 = usize RV_CAUSE_EXC_ECALL_M) as [-> ->]
    by (destruct m1; split; reflexivity).
  rewrite (en_cause _ _ _ Hen), Hc, (usize_small RV_CAUSE_EXC_ECALL_M), Z.eqb_refl by (unfold RV_CAUSE_EXC_ECALL_M; lia).
  destruct (k_trap_syscall_calls m _ Hok Htk Hen') as (f & m2 & Hf & Hsp & Hw & ->). exists f, m2. rewrite Hw.
  assert (words (run [Icsrr T0 XCAUSE; Ili T1 RV_CAUSE_EXC_ECALL_M] m1) = words m1) as Hw1 by (by destruct m1). rewrite Hw1.
  split; [done|]. split; [done|]. split; [eapply context_next; apply Hen|]. split; [|done].
  intros a Ha. by rewrite word_insert, decide_False by (by apply Ha).
Qed.

(** The result is stored in the context and given back with it. *)
Lemma syscall_end m base g pc st sc : x m SP = base → in_frame base → context (words m) base g pc st sc →
  let m' := k_trap_end (run [OP_ST A0 (REGOFF_OF A0) SP] m) in
  (∀ r, r ≠ X0 → x m' r = if decide (r = A0) then x m A0 else g r) ∧ epc m' = pc ∧ status m' = st ∧ scratch m' = sc ∧
  ∀ a, outside base a → word (words m') a = word (words m) a.
Proof.
  intros Hsp Hb [Hr He Hs Hsc]. cbv zeta.
  assert (words (run [OP_ST A0 (REGOFF_OF A0) SP] m) = <[slot base (reg_no A0) := x m A0]> (words m)) as Hw.
  { cbn [run foldl step set_words words]. unfold REGOFF_OF. by rewrite Hsp, slot_usize by done. }
  destruct (trap_end_restores (run [OP_ST A0 (REGOFF_OF A0) SP] m) base (fun r => if decide (r = A0) then x m A0 else g r) pc st sc)
    as (Hx & Hwx & H1 & H2 & H3); [done|done| |].
  2: { split; [done|]. do 3 (split; [done|]). intros a Ha. rewrite Hwx, Hw, word_insert, decide_False; [done|]. by apply Ha. }
  rewrite Hw. split.
  - intros r Hr0. rewrite word_insert. destruct (decide (r = A0)) as [->|Hne]; [by rewrite decide_True|].
    rewrite decide_False; [auto|]. intros Hx%slot_inj%reg_no_inj. done.
  - by rewrite word_insert, decide_False by (apply slot_ne; done).
  - by rewrite word_insert, decide_False by (apply slot_ne; done).
  - by rewrite word_insert, decide_False by (apply slot_ne; done).
Qed.

(** C8: a system call reaches its function and comes back behind the [ecall].  The function
    of the table is called with the arguments of the program when the number in [a7] is one of the
    table and has an entry, [k_sys_unknown] with the number in front of them otherwise, for negative
    numbers too; what it returns is in [a0] when the program goes on at the next instruction, and every
    other register and the CSRs are as they were. *)
Theorem k_trap_syscall_returns m (Hok : trap_ok m) (Htable : table_kept m) (Hc : cause m = RV_CAUSE_EXC_ECALL_M)
    (Hset : c_function (trap_base m) set_current_user_regs) (Hquiet : quiet set_current_user_regs)
    (Hfun : ∀ f m2, called m m2 f → c_function (trap_base m) f) :
  let m' := trap m in ∃ f m2, called m m2 f ∧ x m2 SP = trap_base m ∧
    x m' A0 = x (f m2) A0 ∧ (∀ r, r ≠ X0 → r ≠ A0 → x m' r = x m r) ∧
    epc m' = usize (epc m + 4) ∧ status m' = status m ∧ scratch m' = scratch m.
Proof.
  cbv zeta. destruct (k_trap_syscall_ends m Hok Htable Hc Hset Hquiet) as (f & m2 & Hf & Hsp & Hctx & _ & ->).
  destruct (Hfun f m2 Hf m2 Hsp) as [Hk Hframe].
  destruct (syscall_end (f m2) (trap_base m) (x m) (usize (epc m + 4)) (status m) (scratch m)) as (Hx & He & Hs & Hsc & _).
  - by rewrite (keeps_sp _ _ Hk).
  - by apply trap_in_frame.
  - by apply (context_same _ _ _ _ _ m2).
  - exists f, m2. split; [done|]. split; [done|]. split; [by rewrite Hx, decide_True|].
    split; [|done]. intros r Hr0 Hra. by rewrite Hx, decide_False.
Qed.

(** ** Switching threads *)

(** The words of a context, in the order of [struct k_arch_riscv_user_regs]. *)
Definition frame_regs (w : gmap Z Z) (base : Z) : list Z := map (fun i => word w (slot base i)) (seqZ 0 (Z.of_nat REG_ALL)).

Lemma frame_regs_lookup w base i : 0 <= i < 34 → zget (frame_regs w base) i = Some (word w (slot base i)).
Proof.
  intros Hi. unfold zget, frame_regs, REG_ALL. rewrite (proj2 (Z.ltb_ge _ _)) by lia.
  change (Z.of_nat 34) with 34. rewrite list_lookup_fmap, lookup_seqZ_lt by lia. cbn [fmap option_fmap option_map].
  do 3 f_equal. lia.
Qed.

(** The compiled [k_sys_context_switch] does what its definition in Thread.v does, with the [regs]
    of the CPU pointing at the context on the stack. *)
Record switches (f : machine → machine) (m2 : machine) (base : Z) (k : kern) (hart c : Z) (k' : kern) : Prop := {
  sw_cur : k_cpu_get_current k hart = Ret c;
  sw_before : ∃ y, k_cpu_objs k !! c = Some y ∧ cpu_regs y = Some (frame_regs (words m2) base);
  sw_call : ∃ v, k_sys_context_switch k hart = Ret (v, k') ∧ x (f m2) A0 = usize v;
  sw_after : ∃ y, k_cpu_objs k' !! c = Some y ∧ cpu_regs y = Some (frame_regs (words (f m2)) base);
  sw_sp : x (f m2) SP = base
}.

(** What a context switch leaves: the CPU has the registers of the thread it goes on with, and
    an idle thread that was running has its own saved. *)
Lemma context_switch_leaves k hart c y r k' : k_cpu_get_current k hart = Ret c → k_cpu_objs k !! c = Some y →
  k_thread_context_switch_nolock k hart = Ret (r, k') →
  r = 0 ∧ ∃ t z y', k_cpu_objs k' !! c = Some y' ∧ cpu_ti y' = Some t ∧ get_thread k' t = Ret z ∧ cpu_regs y' = Some (ti_regs z) ∧
    (∀ regs i, cpu_regs y = Some regs → cpu_ti y = Some i → cpu_ti_idle y = Some i →
      ∃ zi, get_thread k' i = Ret zi ∧ ti_regs zi = regs).
Proof.
  intros Hcur Hy. unfold k_thread_context_switch_nolock. rewrite Hcur. mstep. unfold get_cpu at 1. rewrite Hy. mstep.
  match goal with |- (k0 ← ?s; _) = _ → _ => destruct s as [k1| |] eqn:E1 end; mstep; [|done..].
  assert (k_cpu_objs k1 = k_cpu_objs k ∧ (∀ regs i, cpu_regs y = Some regs → cpu_ti y = Some i → cpu_ti_idle y = Some i →
    ∃ zi, get_thread k1 i = Ret zi ∧ ti_regs zi = regs)) as [Hobjs Hsaved].
  { revert E1. destruct (decide (cpu_ti y = cpu_ti_idle y)) as [Hi|Hi].
    - destruct (cpu_ti y) as [i|]; mstep; [|done]. destruct (cpu_regs y) as [regs|]; mstep; [|done].
      unfold get_thread at 1, put_thread. destruct (zget (k_ti k) i) as [ti|] eqn:Et; mstep; [|done].
      destruct (zset (k_ti k) i _) as [l|] eqn:El; mstep; [|done]. intros [= <-]. split; [done|].
      intros regs' i' [= <-] [= <-] _. eexists. unfold get_thread. cbn [k_ti].
      by rewrite (zget_zset _ _ _ _ _ El), Z.eqb_refl.
    - intros [= <-]. split; [done|]. intros regs i _ H1 H2. by rewrite H1, H2 in Hi. }
  match goal with |- (t ← of_opt ?o; _) = _ → _ => destruct o as [t|] eqn:En end; mstep; [|done].
  destruct (get_thread k1 t) as [z| |] eqn:Hz; mstep; [|done..].
  destruct (cpu_regs y) as [regs|] eqn:Hr; mstep; [|done].
  unfold k_cpu_set_user_regs, k_cpu_set_thread, get_cpu. rewrite Hobjs, Hy. mstep. cbn [put_cpu k_cpu_objs].
  rewrite lookup_insert_eq. mstep. intros [= <- <-]. split; [done|].
  exists t, z. eexists. split; [cbn; by rewrite lookup_insert_eq|]. done.
Qed.

Lemma k_sys_context_switch_leaves k hart c y v k' : k_cpu_get_current k hart = Ret c → k_cpu_objs k !! c = Some y →
  k_sys_context_switch k hart = Ret (v, k') →
  ∃ t z y', k_cpu_objs k' !! c = Some y' ∧ cpu_ti y' = Some t ∧ get_thread k' t = Ret z ∧ cpu_regs y' = Some (ti_regs z) ∧
    (∃ w, zget (ti_regs z) REG_A0 = Some w ∧ v = isize w) ∧
    (∀ regs i, cpu_regs y = Some regs → cpu_ti y = Some i → cpu_ti_idle y = Some i →
      ∃ zi, get_thread k' i = Ret zi ∧ ti_regs zi = regs).
Proof.
  intros Hcur Hy. unfold k_sys_context_switch, k_thread_context_switch, k_smp_lock. rewrite Hcur. mstep.
  destruct (truth (k_lock_smp k)); mstep; [done|].
  destruct (k_thread_context_switch_nolock (with_smp k 1) hart) as [[r k1]| |] eqn:E; mstep; [|done..].
  assert (k_cpu_get_current (with_smp k 1) hart = Ret c) as Hcur1.
  { by rewrite (get_current_same k). }
  destruct (context_switch_leaves (with_smp k 1) _ _ _ _ _ Hcur1 Hy E) as (-> & t & z & y' & Hy' & Hti & Hz & Hzr & Hidle).
  cbn [truth negb Z.eqb]. unfold retval_of, get_cpu. cbn [k_smp_unlock with_smp k_cpu_objs]. rewrite Hy'. mstep.
  rewrite Hzr. mstep. change (k_arch_riscv_get_arg (ti_regs z) K_ARCH_ARG_TYPE_RETVAL) with
    (v ← of_opt (zget (ti_regs z) REG_A0); Ret (0, Some v)).
  destruct (zget (ti_regs z) REG_A0) as [w|] eqn:Ew; mstep; [|done]. intros [= <- <-].
  exists t, z, y'. repeat (split; [done|]). split; [by exists w|done].
Qed.

(** C9: a context switch goes on with the thread that was chosen.  When the function that the system
    call leads to is [k_sys_context_switch], the registers, the program counter, [mstatus] and
    [mscratch] after the trap are all those saved for the thread that the CPU has then, its [a0]
    too, which the result of the call is written over; and an idle thread that called has its
    registers saved as they were at the call, to go on behind it. *)
Theorem k_sys_context_switch_resumes m k hart c k' (Hok : trap_ok m) (Htable : table_kept m) (Hc : cause m = RV_CAUSE_EXC_ECALL_M)
    (Hset : c_function (trap_base m) set_current_user_regs) (Hquiet : quiet set_current_user_regs)
    (Hsw : ∀ f m2, called m m2 f → x m2 SP = trap_base m →
      context (words m2) (trap_base m) (x m) (usize (epc m + 4)) (status m) (scratch m) →
      switches f m2 (trap_base m) k hart c k' ∧ 0 <= word (words (f m2)) (slot (trap_base m) REG_A0) < 2 ^ xlen) :
  let m' := trap m in ∃ t z y y', k_cpu_objs k' !! c = Some y' ∧ cpu_ti y' = Some t ∧ get_thread k' t = Ret z ∧
    (∀ r, r ≠ X0 → zget (ti_regs z) (reg_no r) = Some (x m' r)) ∧
    zget (ti_regs z) REG_MEPC = Some (epc m') ∧ zget (ti_regs z) REG_MSTATUS = Some (status m') ∧
    zget (ti_regs z) REG_MSCRATCH = Some (scratch m') ∧
    k_cpu_objs k !! c = Some y ∧
    (∀ i, cpu_ti y = Some i → cpu_ti_idle y = Some i → ∃ zi, get_thread k' i = Ret zi ∧
      (∀ r, r ≠ X0 → zget (ti_regs zi) (reg_no r) = Some (x m r)) ∧
      zget (ti_regs zi) REG_MEPC = Some (usize (epc m + 4)) ∧ zget (ti_regs zi) REG_MSTATUS = Some (status m) ∧
      zget (ti_regs zi) REG_MSCRATCH = Some (scratch m)).
Proof.
  cbv zeta. destruct (k_trap_syscall_ends m Hok Htable Hc Hset Hquiet) as (f & m2 & Hf & Hsp & Hctx & _ & ->).
  pose proof Hctx as [Cr Ce Cs Cc]. destruct (Hsw f m2 Hf Hsp Hctx) as [[Hcur (y & Hy & Hyr) (v & Hcall & Ha0) (y1 & Hy1 & Hyr1) Hspf] Hrange].
  destruct (k_sys_context_switch_leaves k hart c y v k' Hcur Hy Hcall) as (t & z & y' & Hy' & Hti & Hz & Hzr & (w & Hw & Hv) & Hidle).
  assert (ti_regs z = frame_regs (words (f m2)) (trap_base m)) as Hregs by congruence.
  destruct (syscall_end (f m2) (trap_base m) (fun r => word (words (f m2)) (slot (trap_base m) (reg_no r)))
    (word (words (f m2)) (slot (trap_base m) REG_MEPC)) (word (words (f m2)) (slot (trap_base m) REG_MSTATUS))
    (word (words (f m2)) (slot (trap_base m) REG_MSCRATCH))) as (Hx & He & Hs & Hsc & _); [done|by apply trap_in_frame|done|].
  rewrite Hregs in *. rewrite frame_regs_lookup in Hw by done. injection Hw as <-.
  exists t, z, y, y'. split; [done|]. split; [done|]. split; [done|]. rewrite Hregs. split.
  { intros r Hr0. pose proof (reg_no_range r Hr0). rewrite frame_regs_lookup, Hx by (done || lia).
    destruct (decide (r = A0)) as [->|]; [|done]. rewrite Ha0, Hv. f_equal. symmetry. by apply usize_isize. }
  rewrite !frame_regs_lookup, He, Hs, Hsc by done. do 3 (split; [done|]). split; [done|].
  intros i Hi Hii. destruct (Hidle _ i Hyr Hi Hii) as (zi & Hzi & Hzir). exists zi. split; [done|]. rewrite Hzir.
  rewrite !frame_regs_lookup, Ce, Cs, Cc by done. split; [|done].
  intros r Hr0. pose proof (reg_no_range r Hr0). rewrite frame_regs_lookup by lia. by rewrite Cr.
Qed.
End Handling.

(** ** Examples *)

Section Examples.
#[local] Existing Instance rv64.
#[local] Instance demo_libc : Libc := {| CONFIG_USE_LIBC := true |}.

Definition all_regs : list reg :=
  [RA; SP; GP; TP; T0; T1; T2; T3; T4; T5; T6; A0; A1; A2; A3; A4; A5; A6; A7; S0; S1; S2; S3; S4; S5; S6; S7; S8; S9; S10; S11].
Lemma context_regs w base f pc st sc : context w base f pc st sc → frame_regs w base = map f all_regs ++ [pc; st; sc].
Proof.
  intros [Hr <- <- <-]. assert (map f all_regs = map (fun r => word w (slot base (reg_no r))) all_regs) as ->; [|done].
  apply map_ext_in. intros r Hin. symmetry. apply Hr. intros ->. apply list_elem_of_In in Hin.
  by apply (bool_decide_unpack (X0 ∉ all_regs)) in Hin.
Qed.

(** A function that returns the sum of its first two arguments and leaves rubbish in a temporary. *)
Definition demo_sum (m : machine) : machine :=
  mk_machine (fun r => match r with A0 => usize (x m A0 + x m A1) | T0 => 0xdead | _ => x m r end)
    (words m) (scratch m) (epc m) (cause m) (status m).
Lemma demo_sum_c base : c_function base demo_sum.
Proof.
  intros m _. split; [|done].
  assert (Forall (fun r => r ≠ A0 ∧ r ≠ T0) kept_regs) as Hk by (apply (bool_decide_unpack _); vm_compute; exact I).
  intros r Hr. pose proof (proj1 (Forall_forall _ _) Hk r Hr) as [? ?]. by destruct r.
Qed.
Lemma demo_sum_quiet : quiet demo_sum.
Proof. done. Qed.

(** A trap in a program, whose stack for interrupts ends at [0x8000]. *)
Definition demo_trap (call why : Z) : machine :=
  mk_machine (fun r => match r with X0 => 0 | SP => 0x4000 | A7 => call | _ => 100 + reg_no r end)
    {[0x9000 + 8 * 64 := 0xa000]} 0x8000 0x1000 why 0x1880.
Lemma demo_trap_ok call why : trap_ok (demo_trap call why).
Proof. split; [done|]. by vm_compute. Qed.

(** A timer interrupt. *)
Lemma trap_transparent_witness :
  let m := demo_trap 0 (2 ^ 63 + 7) in let m' := k_trap demo_sum demo_sum demo_sum demo_sum (fun _ => demo_sum) 0x9000 m in
  x m' SP = 0x4000 ∧ x m' A0 = 111 ∧ x m' T0 = 104 ∧ epc m' = 0x1000 ∧ scratch m' = 0x8000.
Proof.
  destruct (trap_transparent demo_sum demo_sum demo_sum demo_sum (fun _ => demo_sum) 0x9000 (demo_trap 0 (2 ^ 63 + 7)) (demo_trap_ok _ _)
    ltac:(done) ltac:(done) (demo_sum_c _) demo_sum_quiet (demo_sum_c _) (demo_sum_c _)) as (Hx & He & _ & Hs & _).
  cbv zeta. rewrite !Hx, He, Hs by done. split_and!; reflexivity.
Defined.

(** A call with the number 64 and the arguments 111 and 112. *)
Lemma demo_table call why : 0 <= call < MAX_SYSCALLS → table_kept demo_sum 0x9000 (demo_trap call why).
Proof.
  intros Hc _. split; [done|]. unfold entry_at, outside, slot, REGSIZE, REGOFF, MAX_SYSCALLS in *. cbn [CONFIG_USE_LIBC demo_libc] in Hc. cbn [demo_trap x].
  change (trap_base _) with (0x8000 - 272). change (if xlen =? 64 then 3 else 2) with 3.
  rewrite Z.shiftl_mul_pow2 by done. change (xlen / 8) with 8. intros i Hi.
  change (usize 0x9000) with 0x9000. change (2 ^ 3) with 8.
  rewrite (usize_small (call * 8)), (usize_small (0x9000 + call * 8)), usize_small by lia. lia.
Qed.
Lemma k_trap_syscall_returns_witness :
  let m := demo_trap 64 RV_CAUSE_EXC_ECALL_M in let m' := k_trap demo_sum demo_sum demo_sum demo_sum (fun _ => demo_sum) 0x9000 m in
  x m' A0 = 223 ∧ x m' A1 = 112 ∧ x m' SP = 0x4000 ∧ epc m' = 0x1004 ∧ scratch m' = 0x8000.
Proof.
  cbv zeta.
  destruct (k_trap_syscall_returns demo_sum demo_sum demo_sum demo_sum (fun _ => demo_sum) 0x9000 (demo_trap 64 RV_CAUSE_EXC_ECALL_M)
    (demo_trap_ok _ _) (demo_table 64 _ ltac:(done)) eq_refl (demo_sum_c _) demo_sum_quiet) as (f & m2 & Hf & _ & Ha & Hx & He & _ & Hs).
  { intros f m2 Hf. destruct Hf; apply demo_sum_c. }
  rewrite Ha, !Hx, He, Hs by done. split; [|split_and!; reflexivity].
  destruct Hf as [[H|[H|H]] _ _|_ _ H]; [by vm_compute in H..|]. unfold demo_sum. cbn [x].
  rewrite (H A0), (H A1) by (apply (bool_decide_unpack _); vm_compute; exact I). reflexivity.
Defined.

(** The idle thread of a CPU, with a context of its own, calls for the thread that the CPU was given. *)
Definition demo_next : list Z := map (fun i => 1000 + i) (seqZ 0 34).
Definition demo_thread (regs : user_regs) : k_thread_info := mk_thread 0 1 1 0 0 0 0 0 0 0 regs (Some 10).
Definition demo_cpu (regs : user_regs) : k_cpu_device :=
  mk_cpu 0 0 1 (Some regs) 0 (Some 0) (Some 0) (Some 1) [] (mk_futex 0 0 0 0) 0 0.
Definition demo_kern (regs : user_regs) : kern :=
  mk_kern [Some 10] {[10 := demo_cpu regs]} 1 [demo_thread []; demo_thread demo_next] 2 (mk_proc 1 1 0 None []) 0 ∅.
Definition demo_regs : user_regs := map (x (demo_trap 64 RV_CAUSE_EXC_ECALL_M)) all_regs ++ [0x1004; 0x1880; 0x8000].
(** [k_sys_context_switch] on the words of the context at [0x7ef0]. *)
Definition demo_words : gmap Z Z := list_to_map (zip (map (slot 0x7ef0) (seqZ 0 34)) demo_next).
Definition demo_switch (m : machine) : machine :=
  mk_machine (fun r => match r with A0 => 1011 | _ => x m r end) (demo_words ∪ words m) (scratch m) (epc m) (cause m) (status m).
Lemma demo_words_frame w : frame_regs (demo_words ∪ w) 0x7ef0 = demo_next.
Proof.
  transitivity (frame_regs demo_words 0x7ef0); [|by vm_compute]. apply map_ext_in. intros i Hi%list_elem_of_In%elem_of_seqZ.
  assert (Forall (fun i => is_Some (demo_words !! slot 0x7ef0 i)) (seqZ 0 34)) as Hall by (apply (bool_decide_unpack _); by vm_compute).
  destruct (proj1 (Forall_forall _ _) Hall i) as [v Hv]; [by apply elem_of_seqZ|].
  unfold word. rewrite Hv. by rewrite (lookup_union_Some_l _ _ _ _ Hv).
Qed.

Lemma demo_switches m2 : x m2 SP = 0x7ef0 →
  context (words m2) 0x7ef0 (x (demo_trap 64 RV_CAUSE_EXC_ECALL_M)) 0x1004 0x1880 0x8000 →
  ∃ k', k_sys_context_switch (demo_kern demo_regs) 0 = Ret (1011, k') ∧ switches demo_switch m2 0x7ef0 (demo_kern demo_regs) 0 10 k'.
Proof.
  intros Hsp Hc%context_regs. eexists. split; [reflexivity|]. split; [reflexivity|..].
  - eexists. split; [reflexivity|]. cbn [cpu_regs demo_cpu]. f_equal. symmetry. exact Hc.
  - eexists. split; reflexivity.
  - eexists. split; [reflexivity|]. cbn [demo_switch words]. by rewrite demo_words_frame.
  - done.
Qed.

Lemma k_sys_context_switch_resumes_witness :
  let m := demo_trap 64 RV_CAUSE_EXC_ECALL_M in let m' := k_trap demo_sum demo_switch demo_sum demo_sum (fun _ => demo_switch) 0x9000 m in
  x m' A0 = 1011 ∧ x m' SP = 1001 ∧ epc m' = 1031 ∧ scratch m' = 1033.
Proof.
  cbv zeta. assert (∃ k', k_sys_context_switch (demo_kern demo_regs) 0 = Ret (1011, k')) as [k' Hk] by (eexists; reflexivity).
  destruct (k_sys_context_switch_resumes demo_sum demo_switch demo_sum demo_sum (fun _ => demo_switch) 0x9000
    (demo_trap 64 RV_CAUSE_EXC_ECALL_M) (demo_kern demo_regs) 0 10 k' (demo_trap_ok _ _) (demo_table 64 _ ltac:(done)) eq_refl
    (demo_sum_c _) demo_sum_quiet) as (t & z & y & y' & Hy' & Ht & Hz & Hx & He & _ & Hs & _).
  { intros f m2 Hf Hsp Hc. assert (f = demo_switch) as -> by (by destruct Hf).
    destruct (demo_switches m2 Hsp Hc) as (k2 & E & Hsw). rewrite Hk in E. injection E as <-. split; [exact Hsw|].
    pose proof (frame_regs_lookup (words (demo_switch m2)) 0x7ef0 REG_A0 ltac:(done)) as Hl.
    change (words (demo_switch m2)) with (demo_words ∪ words m2) in *. rewrite demo_words_frame in Hl.
    change (zget demo_next REG_A0) with (Some 1011) in Hl. change (trap_base _) with 0x7ef0.
    apply (inj Some) in Hl. by rewrite <-Hl. }
  assert (ti_regs z = demo_next) as Hr.
  { injection Hk as Hk. subst k'. injection Hy' as <-. injection Ht as <-. injection Hz as <-. reflexivity. }
  rewrite Hr in *. pose proof (Hx A0 ltac:(done)) as Ha. pose proof (Hx SP ltac:(done)) as Hsp.
  split_and!; apply (inj Some); [rewrite <-Ha|rewrite <-Hsp|rewrite <-He|rewrite <-Hs]; reflexivity.
Defined.
End Examples.
