(* ===== verification/Crt.v ===== *)
(** * The start of a program with newlib (arch/riscv/newlib/start.S, sys/newlib/crt.c)

    The instructions from the entry of the main thread to [__libc_init], on the machine of Trap.v, and
    [__libc_init], whose calls into newlib and into the program are parameters.  The property at the
    end joins them with the vector of arguments of Args.v and the registers of the main thread of
    Thread.v: [main] gets the arguments of the communication area. *)

From S2P Require Import Prelude Config CString Event Regs Cpu Cache Args Thread Sched Trap.

Section Crt.
Context `{Arch} {S : Type}.

Definition STACK_AL : Z := 16.

(** From [k_crt_start] to the call of [__libc_init]; [gp] is the address of [__global_pointer$]. *)
Definition k_crt_start (gp : Z) (m : machine) : machine :=
  let m := run [Ili GP gp; OP_LD A0 0 SP; Iaddi A1 SP REGSIZE; Islli A2 A0 REGOFF; Iadd A2 A1 A2; Iaddi A2 A2 REGSIZE] m in
  set_x m SP (Z.land (x m SP) (usize (Z.lnot (STACK_AL - 1)))).

(** [atexit(__libc_fini_array)], [__libc_init_array] and [main]; the result is the argument of [exit]. *)
Variable atexit_fini init_array : S → S.
Variable main : Z → Z → Z → S → exec (Z * S).

Definition __libc_init (argc argv envp : Z) (s : S) : exec (Z * S) :=
  let s := atexit_fini s in
  let s := init_array s in
  main argc argv envp s.

(** [argc] is an [int] in [a0]. *)
Definition crt_main (gp : Z) (m : machine) (s : S) : exec (Z * S) :=
  let m := k_crt_start gp m in __libc_init (i32 (x m A0)) (x m A1) (x m A2) s.
End Crt.

Section Proofs.
Context `{Arch} `{Config}.

Lemma regsize_ptr : REGSIZE = ptr_size ∧ ptr_size = 2 ^ REGOFF ∧ 0 <= REGOFF.
Proof. unfold REGSIZE, ptr_size, REGOFF. destruct xlen_cases as [-> | ->]; done. Qed.

(** The registers at [__libc_init], for a stack that starts with [argc]. *)
Lemma k_crt_start_regs gp m n base : base = x m SP → word (words m) base = n → 0 <= base → 0 <= n →
  base + (n + 2) * ptr_size < 2 ^ xlen →
  let m' := k_crt_start gp m in x m' A0 = n ∧ x m' A1 = base + ptr_size ∧ x m' A2 = base + ptr_size + (n + 1) * ptr_size ∧
  words m' = words m ∧ x m' SP = Z.land base (usize (Z.lnot 15)).
Proof.
  intros -> Hn Hb H0' Hr. destruct regsize_ptr as (E1 & E2 & E3). destruct ptr_size_nat as (_ & _ & Hp).
  assert (usize (x m SP) = x m SP) as Hsp by (apply uwrap_small; nia).
  assert (usize (x m SP + ptr_size) = x m SP + ptr_size) as Ha by (apply uwrap_small; nia).
  assert (usize (Z.shiftl n REGOFF) = n * ptr_size) as Hs.
  { rewrite Z.shiftl_mul_pow2, <-E2 by done. apply uwrap_small. nia. }
  cbv zeta. unfold k_crt_start. cbn. rewrite Z.add_0_r, Hsp, Hn, E1, Ha, Hs.
  split_and!; try done. rewrite !uwrap_small by (rewrite ?uwrap_small; nia). lia.
Qed.

(** The registers a thread of the system starts with: its argument, its stacks and where it starts. *)
Definition entry_args (a0 sp_user sp_intr pc : Z) : list (Z * Z) :=
  [(K_ARCH_ARG_TYPE_1, a0); (K_ARCH_ARG_TYPE_STACK, sp_user); (K_ARCH_ARG_TYPE_STACK_INTR, sp_intr); (K_ARCH_ARG_TYPE_INTADDR, pc)].
Definition entry_regs (regs : user_regs) (a0 sp_user sp_intr pc : Z) : user_regs :=
  <[31%nat := usize pc]> (<[33%nat := usize sp_intr]> (<[1%nat := usize sp_user]> (<[11%nat := usize a0]> regs))).

Lemma set_args_entry regs a0 sp_user sp_intr pc : length regs = REG_ALL →
  set_args regs (entry_args a0 sp_user sp_intr pc) = Ret (entry_regs regs a0 sp_user sp_intr pc).
Proof.
  intros Hl. unfold set_args, entry_args. cbn [foldl]. mstep.
  rewrite (set_arg_ins _ _ ARG_1) by done. mstep.
  rewrite (set_arg_ins _ _ ARG_STACK) by (done || by rewrite !length_insert). mstep.
  rewrite (set_arg_ins _ _ ARG_STACK_INTR) by (done || by rewrite !length_insert). mstep.
  by rewrite (set_arg_ins _ _ ARG_INTADDR) by (done || by rewrite !length_insert).
Qed.

Lemma entry_regs_at regs a0 sp_user sp_intr pc : length regs = REG_ALL →
  let r := entry_regs regs a0 sp_user sp_intr pc in
  zget r REG_A0 = Some (usize a0) ∧ zget r REG_SP = Some (usize sp_user) ∧ zget r REG_MSCRATCH = Some (usize sp_intr) ∧
  zget r REG_MEPC = Some (usize pc) ∧ length r = REG_ALL.
Proof.
  intros Hl r. unfold r, entry_regs. rewrite !length_insert. unfold REG_ALL in Hl.
  assert (∀ i (l : user_regs), 0 <= i → zget l i = l !! Z.to_nat i) as Hz.
  { intros i l Hi. unfold zget. by rewrite (proj2 (Z.ltb_ge i 0)). }
  split_and!; [..|done]; rewrite Hz by done.
  - change (Z.to_nat REG_A0) with 11%nat. do 3 rewrite list_lookup_insert_ne by done. apply list_lookup_insert_eq. lia.
  - change (Z.to_nat REG_SP) with 1%nat. do 2 rewrite list_lookup_insert_ne by done.
    apply list_lookup_insert_eq. rewrite !length_insert. lia.
  - change (Z.to_nat REG_MSCRATCH) with 33%nat. rewrite list_lookup_insert_ne by done.
    apply list_lookup_insert_eq. rewrite !length_insert. lia.
  - change (Z.to_nat REG_MEPC) with 31%nat. apply list_lookup_insert_eq. rewrite !length_insert. lia.
Qed.

(** [k_libc_init_main_thread] puts [argc] below the vector, and the thread starts there. *)
Lemma init_main_thread_eq k t z start argc argv sp_intr : zget (k_ti k) t = Some z → length (ti_regs z) = REG_ALL →
  k_libc_init_main_thread start k t argc argv sp_intr =
    Ret (mk_kern (k_cpus k) (k_cpu_objs k) (k_uniq_id_cpu k)
      (<[Z.to_nat t := th_set_regs z (ti_sp z) (entry_regs (ti_regs z) 0 (argv - ptr_size) sp_intr start)]> (k_ti k))
      (k_uniq_tid k) (k_pi k) (k_lock_smp k) (store_ptr (k_mem k) (argv - ptr_size) argc)).
Proof.
  intros Hz Hl. unfold k_libc_init_main_thread. rewrite (get_thread_eq _ _ z) by done. mstep.
  pose proof (set_args_entry (ti_regs z) 0 (argv - ptr_size) sp_intr start Hl) as Hs. unfold entry_args in Hs. rewrite Hs. mstep.
  by rewrite (put_thread_eq _ _ z).
Qed.
End Proofs.

Lemma load_ptr_store_ptr_ne `{Arch} m a v b : b + ptr_size <= a ∨ a + ptr_size <= b → load_ptr (store_ptr m a v) b = load_ptr m b.
Proof.
  intros Hb. destruct ptr_size_nat as (En & _ & Hp). apply load_le_ext. intros i Hi. apply load8_store_ptr. lia.
Qed.

Lemma align_down `{Arch} v : 0 <= v < 2 ^ xlen → let w := Z.land v (usize (Z.lnot 15)) in w mod 16 = 0 ∧ w <= v.
Proof.
  intros Hv. assert (Z.land v (usize (Z.lnot 15)) = v - v mod 16) as E.
  { unfold uwrap. rewrite <-Z.land_ones by (pose proof xlen_ge; lia). rewrite (Z.land_comm (Z.lnot 15)), Z.land_assoc.
    rewrite Z.land_ones, Z.mod_small by (done || (pose proof xlen_ge; lia)).
    change 15 with (Z.ones 4). rewrite <-Z.ldiff_land, Z.ldiff_ones_r by lia. rewrite Z.shiftl_mul_pow2, Z.shiftr_div_pow2 by lia.
    change (2 ^ 4) with 16. pose proof (Z.div_mod v 16). lia. }
  cbv zeta. rewrite E. split; [|pose proof (Z.mod_pos_bound v 16); lia].
  rewrite Zminus_mod, Zmod_mod, Z.sub_diag. done.
Qed.

(** The words of a machine are those of a memory, on a stretch of [n] words from [a]. *)
Definition stack_words `{Arch} (m : machine) (mm : mem) (a n : Z) : Prop :=
  ∀ i, 0 <= i < n → word (words m) (a + i * ptr_size) = load_ptr mm (a + i * ptr_size).

(** [k_crt_start] on the stack that [init_args] and [k_libc_init_main_thread] leave: [n] below the vector of
    [vals], the null pointer of the environment and the rest of the vector. *)
Lemma k_crt_start_vector `{Arch} `{Config} (mm : mem) argv n (vals : list Z) aux m gp (Hv : zlen vals = n) (Hn : n + 2 <= MAX_ARGV) (Hsmall : n < 2 ^ 31)
    (Hstack : ptr_size <= argv ∧ argv + MAX_ARGV * ptr_size < 2 ^ xlen) (Hsp : x m SP = argv - ptr_size) :
  let envp := argv + (n + 1) * ptr_size in
  stack_words m (store_ptr (write_words (write_words mm argv vals) envp (0 :: aux)) (argv - ptr_size) n) (argv - ptr_size) (MAX_ARGV + 1) →
  (∀ S atexit_fini init_array main (u : S),
    crt_main atexit_fini init_array main gp m u = main n argv envp (init_array (atexit_fini u))) ∧
  (∀ j v, vals !! j = Some v → word (words (k_crt_start gp m)) (argv + Z.of_nat j * ptr_size) = usize v) ∧
  word (words (k_crt_start gp m)) envp = 0 ∧
  x (k_crt_start gp m) SP mod 16 = 0 ∧ x (k_crt_start gp m) SP <= argv - ptr_size.
Proof.
  intros envp. destruct ptr_size_nat as (En & _ & Hp). set (m1 := write_words _ envp _). intros Hw.
  destruct (vector_words mm argv vals n aux Hv) as (W1 & _ & W3). fold envp m1 in W1, W3.
  assert (∀ i, 0 <= i < MAX_ARGV → word (words m) (argv + i * ptr_size) = load_ptr m1 (argv + i * ptr_size)) as Hvec.
  { intros i Hi. specialize (Hw (i + 1) ltac:(lia)). replace (argv - ptr_size + (i + 1) * ptr_size) with (argv + i * ptr_size) in Hw by lia.
    rewrite Hw. apply load_ptr_store_ptr_ne. right. nia. }
  assert (word (words m) (argv - ptr_size) = n) as Hargc.
  { specialize (Hw 0 ltac:(unfold MAX_ARGV in *; lia)). rewrite Z.add_0_r in Hw. rewrite Hw, load_store_ptr. apply usize_small. lia. }
  destruct (k_crt_start_regs gp m n (argv - ptr_size) (eq_sym Hsp) Hargc) as (X0' & X1 & X2 & Xw & Xs); [lia|lia|nia|].
  assert (0 <= MAX_ARGV * ptr_size) as Hpos by nia. rewrite Xs, Xw.
  destruct (align_down (argv - ptr_size)) as [Hal Hle]; [lia|]. split_and!; try done.
  - intros. unfold crt_main, __libc_init. rewrite X0', X1, X2, swrap_small by lia. unfold envp. by replace (argv - ptr_size + ptr_size) with argv by lia.
  - intros j v Hj. pose proof (lookup_lt_Some _ _ _ Hj). rewrite Hvec by lia. by apply W1.
  - unfold envp. rewrite Hvec by lia. exact W3.
Qed.

(** With newlib, [main] gets the arguments of the communication area.  After [init_args] and
    [k_libc_init_main_thread] the main thread starts at [k_crt_start] with a stack from which the start code calls [main] with
    the number of the arguments, the vector of their addresses and the pointer behind it, after the
    constructors; the result of [main] goes to [exit], and the stack pointer is a multiple of 16, at or below [argc]. *)
Theorem k_crt_start_main `{Arch} `{Config} L op_inv start k hart cur xc t z sp_intr (Hinv : cache_op_ok op_inv)
    (Hcur : k_cpu_get_current k hart = Ret cur) (Hxc : k_cpu_objs k !! cur = Some xc) (Hline : 0 < line_size_d xc) (Hmag : comm_magic L (k_mem k) = BAREMETAL_CRT_COMM_MAGIC)
    (Hr : 0 < num_args L (k_mem k) <= CONFIG_COMM_MAX_ARGS) (Henv : 2 <= CONFIG_COMM_MAX_ENVS)
    (Hc : clear_of L (k_comm_area L) COMM_HEADER_SIZE)
    (Hh : ∀ h, h ∈ arg_headers (Z.to_nat (num_args L (k_mem k))) (k_mem k)
                     (k_comm_area L + ALIGN_OF COMM_HEADER_SIZE 8) → arg_ok L (line_size_d xc) (k_mem k) h)
    (Hstack : ptr_size <= argv_base L ∧ argv_base L + MAX_ARGV * ptr_size < 2 ^ xlen) (Hsmall : num_args L (k_mem k) < 2 ^ 31)
    (Hz : zget (k_ti k) t = Some z) (Hregs : length (ti_regs z) = REG_ALL) :
  let n := num_args L (k_mem k) in
  let vals := arg_values (Z.to_nat n) (k_mem k) (k_comm_area L + ALIGN_OF COMM_HEADER_SIZE 8) in
  ∃ k1 s k2 z2 sp, init_args L op_inv k hart = Ret (n, k1, s) ∧
    k_libc_init_main_thread start k1 t n (a_argv s) sp_intr = Ret k2 ∧
    zget (k_ti k2) t = Some z2 ∧ zget (ti_regs z2) REG_MEPC = Some (usize start) ∧ zget (ti_regs z2) REG_SP = Some sp ∧
    zlen vals = n ∧
    ∀ m gp, x m SP = sp → stack_words m (k_mem k2) sp (MAX_ARGV + 1) →
      (∀ S atexit_fini init_array main (u : S), crt_main atexit_fini init_array main gp m u =
         main n (a_argv s) (a_envp s) (init_array (atexit_fini u))) ∧
      (∀ j v, vals !! j = Some v → word (words (k_crt_start gp m)) (a_argv s + Z.of_nat j * ptr_size) = usize v) ∧
      word (words (k_crt_start gp m)) (a_envp s) = 0 ∧
      x (k_crt_start gp m) SP mod 16 = 0 ∧ x (k_crt_start gp m) SP <= sp.
Proof.
  intros n vals. destruct ptr_size_nat as (_ & _ & Hp). set (argv := argv_base L).
  assert (zlen vals = n) as Hv by (apply arg_values_len; fold n in Hr; lia).
  assert (n + 2 <= MAX_ARGV) as Hn by (unfold MAX_ARGV; fold n in Hr; lia). fold n in Hr, Hsmall. fold argv in Hstack.
  destruct (entry_regs_at (ti_regs z) 0 (argv - ptr_size) sp_intr start Hregs) as (_ & Hsp & _ & Hpc & _).
  rewrite (uwrap_small _ (argv - ptr_size)) in Hsp by nia.
  do 5 eexists. split; [by eapply init_args_eq|]. cbn [a_argv a_envp]. fold n vals argv.
  split; [by apply (init_main_thread_eq _ t z)|]. cbn [k_ti k_mem with_kmem].
  split; [by erewrite zget_upd, Z.eqb_refl by done|]. cbn [ti_regs th_set_regs].
  split; [done|]. split; [done|]. split; [done|]. intros m gp Hm Hw. by eapply k_crt_start_vector.
Qed.

(** A machine whose stack is that of a memory. *)
Definition stack_machine `{Arch} (mm : mem) (sp n : Z) : machine :=
  mk_machine (fun r => match r with SP => sp | _ => 0 end)
    (list_to_map (map (fun i => (sp + i * ptr_size, load_ptr mm (sp + i * ptr_size))) (seqZ 0 n))) 0 0 0 0.
Lemma stack_machine_words `{Arch} mm sp n : stack_words (stack_machine mm sp n) mm sp n.
Proof.
  intros i Hi. unfold word, stack_machine. cbn [words]. destruct ptr_size_nat as (_ & _ & Hp).
  erewrite elem_of_list_to_map_1; [done| |].
  - rewrite map_map. cbn [fst]. apply NoDup_fmap_2_strong; [|apply NoDup_seqZ]. intros a b _ _ E. nia.
  - apply list_elem_of_fmap. exists i. split; [done|]. by apply elem_of_seqZ.
Qed.

(** ** Example *)

Section Example.
#[local] Existing Instance rv64.
#[local] Existing Instance qemu_virt.

Definition crt_kern : kern :=
  let k := args_kern in
  mk_kern (k_cpus k) (k_cpu_objs k) (k_uniq_id_cpu k) [mk_thread 1 1 0 0 0 0 0 0 0 0 (replicate REG_ALL 0) None] 2 (k_pi k) 0 (k_mem k).

Lemma k_crt_start_main_witness :
  ∃ k1 args k2 sp, init_args args_layout None crt_kern 0 = Ret (1, k1, args) ∧
    k_libc_init_main_thread 0x80001000 k1 0 1 (a_argv args) 0x30000 = Ret k2 ∧
    crt_main id id (fun argc argv envp u => Ret (argc + u, argv)) 0x80002000 (stack_machine (k_mem k2) sp (MAX_ARGV + 1)) 41 =
      Ret (42, a_argv args).
Proof.
  destruct (@k_crt_start_main rv64 qemu_virt args_layout None 0x80001000 crt_kern 0 10 (idle_cpu 0) 0 (mk_thread 1 1 0 0 0 0 0 0 0 0 (replicate REG_ALL 0) None) 0x30000)
    as (k1 & s & k2 & z2 & sp & Ei & Em & Ht & _ & _ & Hn & Hm).
  - done.
  - reflexivity.
  - reflexivity.
  - done.
  - by vm_compute.
  - vm_compute; split; congruence.
  - vm_compute; congruence.
  - left. vm_compute. congruence.
  - intros h Hin. vm_compute in Hin. apply list_elem_of_singleton in Hin as ->. split; [left|]; vm_compute; congruence.
  - vm_compute. split; congruence.
  - by vm_compute.
  - reflexivity.
  - reflexivity.
  - assert (num_args args_layout (k_mem crt_kern) = 1) as E1 by (by vm_compute). rewrite E1 in *.
    exists k1, s, k2, sp. split; [exact Ei|]. split; [exact Em|].
    destruct (Hm (stack_machine (k_mem k2) sp (MAX_ARGV + 1)) 0x80002000 eq_refl (stack_machine_words _ _ _)) as (Hmain & _).
    by rewrite Hmain.
Defined.
End Example.
