(* ===== verification/Reset.v ===== *)
(** * Reset (arch/riscv/start.S)

    The code from the first instruction of a hart to the first function in C, one
    instruction at a time, on any number of harts that share one memory.  The code of the
    harts that wait refines the hand-shake of Boot.v: every instruction is a step of that
    hand-shake or none.  An address in the code is the list of the instructions from there on. *)

From S2P Require Import Prelude Config CString Event Regs Cpu Args Thread Trap Boot.
Import Boot.

(** ** The code *)

Inductive label :=
| L_k_start_for_main
| L_main_error
| L_k_start_for_sub
| L_sub_error
| L_k_start_for_common.

(** The functions in C that the code ends in. *)
Inductive c_entry := C_k_init_system | C_k_init_leader | C_k_init_child.

(** Instructions: those of the traps, the other CSRs, jumps.  [Icall_c] is the call of a
    function in C, where the code of this file ends. *)
Inductive rinstr :=
| I (i : instr)
| Isub (rd r1 r2 : reg)
| Icsrs (c : csr_name) (rs : reg)
| Icsrr_mhartid (rd : reg)
| Icsrw_xie (rs : reg)
| Icsrw_xtvec (rs : reg)
| Icsrw_fcsr (rs : reg)
| Icsrsi_mnstatus (v : Z)
| Ibeq (r1 r2 : reg) (l : label)
| Ibne (r1 r2 : reg) (l : label)
| Ij (l : label)
| Icall (l : label)
| Icall_c (f : c_entry)
| Iret
| Inop
| Ifence
| Iwfi.

(** A hart; [hr_code] is the program counter, [hr_ra] the address in [ra].  The words of
    [hr_core] are not used: the harts share one memory. *)
Record hart := mk_hart {
  hr_core : machine;
  hr_xie : Z;
  hr_xtvec : Z;
  hr_fcsr : Z;
  hr_mnstatus : Z;
  hr_code : list rinstr;
  hr_ra : list rinstr
}.

(** What the linker and the configuration decide. *)
Record reset_env := mk_reset_env {
  CONFIG_RISCV_RNMI : bool;
  CONFIG_FPU : bool;
  CONFIG_VPU : bool;
  k_trap_start_at : Z;
  global_pointer : Z;
  k_boot_proc_at : Z;
  k_boot_sp_idle_at : Z;
  k_boot_sp_intr_at : Z;
  k_boot_done_at : Z
}.

Section Reset.
Context `{Arch} `{Config}.
Variable L : layout.
Variable E : reset_env.

Definition CPUREGOFF_HARTID : Z := REGSIZE * 0.
Definition CPUREGOFF_ALL : Z := REGSIZE * 2.
Definition MNSTATUS_NMIE : Z := 0x8.
Definition RV_STATUS_FS_DIRTY : Z := 0x06000.
Definition RV_STATUS_VS_DIRTY : Z := 0x00600.
Definition MHARTID_MAIN : Z := CONFIG_MAIN_CORE.

Definition k_start_for_common : list rinstr :=
  [I (Icsrr T0 XSCRATCH); I (Ili T1 CPUREGOFF_ALL); Isub T0 T0 T1; I (Icsrw XSCRATCH T0); I (Imv TP T0);
   I (OP_ST A0 CPUREGOFF_HARTID TP)] ++
  (if CONFIG_FPU E then [I (Ili T0 RV_STATUS_FS_DIRTY); Icsrs XSTATUS T0; Icsrw_fcsr X0] else []) ++
  (if CONFIG_VPU E then [I (Ili T0 RV_STATUS_VS_DIRTY); Icsrs XSTATUS T0] else []) ++
  [Iret].

Definition sub_error : list rinstr := [Iwfi; Ij L_sub_error].
Definition sub_started : list rinstr := [Ifence; Icall L_k_start_for_common; Icall_c C_k_init_child] ++ sub_error.
Definition sub_go : list rinstr :=
  [I (Ili T0 (k_boot_sp_idle_at E)); I (OP_LD SP 0 T0); I (Ili T0 (k_boot_sp_intr_at E)); I (OP_LD T0 0 T0);
   I (Icsrw XSCRATCH T0); I (Ili T0 (k_boot_done_at E)); I (Ili T1 1); I (OP_ST T1 0 T0)] ++ sub_started.
Definition k_start_for_sub : list rinstr :=
  [Inop; Inop; Inop; Inop; Ifence; I (Ili T1 (k_boot_proc_at E)); I (OP_LD T1 0 T1); Ibne A0 T1 L_k_start_for_sub] ++ sub_go.

Definition main_error : list rinstr := [Iwfi; Ij L_main_error].
Definition k_start_for_main : list rinstr :=
  [I (Ili SP (k_stack_idle L)); I (Ili T0 CONFIG_IDLE_STACK_SIZE); I (Iadd SP T0 SP); I (Ili T0 (k_stack_intr L));
   I (Ili T1 CONFIG_INTR_STACK_SIZE); I (Iadd T0 T1 T0); I (Icsrw XSCRATCH T0); Icall L_k_start_for_common;
   Icall_c C_k_init_system; Icall_c C_k_init_leader] ++ main_error.

Definition choose_start : list rinstr :=
  [Icsrr_mhartid A0; I (Ili T1 MHARTID_MAIN); Ibeq A0 T1 L_k_start_for_main; Ij L_k_start_for_sub].
Definition k_reset : list rinstr :=
  (if CONFIG_RISCV_RNMI E then [Icsrsi_mnstatus MNSTATUS_NMIE] else []) ++
  [I (Icsrw XSTATUS X0); Icsrw_xie X0; I (Ili T0 (k_trap_start_at E)); Icsrw_xtvec T0; I (Ili GP (global_pointer E));
   I (Ili T0 (k_boot_proc_at E)); I (Ili T1 (-1)); I (OP_ST T1 0 T0)] ++ choose_start.

Definition code_at (l : label) : list rinstr :=
  match l with
  | L_k_start_for_main => k_start_for_main
  | L_main_error => main_error
  | L_k_start_for_sub => k_start_for_sub
  | L_sub_error => sub_error
  | L_k_start_for_common => k_start_for_common
  end.

(** ** One instruction *)

Definition go (p : hart) (k : list rinstr) : hart :=
  mk_hart (hr_core p) (hr_xie p) (hr_xtvec p) (hr_fcsr p) (hr_mnstatus p) k (hr_ra p).
Definition with_core (p : hart) (m : machine) : hart :=
  mk_hart m (hr_xie p) (hr_xtvec p) (hr_fcsr p) (hr_mnstatus p) (hr_code p) (hr_ra p).

(** The instruction [i] of hart [h], with [k] behind it. *)
Definition exec_instr (h : Z) (i : rinstr) (k : list rinstr) (p : hart) : hart :=
  let m := hr_core p in
  match i with
  | I i => go (with_core p (Trap.step m i)) k
  | Isub rd r1 r2 => go (with_core p (set_x m rd (usize (x m r1 - x m r2)))) k
  | Icsrs c rs => go (with_core p (set_csr m c (Z.lor (get_csr m c) (x m rs)))) k
  | Icsrr_mhartid rd => go (with_core p (set_x m rd (usize h))) k
  | Icsrw_xie rs => mk_hart m (x m rs) (hr_xtvec p) (hr_fcsr p) (hr_mnstatus p) k (hr_ra p)
  | Icsrw_xtvec rs => mk_hart m (hr_xie p) (x m rs) (hr_fcsr p) (hr_mnstatus p) k (hr_ra p)
  | Icsrw_fcsr rs => mk_hart m (hr_xie p) (hr_xtvec p) (x m rs) (hr_mnstatus p) k (hr_ra p)
  | Icsrsi_mnstatus v => mk_hart m (hr_xie p) (hr_xtvec p) (hr_fcsr p) (Z.lor (hr_mnstatus p) v) k (hr_ra p)
  | Ibeq r1 r2 l => go p (if x m r1 =? x m r2 then code_at l else k)
  | Ibne r1 r2 l => go p (if x m r1 =? x m r2 then k else code_at l)
  | Ij l => go p (code_at l)
  | Icall l => mk_hart m (hr_xie p) (hr_xtvec p) (hr_fcsr p) (hr_mnstatus p) (code_at l) k
  | Icall_c _ => p
  | Iret => go p (hr_ra p)
  | Inop | Ifence | Iwfi => go p k
  end.
Definition hart_do (h : Z) (p : hart) : hart :=
  match hr_code p with [] => p | i :: k => exec_instr h i k p end.

(** ** All harts *)

(** The memory, the main CPU as in Boot.v, and the other harts. *)
Record reset_state := mk_reset {
  r_words : gmap Z Z;
  r_pc : main_pc;
  r_todo : list (Z * Z);
  r_harts : gmap Z hart
}.

Definition with_words (p : hart) (w : gmap Z Z) : hart := with_core p (set_words (hr_core p) w).

Definition sub_step (h : Z) (s : reset_state) : reset_state :=
  match r_harts s !! h with
  | Some p =>
    let p' := hart_do h (with_words p (r_words s)) in
    mk_reset (words (hr_core p')) (r_pc s) (r_todo s) (<[h := with_words p' ∅]> (r_harts s))
  | None => s
  end.

(** The variables of driver/cpu/riscv.c in memory, and what [cpu_riscv_wakeup] does to them. *)
Definition boot_vars (s : reset_state) : boot :=
  mk_boot (word (r_words s) (k_boot_proc_at E)) (word (r_words s) (k_boot_sp_idle_at E)) (word (r_words s) (k_boot_sp_intr_at E))
    (word (r_words s) (k_boot_done_at E)) (r_pc s) (r_todo s) ∅.
Definition put_vars (b : boot) (w : gmap Z Z) : gmap Z Z :=
  <[k_boot_proc_at E := k_boot_proc b]> (<[k_boot_sp_idle_at E := k_boot_sp_idle b]>
    (<[k_boot_sp_intr_at E := k_boot_sp_intr b]> (<[k_boot_done_at E := k_boot_done b]> w))).
Definition wakeup_step (s : reset_state) : reset_state :=
  let b := main_step L (boot_vars s) in
  mk_reset (put_vars b (r_words s)) (b_pc b) (b_todo b) (r_harts s).

Definition reset_step (a : agent) (s : reset_state) : reset_state :=
  match a with
  | Main => wakeup_step s
  | Hart h => sub_step h s
  end.

(** The main CPU has cleared the notify area and begins; the other harts come out of reset
    with any registers. *)
Definition at_reset (p : hart) : Prop := hr_code p = k_reset ∧ x (hr_core p) X0 = 0 ∧ words (hr_core p) = ∅.
Definition reset_start (w : gmap Z Z) (todo : list (Z * Z)) (harts : gmap Z hart) : reset_state :=
  mk_reset (put_vars (mk_boot no_proc 0 0 0 WClear [] ∅) w) WClear todo harts.
End Reset.

(** ** One hart *)

(** Compute one instruction of a hart whose registers are symbols. *)
Ltac one_instr :=
  cbv [hart_do hr_code exec_instr go with_core with_words hr_core hr_xie hr_xtvec hr_fcsr hr_mnstatus hr_ra code_at app drop
       choose_start k_start_for_sub sub_go sub_started sub_error k_start_for_main main_error k_start_for_common
       Trap.step set_x set_csr get_csr set_words reg_beq x words scratch epc cause status].

Section Harts.
Context `{Arch} `{Config}.
Variable L : layout.
Variable E : reset_env.
Variable h : Z.
Hypothesis Hh : 0 <= h < 2 ^ 31.

Notation hart_do := (hart_do L E h).

(** The next instruction is an access to memory, or the code has ended. *)
Definition acts (p : hart) : bool :=
  match hr_code p with
  | I (OP_LD _ _ _) :: _ | I (OP_ST _ _ _) :: _ | Icall_c _ :: _ => true
  | _ => false
  end.

Inductive quiet_run : nat → hart → hart → Prop :=
| quiet_0 p : quiet_run 0 p p
| quiet_S n p p1 p2 : acts p = false → hart_do p = p1 → quiet_run n p1 p2 → quiet_run (S n) p p2.

(** What the code has set up before it accesses memory. *)
Record calm (st : Z) (p : hart) : Prop := {
  calm_words : words (hr_core p) = ∅;
  calm_zero : x (hr_core p) X0 = 0;
  calm_gp : x (hr_core p) GP = usize (global_pointer E);
  calm_xie : hr_xie p = 0;
  calm_xtvec : hr_xtvec p = usize (k_trap_start_at E);
  calm_status : status (hr_core p) = st
}.

(** [mstatus] when the functions in C begin. *)
Definition started_status : Z :=
  let st := if CONFIG_FPU E then Z.lor 0 (usize RV_STATUS_FS_DIRTY) else 0 in
  if CONFIG_VPU E then Z.lor st (usize RV_STATUS_VS_DIRTY) else st.
Definition cpu_area (intr : Z) : Z := usize (intr - usize CPUREGOFF_ALL).
Definition in_common : list rinstr := drop 6 (k_start_for_common E).

(** The accesses of a hart that waits, and the point of the hand-shake at which each is. *)
Inductive access (p : hart) : hart_pc → Prop :=
| ac_clear : hr_code p = I (OP_ST T1 0 T0) :: choose_start → calm 0 p →
    x (hr_core p) T0 = usize (k_boot_proc_at E) → x (hr_core p) T1 = no_proc → access p HClear
| ac_poll : hr_code p = I (OP_LD T1 0 T1) :: Ibne A0 T1 L_k_start_for_sub :: sub_go E → calm 0 p →
    x (hr_core p) A0 = h → x (hr_core p) T1 = usize (k_boot_proc_at E) → access p HPoll
| ac_sp_idle : hr_code p = drop 1 (sub_go E) → calm 0 p →
    x (hr_core p) A0 = h → x (hr_core p) T0 = usize (k_boot_sp_idle_at E) → access p HSpIdle
| ac_sp_intr sp : hr_code p = drop 3 (sub_go E) → calm 0 p →
    x (hr_core p) A0 = h → x (hr_core p) SP = sp → x (hr_core p) T0 = usize (k_boot_sp_intr_at E) → access p (HSpIntr sp)
| ac_done sp intr : hr_code p = drop 7 (sub_go E) → calm 0 p →
    x (hr_core p) A0 = h → x (hr_core p) SP = sp → scratch (hr_core p) = intr →
    x (hr_core p) T0 = usize (k_boot_done_at E) → x (hr_core p) T1 = usize 1 → access p (HDone sp intr)
| ac_area sp intr : hr_code p = I (OP_ST A0 CPUREGOFF_HARTID TP) :: in_common → calm 0 p →
    hr_ra p = Icall_c C_k_init_child :: sub_error →
    x (hr_core p) A0 = h → x (hr_core p) SP = sp → x (hr_core p) TP = cpu_area intr → scratch (hr_core p) = cpu_area intr →
    access p (HRun sp intr)
| ac_child sp intr : hr_code p = Icall_c C_k_init_child :: sub_error → calm started_status p →
    x (hr_core p) SP = sp → x (hr_core p) TP = cpu_area intr → scratch (hr_core p) = cpu_area intr →
    access p (HRun sp intr).

Definition follows (n : nat) (p : hart) (q : hart_pc) : Prop := ∃ p', quiet_run n p p' ∧ access p' q.

Lemma acts_access p q : access p q → acts p = true.
Proof. by intros [E1|E1|E1|? E1|? ? E1|? ? E1|? ? E1]; unfold acts; rewrite E1. Qed.

Lemma follows_step n p p1 q : acts p = false → hart_do p = p1 → follows n p1 q → follows (S n) p q.
Proof. intros Ha He (p' & Hq & Hac). exists p'. split; [by eapply quiet_S|done]. Qed.
Lemma follows_access p q : access p q → follows 0 p q.
Proof. intros Ha. exists p. split; [constructor|done]. Qed.

(** Run to the next access. *)
Ltac open_hart p := destruct p as [[xs ws sc pc ca st] ie tv fc mn code ra]; cbn [hr_code hr_core hr_ra hr_xie hr_xtvec x words scratch status] in *.
Ltac quiet := eapply follows_step; [reflexivity|one_instr; reflexivity|].
Ltac quiets := repeat quiet; apply follows_access.

Lemma reset_follows p : at_reset E p → ∃ n, follows n p HClear.
Proof.
  unfold at_reset. open_hart p. intros (-> & Hz & ->). unfold k_reset. destruct (CONFIG_RISCV_RNMI E); cbn [app]; eexists; quiets.
  all: apply ac_clear; [reflexivity| |reflexivity..].
  all: split; try reflexivity; exact Hz.
Qed.

Hypothesis Hsub : h ≠ MHARTID_MAIN.
Hypothesis Hmain : 0 <= MHARTID_MAIN < 2 ^ 31.

Lemma not_main : (usize h =? usize MHARTID_MAIN) = false.
Proof. rewrite !usize_hart by done. by apply Z.eqb_neq. Qed.

Lemma cleared_follows p : hr_code p = choose_start → calm 0 p → ∃ n, follows n p HPoll.
Proof.
  open_hart p. intros -> Hc. eexists. do 2 quiet.
  eapply follows_step; [reflexivity|one_instr; rewrite not_main; reflexivity|]. quiets.
  destruct Hc. apply ac_poll; [reflexivity| |cbn; by apply usize_hart|reflexivity]. by split.
Qed.

Lemma poll_follows p v : hr_code p = Ibne A0 T1 L_k_start_for_sub :: sub_go E → calm 0 p → x (hr_core p) A0 = h →
  x (hr_core p) T1 = v → ∃ n, follows n p (if v =? h then HSpIdle else HPoll).
Proof.
  open_hart p. intros -> Hc Ha Ht. destruct (Z.eqb_spec v h) as [->|Hne]; eexists.
  - eapply follows_step; [reflexivity|one_instr; rewrite Ha, Ht, Z.eqb_refl; reflexivity|]. quiets.
    destruct Hc. apply ac_sp_idle; [reflexivity| |done|reflexivity]. by split.
  - eapply follows_step; [reflexivity|one_instr; rewrite Ha, Ht, (proj2 (Z.eqb_neq _ _)) by done; reflexivity|]. quiets.
    destruct Hc. apply ac_poll; [reflexivity| |done|reflexivity]. by split.
Qed.

Lemma sp_follows p sp : hr_code p = drop 2 (sub_go E) → calm 0 p → x (hr_core p) A0 = h → x (hr_core p) SP = sp →
  ∃ n, follows n p (HSpIntr sp).
Proof.
  open_hart p. intros -> Hc Ha Hs. eexists. quiets. destruct Hc. apply ac_sp_intr; [reflexivity| |done|done|reflexivity]. by split.
Qed.

Lemma intr_follows p sp intr : hr_code p = drop 4 (sub_go E) → calm 0 p → x (hr_core p) A0 = h → x (hr_core p) SP = sp →
  x (hr_core p) T0 = intr → ∃ n, follows n p (HDone sp intr).
Proof.
  open_hart p. intros -> Hc Ha Hs Ht. eexists. quiets. destruct Hc.
  apply ac_done; [reflexivity| |done|done|done|reflexivity..]. by split.
Qed.

Lemma done_follows p sp intr : hr_code p = sub_started → calm 0 p → x (hr_core p) A0 = h → x (hr_core p) SP = sp →
  scratch (hr_core p) = intr →
  ∃ n p', quiet_run n p p' ∧ hr_code p' = I (OP_ST A0 CPUREGOFF_HARTID TP) :: in_common ∧ access p' (HRun sp intr).
Proof.
  open_hart p. intros -> Hc Ha Hs Ht. do 2 eexists. split; [|split].
  - repeat (eapply quiet_S; [reflexivity|one_instr; reflexivity|]). apply quiet_0.
  - reflexivity.
  - destruct Hc. subst sc. apply ac_area; [reflexivity| |reflexivity|done|done|reflexivity..]. by split.
Qed.

(** After the CPU area has been written nothing but the floating point is left to set up. *)
Lemma area_follows p sp intr : hr_code p = in_common → calm 0 p → hr_ra p = Icall_c C_k_init_child :: sub_error →
  x (hr_core p) SP = sp → x (hr_core p) TP = cpu_area intr → scratch (hr_core p) = cpu_area intr →
  ∃ n p', quiet_run n p p' ∧ hr_code p' = Icall_c C_k_init_child :: sub_error ∧ access p' (HRun sp intr).
Proof.
  open_hart p. unfold in_common, k_start_for_common. cbn [app drop]. intros -> [Hw Hz Hg Hi Hv Hst] -> Hs Ht Hsc. cbn in Hst. subst st.
  destruct (CONFIG_FPU E) eqn:Ef, (CONFIG_VPU E) eqn:Ev; cbn [app]; do 2 eexists; split.
  all: try (repeat (eapply quiet_S; [reflexivity|one_instr; reflexivity|]); apply quiet_0).
  all: split; [reflexivity|]; apply ac_child; [reflexivity| |done..]; split; try done; unfold started_status; by rewrite Ef, Ev.
Qed.
End Harts.


(** ** All harts *)

Section System.
Context `{Arch} `{Config}.
Variable L : layout.
Variable E : reset_env.
Variable all : list (Z * Z).

Definition boot_vars_at : list Z := [k_boot_proc_at E; k_boot_sp_idle_at E; k_boot_sp_intr_at E; k_boot_done_at E].
Definition intr_end : Z := k_stack_intr L + CONFIG_NUM_CORES * CONFIG_INTR_STACK_SIZE.

(** The stacks for interrupts lie in the address space, with room for the CPU area, and apart
    from the variables; each CPU has a number and a hart of its own. *)
Record layout_ok : Prop := {
  lo_vars : NoDup boot_vars_at;
  lo_range a : a ∈ boot_vars_at → 0 <= a < 2 ^ xlen ∧ (a < k_stack_intr L ∨ intr_end <= a);
  lo_stack : 0 <= k_stack_intr L ∧ intr_end < 2 ^ xlen;
  lo_size : CPUREGOFF_ALL <= CONFIG_INTR_STACK_SIZE;
  lo_ids : NoDup (map fst all);
  lo_id id phys : (id, phys) ∈ all → 0 <= id < CONFIG_NUM_CORES;
  lo_phys : NoDup (map snd all);
  lo_main : 0 <= MHARTID_MAIN < 2 ^ 31
}.
Hypothesis Hlo : layout_ok.

Definition area_of (id : Z) : Z := k_stack_intr L + (id + 1) * CONFIG_INTR_STACK_SIZE - CPUREGOFF_ALL.

Lemma cpu_regs_pos : 0 < CPUREGOFF_ALL < 2 ^ 32.
Proof. unfold CPUREGOFF_ALL, REGSIZE. destruct xlen_cases as [-> | ->]; by vm_compute. Qed.

Lemma stack_room id : 0 <= id < CONFIG_NUM_CORES →
  k_stack_intr L + CPUREGOFF_ALL <= k_stack_intr L + (id + 1) * CONFIG_INTR_STACK_SIZE <= intr_end.
Proof.
  intros Hi. pose proof (lo_size Hlo). pose proof cpu_regs_pos. unfold intr_end. nia.
Qed.

Lemma sp_intr_is id : 0 <= id < CONFIG_NUM_CORES → sp_intr L id = k_stack_intr L + (id + 1) * CONFIG_INTR_STACK_SIZE.
Proof.
  intros Hi. pose proof (stack_room id Hi). pose proof (lo_stack Hlo). pose proof cpu_regs_pos. unfold sp_intr.
  rewrite (uwrap_small _ ((id + 1) * _)) by lia. apply uwrap_small. lia.
Qed.

Lemma cpu_area_is id : 0 <= id < CONFIG_NUM_CORES → cpu_area (sp_intr L id) = area_of id.
Proof.
  intros Hi. rewrite sp_intr_is by done. pose proof (stack_room id Hi). pose proof (lo_stack Hlo). pose proof cpu_regs_pos.
  unfold cpu_area, area_of. rewrite (usize_small CPUREGOFF_ALL) by lia. apply uwrap_small. lia.
Qed.

Lemma area_not_var id : 0 <= id < CONFIG_NUM_CORES → area_of id ∉ boot_vars_at.
Proof.
  intros Hi Hin. destruct (lo_range Hlo _ Hin) as [_ Hd]. pose proof (stack_room id Hi). pose proof cpu_regs_pos.
  unfold area_of in *. lia.
Qed.

Lemma area_ne id a : 0 <= id < CONFIG_NUM_CORES → a ∈ boot_vars_at → area_of id ≠ a.
Proof. intros Hi Ha <-. by apply (area_not_var id). Qed.

Lemma area_inj id id' : area_of id = area_of id' → id = id'.
Proof. unfold area_of. pose proof (lo_size Hlo). pose proof cpu_regs_pos. nia. Qed.

Lemma all_id h id id' : (id, h) ∈ all → (id', h) ∈ all → id = id'.
Proof.
  intros H1 H2. pose proof (lo_phys Hlo) as Hnd. apply list_elem_of_lookup in H1 as [i Hi], H2 as [j Hj].
  assert (i = j) as ->; [|by simplify_eq]. eapply NoDup_lookup; [exact Hnd|..]; by rewrite list_lookup_fmap, ?Hi, ?Hj.
Qed.
Lemma all_phys h h' id : (id, h) ∈ all → (id, h') ∈ all → h = h'.
Proof.
  intros H1 H2. pose proof (lo_ids Hlo) as Hnd. apply list_elem_of_lookup in H1 as [i Hi], H2 as [j Hj].
  assert (i = j) as ->; [|by simplify_eq]. eapply NoDup_lookup; [exact Hnd|..]; by rewrite list_lookup_fmap, ?Hi, ?Hj.
Qed.

(** ** The refinement *)

(** A hart is some instructions away from an access of its point of the hand-shake; once it
    has written its area, its number is there. *)
Definition tracks (w : gmap Z Z) (h : Z) (p : hart) (q : hart_pc) : Prop :=
  ∃ n p', quiet_run L E h n p p' ∧ access E h p' q ∧
    (hr_code p' = Icall_c C_k_init_child :: sub_error → ∀ sp intr, q = HRun sp intr → word w (cpu_area intr) = h).

Record same_vars (w : gmap Z Z) (b : boot) : Prop := {
  sv_proc : word w (k_boot_proc_at E) = k_boot_proc b;
  sv_sp_idle : word w (k_boot_sp_idle_at E) = k_boot_sp_idle b;
  sv_sp_intr : word w (k_boot_sp_intr_at E) = k_boot_sp_intr b;
  sv_done : word w (k_boot_done_at E) = k_boot_done b
}.

Record refines (s : reset_state) (b : boot) : Prop := {
  rf_vars : same_vars (r_words s) b;
  rf_pc : r_pc s = b_pc b;
  rf_todo : r_todo s = b_todo b;
  rf_hart h : match r_harts s !! h, b_harts b !! h with
              | Some p, Some q => h ≠ MHARTID_MAIN ∧ words (hr_core p) = ∅ ∧ tracks (r_words s) h p q
              | None, None => True
              | _, _ => False
              end
}.

Definition acts_at (s : reset_state) (a : agent) : bool :=
  match a with
  | Main => true
  | Hart h => match r_harts s !! h with Some p => acts p | None => true end
  end.
(** The step of the hand-shake that an instruction is. *)
Definition boot_agent (s : reset_state) (a : agent) : agent := if acts_at s a then a else Hart (-1).

(** Instructions that do not access memory do not depend on it and leave it alone. *)
Lemma quiet_words h p w : acts p = false → words (hr_core p) = ∅ →
  hart_do L E h (with_words p w) = with_words (hart_do L E h p) w ∧ words (hr_core (hart_do L E h p)) = ∅.
Proof.
  destruct p as [[xs ws sc pc ca st] ie tv fc mn code ra]. cbn [hr_core words]. intros Ha ->. unfold acts in Ha. cbn [hr_code] in Ha.
  unfold hart_do. destruct code as [|i k]; [done|].
  destruct i as [i|rd r1 r2|c rs|rd|rs|rs|rs|v|r1 r2 l|r1 r2 l|l|l|f| | | |]; [destruct i; try done|..].
  all: cbv [with_words with_core hr_code hr_core hr_xie hr_xtvec hr_fcsr hr_mnstatus hr_ra exec_instr go Trap.step set_x set_csr get_csr set_words x words scratch epc cause status].
  all: repeat (case_match; try done); done.
Qed.

Lemma tracks_words w w' h p q : (∀ sp intr, q = HRun sp intr → word w' (cpu_area intr) = word w (cpu_area intr)) →
  tracks w h p q → tracks w' h p q.
Proof.
  intros Hw (n & p' & Hq & Ha & Hc). exists n, p'. split; [done|]. split; [done|]. intros Hcode sp intr ->.
  rewrite (Hw sp intr) by done. by apply (Hc Hcode sp intr).
Qed.

Lemma vars_range a : a ∈ boot_vars_at → usize (usize a + 0) = a.
Proof. intros Ha. destruct (lo_range Hlo a Ha) as [Hr _]. rewrite !uwrap_small; [lia|done|]. rewrite uwrap_small; lia. Qed.

(** The addresses of the variables are different. *)
Lemma vars_ne : k_boot_proc_at E ≠ k_boot_sp_idle_at E ∧ k_boot_proc_at E ≠ k_boot_sp_intr_at E ∧ k_boot_proc_at E ≠ k_boot_done_at E ∧
  k_boot_sp_idle_at E ≠ k_boot_sp_intr_at E ∧ k_boot_sp_idle_at E ≠ k_boot_done_at E ∧ k_boot_sp_intr_at E ≠ k_boot_done_at E.
Proof.
  pose proof (lo_vars Hlo) as Hn. unfold boot_vars_at in Hn. rewrite !NoDup_cons, !elem_of_cons in Hn. naive_solver.
Qed.

(** What an access does to the hart, to the memory and to the hand-shake. *)
Record act_result (w : gmap Z Z) (h : Z) (q : hart_pc) (b : boot) (p' : hart) : Prop := {
  ar_hart : ∃ q', b_harts (hart_step h b) = <[h := q']> (b_harts b) ∧ tracks (words (hr_core p')) h (with_words p' ∅) q';
  ar_vars : same_vars (words (hr_core p')) (hart_step h b);
  ar_main : b_pc (hart_step h b) = b_pc b ∧ b_todo (hart_step h b) = b_todo b;
  ar_words a : a ∉ boot_vars_at → (∀ sp intr, q = HRun sp intr → a ≠ cpu_area intr) → word (words (hr_core p')) a = word w a
}.

(** A hart that has not got its stacks yet goes on with the access it makes. *)
Lemma track_follows w h p q : (∀ sp intr, q ≠ HRun sp intr) → (∃ n, follows L E h n p q) → tracks w h p q.
Proof.
  intros Hq (n & p' & Hr & Ha). exists n, p'. split; [done|]. split; [done|]. intros _ sp intr ->. by destruct (Hq sp intr).
Qed.

Lemma in_vars : k_boot_proc_at E ∈ boot_vars_at ∧ k_boot_sp_idle_at E ∈ boot_vars_at ∧ k_boot_sp_intr_at E ∈ boot_vars_at ∧
  k_boot_done_at E ∈ boot_vars_at.
Proof. unfold boot_vars_at. rewrite !elem_of_cons. tauto. Qed.

Lemma access_run h p sp intr : access E h p (HRun sp intr) →
  (hr_code p = I (OP_ST A0 CPUREGOFF_HARTID TP) :: in_common E ∧ calm E 0 p ∧ hr_ra p = Icall_c C_k_init_child :: sub_error ∧
   x (hr_core p) A0 = h ∧ x (hr_core p) SP = sp ∧ x (hr_core p) TP = cpu_area intr ∧ scratch (hr_core p) = cpu_area intr) ∨
  (hr_code p = Icall_c C_k_init_child :: sub_error ∧ calm E (started_status E) p ∧
   x (hr_core p) SP = sp ∧ x (hr_core p) TP = cpu_area intr ∧ scratch (hr_core p) = cpu_area intr).
Proof. intros Ha. inversion Ha; subst; [left|right]; split_and!; try done. Qed.

(** The access of the CPU area. *)
Lemma do_area w h p intr : hr_code p = I (OP_ST A0 CPUREGOFF_HARTID TP) :: in_common E → x (hr_core p) TP = cpu_area intr →
  hart_do L E h (with_words p w) = with_words (go p (in_common E)) (<[cpu_area intr := x (hr_core p) A0]> w).
Proof.
  destruct p as [[xs ws sc pc ca st] ie tv fc mn code ra]. cbn [hr_code hr_core x]. intros -> Ht. one_instr. rewrite Ht.
  unfold CPUREGOFF_HARTID, cpu_area. rewrite Z.mul_0_r, Z.add_0_r.
  rewrite (uwrap_small _ (usize _)) by (apply uwrap_range; pose proof xlen_ge; lia). done.
Qed.

Section Access.
Variable w : gmap Z Z.
Variable h : Z.
Variable b : boot.
Hypothesis Hh : 0 <= h < 2 ^ 31.
Hypothesis Hsub : h ≠ MHARTID_MAIN.
Hypothesis Hw : same_vars w b.

Notation result q p := (act_result w h q b (hart_do L E h (with_words p w))).

(** The address in a register, and the access of the instruction at the front of the code. *)
Lemma do_store p rs rt k a : hr_code p = I (OP_ST rs 0 rt) :: k → x (hr_core p) rt = usize a → a ∈ boot_vars_at →
  hart_do L E h (with_words p w) = with_words (go p k) (<[a := x (hr_core p) rs]> w).
Proof.
  destruct p as [[xs ws sc pc ca st] ie tv fc mn code ra]. cbn [hr_code hr_core x]. intros -> Ht Ha. one_instr.
  by rewrite Ht, vars_range.
Qed.
Lemma do_load p rd rt k a : hr_code p = I (OP_LD rd 0 rt) :: k → x (hr_core p) rt = usize a → a ∈ boot_vars_at →
  hart_do L E h (with_words p w) = with_words (go (with_core p (set_x (hr_core p) rd (word w a))) k) w.
Proof.
  destruct p as [[xs ws sc pc ca st] ie tv fc mn code ra]. cbn [hr_code hr_core x]. intros -> Ht Ha.
  unfold hart_do. cbn [hr_code with_words with_core exec_instr Trap.step hr_core go set_words x words]. rewrite Ht, vars_range by done.
  unfold set_x. cbn [hr_core with_words with_core set_words x words scratch epc cause status]. by destruct (reg_beq rd X0).
Qed.

Lemma calm_same st p p' : calm E st p → words (hr_core p') = ∅ → x (hr_core p') X0 = x (hr_core p) X0 → x (hr_core p') GP = x (hr_core p) GP →
  hr_xie p' = hr_xie p → hr_xtvec p' = hr_xtvec p → status (hr_core p') = status (hr_core p) → calm E st p'.
Proof. intros [? ? ? ? ? ?]. split; congruence. Qed.

(** The hand-shake makes the step [b'] and the hart goes on at [q']. *)
Lemma act_intro q p' q' b' : hart_step h b = b' → b_harts b' = <[h := q']> (b_harts b) → b_pc b' = b_pc b → b_todo b' = b_todo b →
  tracks (words (hr_core p')) h (with_words p' ∅) q' → same_vars (words (hr_core p')) b' →
  (∀ a, a ∉ boot_vars_at → (∀ sp intr, q = HRun sp intr → a ≠ cpu_area intr) → word (words (hr_core p')) a = word w a) →
  act_result w h q b p'.
Proof. intros <-. split; eauto. Qed.

Lemma act_clear p : access E h p HClear → b_harts b !! h = Some HClear → result HClear p.
Proof.
  intros Ha Hb. inversion Ha as [Hc Hcalm H0' H1'| | | | | |]. rewrite (do_store p T1 T0 _ _ Hc H0') by apply in_vars.
  pose proof vars_ne as (? & ? & ? & _). destruct Hw. eapply act_intro; [unfold hart_step; by rewrite Hb|reflexivity..| | |].
  - apply track_follows; [done|]. apply (cleared_follows L E h Hh Hsub (lo_main Hlo)); [done|]. by apply (calm_same 0 p).
  - split; cbn; rewrite word_insert; [by rewrite decide_True|by rewrite decide_False..].
  - intros a Hn _. cbn. rewrite word_insert, decide_False; [done|]. intros ->. apply Hn, in_vars.
Qed.

Lemma act_poll p : access E h p HPoll → b_harts b !! h = Some HPoll → result HPoll p.
Proof.
  intros Ha Hb. inversion Ha as [|Hc Hcalm H0' H1'| | | | |]. rewrite (do_load p T1 T1 _ _ Hc H1') by apply in_vars.
  pose proof Hw as [-> _ _ _]. eapply (act_intro _ _ (if k_boot_proc b =? h then HSpIdle else HPoll)); [reflexivity|..].
  1-3: unfold hart_step; rewrite Hb; destruct (_ =? _); try done; cbn; unfold put_hart; by rewrite insert_id.
  - apply track_follows; [by destruct (_ =? _)|]. apply (poll_follows L E h); [done| |done|done].
    by apply (calm_same 0 p).
  - cbn. unfold hart_step. rewrite Hb. by destruct (_ =? _); [destruct Hw; split|].
  - done.
Qed.

Lemma act_sp_idle p : access E h p HSpIdle → b_harts b !! h = Some HSpIdle → result HSpIdle p.
Proof.
  intros Ha Hb. inversion Ha as [| |Hc Hcalm H0' H1'| | | |]. rewrite (do_load p SP T0 _ _ Hc H1') by apply in_vars.
  pose proof Hw as [_ -> _ _]. eapply act_intro; [unfold hart_step; by rewrite Hb|reflexivity..| | |].
  - apply track_follows; [done|]. apply (sp_follows L E h); [done| |done|done]. by apply (calm_same 0 p).
  - by destruct Hw; split.
  - done.
Qed.

Lemma act_sp_intr p sp : access E h p (HSpIntr sp) → b_harts b !! h = Some (HSpIntr sp) → result (HSpIntr sp) p.
Proof.
  intros Ha Hb. inversion Ha as [| | |? Hc Hcalm H0' H1' H2'| | |]. rewrite (do_load p T0 T0 _ _ Hc H2') by apply in_vars.
  pose proof Hw as [_ _ -> _]. eapply act_intro; [unfold hart_step; by rewrite Hb|reflexivity..| | |].
  - apply track_follows; [done|]. apply (intr_follows L E h); [done| |done|done|done]. by apply (calm_same 0 p).
  - by destruct Hw; split.
  - done.
Qed.

Lemma act_done p sp intr : access E h p (HDone sp intr) → b_harts b !! h = Some (HDone sp intr) → result (HDone sp intr) p.
Proof.
  intros Ha Hb. inversion Ha as [| | | |? ? Hc Hcalm H0' H1' H2' H3' H4'| |]. rewrite (do_store p T1 T0 _ _ Hc H3') by apply in_vars.
  pose proof vars_ne as (? & ? & ? & ? & ? & ?). destruct Hw. eapply act_intro; [unfold hart_step; by rewrite Hb|reflexivity..| | |].
  - destruct (done_follows L E h (with_words (with_words (go p sub_started) (<[k_boot_done_at E := x (hr_core p) T1]> w)) ∅) sp intr)
      as (n & p' & Hr & Hcode & Hac); [done|by apply (calm_same 0 p)|done..|].
    exists n, p'. split; [exact Hr|]. split; [done|]. by rewrite Hcode.
  - split; cbn; rewrite word_insert; [by rewrite decide_False..|]. rewrite decide_True by done. by rewrite H4', (usize_small 1).
  - intros a Hn _. cbn. rewrite word_insert, decide_False; [done|]. intros ->. apply Hn, in_vars.
Qed.
Lemma act_run_intro sp intr p' : b_harts b !! h = Some (HRun sp intr) → tracks (words (hr_core p')) h (with_words p' ∅) (HRun sp intr) →
  (∀ a, a ≠ cpu_area intr → word (words (hr_core p')) a = word w a) → cpu_area intr ∉ boot_vars_at →
  act_result w h (HRun sp intr) b p'.
Proof.
  intros Hb Ht Ho Hn. assert (hart_step h b = b) as Hs by (unfold hart_step; by rewrite Hb).
  eapply act_intro; [exact Hs|by rewrite insert_id|done|done|done| |].
  - destruct Hw. split; rewrite Ho; try done; intros He; rewrite <-He in Hn; apply Hn, in_vars.
  - intros a _ Ha. apply Ho. by apply (Ha sp intr).
Qed.

Lemma act_run p sp intr : access E h p (HRun sp intr) → b_harts b !! h = Some (HRun sp intr) → cpu_area intr ∉ boot_vars_at →
  (hr_code p = Icall_c C_k_init_child :: sub_error → word w (cpu_area intr) = h) → result (HRun sp intr) p.
Proof.
  intros Ha Hb Hn Harea. destruct (access_run _ _ _ _ Ha) as [(Hc & Hcalm & Hra & H0' & H1' & H2' & H3')|(Hc & Hcalm & H0' & H1' & H2')].
  - rewrite (do_area w h p intr) by done. rewrite H0'.
    apply act_run_intro; [done| | |done].
    + destruct (area_follows L E (h) (with_words (with_words (go p (in_common E)) (<[cpu_area intr := h]> w)) ∅)
        sp intr) as (n & p' & Hr & Hcode & Hac); [done|by apply (calm_same 0 p)|done..|].
      exists n, p'. split; [exact Hr|]. split; [done|]. intros _ ? ? [= <- <-]. cbn. by rewrite word_insert, decide_True.
    + intros a Hne. cbn. by rewrite word_insert, decide_False.
  - assert (hart_do L E h (with_words p w) = with_words p w) as -> by (unfold hart_do; cbn; by rewrite Hc).
    apply act_run_intro; [done| |done|done]. exists 0%nat, (with_words (with_words p w) ∅). split; [constructor|]. split.
    + apply ac_child; try done. by apply (calm_same (started_status E) p).
    + intros _ ? ? [= <- <-]. by apply Harea.
Qed.

(** Any access. *)
Lemma act_step p q : access E h p q → b_harts b !! h = Some q → (∀ sp intr, q = HRun sp intr → cpu_area intr ∉ boot_vars_at) →
  (∀ sp intr, q = HRun sp intr → hr_code p = Icall_c C_k_init_child :: sub_error → word w (cpu_area intr) = h) → result q p.
Proof.
  intros Ha Hb Hn Hr. destruct q as [| | |sp|sp intr|sp intr];
    [by apply act_clear|by apply act_poll|by apply act_sp_idle|by apply act_sp_intr|by apply act_done|].
  apply act_run; eauto.
Qed.
End Access.

Lemma with_words_same p : words (hr_core p) = ∅ → with_words p ∅ = p.
Proof. destruct p as [[xs ws sc pc ca st] ie tv fc mn code ra]. cbn. by intros ->. Qed.

Notation hands := (binv L all).

(** The area of a hart that runs is its own and no variable. *)
Lemma run_area b h sp intr : hands b → b_harts b !! h = Some (HRun sp intr) →
  ∃ id, (id, h) ∈ all ∧ sp = sp_idle L id ∧ intr = sp_intr L id ∧ cpu_area intr = area_of id ∧ cpu_area intr ∉ boot_vars_at.
Proof.
  intros Hb Hh. destruct (binv_own_stacks L all b h sp intr Hb Hh) as (id & Hin & -> & ->).
  pose proof (lo_id Hlo _ _ Hin) as Hi. exists id. rewrite cpu_area_is by done. split_and!; try done. by apply area_not_var.
Qed.

Lemma hart_range b h q : hands b → b_harts b !! h = Some q → 0 <= h < 2 ^ 31.
Proof. intros Hb Hq. apply (bi_harts _ _ _ Hb). by eexists. Qed.

(** An instruction of a hart is its step of the hand-shake, or none. *)
Lemma sub_step_refines s b h : refines s b → hands b →
  refines (sub_step L E h s) (step L (boot_agent s (Hart h)) b).
Proof.
  intros Hr Hb. unfold boot_agent, acts_at. pose proof (rf_hart _ _ Hr h) as Hh.
  assert (hart_step (-1) b = b) as Hidle.
  { unfold hart_step. destruct (b_harts b !! (-1)) eqn:E1; [|done]. pose proof (hart_range b _ _ Hb E1). lia. }
  unfold sub_step. destruct (r_harts s !! h) as [p|] eqn:Hp.
  2: { cbn [step]. unfold hart_step. by destruct (b_harts b !! h). }
  destruct (b_harts b !! h) as [q|] eqn:Hq; [|done]. destruct Hh as (Hm & Hw & n & p' & Hrun & Hac & Hc).
  destruct Hrun as [p|n p p1 p' Ha Hdo Hrun].
  - rewrite (acts_access _ _ _ _ Hac). cbn [step].
    destruct (act_step (r_words s) h b (hart_range b h q Hb Hq) Hm (rf_vars _ _ Hr) p q Hac Hq) as [(q' & Hbh & Ht) Hv [Hpc Htd] Hwo].
    { intros sp intr ->. by destruct (run_area b h sp intr Hb Hq) as (? & _ & _ & _ & _ & ?). }
    { intros sp intr -> Hcode. by apply (Hc Hcode sp intr). }
    split; cbn [r_words r_pc r_todo r_harts]; [done|by rewrite Hpc, (rf_pc _ _ Hr)|by rewrite Htd, (rf_todo _ _ Hr)|].
    intros k. rewrite Hbh. destruct (decide (k = h)) as [->|Hne]; [rewrite !lookup_insert_eq; split_and!; done|].
    rewrite !lookup_insert_ne by done. pose proof (rf_hart _ _ Hr k) as Hk.
    destruct (r_harts s !! k) as [pk|], (b_harts b !! k) as [qk|] eqn:Hqk; try done. destruct Hk as (? & ? & Hk).
    do 2 (split; [done|]). eapply tracks_words; [|exact Hk]. intros sp intr ->.
    destruct (run_area b k sp intr Hb Hqk) as (id & Hid & _ & _ & -> & Hnv).
    apply Hwo; [apply area_not_var; by eapply lo_id|]. intros sp' intr' ->.
    destruct (run_area b h sp' intr' Hb Hq) as (id' & Hid' & _ & _ & -> & _).
    intros Heq%area_inj. subst id'. apply Hne. by eapply all_phys.
  - rewrite Ha. cbn [step]. rewrite Hidle. destruct (quiet_words h p (r_words s) Ha Hw) as [-> Hw1]. rewrite Hdo in *.
    split; cbn [r_words r_pc r_todo r_harts]; [apply Hr..|].
    intros k. change (with_words (with_words p1 (r_words s)) ∅) with (with_words p1 ∅). rewrite with_words_same by done.
    destruct (decide (k = h)) as [->|Hne]; [|rewrite lookup_insert_ne by done; apply Hr].
    rewrite lookup_insert_eq, Hq. do 2 (split; [done|]). by exists n, p'.
Qed.

(** The main CPU does its step. *)
Lemma wakeup_step_refines s b : refines s b → hands b → refines (wakeup_step L E s) (main_step L b).
Proof.
  intros Hr Hb. destruct Hr as [[V1 V2 V3 V4] Hpc Htd Hh].
  assert (∀ m, main_step L (mk_boot (k_boot_proc b) (k_boot_sp_idle b) (k_boot_sp_intr b) (k_boot_done b) (b_pc b) (b_todo b) m) =
    (fun c => mk_boot (k_boot_proc c) (k_boot_sp_idle c) (k_boot_sp_intr c) (k_boot_done c) (b_pc c) (b_todo c) m) (main_step L b)) as Hmain.
  { intros m. unfold main_step. cbn [b_todo b_pc k_boot_proc k_boot_sp_idle k_boot_sp_intr k_boot_done].
    destruct (b_todo b) as [|[id phys] rest] eqn:Et, (b_pc b) eqn:Ep; cbn; rewrite ?Et, ?Ep; done. }
  assert (b_harts (main_step L b) = b_harts b) as Hsame.
  { unfold main_step. destruct (b_todo b) as [|[id phys] rest], (b_pc b); done. }
  unfold wakeup_step, boot_vars. rewrite V1, V2, V3, V4, Hpc, Htd, Hmain. pose proof vars_ne as (? & ? & ? & ? & ? & ?).
  unfold put_vars. split; cbn [r_words r_pc r_todo r_harts b_pc b_todo k_boot_proc k_boot_sp_idle k_boot_sp_intr k_boot_done]; [|done|done|].
  - split; repeat (rewrite word_insert; case_decide; [done || congruence|try congruence]).
  - intros k. rewrite Hsame. specialize (Hh k). destruct (r_harts s !! k) as [pk|], (b_harts b !! k) as [qk|] eqn:Hqk; try done.
    destruct Hh as (? & ? & Hk). do 2 (split; [done|]). eapply tracks_words; [|exact Hk]. intros sp intr ->.
    destruct (run_area b k sp intr Hb Hqk) as (id & Hid & _ & _ & -> & _). pose proof (lo_id Hlo _ _ Hid) as Hi.
    pose proof in_vars as (? & ? & ? & ?). rewrite !word_insert, !decide_False by (by apply area_ne). done.
Qed.

Lemma reset_step_refines s b a : refines s b → hands b → refines (reset_step L E a s) (step L (boot_agent s a) b).
Proof. intros Hr Hb. destruct a as [|h]; [by apply wakeup_step_refines|by apply sub_step_refines]. Qed.

(** ** Runs *)

Section Runs.
Variable w0 : gmap Z Z.
Variable harts : gmap Z hart.
Variable sched : nat → agent.
Hypothesis Hreset : ∀ h p, harts !! h = Some p → at_reset E p.
Hypothesis Hrange : ∀ h p, harts !! h = Some p → 0 <= h < 2 ^ 31 ∧ h ≠ MHARTID_MAIN.
Hypothesis Hthere : ∀ id phys, (id, phys) ∈ all → is_Some (harts !! phys).

Definition hart_list : list Z := map fst (map_to_list harts).
Definition state (n : nat) : reset_state := run (reset_step L E) sched n (reset_start E w0 all harts).
(** The schedule of the hand-shake: no hart at all where an instruction is none of its steps. *)
Definition boot_sched (n : nat) : agent := boot_agent (state n) (sched n).
Definition shake (n : nat) : boot := run (step L) boot_sched n (boot_start all hart_list).

Lemma elem_hart_list h : h ∈ hart_list ↔ is_Some (harts !! h).
Proof.
  unfold hart_list. rewrite list_elem_of_fmap. split.
  - intros ([k p] & -> & Hin%elem_of_map_to_list). by eexists.
  - intros [p Hp]. exists (h, p). split; [done|]. by apply elem_of_map_to_list.
Qed.

Lemma boot_start_harts h : b_harts (boot_start all hart_list) !! h = (fun _ => HClear) <$> harts !! h.
Proof.
  cbn [boot_start b_harts]. destruct (harts !! h) as [p|] eqn:Hp; cbn.
  - apply elem_of_list_to_map_1'; [|apply list_elem_of_fmap; exists h; split; [done|]; apply elem_hart_list; by eexists].
    intros q (k & [= <- <-] & _)%list_elem_of_fmap. done.
  - apply not_elem_of_list_to_map_1. rewrite <-list_fmap_compose. intros (k & -> & Hk)%list_elem_of_fmap. cbn in Hp.
    apply elem_hart_list in Hk as [q Hq]. congruence.
Qed.

Lemma start_refines : refines (reset_start E w0 all harts) (boot_start all hart_list).
Proof.
  pose proof vars_ne as (? & ? & ? & ? & ? & ?). split; [|done|done|].
  - unfold reset_start, put_vars. cbn [r_words k_boot_proc k_boot_sp_idle k_boot_sp_intr k_boot_done].
    split; repeat (rewrite word_insert; case_decide; [done || congruence|try congruence]).
  - intros h. rewrite boot_start_harts. cbn [reset_start r_harts]. destruct (harts !! h) as [p|] eqn:Hp; cbn; [|done].
    destruct (Hrange h p Hp) as [Hh Hm]. pose proof (Hreset h p Hp) as Hat. split; [done|]. split; [apply Hat|].
    apply track_follows; [done|]. by apply reset_follows.
Qed.

Lemma shake_inv n : binv L all (shake n).
Proof.
  apply binv_reach; [apply Hlo|intros id phys Hin; apply elem_hart_list; by eapply Hthere|].
  intros h [p Hp]%elem_hart_list. by eapply Hrange.
Qed.

Lemma run_refines n : refines (state n) (shake n).
Proof.
  induction n as [|n IH]; [apply start_refines|]. unfold state, shake. cbn [run]. apply reset_step_refines; [exact IH|apply shake_inv].
Qed.

(** ** Turns *)

#[local] Instance agent_eq_dec : EqDecision agent.
Proof. solve_decision. Defined.

Lemma next_turn a n : fair sched a → ∃ m, (n <= m)%nat ∧ sched m = a ∧ ∀ i, (n <= i < m)%nat → sched i ≠ a.
Proof.
  intros Hf. destruct (Hf n) as (m & Hm & Ha). remember (m - n)%nat as d eqn:Hd.
  revert n Hm Hd. induction d as [|d IH]; intros n Hm Hd.
  - exists n. split; [lia|]. replace n with m by lia. split; [done|]. lia.
  - destruct (decide (sched n = a)) as [Hn|Hn]; [exists n; split; [lia|]; split; [done|]; lia|].
    destruct (IH (S n)) as (m' & Hm' & Ha' & Hi); [lia|lia|]. exists m'. split; [lia|]. split; [done|].
    intros i Hi'. destruct (decide (i = n)) as [->|]; [done|]. apply Hi. lia.
Qed.

Lemma others_step a h s : a ≠ Hart h → r_harts (reset_step L E a s) !! h = r_harts s !! h.
Proof.
  intros Hne. destruct a as [|k]; [done|]. cbn [reset_step]. unfold sub_step. destruct (r_harts s !! k) as [p|]; [|done].
  cbn [r_harts]. rewrite lookup_insert_ne; [done|]. congruence.
Qed.
Lemma others_run h n m : (n <= m)%nat → (∀ i, (n <= i < m)%nat → sched i ≠ Hart h) → r_harts (state m) !! h = r_harts (state n) !! h.
Proof.
  intros Hle. induction Hle as [|m Hle IH]; intros Hi; [done|]. unfold state. cbn [run].
  rewrite others_step by (apply Hi; lia). apply IH. intros i ?. apply Hi. lia.
Qed.

(** A hart whose turn comes again and again reaches the next access of its code. *)
Lemma reaches h : fair sched (Hart h) → ∀ k n p p', r_harts (state n) !! h = Some p → quiet_run L E h k p p' → acts p' = true →
  words (hr_core p) = ∅ → ∃ m, (n <= m)%nat ∧ sched m = Hart h ∧ r_harts (state m) !! h = Some p'.
Proof.
  intros Hf k. induction k as [|k IH]; intros n p p' Hp Hq Ha Hw;
    destruct (next_turn (Hart h) n Hf) as (m & Hm & Hs & Hi); pose proof (others_run h n m Hm Hi) as Hsame; rewrite Hp in Hsame.
  - inversion Hq; subst. by exists m.
  - inversion Hq as [|? ? p1 ? Hap Hdo Hq']; subst. destruct (quiet_words h p (r_words (state m)) Hap Hw) as [Hd Hw1].
    destruct (IH (S m) (hart_do L E h p) p') as (m' & Hm' & ?); [|done|done|done|exists m'; split; [lia|done]].
    unfold state. cbn [run]. rewrite Hs. fold (state m). cbn [reset_step]. unfold sub_step. rewrite Hsame. cbn [r_harts].
    rewrite lookup_insert_eq, Hd. f_equal. by apply (with_words_same (hart_do L E h p)).
Qed.

Lemma tracked n h p q : r_harts (state n) !! h = Some p → b_harts (shake n) !! h = Some q →
  words (hr_core p) = ∅ ∧ tracks (r_words (state n)) h p q.
Proof. intros Hp Hq. pose proof (rf_hart _ _ (run_refines n) h) as Hh. rewrite Hp, Hq in Hh. tauto. Qed.

Lemma hart_known n h : is_Some (harts !! h) → ∃ p q, r_harts (state n) !! h = Some p ∧ b_harts (shake n) !! h = Some q ∧ 0 <= h < 2 ^ 31.
Proof.
  intros Hh. assert (is_Some (r_harts (state n) !! h)) as [p Hp].
  { induction n as [|n IH]; [done|]. unfold state. cbn [run]. destruct (decide (sched n = Hart h)) as [Hs|Hs].
    - rewrite Hs. cbn [reset_step]. unfold sub_step. fold (state n). destruct IH as [p ->]. cbn [r_harts]. rewrite lookup_insert_eq. by eexists.
    - by rewrite others_step. }
  pose proof (rf_hart _ _ (run_refines n) h) as Ht. rewrite Hp in Ht. destruct (b_harts (shake n) !! h) as [q|] eqn:Hq; [|done].
  exists p, q. split_and!; try done. all: by eapply hart_range; [apply (shake_inv n)|exact Hq].
Qed.

(** The schedule of the hand-shake is fair to whom the schedule is fair. *)
Lemma boot_sched_main : fair sched Main → fair boot_sched Main.
Proof.
  intros Hf n. destruct (Hf n) as (m & Hm & Hs). exists m. split; [done|]. unfold boot_sched, boot_agent. by rewrite Hs.
Qed.
Lemma boot_sched_hart h : is_Some (harts !! h) → fair sched (Hart h) → fair boot_sched (Hart h).
Proof.
  intros Hh Hf n. destruct (hart_known n h Hh) as (p & q & Hp & Hq & _). destruct (tracked n h p q Hp Hq) as (Hw & k & p' & Hr & Hac & _).
  destruct (reaches h Hf k n p p' Hp Hr (acts_access _ _ _ _ Hac) Hw) as (m & Hm & Hs & Hp').
  exists m. split; [done|]. unfold boot_sched, boot_agent. rewrite Hs. cbn [acts_at]. by rewrite Hp', (acts_access _ _ _ _ Hac).
Qed.

(** ** Started harts *)

(** Hart [h] begins [k_init_child]: on the stack of CPU [id] for the idle thread, with its area, which
    holds its number, on top of the stack for interrupts, and with the trap handler in place. *)
Record in_child (id h : Z) (s : reset_state) (p : hart) : Prop := {
  ch_here : r_harts s !! h = Some p;
  ch_code : hr_code p = Icall_c C_k_init_child :: sub_error;
  ch_sp : x (hr_core p) SP = sp_idle L id;
  ch_tp : x (hr_core p) TP = area_of id;
  ch_scratch : scratch (hr_core p) = area_of id;
  ch_hartid : word (r_words s) (area_of id) = h;
  ch_calm : calm E (started_status E) p
}.

Lemma tracks_acts w h p q : tracks w h p q → acts p = true →
  access E h p q ∧ (hr_code p = Icall_c C_k_init_child :: sub_error → ∀ sp intr, q = HRun sp intr → word w (cpu_area intr) = h).
Proof. intros (n & p' & [p0|? p0 p1 p2 Ha] & Hac & Hc) Hp; [done|congruence]. Qed.

Lemma access_child h p q f k : access E h p q → hr_code p = Icall_c f :: k →
  hr_code p = Icall_c C_k_init_child :: sub_error ∧ ∃ sp intr, q = HRun sp intr.
Proof. intros [E1|E1|E1|? E1|? ? E1|? ? E1|? ? E1] Hc; rewrite Hc in E1; try done; unfold sub_go in E1; cbn in E1; try done. rewrite Hc. eauto. Qed.

Lemma child_is n h p f k : r_harts (state n) !! h = Some p → hr_code p = Icall_c f :: k → ∃ id, (id, h) ∈ all ∧ in_child id h (state n) p.
Proof.
  intros Hp Hc. pose proof (rf_hart _ _ (run_refines n) h) as Hh. rewrite Hp in Hh.
  destruct (b_harts (shake n) !! h) as [q|] eqn:Hq; [|done]. destruct Hh as (_ & _ & Ht).
  destruct (tracks_acts _ _ _ _ Ht) as [Hac Hw]; [unfold acts; by rewrite Hc|].
  destruct (access_child h p q f k Hac Hc) as (Hcode & sp & intr & ->).
  destruct (run_area (shake n) h sp intr (shake_inv n) Hq) as (id & Hin & -> & -> & Har & _). exists id. split; [done|].
  destruct (access_run h p _ _ Hac) as [(H1 & _)|(_ & ? & ? & ? & ?)]; [by rewrite Hcode in H1|].
  split; try done; rewrite <-Har; [done|done|]. by apply (Hw Hcode (sp_idle L id)).
Qed.

Lemma child_stays n m h p : (n <= m)%nat → words (hr_core p) = ∅ → r_harts (state n) !! h = Some p →
  hr_code p = Icall_c C_k_init_child :: sub_error → r_harts (state m) !! h = Some p.
Proof.
  intros Hle Hw Hp Hc. induction Hle as [|m Hle IH]; [done|]. unfold state. cbn [run]. fold (state m).
  destruct (decide (sched m = Hart h)) as [Hs|Hs]; [|by rewrite others_step].
  rewrite Hs. cbn [reset_step]. unfold sub_step. rewrite IH. cbn [r_harts]. rewrite lookup_insert_eq.
  unfold hart_do. cbn [hr_code with_words with_core]. rewrite Hc. cbn [exec_instr]. f_equal. by apply (with_words_same p).
Qed.

(** A hart that has its stacks gets to [k_init_child]. *)
Lemma run_to_child n h sp intr : fair sched (Hart h) → b_harts (shake n) !! h = Some (HRun sp intr) →
  ∃ m p, (n <= m)%nat ∧ r_harts (state m) !! h = Some p ∧ hr_code p = Icall_c C_k_init_child :: sub_error.
Proof.
  intros Hf Hq. pose proof (rf_hart _ _ (run_refines n) h) as Hh. rewrite Hq in Hh.
  destruct (r_harts (state n) !! h) as [p|] eqn:Hp; [|done]. destruct Hh as (_ & Hw & k & p' & Hr & Hac & _).
  destruct (reaches h Hf k n p p' Hp Hr (acts_access _ _ _ _ Hac) Hw) as (m & Hm & Hs & Hp').
  destruct (access_run h p' sp intr Hac) as [(Hc & Hcalm & Hra & _ & H1 & H2 & H3)|(Hc & _)]; [|by exists m, p'].
  destruct (area_follows L E h (with_words (with_words (go p' (in_common E)) (<[cpu_area intr := x (hr_core p') A0]> (r_words (state m)))) ∅)
    sp intr) as (j & p2 & Hr2 & Hc2 & Hac2); [done|by apply (calm_same 0 p')|done..|].
  assert (r_harts (state (S m)) !! h =
    Some (with_words (with_words (go p' (in_common E)) (<[cpu_area intr := x (hr_core p') A0]> (r_words (state m)))) ∅)) as Hp2.
  { unfold state. cbn [run]. fold (state m). rewrite Hs. cbn [reset_step]. unfold sub_step. rewrite Hp'. cbn [r_harts].
    rewrite lookup_insert_eq. by rewrite (do_area _ h p' intr). }
  destruct (reaches h Hf j (S m) _ p2 Hp2 Hr2) as (m2 & Hm2 & _ & Hp3); [unfold acts; by rewrite Hc2|done|].
  exists m2, p2. split; [lia|done].
Qed.

Lemma eventually_all {A} (l : list A) (P : A → nat → Prop) : (∀ y, y ∈ l → ∃ n, ∀ m, (n <= m)%nat → P y m) →
  ∃ n, ∀ m, (n <= m)%nat → ∀ y, y ∈ l → P y m.
Proof.
  induction l as [|y l IH]; intros Hl; [exists 0%nat; intros m _ y Hy; by apply elem_of_nil in Hy|].
  destruct (Hl y) as [n1 H1]; [left|]. destruct IH as [n2 H2]; [intros z Hz; apply Hl; by right|].
  exists (n1 + n2)%nat. intros m Hm z [->|Hz]%elem_of_cons; [apply H1; lia|apply H2; [lia|done]].
Qed.
End Runs.
End System.

(** C7: the code of reset starts the CPUs.  All harts but the main one execute start.S one instruction
    at a time, in any order and with any registers, while [cpu_riscv_wakeup] runs on the main
    CPU.  If the main CPU and the CPUs of the list go on, there is a time from which on each of them is at
    the call of [k_init_child] with its own stack, with its hart number in its own area behind its
    stack for interrupts, where [tp] and [mscratch] point, with [mstatus], [mtvec] and [gp] set up,
    and the notify area is clear.  At no time is a hart at any call of C otherwise. *)
Theorem k_reset_starts_cpus `{Arch} `{Config} L E all w harts sched (Hlo : layout_ok L E all)
    (Hreset : ∀ h p, harts !! h = Some p → at_reset E p)
    (Hrange : ∀ h p, harts !! h = Some p → 0 <= h < 2 ^ 31 ∧ h ≠ MHARTID_MAIN)
    (Hthere : ∀ id phys, (id, phys) ∈ all → is_Some (harts !! phys))
    (Hmain : fair sched Main) (Hfair : ∀ id phys, (id, phys) ∈ all → fair sched (Hart phys)) :
  let state := state L E all w harts sched in
  (∃ n, ∀ m, (n <= m)%nat → word (r_words (state m)) (k_boot_proc_at E) = no_proc ∧ r_todo (state m) = [] ∧
     ∀ id phys, (id, phys) ∈ all → ∃ p, in_child L E id phys (state m) p) ∧
  (∀ m h p f k, r_harts (state m) !! h = Some p → hr_code p = Icall_c f :: k → ∃ id, (id, h) ∈ all ∧ in_child L E id h (state m) p).
Proof.
  intros st. split; [|intros m h p f k; by apply child_is].
  destruct (wakeup_ends L all (hart_list harts) (boot_sched L E all w harts sched)) as [n0 Hend]; [apply Hlo|..].
  { intros id phys Hin. apply elem_hart_list. by eapply Hthere. }
  { intros h [p Hp]%elem_hart_list. by eapply Hrange. }
  { by apply boot_sched_main. }
  { intros id phys Hin. apply boot_sched_hart; try done; [by eapply Hthere|by eapply Hfair]. }
  pose proof (shake_inv L E all Hlo w harts sched Hrange Hthere) as Hinv.
  pose proof (run_refines L E all Hlo w harts sched Hreset Hrange Hthere) as Href.
  destruct (eventually_all all (fun y m => ∃ p, in_child L E y.1 y.2 (st m) p)) as [n1 Hall].
  - intros [id phys] Hin. destruct (binv_done L all _ (Hinv n0) (Hend n0 (le_n _))) as [_ Hrun]. specialize (Hrun id phys Hin).
    destruct (run_to_child L E all Hlo w harts sched Hreset Hrange Hthere n0 phys _ _ (Hfair _ _ Hin) Hrun) as (m & p & Hm & Hp & Hc).
    exists m. intros m' Hm'. exists p.
    destruct (child_is L E all Hlo w harts sched Hreset Hrange Hthere m phys p _ _ Hp Hc) as (id' & Hin' & Hch).
    assert (r_harts (st m') !! phys = Some p) as Hp' by (eapply (child_stays L E all w harts sched m); [done|apply Hch|done|done]).
    destruct (child_is L E all Hlo w harts sched Hreset Hrange Hthere m' phys p _ _ Hp' Hc) as (id2 & Hin2 & Hch2).
    cbn [fst snd]. by rewrite (all_id L E all Hlo phys id id2).
  - exists (n0 + n1)%nat. intros m Hm. split; [|split].
    + unfold st. rewrite (sv_proc _ _ _ (rf_vars _ _ _ _ (Href m))). apply (binv_done L all _ (Hinv m)). apply Hend. lia.
    + unfold st. rewrite (rf_todo _ _ _ _ (Href m)). apply Hend. lia.
    + intros id phys Hin. apply (Hall m ltac:(lia) _ Hin).
Qed.

(** ** The main CPU *)

Section Leader.
Context `{Arch} `{Config}.
Variable L : layout.
Variable E : reset_env.

(** The hart alone, on a memory of its own. *)
Definition alone (n : nat) (p : hart) : hart := Nat.iter n (hart_do L E MHARTID_MAIN) p.
Definition gets_to (p : hart) (Q : hart → Prop) : Prop := ∃ n, Q (alone n p).

Lemma gets_now p (Q : hart → Prop) : Q p → gets_to p Q.
Proof. by exists 0%nat. Qed.
Definition busy (p : hart) : bool := match hr_code p with [] | Icall_c _ :: _ => false | _ :: _ => true end.
Lemma gets_step p p1 Q : busy p = true → hart_do L E MHARTID_MAIN p = p1 → gets_to p1 Q → gets_to p Q.
Proof. intros _ <- [n Hn]. exists (S n). unfold alone in *. by rewrite Nat.iter_succ_r. Qed.

Lemma gets_trans p Q Q' : gets_to p Q' → (∀ p', Q' p' → gets_to p' Q) → gets_to p Q.
Proof. intros [n Hn] H'. destruct (H' _ Hn) as [m Hm]. exists (m + n)%nat. unfold alone in *. by rewrite Nat.iter_add. Qed.

Ltac gets := eapply gets_step; [reflexivity|one_instr; reflexivity|].

Lemma usize_sum a b : usize (usize a + usize b) = usize (b + usize ((0 + 1) * a)).
Proof. unfold uwrap. rewrite <-Zplus_mod, Zplus_mod_idemp_r. f_equal. lia. Qed.

Lemma leader_common p : hr_code p = k_start_for_common E → x (hr_core p) X0 = 0 →
  gets_to p (fun p' => hr_code p' = hr_ra p ∧ x (hr_core p') SP = x (hr_core p) SP ∧ x (hr_core p') TP = cpu_area (scratch (hr_core p)) ∧
    scratch (hr_core p') = cpu_area (scratch (hr_core p)) ∧ hr_xie p' = hr_xie p ∧ hr_xtvec p' = hr_xtvec p ∧ x (hr_core p') X0 = 0 ∧
    words (hr_core p') = <[cpu_area (scratch (hr_core p)) := x (hr_core p) A0]> (words (hr_core p)) ∧
    (status (hr_core p) = 0 → status (hr_core p') = started_status E)).
Proof.
  destruct p as [[xs ws sc pc ca st] ie tv fc mn code ra]. cbn [hr_code hr_core hr_ra hr_xie hr_xtvec x words scratch status].
  intros -> Hz. unfold started_status. do 6 gets. assert (usize (cpu_area sc + CPUREGOFF_HARTID) = cpu_area sc) as Ha.
  { unfold CPUREGOFF_HARTID, cpu_area. rewrite Z.mul_0_r, Z.add_0_r. apply uwrap_small, uwrap_range. pose proof xlen_ge. lia. }
  destruct (CONFIG_FPU E), (CONFIG_VPU E); cbn [app]; repeat gets; apply gets_now; one_instr; unfold cpu_area in *; rewrite Ha;
    split_and!; try done; by intros ->.
Qed.

(** C11: the main CPU begins [k_init_system] on the stack of CPU 0 and with the area of CPU 0, whatever its
    registers were: its area is the one place of memory written besides the notify area, and when
    [k_init_system] comes back [k_init_leader] is called. *)
Theorem k_reset_leader w p (Hcode : hr_code p = k_reset E) (Hz : x (hr_core p) X0 = 0) (Hw : words (hr_core p) = w)
    (Hmain : 0 <= MHARTID_MAIN < 2 ^ 31) (Hvar : 0 <= k_boot_proc_at E < 2 ^ xlen) :
  ∃ n, let p' := alone n p in let area := cpu_area (sp_intr L 0) in
  hr_code p' = Icall_c C_k_init_system :: Icall_c C_k_init_leader :: main_error ∧
  x (hr_core p') SP = sp_idle L 0 ∧ x (hr_core p') TP = area ∧ scratch (hr_core p') = area ∧
  hr_xie p' = 0 ∧ hr_xtvec p' = usize (k_trap_start_at E) ∧ status (hr_core p') = started_status E ∧
  words (hr_core p') = <[area := MHARTID_MAIN]> (<[k_boot_proc_at E := no_proc]> w).
Proof.
  change (gets_to p (fun p' => let area := cpu_area (sp_intr L 0) in
    hr_code p' = Icall_c C_k_init_system :: Icall_c C_k_init_leader :: main_error ∧
    x (hr_core p') SP = sp_idle L 0 ∧ x (hr_core p') TP = area ∧ scratch (hr_core p') = area ∧
    hr_xie p' = 0 ∧ hr_xtvec p' = usize (k_trap_start_at E) ∧ status (hr_core p') = started_status E ∧
    words (hr_core p') = <[area := MHARTID_MAIN]> (<[k_boot_proc_at E := no_proc]> w))).
  destruct p as [[xs ws sc pc ca st] ie tv fc mn code ra]. cbn [hr_code hr_core x words] in *. subst code ws.
  unfold k_reset. assert (usize (usize (k_boot_proc_at E) + 0) = k_boot_proc_at E) as Hv.
  { rewrite Z.add_0_r, (uwrap_small _ (k_boot_proc_at E)) by done. by apply uwrap_small. }
  assert (usize MHARTID_MAIN = MHARTID_MAIN) as Hm by (by apply usize_hart).
  destruct (CONFIG_RISCV_RNMI E); cbn [app].
  all: repeat gets; rewrite Z.eqb_refl; do 8 gets.
  all: eapply gets_trans; [apply leader_common; [reflexivity|exact Hz]|].
  all: cbn [hr_core hr_xie hr_xtvec hr_ra x words scratch status]; rewrite !usize_sum, Hv, Hm, Hz.
  all: intros p' (H1 & H2 & H3 & H4 & H5 & H6 & _ & H7 & H8); apply gets_now; split_and!; auto.
Qed.
End Leader.

(** The frame of a trap of a started CPU ends where its area begins. *)
Lemma trap_spares_cpu_area `{Arch} m : trap_ok m → scratch m ≠ 0 → outside (trap_base m) (scratch m).
Proof.
  intros _ Hs i Hi. unfold trap_base, trap_top, slot, REGOFF_ALL, REG_ALL. rewrite (proj2 (Z.eqb_neq _ _) Hs).
  pose proof regsize_pos. nia.
Qed.

(** ** Examples *)

Definition demo_env : reset_env := mk_reset_env false true false 0x80000100 0x80401000 0x80400000 0x80400008 0x80400010 0x80400018.
Definition demo_all : list (Z * Z) := [(1, 1); (2, 3)].
Definition demo_hart : hart :=
  mk_hart (mk_machine (fun r => match r with X0 => 0 | _ => 77 end) ∅ 0 0 0 0x1800) 5 5 0 0 (@k_reset qemu_virt demo_env) [].
Definition demo_harts : gmap Z hart := {[1 := demo_hart; 3 := demo_hart; 5 := demo_hart]}.

Lemma demo_layout_ok : @layout_ok rv64 qemu_virt demo_layout demo_env demo_all.
Proof.
  split.
  - apply (bool_decide_unpack _). by vm_compute.
  - intros a Ha. assert (Forall (fun a => 0 <= a < 2 ^ 64 ∧ (a < 0x80200000 ∨ 0x80204000 <= a)) (boot_vars_at demo_env)) as Hall
      by (apply (bool_decide_unpack _); by vm_compute). by apply (proj1 (Forall_forall _ _) Hall).
  - by vm_compute.
  - by vm_compute.
  - apply (bool_decide_unpack _). by vm_compute.
  - intros id phys Hi. assert (Forall (fun y => 0 <= y.1 < 4) demo_all) as Hall by (apply (bool_decide_unpack _); by vm_compute).
    by apply (proj1 (Forall_forall _ _) Hall (id, phys)).
  - apply (bool_decide_unpack _). by vm_compute.
  - by vm_compute.
Qed.
Lemma demo_harts_are h p : demo_harts !! h = Some p → p = demo_hart ∧ h ∈ [1; 3; 5].
Proof. unfold demo_harts. rewrite !lookup_insert_Some, lookup_singleton_Some, !elem_of_cons. naive_solver. Qed.

Lemma k_reset_starts_cpus_witness :
  ∃ n p, @in_child rv64 qemu_virt demo_layout demo_env 2 3 (@state rv64 qemu_virt demo_layout demo_env demo_all ∅ demo_harts in_turn n) p ∧
    x (hr_core p) TP = 0x80202ff0.
Proof.
  destruct (@k_reset_starts_cpus rv64 qemu_virt demo_layout demo_env demo_all ∅ demo_harts in_turn demo_layout_ok) as [(n & Hn) _].
  - by intros h p [-> _]%demo_harts_are.
  - intros h p [_ Hh]%demo_harts_are. rewrite !elem_of_cons in Hh.
    destruct Hh as [->|[->|[->|Hh]]]; [split; [lia|by vm_compute]..|by apply elem_of_nil in Hh].
  - intros id phys Hi. unfold demo_all in Hi. rewrite !elem_of_cons in Hi. destruct Hi as [Hi|[Hi|Hi]]; [| |by apply elem_of_nil in Hi];
      simplify_eq; by eexists.
  - apply (in_turn_fair 0); [lia|done].
  - intros id phys Hi. unfold demo_all in Hi. rewrite !elem_of_cons in Hi. destruct Hi as [Hi|[Hi|Hi]]; [| |by apply elem_of_nil in Hi]; simplify_eq.
    + apply (in_turn_fair 1); [lia|done].
    + apply (in_turn_fair 2); [lia|done].
  - destruct (Hn n (le_n _)) as (_ & _ & Hall). destruct (Hall 2 3 ltac:(right; left)) as [p Hp]. exists n, p.
    split; [exact Hp|]. exact (ch_tp _ _ _ _ _ _ Hp).
Defined.

Lemma k_reset_leader_witness :
  ∃ n, let p' := @alone rv64 qemu_virt demo_layout demo_env n demo_hart in
  x (hr_core p') SP = 0x80301000 ∧ x (hr_core p') TP = 0x80200ff0 ∧ status (hr_core p') = 0x6000.
Proof.
  destruct (@k_reset_leader rv64 qemu_virt demo_layout demo_env ∅ demo_hart eq_refl eq_refl eq_refl) as (n & _ & Hs & Ht & _ & _ & _ & Hst & _).
  - by vm_compute.
  - by vm_compute.
  - exists n. cbv zeta. rewrite Hs, Ht, Hst. split_and!; reflexivity.
Defined.

(** [k_boot_done] is an [int], but the start code stores a whole register to it: on a machine of 64
    bits what lies behind it is cleared. *)
Example k_boot_done_overrun :
  let m := store_le 4 ∅ 0x104 7 in
  load_le 4 (@store_ptr rv64 m 0x100 1) 0x104 = 0 ∧ load_le 4 (@store_ptr rv32 m 0x100 1) 0x104 = 7.
Proof. split; reflexivity. Qed.
