(* ===== verification/Init.v ===== *)
(** * Start of the system (sys/init.c)

    [k_init_system] runs on the leader before anything else: it clears the memory of the
    static variables and copies those with a value, and initialises the heap, the drivers
    and the process.  The whole state is a [system]; the addresses that the linker
    gives are the fields of [linker].  A panic never returns. *)

From S2P Require Import Prelude Config CString Memory Event Regs Cpu Thread Device File Syscall Intr Clk Uart Gpio SysDev Boards.

Class InitConfig := {
  CONFIG_CLEAR_BSS : bool;
  CONFIG_XIP : bool;
  CONFIG_GPIO : bool;
  CONFIG_PWR_OFF_AFTER_EXIT : bool
}.

(** A section that is cleared, and one that is copied from where it was loaded. *)
Record area := mk_area { a_start : Z; a_end : Z }.
Record load_area := mk_load { l_start : Z; l_end : Z; l_load : Z }.

Record linker := mk_linker {
  bss : area;
  sbss : area;
  preinit_array : load_area;
  init_array : load_area;
  fini_array : load_area;
  data : load_area;
  sdata : load_area;
  tdata : load_area;
  heap_area : Z
}.

Record system (W : Type) := mk_system {
  y_heap : mem_state;
  y_tree : devtree;
  y_sys : sys W;
  y_fds : gmap Z (k_file_desc (sys W));
  y_lock : Z
}.
Arguments mk_system {W}.
Arguments y_heap {W}.
Arguments y_tree {W}.
Arguments y_sys {W}.
Arguments y_fds {W}.
Arguments y_lock {W}.

Section Init.
Context `{Arch} `{Config} `{InitConfig} {W : Type} `{Mmio W}.
Variable K : linker.
Variable fuel : nat.

Definition kern_in (s : sys W) : kern := q_kern (s_irq s).
Definition with_kern (s : sys W) (k : kern) : sys W :=
  let '(e, q) := irq_get s in irq_put (e, put_kern k q) s.

Definition clear_area (a : area) (m : mem) : exec mem :=
  '(m, _) ← k_memset m (a_start a) 0 (usize (a_end a - a_start a)); Ret m.
Definition clear_bss (m : mem) : exec mem :=
  if CONFIG_CLEAR_BSS then
    m ← clear_area (bss K) m;
    clear_area (sbss K) m
  else Ret m.

Definition copy_area (l : load_area) (m : mem) : exec mem :=
  '(m, _) ← k_memcpy m (l_start l) (l_load l) (usize (l_end l - l_start l)); Ret m.
Fixpoint copy_areas (l : list load_area) (m : mem) : exec mem :=
  match l with
  | [] => Ret m
  | a :: l => m ← copy_area a m; copy_areas l m
  end.
Definition load_areas : list load_area :=
  [preinit_array K; init_array K; fini_array K; data K; sdata K; tdata K].
Definition copy_data (m : mem) : exec mem :=
  if CONFIG_XIP then copy_areas load_areas m else Ret m.

(** [k_init_panic] *)
Definition k_init_panic {A} : exec A := Hang.

Definition pi_set_pid (p : k_proc_info) (pid : Z) : k_proc_info :=
  mk_proc pid (pi_avail p) (pi_lock p) (pi_leader p) (pi_fdset p).

(** The files of the process that is there. *)
Definition stdio_init (f : files (sys W)) : exec (Z * files (sys W)) :=
  if CONFIG_GPIO then k_file_stdio_init_gpio f else k_file_stdio_init f.

Definition init_proc (y : system W) : exec (Z * system W) :=
  let s := y_sys y in
  let '(ok, k) := k_proc_create (kern_in s) in
  if negb ok then Undef else
  let p := pi_set_pid (k_pi k) CONFIG_MAIN_PID in
  '(r, f) ← stdio_init (mk_files p (y_fds y) (k_mem k) (mk_console (y_lock y) 0 s));
  let k := with_kmem (with_proc k (f_pi f)) (f_mem f) in
  let y := mk_system (y_heap y) (y_tree y) (with_kern s k) (f_desc f) (con_lock (f_con f)) in
  if truth r then Ret (r, y) else Ret (0, y).

Definition fini_proc : Z := 0.
Definition fini_drivers : Z := 0.

(** The initialisation functions that the linker has collected. *)
Variable calls : list (initcall (W := sys W)).

Definition k_init_system (y : system W) : exec (system W) :=
  m ← clear_bss (k_mem (kern_in (y_sys y)));
  m ← copy_data m;
  let s := with_kern (y_sys y) (with_kmem (kern_in (y_sys y)) m) in
  '(r, g) ← k_mem_init (y_heap y) (heap_area K);
  if truth r then k_init_panic else
  '(r, t, s) ← init_drivers (dev_ops fuel) sys_bus_ops fuel calls (y_tree y) s;
  if truth r then k_init_panic else
  '(r, y) ← init_proc (mk_system g t s (y_fds y) (y_lock y));
  if truth r then k_init_panic else Ret y.

(** The result of [k_fini_power_off] is not looked at; [fini_proc] and [fini_drivers] change nothing. *)
Definition k_fini_system (y : system W) : exec (system W) :=
  if CONFIG_PWR_OFF_AFTER_EXIT then
    rst ← system_reset acc_ops reset_ops (y_tree y) (s_devs (y_sys y));
    let '(e, q) := irq_get (y_sys y) in
    '(_, w) ← k_fini_power_off rst (q_io q);
    Ret (mk_system (y_heap y) (y_tree y) (irq_put (e, with_io q w) (y_sys y)) (y_fds y) (y_lock y))
  else Ret y.
End Init.

(** ** Memory after the start *)

Section Memory.
Context `{Arch} `{Config} `{InitConfig}.

Definition inside (s e a : Z) : bool := (s <=? a) && (a <? e).

(** What the address [a] holds once the sections of [l] have been copied. *)
Fixpoint copied_value (l : list load_area) (m : mem) (a : Z) : Z :=
  match l with
  | [] => load8 m a
  | x :: l => if inside (l_start x) (l_end x) a then load8 m (l_load x + (a - l_start x)) else copied_value l m a
  end.
Definition cleared_value (K : linker) (m : mem) (a : Z) : Z :=
  if inside (a_start (bss K)) (a_end (bss K)) a || inside (a_start (sbss K)) (a_end (sbss K)) a then 0 else load8 m a.

(** The conditions of the linker script: sections of a size that fits, each apart from the
    others and from the places the sections are copied from, which are not cleared either. *)
Definition size_fits (s e : Z) : Prop := 0 <= e - s < 2 ^ xlen.
Definition apart (s e s' e' : Z) : Prop := e <= s' ∨ e' <= s.
Definition load_end (x : load_area) : Z := l_load x + (l_end x - l_start x).
Fixpoint areas_apart (l : list load_area) : Prop :=
  match l with
  | [] => True
  | x :: l => (∀ y, y ∈ l → apart (l_start x) (l_end x) (l_start y) (l_end y)) ∧ areas_apart l
  end.
Record linker_ok (K : linker) : Prop := {
  lk_bss : size_fits (a_start (bss K)) (a_end (bss K));
  lk_sbss : size_fits (a_start (sbss K)) (a_end (sbss K));
  lk_size : ∀ x, x ∈ load_areas K → size_fits (l_start x) (l_end x);
  lk_apart : areas_apart (load_areas K);
  lk_load : ∀ x y, x ∈ load_areas K → y ∈ load_areas K → apart (l_start x) (l_end x) (l_load y) (load_end y);
  lk_kept : ∀ x, x ∈ load_areas K → apart (a_start (bss K)) (a_end (bss K)) (l_load x) (load_end x) ∧
    apart (a_start (sbss K)) (a_end (sbss K)) (l_load x) (load_end x)
}.

Lemma insideP s e a : reflect (s <= a < e) (inside s e a).
Proof. apply iff_reflect. unfold inside. rewrite andb_true_iff, Z.leb_le, Z.ltb_lt. done. Qed.

Lemma usize_fits s e : size_fits s e → usize (e - s) = e - s.
Proof. intros. by apply Z.mod_small. Qed.

Lemma clear_area_ret x m : size_fits (a_start x) (a_end x) →
  ∃ m', clear_area x m = Ret m' ∧ ∀ a, load8 m' a = if inside (a_start x) (a_end x) a then 0 else load8 m a.
Proof.
  intros Hx. unfold clear_area. rewrite usize_fits by done.
  destruct (memset_filled m (a_start x) 0 (a_end x - a_start x)) as (m' & -> & Hm); [apply Hx|].
  exists m'. split; [done|]. intros a. rewrite Hm. replace (a_start x + (a_end x - a_start x)) with (a_end x) by lia. done.
Qed.

Lemma clear_bss_ret K m : linker_ok K → ∃ m', clear_bss K m = Ret m' ∧
  ∀ a, load8 m' a = if CONFIG_CLEAR_BSS then cleared_value K m a else load8 m a.
Proof.
  intros Hk. unfold clear_bss, cleared_value. destruct CONFIG_CLEAR_BSS; [|by exists m].
  destruct (clear_area_ret (bss K) m (lk_bss K Hk)) as (m1 & -> & Hm1). mstep.
  destruct (clear_area_ret (sbss K) m1 (lk_sbss K Hk)) as (m2 & -> & Hm2). exists m2. split; [done|].
  intros a. rewrite Hm2, Hm1. by destruct (inside (a_start (bss K)) _ a), (inside (a_start (sbss K)) _ a).
Qed.

Lemma copy_area_ret x m : size_fits (l_start x) (l_end x) → apart (l_start x) (l_end x) (l_load x) (load_end x) →
  ∃ m', copy_area x m = Ret m' ∧
    ∀ a, load8 m' a = if inside (l_start x) (l_end x) a then load8 m (l_load x + (a - l_start x)) else load8 m a.
Proof.
  intros Hx Ha. unfold copy_area. rewrite usize_fits by done.
  destruct (memcpy_copied m (l_start x) (l_load x) (l_end x - l_start x)) as (m' & -> & Hm);
    [apply Hx|unfold disjoint, apart, load_end in *; lia|].
  exists m'. split; [done|]. intros a. rewrite Hm. replace (l_start x + (l_end x - l_start x)) with (l_end x) by lia. done.
Qed.

(** Sections that are not at [a], or that are copied from bytes two memories agree on. *)
Lemma copied_value_out l m a : (∀ x, x ∈ l → ¬ (l_start x <= a < l_end x)) → copied_value l m a = load8 m a.
Proof.
  induction l as [|x l IH]; intros Hl; [done|]. cbn [copied_value].
  destruct (insideP (l_start x) (l_end x) a); [by destruct (Hl x ltac:(left))|]. apply IH. intros y Hy. apply Hl. by right.
Qed.
Lemma copied_value_agree l m m' a :
  (∀ x b, x ∈ l → l_load x <= b < load_end x → load8 m' b = load8 m b) → load8 m' a = load8 m a →
  copied_value l m' a = copied_value l m a.
Proof.
  induction l as [|x l IH]; intros Hl Ha; [done|]. cbn [copied_value].
  destruct (insideP (l_start x) (l_end x) a).
  - apply (Hl x); [left|unfold load_end; lia].
  - apply IH; [|done]. intros y b Hy. apply Hl. by right.
Qed.

Lemma copy_areas_ret l : ∀ m, areas_apart l → (∀ x, x ∈ l → size_fits (l_start x) (l_end x)) →
  (∀ x y, x ∈ l → y ∈ l → apart (l_start x) (l_end x) (l_load y) (load_end y)) →
  ∃ m', copy_areas l m = Ret m' ∧ ∀ a, load8 m' a = copied_value l m a.
Proof.
  induction l as [|x l IH]; intros m Hd Hs Ha; [by exists m|]. destruct Hd as [Hx Hd]. cbn [copy_areas copied_value].
  destruct (copy_area_ret x m) as (m1 & -> & Hm1); [apply Hs; left|apply Ha; left|]. mstep.
  destruct (IH m1 Hd) as (m2 & -> & Hm2); [intros y Hy; apply Hs; by right|intros y z Hy Hz; apply Ha; by right|].
  exists m2. split; [done|]. intros a. rewrite Hm2. destruct (insideP (l_start x) (l_end x) a) as [Hin|Hout].
  - rewrite copied_value_out; [rewrite Hm1; by destruct (insideP (l_start x) (l_end x) a)|].
    intros y Hy Hya. pose proof (Hx y Hy). unfold apart in *. lia.
  - apply copied_value_agree; [|rewrite Hm1; by destruct (insideP (l_start x) (l_end x) a)].
    intros y b Hy Hb. rewrite Hm1. destruct (insideP (l_start x) (l_end x) b); [|done].
    pose proof (Ha x y ltac:(left) ltac:(by right)). unfold apart in *. lia.
Qed.

(** What an address holds when the drivers start. *)
Definition start_value (K : linker) (m : mem) (a : Z) : Z :=
  if CONFIG_XIP && existsb (fun x => inside (l_start x) (l_end x) a) (load_areas K) then copied_value (load_areas K) m a
  else if CONFIG_CLEAR_BSS then cleared_value K m a else load8 m a.

Lemma copied_value_in l m m' a : existsb (fun x => inside (l_start x) (l_end x) a) l = true →
  (∀ x b, x ∈ l → l_load x <= b < load_end x → load8 m' b = load8 m b) → copied_value l m' a = copied_value l m a.
Proof.
  induction l as [|x l IH]; intros He Hl; [done|]. cbn [existsb copied_value] in *.
  destruct (insideP (l_start x) (l_end x) a).
  - apply (Hl x); [left|unfold load_end; lia].
  - apply IH; [done|]. intros y b Hy. apply Hl. by right.
Qed.

Lemma start_memory K m : linker_ok K →
  ∃ m1 m2, clear_bss K m = Ret m1 ∧ copy_data K m1 = Ret m2 ∧ ∀ a, load8 m2 a = start_value K m a.
Proof.
  intros Hk. destruct (clear_bss_ret K m Hk) as (m1 & E1 & Hm1). exists m1. unfold copy_data, start_value.
  destruct CONFIG_XIP; [|by exists m1]. cbn [andb].
  destruct (copy_areas_ret (load_areas K) m1 (lk_apart K Hk) (lk_size K Hk) (lk_load K Hk)) as (m2 & E2 & Hm2).
  exists m2. split; [done|]. split; [done|]. intros a. rewrite Hm2.
  destruct (existsb _ _) eqn:He.
  - apply copied_value_in; [done|]. intros x b Hx Hb. rewrite Hm1. destruct CONFIG_CLEAR_BSS; [|done].
    unfold cleared_value. destruct (lk_kept K Hk x Hx) as [Hc Hc']. unfold apart in *.
    destruct (insideP (a_start (bss K)) (a_end (bss K)) b); [lia|].
    by destruct (insideP (a_start (sbss K)) (a_end (sbss K)) b); [lia|].
  - rewrite copied_value_out; [apply Hm1|]. intros x Hx Hin.
    assert (existsb (fun x => inside (l_start x) (l_end x) a) (load_areas K) = true); [|congruence].
    apply existsb_exists. exists x. split; [by apply list_elem_of_In|]. by destruct (insideP (l_start x) (l_end x) a).
Qed.
End Memory.

(** ** The boards *)

Section Reset.
Context `{Arch} `{Config} `{Mmio board_io}.

(** The state at reset: the static variables of the program are zero but for those with a value. *)
Definition static_system (b : board) (w : board_io) (m : mem) (fds : gmap Z (k_file_desc (sys board_io))) : system board_io :=
  let s := sys_static b w in
  mk_system mem_state_reset (tree_of b) (with_kern s (with_kmem (kern_in s) m)) fds 0.
Definition start_drivers (first : bool) (b : board) (y : system board_io) : exec (Z * devtree * sys board_io) :=
  init_drivers (dev_ops 2) sys_bus_ops 2 (initcalls 2 first b) (y_tree y) (y_sys y).
End Reset.

Definition static_build (b : build) : mem → gmap Z (k_file_desc (sys board_io)) → system board_io :=
  @static_system (bd_config b) (bd_board b) (io_start []).
Definition init_build `{InitConfig} (first : bool) (b : build) (K : linker) : system board_io → exec (system board_io) :=
  @k_init_system (bd_arch b) (bd_config b) _ board_io _ K 2 (@initcalls (bd_arch b) (bd_config b) board_io _ 2 first (bd_board b)).

(** The process with its standard files, and the lines of a GPIO. *)
Definition process_started `{Config} `{InitConfig} : k_proc_info :=
  let n := if CONFIG_GPIO then 4 else 3 in
  mk_proc CONFIG_MAIN_PID 1 0 None ((Some <$> seqZ 0 n) ++ replicate (Z.to_nat (CONFIG_MAX_FD - n)) None).

(** What the leader finds: every CPU in the table, free and without threads, the first its own, no thread in use,
    two for each CPU, no lock taken. *)
Definition fresh `{Config} (k : kern) : bool :=
  bool_decide (zlen (k_cpus k) = CONFIG_NUM_CORES) &&
  forallb (fun d => match k_cpu_objs k !! d with
                    | Some x => bool_decide (cpu_lock x = 0 ∧ cpu_ti x = None ∧ cpu_ti_idle x = None ∧ cpu_ti_task x = None ∧ line_size_d x = 64)
                    | None => false
                    end) (omap id (k_cpus k)) &&
  match zget (k_cpus k) 0, k_cpu_get_current k CONFIG_MAIN_CORE with
  | Some (Some c), Ret d => c =? d
  | _, _ => false
  end &&
  forallb (fun y => (ti_avail y =? 0) && (ti_running y =? 0)) (k_ti k) && (zlen (k_ti k) =? 2 * CONFIG_NUM_CORES) && (k_lock_smp k =? 0) &&
  bool_decide (NoDup (omap id (k_cpus k))) && bool_decide (map_Forall (fun _ x => cpu_ti_task x = None) (k_cpu_objs k)).

(** Whatever the memory is, the drivers start and leave it and the process alone. *)
Lemma drivers_start first b m fds : b ∈ builds → ∃ t s,
  @start_drivers (bd_arch b) (bd_config b) _ first (bd_board b) (static_build b m fds) = Ret (0, t, s) ∧
  all_up b t s = true ∧ @fresh (bd_config b) (kern_in s) = true ∧ k_mem (kern_in s) = m ∧
  k_pi (kern_in s) = mk_proc 0 0 0 None (replicate (Z.to_nat (@CONFIG_MAX_FD (bd_config b))) None).
Proof.
  intros Hb.
  assert (match @start_drivers (bd_arch b) (bd_config b) _ first (bd_board b) (static_build b m fds) with
          | Ret (0, t, s) => (all_up b t s && @fresh (bd_config b) (kern_in s), k_mem (kern_in s), k_pi (kern_in s))
          | _ => (false, m, mk_proc 0 0 0 None [])
          end = (true, m, mk_proc 0 0 0 None (replicate (Z.to_nat (@CONFIG_MAX_FD (bd_config b))) None))) as Hr.
  { unfold builds in Hb. repeat (apply elem_of_cons in Hb as [->|Hb]; [destruct first; vm_compute; reflexivity|]). by apply elem_of_nil in Hb. }
  destruct (start_drivers _ _ _) as [[[r t] s]| |]; [|done..]. destruct r; [|done..].
  injection Hr as Hr Hm Hp. apply andb_prop in Hr as [Hu Hf]. by exists t, s.
Qed.

(** The boards start.  For the QEMU board of either width, the HiFive Unleashed and the
    NSITEXE NS31, whether the initialisation function of the board runs before those of the
    drivers or after them, [init_drivers] terminates with 0 and every device of the board is
    probed; the first serial port is the console, the timer and the controller of
    inter-processor interrupts are those of the CLINT, every hart has a CPU, and the CPU
    of number 0 is the hart that the configuration makes the leader. *)
Theorem init_drivers_boards first b (Hb : b ∈ builds) :
  ∃ t s, start_build first b (io_start []) = Ret (0, t, s) ∧ all_up b t s = true.
Proof. destruct (drivers_start first b ∅ ∅ Hb) as (t & s & E & Hu & _). by exists t, s. Qed.

Lemma init_drivers_boards_witness :
  ∃ t s, @start rv64 unleashed board_io _ 2 true unleashed_board (io_start []) = Ret (0, t, s) ∧
    uart_default (s_uarts s) = Some (d_uart 0).
Proof.
  destruct (init_drivers_boards true (mk_build rv64 unleashed unleashed_board)) as (t & s & E & Hu).
  - do 2 right. left.
  - exists t, s. split; [exact E|]. apply (bool_decide_eq_true_1 _). unfold all_up in Hu.
    do 5 (apply andb_prop in Hu as [Hu _]). apply andb_prop in Hu as [_ Hu]. exact Hu.
Defined.

(** The creation of the process changes nothing but the process. *)
Lemma init_proc_ret `{InitConfig} b g t s fds : b ∈ builds →
  k_pi (kern_in s) = mk_proc 0 0 0 None (replicate (Z.to_nat (@CONFIG_MAX_FD (bd_config b))) None) →
  ∃ y, @init_proc (bd_config b) _ board_io (mk_system g t s fds 0) = Ret (0, y) ∧ y_heap y = g ∧ y_tree y = t ∧
    y_sys y = with_kern s (with_proc (kern_in s) (@process_started (bd_config b) _)).
Proof.
  intros Hb Hp. destruct s as [e [k q1 q2 q3 q4 q5 q6 q7 q8 q9 q10] c u gp d]. cbn in Hp. destruct k as [k1 k2 k3 k4 k5 k6 k7 k8]. cbn in Hp. subst k6.
  unfold init_proc, stdio_init, process_started. unfold builds in Hb. destruct CONFIG_GPIO.
  all: repeat (apply elem_of_cons in Hb as [->|Hb]; [eexists; split; [cbv; reflexivity|]; split; [done|]; split; [done|]; cbv; reflexivity|]).
  all: by apply elem_of_nil in Hb.
Qed.


Lemma with_proc_kept b t (s : sys board_io) p : let s' := with_kern s (with_proc (kern_in s) p) in
  all_up b t s' = all_up b t s ∧ @fresh (bd_config b) (kern_in s') = @fresh (bd_config b) (kern_in s) ∧ k_mem (kern_in s') = k_mem (kern_in s).
Proof.
  cbv zeta. split; [done|]. split; [|done]. unfold fresh. rewrite (get_current_same (kern_in s)); [done|]. by split.
Qed.

Lemma build_ok b : b ∈ builds → @ConfigOk (bd_arch b) (bd_config b).
Proof.
  unfold builds. intros Hb. repeat (apply elem_of_cons in Hb as [->|Hb]; [exact _|]). by apply elem_of_nil in Hb.
Qed.

Lemma init_system_ret `{InitConfig} first b K m fds (Hb : b ∈ builds) (HK : @linker_ok (bd_arch b) K) :
  ∃ y, init_build first b K (static_build b m fds) = Ret y ∧
    (∀ a, load8 (k_mem (kern_in (y_sys y))) a = start_value K m a) ∧
    @heap_inv (bd_arch b) (y_heap y) (pages_for (@CONFIG_BRK_SIZE (bd_config b))) ∧ brk_cur (y_heap y) = heap_area K ∧
    all_up b (y_tree y) (y_sys y) = true ∧
    k_pi (kern_in (y_sys y)) = @process_started (bd_config b) _ ∧
    @fresh (bd_config b) (kern_in (y_sys y)) = true.
Proof.
  destruct (@start_memory (bd_arch b) _ K m HK) as (m1 & m2 & E1 & E2 & Hm).
  destruct (@k_mem_init_start (bd_arch b) (bd_config b) (build_ok b Hb) (heap_area K)) as (g & Eg & Hg & _ & Hc & _).
  destruct (drivers_start first b m2 fds Hb) as (t & s & Ed & Hu & Hf & Hmem & Hp).
  destruct (init_proc_ret b g t s fds Hb Hp) as (y & Ey & Hh & Ht & Hs).
  destruct (with_proc_kept b t s (@process_started (bd_config b) _)) as (Ku & Kf & Km). rewrite <-Hs in Ku, Kf, Km.
  exists y. split; [|subst g t; rewrite Km, Hmem, Ku, Kf, Hs; done].
  unfold init_build, k_init_system. change (k_mem (kern_in (y_sys (static_build b m fds)))) with m.
  rewrite E1. mstep. rewrite E2. mstep.
  change (y_heap (static_build b m fds)) with (@mem_state_reset (bd_config b)). rewrite Eg. mstep. cbn [truth negb Z.eqb].
  unfold start_drivers in Ed. 
  match goal with |- context [init_drivers ?d ?u ?n ?c ?t ?s] => change (init_drivers d u n c t s) with
    (@start_drivers (bd_arch b) (bd_config b) _ first (bd_board b) (static_build b m2 fds)) end.
  unfold start_drivers. rewrite Ed. mstep. cbn [truth negb Z.eqb].
  change (y_fds (static_build b m fds)) with fds. change (y_lock (static_build b m fds)) with 0.
  rewrite Ey. done.
Qed.

(** C6: the system starts.  On each of the boards, in either order of the initialisation functions
    and with any contents of memory, [k_init_system] returns without a panic when the linker keeps
    the sections apart.  Then the sections of data hold what they were loaded with, the
    cleared ones zero and every other byte what it held; the heap is ready, its brk area
    at its start; the devices are as in [init_drivers_boards]; and the process has its number
    and its standard files. *)
Theorem k_init_system_boards `{InitConfig} first b K m fds (Hb : b ∈ builds) (HK : @linker_ok (bd_arch b) K) :
  ∃ y, init_build first b K (static_build b m fds) = Ret y ∧
    (∀ a, load8 (k_mem (kern_in (y_sys y))) a = start_value K m a) ∧
    @heap_inv (bd_arch b) (y_heap y) (pages_for (@CONFIG_BRK_SIZE (bd_config b))) ∧ brk_cur (y_heap y) = heap_area K ∧
    all_up b (y_tree y) (y_sys y) = true ∧
    k_pi (kern_in (y_sys y)) = @process_started (bd_config b) _.
Proof.
  destruct (init_system_ret first b K m fds Hb HK) as (y & E & Hm & Hg & Hc & Hu & Hp & _). by exists y.
Qed.

(** ** Examples *)

(** config/riscv_qemu_virt_32, config/riscv_sifive_hifive_unleashed and config/riscv_nsitexe_ns31_arty *)
Definition qemu_virt_init : InitConfig :=
  {| CONFIG_CLEAR_BSS := true; CONFIG_XIP := false; CONFIG_GPIO := false; CONFIG_PWR_OFF_AFTER_EXIT := false |}.
Definition unleashed_init : InitConfig :=
  {| CONFIG_CLEAR_BSS := true; CONFIG_XIP := true; CONFIG_GPIO := false; CONFIG_PWR_OFF_AFTER_EXIT := false |}.
Definition ns31_arty_init : InitConfig :=
  {| CONFIG_CLEAR_BSS := true; CONFIG_XIP := true; CONFIG_GPIO := true; CONFIG_PWR_OFF_AFTER_EXIT := false |}.

(** A program in ROM at 0x20000000 with its data in RAM at 0x80000000. *)
Definition demo_linker : linker := mk_linker (mk_area 0x80000400 0x80000800) (mk_area 0x80000800 0x80000820)
  (mk_load 0x80000000 0x80000008 0x20001000) (mk_load 0x80000008 0x80000010 0x20001008)
  (mk_load 0x80000010 0x80000010 0x20001010) (mk_load 0x80000010 0x80000300 0x20001010)
  (mk_load 0x80000300 0x80000310 0x20001300) (mk_load 0x80000310 0x80000310 0x20001310) 0x80001000.

Lemma demo_linker_ok (A : Arch) : A = rv32 ∨ A = rv64 → @linker_ok A demo_linker.
Proof.
  intros HA. split.
  - destruct HA as [-> | ->]; vm_compute; split; congruence.
  - destruct HA as [-> | ->]; vm_compute; split; congruence.
  - apply Forall_forall. destruct HA as [-> | ->]; repeat apply Forall_cons_2; try apply Forall_nil_2; vm_compute; split; congruence.
  - cbn [load_areas areas_apart]. repeat split; apply Forall_forall.
    all: repeat apply Forall_cons_2; try apply Forall_nil_2; unfold apart; cbn; lia.
  - intros x y Hx. revert y. apply Forall_forall. revert x Hx. apply Forall_forall.
    repeat apply Forall_cons_2; try apply Forall_nil_2.
    all: repeat apply Forall_cons_2; try apply Forall_nil_2; unfold apart, load_end; cbn; lia.
  - apply Forall_forall. repeat apply Forall_cons_2; try apply Forall_nil_2; unfold apart, load_end; cbn; lia.
Qed.

(** The GPIO board: the first byte of [data] is copied, the first of the cleared sections is zero. *)
Lemma k_init_system_boards_witness :
  ∃ y, @init_build ns31_arty_init true (mk_build rv32 ns31_arty ns31_arty_board) demo_linker
      (static_build (mk_build rv32 ns31_arty ns31_arty_board) {[ 0x20001010 := 7; 0x80000400 := 9 ]} ∅) = Ret y ∧
    load8 (k_mem (kern_in (y_sys y))) 0x80000010 = 7 ∧ load8 (k_mem (kern_in (y_sys y))) 0x80000400 = 0 ∧
    brk_cur (y_heap y) = 0x80001000.
Proof.
  destruct (@k_init_system_boards ns31_arty_init true (mk_build rv32 ns31_arty ns31_arty_board) demo_linker
    {[ 0x20001010 := 7; 0x80000400 := 9 ]} ∅) as (y & E & Hm & _ & Hc & _).
  - do 3 right. left.
  - apply demo_linker_ok. by left.
  - exists y. split; [exact E|]. rewrite !Hm, Hc. repeat split; vm_compute; reflexivity.
Defined.

(** None of the boards is configured to power off: the end of the system does nothing. *)
Example k_fini_system_idle (y : system board_io) :
  @k_fini_system rv32 qemu_virt_init board_io _ y = Ret y ∧ @k_fini_system rv64 unleashed_init board_io _ y = Ret y ∧
  @k_fini_system rv32 ns31_arty_init board_io _ y = Ret y.
Proof. by split_and!. Qed.
