(* ===== verification/Leader.v ===== *)
(** * From the start of the system to [main]

    What [k_init_leader] of sys/init.c leaves (the definitions are in Thread.v and Args.v): the other CPUs
    woken up, the arguments on the stack, the main thread and the idle thread of the leader.  Two
    system calls for a context switch then lead to the idle thread and to the main one, whose start code is
    in Crt.v.  The property at the end is about all of it, from [k_init_system] to [main]. *)

From S2P Require Import Prelude Config CString Memory Event Regs Cpu Cache Args Thread Sched Device File Boards Trap Crt Init.

(** ** The other CPUs *)

(** What waking up changes: marks of CPUs that run. *)
Record woken_up (k k' : kern) : Prop := {
  wu_eq : k' = mk_kern (k_cpus k) (k_cpu_objs k') (k_uniq_id_cpu k) (k_ti k) (k_uniq_tid k) (k_pi k) (k_lock_smp k) (k_mem k);
  wu_same : ∀ d, k_cpu_objs k !! d = None → k_cpu_objs k' !! d = None;
  wu_objs : ∀ d x, k_cpu_objs k !! d = Some x → ∃ r, k_cpu_objs k' !! d = Some (cpu_set_running x r) ∧ (cpu_running x = 1 → r = 1)
}.

Lemma woken_up_refl k : woken_up k k.
Proof. split; [by destruct k|done|]. intros d x Hx. exists (cpu_running x). by destruct x. Qed.

Lemma woken_up_trans k1 k2 k3 : woken_up k1 k2 → woken_up k2 k3 → woken_up k1 k3.
Proof.
  intros [E1 N1 O1] [E2 N2 O2]. split.
  - rewrite E2 at 1. by rewrite E1.
  - auto.
  - intros d x (r1 & H1 & R1)%O1. destruct (O2 _ _ H1) as (r2 & H2 & R2). exists r2. split; [done|]. cbn in R2. auto.
Qed.

Lemma woken_up_put k c x : k_cpu_objs k !! c = Some x → woken_up k (put_cpu k c (cpu_set_running x 1)).
Proof.
  intros Hx. split; [done|..]; cbn [put_cpu k_cpu_objs]; intros d.
  - intros Hd. rewrite lookup_insert_ne; [done|]. intros ->. congruence.
  - intros y Hy. destruct (decide (d = c)) as [->|].
    + rewrite lookup_insert_eq. exists 1. by simplify_eq.
    + rewrite lookup_insert_ne by done. exists (cpu_running y). by destruct y.
Qed.

Lemma woken_up_ids k k' : woken_up k k' → same_ids k k'.
Proof.
  intros [E N O]. split; [by rewrite E|]. intros d. destruct (k_cpu_objs k !! d) as [x|] eqn:Hd.
  - destruct (O _ _ Hd) as (r & -> & _). done.
  - by rewrite N.
Qed.

Section Wakeup.
Context `{Config}.
Variable op_wakeup : option (Z → kern → exec (Z * kern)).
Variable op_raise_ipi : option (Z → Z → kern → exec (Z * kern)).

(** The driver of the CPUs comes back, and leaves the state of the kernel alone. *)
Hypothesis Hwake : ∀ f, op_wakeup = Some f → ∀ c k, ∃ r, f c k = Ret (r, k).
Hypothesis Hipi : ∀ f, op_raise_ipi = Some f → ∀ c d k, ∃ r, f c d k = Ret (r, k).

Lemma raise_ret k hart c d : k_cpu_get_current k hart = Ret c → ∃ r, k_cpu_raise_ipi op_raise_ipi k hart d = Ret (r, k).
Proof.
  intros Hc. unfold k_cpu_raise_ipi. rewrite Hc. mstep. destruct op_raise_ipi as [f|] eqn:E; [by apply Hipi|by eexists].
Qed.

Definition runs (k : kern) (d : Z) : Prop := cpu_running <$> k_cpu_objs k !! d = Some 1.
Lemma woken_up_runs k k' d : woken_up k k' → runs k d → runs k' d.
Proof.
  unfold runs. intros [_ _ O] Hd. destruct (k_cpu_objs k !! d) as [x|] eqn:E; [|done]. cbn in Hd.
  destruct (O _ _ E) as (r & -> & Hr). cbn. f_equal. apply Hr. congruence.
Qed.

Lemma wakeup_one k c x : k_cpu_objs k !! c = Some x →
  ∃ r, k_cpu_wakeup op_wakeup k c = Ret (r, put_cpu k c (cpu_set_running x 1)).
Proof.
  intros Hx. unfold k_cpu_wakeup, k_cpu_set_running. rewrite (get_cpu_eq _ _ x) by done. mstep.
  destruct op_wakeup as [f|] eqn:E; [by apply Hwake|by eexists].
Qed.

Lemma each_wakeup hart cur ids : ∀ k res, k_cpu_get_current k hart = Ret cur →
  (∀ i, i ∈ ids → 0 <= i < CONFIG_NUM_CORES) → zlen (k_cpus k) = CONFIG_NUM_CORES →
  (∀ c, c ∈ omap id (k_cpus k) → is_Some (k_cpu_objs k !! c)) →
  ∃ r k', each_cpu op_raise_ipi (fun c k => k_cpu_wakeup op_wakeup k c) hart ids res k = Ret (r, k') ∧ woken_up k k' ∧
    ∀ i d, i ∈ ids → zget (k_cpus k) i = Some (Some d) → runs k' d.
Proof.
  induction ids as [|i ids IH]; intros k res Hcur Hids Hlen Hobj.
  { exists res, k. split; [done|]. split; [apply woken_up_refl|]. intros i d Hi. by apply elem_of_nil in Hi. }
  cbn [each_cpu]. unfold k_cpu_get. destruct (Hids i ltac:(left)) as [H0' H1'].
  rewrite (proj2 (Z.ltb_ge i 0)), (proj2 (Z.leb_gt _ _)) by done. cbn [orb].
  destruct (zget_is_Some (k_cpus k) i) as [o Ho]; [lia|]. rewrite Ho. mstep.
  assert (∀ j, j ∈ ids → 0 <= j < CONFIG_NUM_CORES) as Hids' by (intros j Hj; apply Hids; by right).
  destruct o as [c|].
  - assert (c ∈ omap id (k_cpus k)) as Hc.
    { unfold zget in Ho. rewrite (proj2 (Z.ltb_ge i 0)) in Ho by done. apply list_elem_of_omap. exists (Some c). split; [|done].
      by eapply list_elem_of_lookup_2. }
    destruct (Hobj c Hc) as [x Hx]. destruct (wakeup_one k c x Hx) as [r1 ->]. mstep.
    pose proof (woken_up_put k c x Hx) as Hw. set (k1 := put_cpu k c _) in *.
    assert (k_cpu_get_current k1 hart = Ret cur) as Hcur1 by (rewrite <-Hcur; by apply get_current_same, woken_up_ids).
    destruct (raise_ret k1 hart cur c Hcur1) as [r2 ->]. mstep.
    destruct (IH k1 (if truth r2 then r2 else if truth r1 then r1 else res)) as (r & k' & -> & Hk' & Hr); try done.
    { intros d Hd. destruct (Hobj d Hd) as [y Hy]. destruct (wu_objs _ _ Hw d y Hy) as (q & -> & _). done. }
    exists r, k'. split; [done|]. split; [by eapply woken_up_trans|]. intros j d [->|Hj]%elem_of_cons Hd; [|by eapply Hr].
    apply (woken_up_runs k1); [done|]. rewrite Ho in Hd. simplify_eq. unfold runs, k1. cbn. by rewrite lookup_insert_eq.
  - destruct (IH k res) as (r & k' & -> & Hk' & Hr); try done. exists r, k'. split; [done|]. split; [done|].
    intros j d [->|Hj]%elem_of_cons Hd; [congruence|by eapply Hr].
Qed.
End Wakeup.

(** ** The leader *)

(** What the leader finds: the CPUs of the table, the first its own, without threads; no thread in use; no lock taken. *)
Record booted `{Config} (k : kern) (c : Z) : Prop := {
  bt_len : zlen (k_cpus k) = CONFIG_NUM_CORES;
  bt_first : zget (k_cpus k) 0 = Some (Some c);
  bt_objs : ∀ d, d ∈ omap id (k_cpus k) → ∃ x, k_cpu_objs k !! d = Some x ∧ cpu_lock x = 0 ∧ cpu_ti x = None ∧
    cpu_ti_idle x = None ∧ cpu_ti_task x = None ∧ line_size_d x = 64;
  bt_free : Forall (fun y => ti_avail y = 0 ∧ ti_running y = 0) (k_ti k);
  bt_room : zlen (k_ti k) = 2 * CONFIG_NUM_CORES;
  bt_nodup : NoDup (omap id (k_cpus k));
  bt_tasks : map_Forall (fun _ x => cpu_ti_task x = None) (k_cpu_objs k);
  bt_smp : k_lock_smp k = 0;
  bt_proc : pi_avail (k_pi k) ≠ 0;
  bt_lock : pi_lock (k_pi k) = 0
}.

Lemma zget_0 {A} (l : list A) i a : zget l i = Some a → a ∈ l.
Proof. unfold zget. destruct (i <? 0); [done|]. apply list_elem_of_lookup_2. Qed.

Lemma in_table k c i : zget (k_cpus k) i = Some (Some c) → c ∈ omap id (k_cpus k).
Proof. intros Hc%zget_0. apply list_elem_of_omap. by exists (Some c). Qed.

Lemma wakeup_all_ret `{Config} op_wakeup op_raise_ipi k hart c
    (Hwake : ∀ f, op_wakeup = Some f → ∀ c k, ∃ r, f c k = Ret (r, k))
    (Hipi : ∀ f, op_raise_ipi = Some f → ∀ c d k, ∃ r, f c d k = Ret (r, k)) :
  k_cpu_get_current k hart = Ret c → booted k c →
  ∃ r k', k_cpu_wakeup_all op_wakeup op_raise_ipi k hart = Ret (r, k') ∧ woken_up k k' ∧
    ∀ d, d ∈ omap id (k_cpus k) → runs k' d.
Proof.
  intros Hcur Hb. pose proof (bt_len _ _ Hb) as Hlen. pose proof (bt_first _ _ Hb) as H0'.
  pose proof (zget_Some _ _ _ H0') as Hz. destruct (bt_objs _ _ Hb c (in_table _ _ _ H0')) as (x & Hx & _).
  unfold k_cpu_wakeup_all, k_cpu_get. cbn [Z.ltb Z.compare orb]. rewrite (proj2 (Z.leb_gt _ _)) by lia.
  rewrite H0'. mstep. unfold k_cpu_set_running. rewrite (get_cpu_eq _ _ x) by done. mstep.
  pose proof (woken_up_put k c x Hx) as Hw. set (k1 := put_cpu k c _) in *.
  destruct (each_wakeup op_wakeup op_raise_ipi Hwake Hipi hart c (seqZ 1 (CONFIG_NUM_CORES - 1)) k1 0) as (r & k' & E & Hk' & Hr).
  - rewrite <-Hcur. by apply get_current_same, woken_up_ids.
  - intros i Hi%elem_of_seqZ. lia.
  - done.
  - intros d Hd. destruct (bt_objs _ _ Hb d Hd) as (y & Hy & _). destruct (wu_objs _ _ Hw d y Hy) as (q & -> & _). done.
  - exists r, k'. split; [done|]. split; [by eapply woken_up_trans|]. intros d Hd.
    apply list_elem_of_omap in Hd as ([d'|] & Hd & E'); [|done]. cbn in E'. injection E' as ->.
    apply list_elem_of_lookup in Hd as [i Hi]. pose proof (lookup_lt_Some _ _ _ Hi) as Hlt.
    assert (zget (k_cpus k) (Z.of_nat i) = Some (Some d)) as Hzi.
    { unfold zget. by rewrite (proj2 (Z.ltb_ge _ 0)), Nat2Z.id by lia. }
    destruct i as [|i]; [|apply (Hr (Z.of_nat (S i))); [apply elem_of_seqZ; lia|done]].
    apply (woken_up_runs k1); [done|]. change (Z.of_nat 0) with 0 in Hzi. rewrite H0' in Hzi. injection Hzi as <-.
    unfold runs, k1. cbn. by rewrite lookup_insert_eq.
Qed.

Section Leader.
Context `{Arch} `{Config}.
Variable L : layout.
Variable r0 : user_regs.
Variable idle_main start : Z.
Hypothesis Hr0 : length r0 = REG_ALL.

(** A slot that was free, as a thread with its first registers, and as the thread of a CPU. *)
Definition first_thread (y : k_thread_info) (tid : Z) (regs : user_regs) : k_thread_info := th_set_regs (th_alloc y tid) 0 regs.
Definition idle_regs (x : k_cpu_device) (leader : Z) : user_regs :=
  entry_regs r0 leader (k_stack_idle L + usize ((id_cpu x + 1) * CONFIG_IDLE_STACK_SIZE)) (intr_stack L (id_cpu x)) idle_main.
Definition main_regs (argv : Z) : user_regs :=
  entry_regs r0 0 (argv - ptr_size) (k_stack_intr L + CONFIG_INTR_STACK_SIZE) start.

Lemma init_main_eq k hart c x y0 l argc argv : k_cpu_get_current k hart = Ret c → k_cpu_objs k !! c = Some x →
  k_ti k = y0 :: l → ti_avail y0 = 0 → pi_avail (k_pi k) ≠ 0 → pi_lock (k_pi k) = 0 →
  init_main_thread (Ret (0, r0)) start k hart argc argv (k_stack_intr L + CONFIG_INTR_STACK_SIZE) =
    Ret (0, mk_kern (k_cpus k) (<[c := cpu_set_threads x (cpu_ti x) (cpu_ti_idle x) (Some 0)]> (k_cpu_objs k)) (k_uniq_id_cpu k)
      (th_set_cpu (first_thread y0 (alloc_tid k).1 (main_regs argv)) 1 (Some c) :: l) (i32 (k_uniq_tid k + 1))
      (pi_set_leader (k_pi k) (Some 0)) (k_lock_smp k) (store_ptr (k_mem k) (argv - ptr_size) argc)).
Proof.
  intros Hcur Hx Hti Hy Ha Hl. unfold init_main_thread. rewrite Hcur. mstep.
  unfold k_proc_get_current. rewrite (proj2 (truth_true _)) by done.
  rewrite (create_ok r0 k 0 y0); [|done|rewrite Hti; cbn; by rewrite Hy|by rewrite Hti]. mstep. rewrite Hti. cbn [Z.to_nat list_insert insert].
  erewrite init_main_thread_eq; [|reflexivity|done]. mstep. cbn [k_proc_set_leader with_proc k_ti k_cpus k_cpu_objs k_uniq_tid k_pi k_mem k_lock_smp k_uniq_id_cpu].
  unfold k_thread_run. erewrite get_thread_eq by reflexivity. mstep. erewrite put_thread_eq by reflexivity. mstep.
  unfold k_cpu_set_thread_task. erewrite get_cpu_eq by exact Hx. mstep. reflexivity.
Qed.

Lemma init_idle_eq k c x t y leader : k_cpu_objs k !! c = Some x → first_avail (k_ti k) 0 = Some t → zget (k_ti k) t = Some y →
  pi_avail (k_pi k) ≠ 0 → pi_lock (k_pi k) = 0 →
  init_idle_thread L (Ret (0, r0)) idle_main k c leader =
    Ret (0, upd k c (cpu_set_threads x (cpu_ti x) (Some t) (cpu_ti_task x)) t (first_thread y (alloc_tid k).1 (idle_regs x leader))
      (i32 (k_uniq_tid k + 1)) (k_mem k)).
Proof.
  intros Hx Hf Hy Ha Hl. unfold init_idle_thread. rewrite (get_cpu_eq _ _ x) by done. mstep.
  unfold k_proc_get_current. rewrite (proj2 (truth_true _)) by done. rewrite (create_ok r0 k t y) by done. mstep.
  assert (∀ z, zget (<[Z.to_nat t:=z]> (k_ti k)) t = Some z) as Hz by (intros z; by rewrite (zget_upd _ _ _ _ _ Hy), Z.eqb_refl).
  erewrite get_thread_eq by apply Hz. mstep.
  match goal with |- context [set_args ?r ?a] => change (set_args r a) with
    (set_args r0 (entry_args leader (k_stack_idle L + usize ((id_cpu x + 1) * CONFIG_IDLE_STACK_SIZE)) (intr_stack L (id_cpu x)) idle_main)) end.
  rewrite set_args_entry by done. mstep. erewrite put_thread_eq by apply Hz. mstep.
  unfold k_cpu_set_thread_idle. erewrite get_cpu_eq by exact Hx. mstep. unfold upd. cbn. by rewrite list_insert_insert_eq.
Qed.

(** The arguments that the host left in the communication area, apart from the stack they go to. *)
Record args_ready (m : mem) : Prop := {
  ar_magic : comm_magic L m = BAREMETAL_CRT_COMM_MAGIC;
  ar_num : 0 < num_args L m <= CONFIG_COMM_MAX_ARGS;
  ar_envs : 2 <= CONFIG_COMM_MAX_ENVS;
  ar_area : clear_of L (k_comm_area L) COMM_HEADER_SIZE;
  ar_heads : ∀ h, h ∈ arg_headers (Z.to_nat (num_args L m)) m (k_comm_area L + ALIGN_OF COMM_HEADER_SIZE 8) →
    arg_ok L 64 m h
}.

Definition main_values (m : mem) : list Z :=
  arg_values (Z.to_nat (num_args L m)) m (k_comm_area L + ALIGN_OF COMM_HEADER_SIZE 8).
(** The pointer behind [argv], and the memory with the vector and [argc]. *)
Definition main_envp (m : mem) : Z := argv_base L + (num_args L m + 1) * ptr_size.
Definition main_stack (m : mem) : mem :=
  store_ptr (write_words (write_words m (argv_base L) (main_values m)) (main_envp m) (0 :: auxv L)) (argv_base L - ptr_size) (num_args L m).

(** The state behind [k_init_leader], from the one with the CPUs woken up. *)
Definition main_thread (y : k_thread_info) (tid c : Z) : k_thread_info :=
  th_set_cpu (first_thread y tid (main_regs (argv_base L))) 1 (Some c).
Definition led (k : kern) (c : Z) (x : k_cpu_device) (y0 y1 : k_thread_info) (l : list k_thread_info) : kern :=
  let tid := i32 (k_uniq_tid k + 1) in
  mk_kern (k_cpus k) (<[c := cpu_set_threads x None (Some 1) (Some 0)]> (k_cpu_objs k)) (k_uniq_id_cpu k)
    (main_thread y0 (alloc_tid k).1 c :: first_thread y1 (if CONFIG_ATOMIC then tid else i32 (tid + 1)) (idle_regs x 1) :: l)
    (i32 (tid + 1)) (pi_set_leader (k_pi k) (Some 0)) (k_lock_smp k) (main_stack (k_mem k)).

Lemma k_init_leader_eq op_wakeup op_raise_ipi op_inv k hart c
    (Hwake : ∀ f, op_wakeup = Some f → ∀ c k, ∃ r, f c k = Ret (r, k))
    (Hipi : ∀ f, op_raise_ipi = Some f → ∀ c d k, ∃ r, f c d k = Ret (r, k))
    (Hinv : cache_op_ok op_inv) :
  k_cpu_get_current k hart = Ret c → booted k c → args_ready (k_mem k) →
  ∃ kw x y0 y1 l, woken_up k kw ∧ (∀ d, d ∈ omap id (k_cpus k) → runs kw d) ∧ k_cpu_objs kw !! c = Some x ∧
    cpu_lock x = 0 ∧ k_ti k = y0 :: y1 :: l ∧
    k_init_leader L op_raise_ipi (Ret (0, r0)) idle_main start op_wakeup op_inv k hart = Ret (led kw c x y0 y1 l).
Proof.
  intros Hcur Hb Ha. pose proof (in_table _ _ _ (bt_first _ _ Hb)) as Hc.
  destruct (wakeup_all_ret op_wakeup op_raise_ipi k hart c Hwake Hipi Hcur Hb) as (r & kw & Ew & Hw & Hr).
  destruct (bt_objs _ _ Hb c Hc) as (x0 & Hx0 & Hlk & Ht & Hi & Hk & Hline). destruct (wu_objs _ _ Hw c x0 Hx0) as (q & Hx & _).
  pose proof (bt_free _ _ Hb) as Hfree. pose proof (bt_room _ _ Hb) as Hroom.
  pose proof (zget_Some _ _ _ (bt_first _ _ Hb)) as Hlen. rewrite (bt_len _ _ Hb) in Hlen.
  destruct (k_ti k) as [|y0 [|y1 l]] eqn:Hti; [cbn in Hroom; lia..|].
  apply Forall_cons in Hfree as [[Hy0 _] [[Hy1 _] _]%Forall_cons].
  exists kw, (cpu_set_running x0 q), y0, y1, l. do 5 (split; [done|]).
  assert (k_cpu_get_current kw hart = Ret c) as Hcurw by (rewrite <-Hcur; by apply get_current_same, woken_up_ids).
  pose proof (wu_eq _ _ Hw) as Ek. assert (k_mem kw = k_mem k ∧ k_ti kw = y0 :: y1 :: l ∧ k_pi kw = k_pi k) as (Em & Et & Ep)
    by (rewrite Ek; by rewrite <-Hti). clear Ek. rewrite <-Em in Ha. destruct Ha as [A1 A2 A3 A4 A5].
  unfold k_init_leader. rewrite Hcur. mstep. rewrite Ew. mstep.
  rewrite (init_args_eq L op_inv Hinv kw hart c (cpu_set_running x0 q) (k_mem kw) (num_args L (k_mem kw)) (k_comm_area L + ALIGN_OF COMM_HEADER_SIZE 8)) by (done || (cbn; by rewrite Hline)).
  mstep. cbn [a_argv].
  set (mm := write_words _ _ (0 :: auxv L)).
  rewrite (init_main_eq (with_kmem kw mm) hart c (cpu_set_running x0 q) y0 (y1 :: l)); [|rewrite <-Hcurw; by apply get_current_same|exact Hx|exact Et|exact Hy0|cbn; by rewrite Ep; apply (bt_proc _ _ Hb)|cbn; by rewrite Ep; apply (bt_lock _ _ Hb)].
  mstep. set (k1 := mk_kern _ _ _ _ _ _ _ _).
  rewrite (init_idle_eq k1 c (cpu_set_threads (cpu_set_running x0 q) (cpu_ti (cpu_set_running x0 q)) (cpu_ti_idle (cpu_set_running x0 q)) (Some 0))
    1 y1); [|apply lookup_insert_eq|cbn; by rewrite Hy1|done|cbn; by rewrite Ep; apply (bt_proc _ _ Hb)|cbn; by rewrite Ep; apply (bt_lock _ _ Hb)].
  mstep. unfold led, upd, k1. cbn. by rewrite insert_insert_eq, Ht.
Qed.
End Leader.

(** ** The first context switches *)

(** The system call for a context switch, with the registers that the trap has saved. *)
Definition switch_from `{Arch} (k : kern) (hart : Z) (regs : user_regs) : exec (Z * kern) :=
  k ← k_cpu_set_current_user_regs k hart (Some regs); k_sys_context_switch k hart.

Section Switch.
Context `{Arch}.
Variables (k : kern) (hart c : Z) (x : k_cpu_device).
Hypothesis Hcur : k_cpu_get_current k hart = Ret c.
Hypothesis Hx : k_cpu_objs k !! c = Some x.
Hypothesis Hsmp : k_lock_smp k = 0.

Lemma switch_from_eq regs r k1 k2 : k_thread_context_switch_nolock (put_cpu (with_smp k 1) c (cpu_set_regs x (Some regs))) hart = Ret (0, k1) →
  k2 = k_smp_unlock k1 → retval_of k2 c = Ret r → switch_from k hart regs = Ret (isize r, k2).
Proof.
  intros E -> Hr. unfold switch_from, k_cpu_set_current_user_regs. rewrite Hcur. mstep.
  unfold k_cpu_set_user_regs. rewrite (get_cpu_eq _ _ x) by done. mstep. set (k0 := put_cpu k c _).
  assert (k_cpu_get_current k0 hart = Ret c) as Hc0 by (rewrite <-Hcur; apply get_current_same; by eapply same_ids_put).
  unfold k_sys_context_switch. rewrite Hc0. mstep. unfold k_thread_context_switch, k_smp_lock.
  change (k_lock_smp k0) with (k_lock_smp k). rewrite Hsmp. cbn [truth Z.eqb negb]. mstep.
  change (with_smp k0 1) with (put_cpu (with_smp k 1) c (cpu_set_regs x (Some regs))). rewrite E. mstep.
  cbn [truth Z.eqb negb]. rewrite Hr. by mstep.
Qed.

Lemma switch_current regs : k_cpu_get_current (put_cpu (with_smp k 1) c (cpu_set_regs x (Some regs))) hart = Ret c.
Proof. rewrite <-Hcur. apply get_current_same. by apply (same_ids_put (with_smp k 1) c x). Qed.

Lemma retval_at k1 y regs v : k_cpu_objs k1 !! c = Some y → cpu_regs y = Some regs → zget regs REG_A0 = Some v → retval_of k1 c = Ret v.
Proof.
  intros Hy Hr Hv. unfold retval_of. rewrite (get_cpu_eq _ _ y) by done. mstep. rewrite Hr. mstep.
  change (k_arch_riscv_get_arg regs K_ARCH_ARG_TYPE_RETVAL) with (v ← of_opt (zget regs REG_A0); Ret (0, Some v)). by rewrite Hv.
Qed.

(** A CPU without a thread goes on with its idle thread. *)
Lemma switch_to_idle regs i z v : cpu_ti x = None → cpu_ti_idle x = Some i → zget (k_ti k) i = Some z → zget (ti_regs z) REG_A0 = Some v →
  switch_from k hart regs = Ret (isize v,
    put_cpu k c (cpu_set_threads (cpu_set_regs x (Some (ti_regs z))) (Some i) (Some i) (cpu_ti_task x))).
Proof.
  intros Ht Hi Hz Hv. eapply switch_from_eq.
  - unfold k_thread_context_switch_nolock. rewrite switch_current. mstep. erewrite get_cpu_eq by apply lookup_insert_eq. mstep.
    cbn [cpu_set_regs cpu_ti cpu_ti_idle cpu_ti_task cpu_regs]. rewrite Ht, Hi. rewrite decide_False by done. mstep.
    rewrite (get_thread_eq _ _ z) by done. mstep. unfold k_cpu_set_user_regs. erewrite get_cpu_eq by apply lookup_insert_eq. mstep.
    unfold k_cpu_set_thread. erewrite get_cpu_eq by apply lookup_insert_eq. mstep. unfold put_cpu, with_smp. cbn.
    rewrite !insert_insert_eq, Hi. reflexivity.
  - unfold k_smp_unlock, put_cpu, with_smp. cbn. by rewrite Hsmp.
  - by eapply retval_at; [apply lookup_insert_eq|done|].
Qed.

(** An idle thread whose CPU has been given a task leaves its registers and goes on with the task. *)
Lemma switch_to_task regs i t zi z v : cpu_ti x = Some i → cpu_ti_idle x = Some i → cpu_ti_task x = Some t → t ≠ i →
  zget (k_ti k) i = Some zi → zget (k_ti k) t = Some z → zget (ti_regs z) REG_A0 = Some v →
  switch_from k hart regs = Ret (isize v,
    mk_kern (k_cpus k) (<[c := cpu_set_threads (cpu_set_regs x (Some (ti_regs z))) (Some t) (Some i) (Some t)]> (k_cpu_objs k))
      (k_uniq_id_cpu k) (<[Z.to_nat i := th_set_regs zi (ti_sp zi) regs]> (k_ti k)) (k_uniq_tid k) (k_pi k) (k_lock_smp k) (k_mem k)).
Proof.
  intros Ht Hi Hk Hne Hzi Hz Hv. eapply switch_from_eq.
  - unfold k_thread_context_switch_nolock. rewrite switch_current. mstep. erewrite get_cpu_eq by apply lookup_insert_eq. mstep.
    cbn [cpu_set_regs cpu_ti cpu_ti_idle cpu_ti_task cpu_regs]. rewrite Ht, Hi, Hk. rewrite decide_True by done. mstep.
    rewrite (get_thread_eq _ _ zi) by done. mstep. rewrite (put_thread_eq _ _ zi) by done. mstep.
    rewrite (get_thread_eq _ _ z) by (cbn; by rewrite (zget_upd _ _ _ _ _ Hzi), (proj2 (Z.eqb_neq t i))). mstep.
    unfold k_cpu_set_user_regs. erewrite get_cpu_eq by apply lookup_insert_eq. mstep.
    unfold k_cpu_set_thread. erewrite get_cpu_eq by apply lookup_insert_eq. mstep. unfold put_cpu, with_smp. cbn.
    rewrite !insert_insert_eq, Hi, Hk. reflexivity.
  - unfold k_smp_unlock, put_cpu, with_smp. cbn. by rewrite Hsmp.
  - by eapply retval_at; [apply lookup_insert_eq|done|].
Qed.
End Switch.

(** ** The way to [main] *)

Lemma isize_bit `{Arch} v : 0 <= v <= 1 → isize (usize v) = v.
Proof.
  intros Hv. pose proof xlen_ge. assert (2 ^ 1 <= 2 ^ (xlen - 1)) by (apply Z.pow_le_mono_r; lia).
  assert (2 ^ (xlen - 1) <= 2 ^ xlen) by (apply Z.pow_le_mono_r; lia). rewrite uwrap_small by lia. apply swrap_small; lia.
Qed.

Section Main.
Context `{Arch} `{Config}.
Variable L : layout.
Variable r0 : user_regs.
Variable idle_main start : Z.
Hypothesis Hr0 : length r0 = REG_ALL.

(** The registers of a CPU are those of a thread that starts at [pc] with an argument and a stack. *)
Definition enters (k : kern) (c pc a0 sp sp_intr : Z) : Prop :=
  ∃ x regs, k_cpu_objs k !! c = Some x ∧ cpu_regs x = Some regs ∧ zget regs REG_MEPC = Some (usize pc) ∧ zget regs REG_A0 = Some (usize a0) ∧
    zget regs REG_SP = Some (usize sp) ∧ zget regs REG_MSCRATCH = Some (usize sp_intr).

(** [main] is called from the state [k] with the arguments that the memory [mm] holds in the communication area. *)
Definition calls_main (k : kern) (mm : mem) : Prop :=
  let argv := argv_base L in
  ∀ m gp, x m SP = argv - ptr_size → stack_words m (k_mem k) (argv - ptr_size) (MAX_ARGV + 1) →
    (∀ S atexit_fini init_array main (u : S), crt_main atexit_fini init_array main gp m u =
       main (num_args L mm) argv (main_envp L mm) (init_array (atexit_fini u))) ∧
    (∀ j v, main_values L mm !! j = Some v → word (words (k_crt_start gp m)) (argv + Z.of_nat j * ptr_size) = usize v) ∧
    word (words (k_crt_start gp m)) (main_envp L mm) = 0 ∧
    x (k_crt_start gp m) SP mod 16 = 0 ∧ x (k_crt_start gp m) SP <= argv - ptr_size.

(** From the state [k1] that the leader leaves on the CPU [c]: the idle thread, and then, at its first call, the main thread. *)
Definition reaches_main (k1 : kern) (hart c : Z) (mm : mem) : Prop :=
  ∀ regs, ∃ id k2, switch_from k1 hart regs = Ret (1, k2) ∧
    enters k2 c idle_main 1 (k_stack_idle L + usize ((id + 1) * CONFIG_IDLE_STACK_SIZE)) (intr_stack L id) ∧
    k_cpu_get_id k2 c = Ret id ∧ k_cpu_get_running k2 c = Ret 1 ∧ k_cpu_get_thread_task k2 c = Ret (Some 0) ∧
    ∀ regs', ∃ k3, switch_from k2 hart regs' = Ret (0, k3) ∧
      enters k3 c start 0 (argv_base L - ptr_size) (k_stack_intr L + CONFIG_INTR_STACK_SIZE) ∧
      ti_regs <$> zget (k_ti k3) 1 = Some regs' ∧ calls_main k3 mm.

Lemma enters_entry k c y regs a0 sp sp_intr pc : k_cpu_objs k !! c = Some y → cpu_regs y = Some (entry_regs regs a0 sp sp_intr pc) →
  length regs = REG_ALL → enters k c pc a0 sp sp_intr.
Proof. intros Hy Hr Hl. destruct (entry_regs_at regs a0 sp sp_intr pc Hl) as (? & ? & ? & ? & _). by exists y, (entry_regs regs a0 sp sp_intr pc). Qed.

(** The stack of the main thread is in the address space. *)
Definition stack_fits (mm : mem) : Prop :=
  ptr_size <= argv_base L ∧ argv_base L + MAX_ARGV * ptr_size < 2 ^ xlen ∧ num_args L mm < 2 ^ 31.

Lemma led_reaches_main k hart c x y0 y1 l mm : k_cpu_get_current k hart = Ret c → k_cpu_objs k !! c = Some x → cpu_running x = 1 →
  k_lock_smp k = 0 → k_mem k = mm → args_ready L mm → stack_fits mm →
  reaches_main (led L r0 idle_main start k c x y0 y1 l) hart c mm.
Proof.
  intros Hcur Hx Hrun Hsmp Hmm Ha (Hs1 & Hs2 & Hs3) regs. set (k1 := led _ _ _ _ _ _ _ _ _ _). exists (id_cpu x).
  set (x1 := cpu_set_threads x None (Some 1) (Some 0)).
  assert (k_cpu_objs k1 !! c = Some x1) as Hx1 by apply lookup_insert_eq.
  assert (k_cpu_get_current k1 hart = Ret c) as Hcur1.
  { rewrite <-Hcur. apply get_current_same. destruct (same_ids_put k c x x1 Hx eq_refl) as [E1 E2]. by split. }
  set (idle := idle_regs L r0 idle_main x 1). pose proof (entry_regs_at r0 1 (k_stack_idle L + usize ((id_cpu x + 1) * CONFIG_IDLE_STACK_SIZE))
    (intr_stack L (id_cpu x)) idle_main Hr0) as (Hi0 & _).
  eexists. split; [rewrite <-(isize_bit 1) by lia; by eapply (switch_to_idle k1 hart c x1 Hcur1 Hx1 Hsmp)|].
  set (x2 := cpu_set_threads _ _ _ _). set (k2 := put_cpu k1 c x2). assert (k_cpu_objs k2 !! c = Some x2) as Hx2 by apply lookup_insert_eq.
  split; [by eapply enters_entry|]. unfold k_cpu_get_id, k_cpu_get_running, k_cpu_get_thread_task.
  rewrite (get_cpu_eq _ _ _ Hx2). mstep. split; [done|]. split; [by cbn; rewrite Hrun|]. split; [done|]. intros regs'.
  assert (k_cpu_get_current k2 hart = Ret c) as Hcur2 by (rewrite <-Hcur1; by apply get_current_same, (same_ids_put k1 c x1)).
  pose proof (entry_regs_at r0 0 (argv_base L - ptr_size) (k_stack_intr L + CONFIG_INTR_STACK_SIZE) start Hr0) as (Hm0 & _).
  eexists. split; [rewrite <-(isize_bit 0) by lia; by eapply (switch_to_task k2 hart c x2 Hcur2 Hx2 Hsmp regs' 1 0)|].
  split; [by eapply enters_entry; [apply lookup_insert_eq|done|]|]. split; [done|].
  destruct ptr_size_nat as (_ & _ & Hp). unfold calls_main. cbv zeta. intros m gp Hm Hw. cbn [k_mem k2 put_cpu k1 led] in Hw. rewrite Hmm in Hw.
  pose proof (ar_num _ _ Ha). pose proof (ar_envs _ _ Ha). eapply k_crt_start_vector; [|unfold MAX_ARGV; lia|done|done|done|exact Hw].
  apply arg_values_len. lia.
Qed.
End Main.

Lemma fresh_booted `{Config} k : fresh k = true → pi_avail (k_pi k) ≠ 0 → pi_lock (k_pi k) = 0 →
  ∃ c, k_cpu_get_current k CONFIG_MAIN_CORE = Ret c ∧ booted k c.
Proof.
  intros Hf Hpa Hpl. unfold fresh in Hf. rewrite !andb_true_iff, !forallb_forall in Hf.
  destruct Hf as [[[[[[[Hlen Hobj] Hcur] Hfree] Hroom] Hsmp] Hnd] Htasks].
  destruct (zget (k_cpus k) 0) as [[c|]|] eqn:Hc; [|done..].
  destruct (k_cpu_get_current k CONFIG_MAIN_CORE) as [d| |] eqn:Hd; [|done..]. apply Z.eqb_eq in Hcur as <-.
  exists c. split; [done|]. split; [by apply bool_decide_eq_true in Hlen|done| |..|lia|by apply bool_decide_eq_true in Hnd|by apply bool_decide_eq_true in Htasks|lia|done|done].
  - intros d Hin%list_elem_of_In%Hobj. destruct (k_cpu_objs k !! d) as [x|]; [|done]. apply bool_decide_eq_true in Hin. by exists x.
  - apply Forall_forall. intros y Hy%list_elem_of_In%Hfree. rewrite andb_true_iff in Hy. lia.
Qed.

(** The operations of the driver of the CPUs come back, and leave the state of the kernel alone. *)
Record cpu_ops_ok (A : Arch) (op_wakeup : option (Z → kern → exec (Z * kern))) (op_raise_ipi : option (Z → Z → kern → exec (Z * kern)))
    (op_inv : option (kern → Z → Z → Z → exec (Z * list Z))) : Prop := {
  op_wakeup_ok : ∀ f, op_wakeup = Some f → ∀ c k, ∃ r, f c k = Ret (r, k);
  op_ipi_ok : ∀ f, op_raise_ipi = Some f → ∀ c d k, ∃ r, f c d k = Ret (r, k);
  op_inv_ok : @cache_op_ok A op_inv
}.

(** C4: from the start of the system to [main].  On each of the boards, in either order of the initialisation functions
    and with any contents of memory: [k_init_system] returns, and if the memory then has arguments in the
    communication area, [k_init_leader] returns on the main hart, with all CPUs of the table marked as running
    and the main thread as the leader of the process.  The next system call for a context switch, whatever the registers,
    goes on in [k_thread_idle_main] with the argument 1, on the idle stack of the CPU; the CPU has a task then, and
    the call that the idle thread makes for it goes on at the start of the C library with the registers of the idle
    thread saved.  From there the code of newlib's start calls [main] with the number of the arguments, the vector of their
    addresses and the pointer behind it, an empty environment, after the constructors, on a stack that is aligned. *)
Theorem system_reaches_main `{InitConfig} first b K m fds L op_wakeup op_raise_ipi op_inv cur r0 idle_main start
    (Hb : b ∈ builds) (HK : @linker_ok (bd_arch b) K)
    (Hops : cpu_ops_ok (bd_arch b) op_wakeup op_raise_ipi op_inv)
    (Hinit : k_arch_riscv_thread_init cur = Ret (0, r0)) (Hcur : length cur = REG_ALL) :
  ∃ y c, init_build first b K (static_build b m fds) = Ret y ∧
    let k := kern_in (y_sys y) in let hart := @CONFIG_MAIN_CORE (bd_config b) in
    (∀ a, load8 (k_mem k) a = start_value K m a) ∧
    k_cpu_get_current k hart = Ret c ∧
    (@args_ready (bd_arch b) (bd_config b) L (k_mem k) → @stack_fits (bd_arch b) (bd_config b) L (k_mem k) →
     ∃ k1, @k_init_leader (bd_arch b) (bd_config b) L op_raise_ipi (k_arch_riscv_thread_init cur) idle_main start op_wakeup op_inv k hart = Ret k1 ∧
       k_proc_get_leader k1 = Some 0 ∧ (∀ d, d ∈ omap id (k_cpus k) → runs k1 d) ∧
       @reaches_main (bd_arch b) (bd_config b) L idle_main start k1 hart c (k_mem k)).
Proof.
  destruct Hops as [Hwake Hipi Hinv]. destruct (init_system_ret first b K m fds Hb HK) as (y & E & Hm & _ & _ & _ & Hp & Hf).
  destruct (fresh_booted _ Hf) as (c & Hc & Hbt); [by rewrite Hp|by rewrite Hp|].
  exists y, c. split; [done|]. cbv zeta. split; [done|]. split; [done|]. intros Ha Hs. rewrite Hinit.
  assert (length r0 = REG_ALL) as Hr0.
  { unfold k_arch_riscv_thread_init in Hinit. destruct (zget cur REG_MSTATUS) as [st|]; [|done]. revert Hinit. mstep.
    destruct (zset cur REG_MSTATUS _) as [l|] eqn:El; [|done]. mstep. intros [= <-]. apply zset_Some in El as [_ ->]. by rewrite length_insert. }
  pose proof (build_ok b Hb). destruct b as [A C B]. cbn [bd_arch bd_config] in *.
  destruct (k_init_leader_eq L r0 idle_main start Hr0 op_wakeup op_raise_ipi op_inv _ _ c Hwake Hipi Hinv Hc Hbt Ha)
    as (kw & x & y0 & y1 & l & Hw & Hr & Hx & _ & _ & ->).
  eexists. split; [done|]. split; [done|].
  assert (cpu_running x = 1) as Hx1.
  { pose proof (Hr c (in_table _ _ _ (bt_first _ _ Hbt))) as Hrc. unfold runs in Hrc. rewrite Hx in Hrc. by injection Hrc. }
  split.
  - intros d Hd%Hr. unfold runs, led in *. cbn. destruct (decide (d = c)) as [->|]; [by rewrite lookup_insert_eq; cbn; rewrite Hx1|].
    by rewrite lookup_insert_ne.
  - pose proof (wu_eq _ _ Hw) as Ek. apply led_reaches_main; try done.
    + rewrite <-Hc. by apply get_current_same, woken_up_ids.
    + rewrite Ek. apply (bt_smp _ _ Hbt).
    + by rewrite Ek.
Qed.

(** ** Example: the argument "run" of Args.v on the QEMU board *)

(** What is read from two memories that hold the same bytes is the same. *)
Section Ext.
Context `{Arch} `{Config} (L : layout) (m m' : mem).
Hypothesis Hm : ∀ a, load8 m a = load8 m' a.

Lemma load_le_same n a : load_le n m a = load_le n m' a.
Proof. by apply load_le_ext. Qed.

Lemma arg_headers_same n : ∀ buf, arg_headers n m buf = arg_headers n m' buf.
Proof. induction n as [|n IH]; intros buf; [done|]. cbn [arg_headers]. by rewrite load_le_same, IH. Qed.

Lemma args_ready_same : args_ready L m' → args_ready L m.
Proof.
  intros [A1 A2 A3 A4 A5]. assert (num_args L m = num_args L m') as En by apply load_le_same.
  split; rewrite ?En; [|done|done|done|].
  - rewrite <-A1. apply load_le_same.
  - intros h. rewrite arg_headers_same. unfold arg_ok. rewrite load_le_same. apply A5.
Qed.
End Ext.

Definition demo_build : build := mk_build rv64 qemu_virt qemu_virt_board.
Definition demo_args : mem := k_mem args_kern.
Definition demo_context : user_regs := replicate REG_ALL 7.

Lemma demo_args_kept a : @start_value qemu_virt_init demo_linker demo_args a = load8 demo_args a.
Proof.
  unfold start_value, cleared_value. cbn [CONFIG_XIP CONFIG_CLEAR_BSS qemu_virt_init andb].
  assert (map_Forall (fun b _ => b < 0x2000) demo_args) as Hlow by (apply (bool_decide_unpack _); by vm_compute).
  destruct (insideP (a_start (bss demo_linker)) (a_end (bss demo_linker)) a) as [Hin|]; cbn [orb];
    [|destruct (insideP (a_start (sbss demo_linker)) (a_end (sbss demo_linker)) a) as [Hin|]; [|done]].
  all: cbn in Hin; unfold load8; destruct (demo_args !! a) as [v|] eqn:E; [apply Hlow in E; lia|done].
Qed.

Lemma demo_args_ready : @args_ready rv64 qemu_virt args_layout demo_args.
Proof.
  split.
  - by vm_compute.
  - vm_compute. split; congruence.
  - vm_compute. congruence.
  - left. vm_compute. congruence.
  - intros h Hin. vm_compute in Hin. apply list_elem_of_singleton in Hin as ->. split; [left|]; vm_compute; congruence.
Qed.

Lemma system_reaches_main_witness :
  ∃ y k1 k2 k3, @init_build qemu_virt_init true demo_build demo_linker (static_build demo_build demo_args ∅) = Ret y ∧
    @k_init_leader rv64 qemu_virt args_layout None (k_arch_riscv_thread_init demo_context) 0x8000 0x9000 None
      (Some (@cpu_riscv_inv_range rv64 true)) (kern_in (y_sys y)) 0 = Ret k1 ∧
    @switch_from rv64 k1 0 [] = Ret (1, k2) ∧ @switch_from rv64 k2 0 demo_context = Ret (0, k3) ∧
    let sp := @argv_base rv64 qemu_virt args_layout - 8 in
    @crt_main rv64 Z (Z.add 1) (Z.add 10) (fun argc argv envp u => Ret (argc + u, argv)) 0xa000
      (@stack_machine rv64 (k_mem k3) sp (@MAX_ARGV qemu_virt + 1)) 30 = Ret (42, sp + 8).
Proof.
  destruct (@system_reaches_main qemu_virt_init true demo_build demo_linker demo_args ∅ args_layout None None
    (Some (@cpu_riscv_inv_range rv64 true)) demo_context (<[32%nat := 0x1887]> demo_context) 0x8000 0x9000)
    as (y & c & E & Hm & Hc & Hlead); [left|apply demo_linker_ok; by right|split; [done..|apply cbo_range_ok]|by vm_compute|done|].
  assert (∀ a, load8 (k_mem (kern_in (y_sys y))) a = load8 demo_args a) as Hsame by (intros a; rewrite Hm; apply demo_args_kept).
  assert (@num_args args_layout (k_mem (kern_in (y_sys y))) = 1) as Hn.
  { unfold num_args. rewrite (load_le_same _ demo_args Hsame). by vm_compute. }
  destruct Hlead as (k1 & E1 & _ & _ & Hgo).
  - exact (@args_ready_same rv64 qemu_virt args_layout _ demo_args Hsame demo_args_ready).
  - unfold stack_fits. cbn [bd_arch bd_config demo_build]. rewrite Hn. clear. vm_compute. split; [congruence|]. by split.
  - destruct (Hgo []) as (id & k2 & E2 & _ & _ & _ & _ & Hgo2). destruct (Hgo2 demo_context) as (k3 & E3 & _ & _ & Hmain).
    exists y, k1, k2, k3. split; [exact E|]. split; [exact E1|]. split; [exact E2|]. split; [exact E3|]. cbv zeta.
    destruct (Hmain (@stack_machine rv64 (k_mem k3) (@argv_base rv64 qemu_virt args_layout - 8) (@MAX_ARGV qemu_virt + 1)) 0xa000
      eq_refl (@stack_machine_words rv64 _ _ _)) as (-> & _).
    cbn [bd_arch bd_config demo_build]. rewrite Hn, Z.sub_add. reflexivity.
Defined.
