(* ===== verification/Harts.v ===== *)
(** * The harts after the leader

    [k_init_child] of sys/init.c (defined in Thread.v) on each of the harts that the leader has woken up:
    every CPU gets an idle thread of its own, and the state is one in which threads can be started, the
    invariant of Sched.v.  The functions run one after the other here, in any order of the harts; what
    they share of the process is taken with its lock. *)

From S2P Require Import Prelude Config CString Event Lock Regs Cpu Cache Args Thread Sched Trap Crt Init Leader.

(** [k_init_leader] on the main hart, and then [k_init_child] on each of the [harts]. *)
Fixpoint init_children `{Arch} `{Config} (L : layout) (thread_init : exec (Z * user_regs)) (idle_main : Z) (harts : list Z) (k : kern) : exec kern :=
  match harts with
  | [] => Ret k
  | h :: harts => k ← k_init_child L thread_init idle_main k h; init_children L thread_init idle_main harts k
  end.

(** ** Threads in use *)

Fixpoint busy (l : list k_thread_info) : Z :=
  match l with
  | [] => 0
  | y :: l => Z.b2z (truth (ti_avail y)) + busy l
  end.

Lemma busy_room l : busy l < zlen l → ∃ t y, first_avail l 0 = Some t ∧ zget l t = Some y ∧ ti_avail y = 0.
Proof.
  intros Hb. assert (∀ i, first_avail l i = None → busy l = zlen l) as Hfull.
  { clear Hb. induction l as [|y l IH]; intros i; [done|]. cbn [first_avail busy length].
    destruct (truth (ti_avail y)); [|done]. intros Hf. rewrite (IH _ Hf). cbn [Z.b2z]. lia. }
  destruct (first_avail l 0) as [t|] eqn:E; [|by rewrite (Hfull _ E) in Hb; lia].
  destruct (first_avail_get _ _ E) as (y & Hy & Ha). by exists t, y.
Qed.

Lemma busy_insert l : ∀ (i : nat) y y', l !! i = Some y → ti_avail y = 0 → ti_avail y' ≠ 0 → busy (<[i := y']> l) = busy l + 1.
Proof.
  induction l as [|z l IH]; intros [|i] y y' Hl Hy Hy'; cbn in Hl; [done..| |].
  - injection Hl as ->. cbn. rewrite Hy, (proj2 (truth_true _)) by done. cbn [truth Z.eqb negb Z.b2z]. lia.
  - change (<[S i := y']> (z :: l)) with (z :: <[i := y']> l). cbn [busy]. rewrite (IH _ _ _ Hl Hy Hy'). lia.
Qed.

Lemma busy_free l : Forall (fun y => ti_avail y = 0 ∧ ti_running y = 0) l → busy l = 0.
Proof. induction 1 as [|y l [Hy _] _ IH]; [done|]. cbn [busy]. by rewrite Hy, IH. Qed.

(** The CPU that runs the code is in the table. *)
Lemma find_phys_in k l h d : find_phys k l h = Ret (Some d) → d ∈ omap id l.
Proof.
  induction l as [|[c|] l IH]; cbn [find_phys omap list_omap]; [done| |done].
  destruct (get_cpu k c) as [x| |]; mstep; [|done..]. destruct (_ =? h); [intros [= ->]; left|intros Hl; right; by apply IH].
Qed.

Lemma current_in k h d : k_cpu_get_current k h = Ret d → d ∈ omap id (k_cpus k).
Proof.
  unfold k_cpu_get_current, k_cpu_get_by_physical_id. destruct (find_phys k (k_cpus k) h) as [[c|]| |] eqn:E; mstep; [|done..].
  intros [= <-]. by eapply find_phys_in.
Qed.

Section Harts.
Context `{Arch} `{Config}.
Variable L : layout.
Variable r0 : user_regs.
Variable idle_main start : Z.
Hypothesis Hr0 : length r0 = REG_ALL.

(** The idle thread of a CPU. *)
Definition idle_of (k : kern) (d leader t : Z) : Prop :=
  ∃ x y, k_cpu_objs k !! d = Some x ∧ cpu_ti_idle x = Some t ∧ zget (k_ti k) t = Some y ∧ ti_avail y ≠ 0 ∧ ti_running y = 0 ∧
    ti_regs y = idle_regs L r0 idle_main x leader.

(** The state when the leader, on the CPU [c], and the other CPUs of [done] are through with their start. *)
Record harts_up (k : kern) (c : Z) (up : list Z) : Prop := {
  hu_sched : sched_ok k;
  hu_nodup : NoDup (omap id (k_cpus k));
  hu_objs : ∀ d, d ∈ omap id (k_cpus k) → ∃ x, k_cpu_objs k !! d = Some x ∧ cpu_lock x = 0 ∧ cpu_ti x = None ∧ cpu_running x = 1 ∧
    cpu_ti_task x = if d =? c then Some 0 else None;
  hu_idle : ∀ d, d ∈ up → ∃ t, idle_of k d (Z.b2z (d =? c)) t;
  hu_own : ∀ d e s t u, d ∈ up → e ∈ up → idle_of k d s u → idle_of k e t u → d = e;
  hu_busy : busy (k_ti k) = 1 + zlen up;
  hu_room : zlen (k_ti k) = 2 * CONFIG_NUM_CORES;
  hu_smp : k_lock_smp k = 0;
  hu_proc : pi_avail (k_pi k) ≠ 0;
  hu_lock : pi_lock (k_pi k) = 0
}.

Lemma leader_up k hart c kw x y0 y1 l : k_cpu_get_current k hart = Ret c → booted k c → woken_up k kw →
  (∀ d, d ∈ omap id (k_cpus k) → runs kw d) → k_cpu_objs kw !! c = Some x → cpu_lock x = 0 → k_ti k = y0 :: y1 :: l →
  harts_up (led L r0 idle_main start kw c x y0 y1 l) c [c].
Proof.
  intros Hcur Hb Hw Hr Hx Hlk Hti. pose proof (wu_eq _ _ Hw) as Ek. pose proof (bt_free _ _ Hb) as Hfree. rewrite Hti in Hfree.
  apply Forall_cons in Hfree as [_ [_ Hl]%Forall_cons].
  assert (∀ d z, k_cpu_objs kw !! d = Some z → cpu_ti_task z = None ∧ (d ∈ omap id (k_cpus k) → cpu_lock z = 0 ∧ cpu_ti z = None ∧ cpu_running z = 1)) as Hobj.
  { intros d z Hz. destruct (k_cpu_objs k !! d) as [z0|] eqn:Hz0; [|by rewrite (wu_same _ _ Hw) in Hz].
    destruct (wu_objs _ _ Hw d z0 Hz0) as (q & E & _). rewrite Hz in E. injection E as ->. split; [apply (bt_tasks _ _ Hb d z0 Hz0)|].
    intros Hd. destruct (bt_objs _ _ Hb d Hd) as (z1 & Hz1 & ? & ? & _). rewrite Hz0 in Hz1. injection Hz1 as <-.
    specialize (Hr d Hd). unfold runs in Hr. rewrite Hz in Hr. cbn in Hr. injection Hr as Hr. done. }
  set (k1 := led _ _ _ _ _ _ _ _ _ _).
  assert (k_ti k1 = main_thread L r0 start y0 (alloc_tid kw).1 c :: first_thread y1 (if CONFIG_ATOMIC then i32 (k_uniq_tid kw + 1) else
    i32 (i32 (k_uniq_tid kw + 1) + 1)) (idle_regs L r0 idle_main x 1) :: l) as Et by done.
  assert (∀ d z, k_cpu_objs k1 !! d = Some z → (d = c ∧ z = cpu_set_threads x None (Some 1) (Some 0)) ∨ (d ≠ c ∧ k_cpu_objs kw !! d = Some z)) as Hsplit.
  { intros d z. cbn. destruct (decide (d = c)) as [->|]; [rewrite lookup_insert_eq; intros [= <-]; by left|rewrite lookup_insert_ne by done; by right]. }
  assert (k_cpus k1 = k_cpus k) as Ec by (cbn; by rewrite Ek).
  split; try done.
  - split.
    + intros d z t Hz Ht. destruct (Hsplit d z Hz) as [[-> ->]|[_ Hz']]; [|apply Hobj in Hz' as [Hn _]; congruence].
      cbn in Ht. injection Ht as <-. rewrite Et. eexists. split; [done|]. by cbn.
    + intros t z Hz Hrun. unfold zget in Hz. rewrite Et in Hz. destruct (t <? 0) eqn:Ht; [done|].
      destruct (Z.to_nat t) as [|[|n]] eqn:En; cbn in Hz.
      * injection Hz as <-. exists c. eexists. split; [done|]. split; [apply lookup_insert_eq|]. cbn. f_equal. lia.
      * injection Hz as <-. done.
      * by apply (Forall_lookup_1 _ _ _ _ Hl) in Hz as [_ ?].
  - rewrite Ec. apply (bt_nodup _ _ Hb).
  - rewrite Ec. intros d Hd. destruct (decide (d = c)) as [->|Hne].
    + eexists. split; [apply lookup_insert_eq|]. cbn. rewrite Z.eqb_refl. destruct (Hobj c x Hx) as [_ Ho]. by apply Ho in Hd as (? & ? & ?).
    + destruct (bt_objs _ _ Hb d Hd) as (z0 & Hz0 & _). destruct (wu_objs _ _ Hw d z0 Hz0) as (q & Hz & _).
      exists (cpu_set_running z0 q). destruct (Hobj d _ Hz) as [Htk Ho]. destruct (Ho Hd) as (? & ? & ?). rewrite (proj2 (Z.eqb_neq d c)) by done.
      split; [|done]. cbn. by rewrite lookup_insert_ne.
  - intros d ->%list_elem_of_singleton. exists 1, (cpu_set_threads x None (Some 1) (Some 0)). rewrite Z.eqb_refl, Et. eexists.
    split; [apply lookup_insert_eq|]. done.
  - intros d e s t u ->%list_elem_of_singleton ->%list_elem_of_singleton. done.
  - rewrite Et. cbn [busy]. rewrite (busy_free l Hl). done.
  - pose proof (bt_room _ _ Hb) as Hroom. rewrite Hti in Hroom. rewrite Et. done.
  - cbn. rewrite Ek. apply (bt_smp _ _ Hb).
  - cbn. rewrite Ek. apply (bt_proc _ _ Hb).
  - cbn. rewrite Ek. apply (bt_lock _ _ Hb).
Qed.

(** A step of [up]: the function on one more CPU. *)
Lemma child_up k c up h d : harts_up k c up → c ∈ up → k_cpu_get_current k h = Ret d → d ∉ up → zlen up < CONFIG_NUM_CORES →
  ∃ k', k_init_child L (Ret (0, r0)) idle_main k h = Ret k' ∧ harts_up k' c (d :: up) ∧ same_ids k k' ∧ k_cpus k' = k_cpus k.
Proof.
  intros Hu Hc Hcur Hd Hup. pose proof (current_in _ _ _ Hcur) as Hin. assert (d ≠ c) as Hne by (intros ->; done).
  destruct (hu_objs _ _ _ Hu d Hin) as (x & Hx & Hlk & Hti & Hrun & Htask). rewrite (proj2 (Z.eqb_neq d c)) in Htask by done.
  destruct (busy_room (k_ti k)) as (t & y & Hf & Hy & Hfree); [rewrite (hu_busy _ _ _ Hu), (hu_room _ _ _ Hu); lia|].
  unfold k_init_child. rewrite Hcur. mstep.
  rewrite (init_idle_eq L r0 idle_main Hr0 k d x t y 0) by (done || apply (hu_proc _ _ _ Hu) || apply (hu_lock _ _ _ Hu)). mstep.
  set (x' := cpu_set_threads x (cpu_ti x) (Some t) (cpu_ti_task x)). set (y' := first_thread y _ _). set (k1 := upd k d x' t y' _ _).
  assert (∀ z, k_cpu_objs k1 !! d = Some z → z = x') as Hnew by (intros z; cbn; rewrite lookup_insert_eq; congruence).
  assert (∀ e, e ≠ d → k_cpu_objs k1 !! e = k_cpu_objs k !! e) as Hold by (intros e He; cbn; by rewrite lookup_insert_ne).
  assert (∀ u, zget (k_ti k1) u = if u =? t then Some y' else zget (k_ti k) u) as Hti1 by (intros u; apply (zget_upd _ _ _ _ _ Hy)).
  (* The CPUs that were up have kept their idle threads, none of which is the new one. *)
  assert (∀ e u z, e ∈ up → k_cpu_objs k !! e = Some z → cpu_ti_idle z = Some u → u ≠ t ∧ idle_of k e (Z.b2z (e =? c)) u) as Hup1.
  { intros e u z He Hz Hzu. destruct (hu_idle _ _ _ Hu e He) as (v & Hv). destruct Hv as (z' & w & Hz' & Hv & Hw & Hwa & Hw').
    rewrite Hz in Hz'. injection Hz' as <-. rewrite Hzu in Hv. injection Hv as <-. split; [|by exists z, w]. intros ->. congruence. }
  assert (d ∈ d :: up ∧ idle_of k1 d 0 t) as [_ Hidle].
  { split; [left|]. exists x', y'. split; [apply lookup_insert_eq|]. split; [done|]. by rewrite Hti1, Z.eqb_refl. }
  exists k1. split; [done|]. split; [|by split; [eapply (same_ids_put k d x x' Hx)|]]. split; try done.
  - by apply (sched_same k d x x' t y y' _ _ (hu_sched _ _ _ Hu)).
  - apply (hu_nodup _ _ _ Hu).
  - intros e He. destruct (decide (e = d)) as [->|]; [|rewrite Hold by done; by apply (hu_objs _ _ _ Hu)].
    exists x'. rewrite (proj2 (Z.eqb_neq d c)) by done. split; [apply lookup_insert_eq|done].
  - intros e [->|He]%elem_of_cons; [exists t; by rewrite (proj2 (Z.eqb_neq d c))|].
    destruct (hu_idle _ _ _ Hu e He) as (u & z & w & Hz & Hzu & Hw & Hrest). destruct (Hup1 e u z He Hz Hzu) as [Hne' _].
    exists u, z, w. rewrite Hold, Hti1, (proj2 (Z.eqb_neq u t)) by (done || (intros ->; done)). done.
  - assert (∀ e s u, e ∈ up → e ≠ d → idle_of k1 e s u → u ≠ t ∧ idle_of k e (Z.b2z (e =? c)) u) as Hback.
    { intros e s u He Hed (z & w & Hz & Hzu & _). rewrite Hold in Hz by done. by apply (Hup1 e u z). }
    assert (∀ s u, idle_of k1 d s u → u = t) as Hself by (intros s u (z & w & Hz%Hnew & Hzu & _); subst z; cbn in Hzu; congruence).
    intros e f s1 s2 u [->|He]%elem_of_cons [->|Hf']%elem_of_cons H1 H2; [done| | |].
    + apply Hself in H1 as ->. apply (Hback f) in H2 as [? _]; [done..|]. by intros ->.
    + apply Hself in H2 as ->. apply (Hback e) in H1 as [? _]; [done..|]. by intros ->.
    + apply (Hback e) in H1 as [_ H1]; [|done|by intros ->]. apply (Hback f) in H2 as [_ H2]; [|done|by intros ->].
      by eapply (hu_own _ _ _ Hu e f).
  - cbn. unfold zget in Hy. destruct (t <? 0); [done|]. rewrite (busy_insert _ _ _ _ Hy Hfree) by done. rewrite (hu_busy _ _ _ Hu). lia.
  - cbn. rewrite length_insert. apply (hu_room _ _ _ Hu).
  - apply (hu_smp _ _ _ Hu).
  - apply (hu_proc _ _ _ Hu).
  - apply (hu_lock _ _ _ Hu).
Qed.

(** All CPUs of a list, one after the other. *)
Lemma children_up hs : ∀ k c up ds, harts_up k c up → c ∈ up → Forall2 (fun h d => k_cpu_get_current k h = Ret d) hs ds →
  NoDup (ds ++ up) → zlen (ds ++ up) <= CONFIG_NUM_CORES →
  ∃ k', init_children L (Ret (0, r0)) idle_main hs k = Ret k' ∧ harts_up k' c (rev ds ++ up) ∧ same_ids k k'.
Proof.
  induction hs as [|h hs IH]; intros k c up ds Hu Hc Hds Hnd Hlen.
  { apply Forall2_nil_inv_l in Hds as ->. exists k. by split_and!. }
  apply Forall2_cons_inv_l in Hds as (d & ds' & Hd & Hds & ->). cbn in Hnd, Hlen. apply NoDup_cons in Hnd as [Hn Hnd].
  rewrite elem_of_app in Hn. rewrite length_app in Hlen.
  destruct (child_up k c up h d Hu Hc Hd) as (k1 & E & Hu1 & Hs1 & _); [tauto|lia|]. cbn [init_children]. rewrite E. mstep.
  destruct (IH k1 c (d :: up) ds' Hu1) as (k2 & -> & Hu2 & Hs2).
  - by right.
  - eapply Forall2_impl; [exact Hds|]. intros h' e <-. by apply get_current_same.
  - rewrite <-Permutation_middle. apply NoDup_cons. split; [rewrite elem_of_app; tauto|done].
  - rewrite length_app. cbn [length]. lia.
  - exists k2. split; [done|]. split; [|].
    + cbn [rev]. by rewrite <-app_assoc.
    + destruct Hs1 as [E1 F1], Hs2 as [E2 F2]. split; [congruence|]. intros e. by rewrite F2.
Qed.

(** A CPU that is up goes on with its idle thread. *)
Lemma up_switches k c up h d regs : harts_up k c up → d ∈ up → k_cpu_get_current k h = Ret d → ∃ id k2,
  k_cpu_get_id k d = Ret id ∧ switch_from k h regs = Ret (Z.b2z (d =? c), k2) ∧
  enters k2 d idle_main (Z.b2z (d =? c)) (k_stack_idle L + usize ((id + 1) * CONFIG_IDLE_STACK_SIZE)) (intr_stack L id).
Proof.
  intros Hu Hd Hcur. destruct (hu_idle _ _ _ Hu d Hd) as (t & x & y & Hx & Ht & Hy & _ & _ & Hr).
  destruct (hu_objs _ _ _ Hu d (current_in _ _ _ Hcur)) as (x1 & Hx1 & _ & Hti & _). rewrite Hx in Hx1. injection Hx1 as <-.
  set (b := Z.b2z (d =? c)) in *. assert (0 <= b <= 1) as Hb by (unfold b; destruct (d =? c); cbn; lia).
  pose proof (entry_regs_at r0 b (k_stack_idle L + usize ((id_cpu x + 1) * CONFIG_IDLE_STACK_SIZE)) (intr_stack L (id_cpu x)) idle_main Hr0) as (Ha & _).
  exists (id_cpu x). eexists. unfold k_cpu_get_id. rewrite (get_cpu_eq _ _ _ Hx). mstep. split; [done|].
  split; [rewrite <-(isize_bit b) by done; eapply (switch_to_idle k h d x Hcur Hx (hu_smp _ _ _ Hu)); [done|done|done|by rewrite Hr]|].
  eapply enters_entry; [apply lookup_insert_eq|cbn; by rewrite Hr|done].
Qed.
End Harts.

Lemma omap_length {A} (l : list (option A)) : zlen (omap id l) <= zlen l.
Proof. induction l as [|[a|] l IH]; cbn [omap list_omap id length]; [done|cbn in *; lia..]. Qed.

Lemma led_ids `{Arch} `{Config} L r0 idle_main start k c x y0 y1 l : k_cpu_objs k !! c = Some x →
  same_ids k (led L r0 idle_main start k c x y0 y1 l).
Proof. intros Hx. destruct (same_ids_put k c x (cpu_set_threads x None (Some 1) (Some 0)) Hx eq_refl) as [E1 E2]. by split. Qed.

(** C5: the start establishes the invariant of the scheduler.  When [k_init_leader] has run on the CPU [c] of the main hart and
    [k_init_child] on any of the other harts, in any order, they all have returned, the threads and the CPUs satisfy [sched_ok], no
    lock is taken, every CPU of the table is marked as running and only that of the leader has a task. Each of these CPUs has an
    idle thread that no other one has, and the context switch that each of them makes at the end goes on in [k_thread_idle_main], on
    its own stacks, with the argument 1 on the leader and 0 on the others; and the CPUs of the other harts are those that
    [k_thread_clone] can choose. *)
Theorem harts_start `{Arch} `{Config} L op_wakeup op_raise_ipi op_inv r0 idle_main start k hart c hs ds
    (Hwake : ∀ f, op_wakeup = Some f → ∀ c k, ∃ r, f c k = Ret (r, k))
    (Hipi : ∀ f, op_raise_ipi = Some f → ∀ c d k, ∃ r, f c d k = Ret (r, k)) (Hinv : cache_op_ok op_inv)
    (Hr0 : length r0 = REG_ALL) (Hcur : k_cpu_get_current k hart = Ret c) (Hb : booted k c) (Ha : args_ready L (k_mem k))
    (Hds : Forall2 (fun h d => k_cpu_get_current k h = Ret d) hs ds) (Hnd : NoDup (ds ++ [c])) :
  ∃ k1 k2, k_init_leader L op_raise_ipi (Ret (0, r0)) idle_main start op_wakeup op_inv k hart = Ret k1 ∧
    init_children L (Ret (0, r0)) idle_main hs k1 = Ret k2 ∧ sched_ok k2 ∧ cpus_ok k2 (k_cpus k2) ∧ k_cpus k2 = k_cpus k ∧
    k_lock_smp k2 = 0 ∧ pi_lock (k_pi k2) = 0 ∧
    (∀ d, d ∈ omap id (k_cpus k) → runs k2 d ∧ (idle_cpus k2 d ↔ d ≠ c)) ∧
    (∀ d, d ∈ c :: ds → ∃ t, idle_of L r0 idle_main k2 d (Z.b2z (d =? c)) t) ∧
    (∀ d e s t u, d ∈ c :: ds → e ∈ c :: ds → idle_of L r0 idle_main k2 d s u → idle_of L r0 idle_main k2 e t u → d = e) ∧
    ∀ h d regs, (h, d) ∈ (hart, c) :: zip hs ds → ∃ id k3, k_cpu_get_id k2 d = Ret id ∧
      switch_from k2 h regs = Ret (Z.b2z (d =? c), k3) ∧
      enters k3 d idle_main (Z.b2z (d =? c)) (k_stack_idle L + usize ((id + 1) * CONFIG_IDLE_STACK_SIZE)) (intr_stack L id).
Proof.
  destruct (k_init_leader_eq L r0 idle_main start Hr0 op_wakeup op_raise_ipi op_inv k hart c Hwake Hipi Hinv Hcur Hb Ha)
    as (kw & x & y0 & y1 & l & Hw & Hr & Hx & Hlk & Hti & ->).
  pose proof (leader_up L r0 idle_main start Hr0 k hart c kw x y0 y1 l Hcur Hb Hw Hr Hx Hlk Hti) as Hu.
  assert (same_ids k (led L r0 idle_main start kw c x y0 y1 l)) as [Hc1 Hs1].
  { destruct (woken_up_ids _ _ Hw) as [E1 F1], (led_ids L r0 idle_main start kw c x y0 y1 l Hx) as [E2 F2].
    split; [congruence|]. intros d. by rewrite F2. }
  set (k1 := led _ _ _ _ _ _ _ _ _ _) in *.
  assert (zlen (ds ++ [c]) <= CONFIG_NUM_CORES) as Hlen.
  { rewrite <-(bt_len _ _ Hb). etransitivity; [|apply (omap_length (k_cpus k))]. apply inj_le, submseteq_length, NoDup_submseteq; [done|].
    intros d [Hd | ->%list_elem_of_singleton]%elem_of_app; [|by eapply current_in].
    apply list_elem_of_lookup in Hd as [i Hi]. destruct (Forall2_lookup_r _ _ _ _ _ Hds Hi) as (h & _ & Hh). by eapply current_in. }
  assert (∀ k', same_ids k1 k' → same_ids k k') as Hids by (intros k' [E F]; split; [congruence|intros d; by rewrite F]).
  destruct (children_up L r0 idle_main Hr0 hs k1 c [c] ds Hu) as (k2 & E & Hu2 & Hs2); [left| |done|done|].
  { eapply Forall2_impl; [exact Hds|]. intros h d <-. apply get_current_same. by split. }
  assert (∀ d, d ∈ c :: ds → d ∈ rev ds ++ [c]) as Hin.
  { intros d. rewrite elem_of_cons, elem_of_app, list_elem_of_singleton, !list_elem_of_In, <-in_rev. tauto. }
  assert (same_ids k k2) as Hk2 by by apply Hids. pose proof (proj1 Hk2) as Ec.
  exists k1, k2. split; [done|]. split; [done|]. split; [apply (hu_sched _ _ _ _ _ _ Hu2)|]. split.
  { split; [apply (hu_nodup _ _ _ _ _ _ Hu2)|]. intros d Hd. destruct (hu_objs _ _ _ _ _ _ Hu2 d Hd) as (z & ? & ? & _). by exists z. }
  split; [done|]. split; [apply (hu_smp _ _ _ _ _ _ Hu2)|]. split; [apply (hu_lock _ _ _ _ _ _ Hu2)|]. split; [|split; [|split]].
  - intros d Hd. rewrite <-Ec in Hd. destruct (hu_objs _ _ _ _ _ _ Hu2 d Hd) as (z & Hz & _ & _ & Hrun & Htask).
    split; [unfold runs; rewrite Hz; cbn; by rewrite Hrun|]. split.
    + intros (_ & w & Hw' & Hn) ->. rewrite Z.eqb_refl in Htask. congruence.
    + intros Hne. split; [done|]. exists z. by rewrite (proj2 (Z.eqb_neq d c)) in Htask.
  - intros d Hd%Hin. apply (hu_idle _ _ _ _ _ _ Hu2 d Hd).
  - intros d e s t u Hd%Hin He%Hin. by apply (hu_own _ _ _ _ _ _ Hu2).
  - intros h d regs Hd. assert (d ∈ c :: ds ∧ k_cpu_get_current k h = Ret d) as [Hd' Hh].
    { apply elem_of_cons in Hd as [[= -> ->]|Hd]; [by split; [left|]|]. apply list_elem_of_lookup in Hd as [i Hi].
      apply lookup_zip_Some in Hi as [Hi1 Hi2]. split; [right; by eapply list_elem_of_lookup_2|]. by eapply (Forall2_lookup_lr _ _ _ _ _ _ Hds). }
    eapply (up_switches L r0 idle_main Hr0 k2 c _ h d regs Hu2); [by apply Hin|]. rewrite <-Hh. by apply get_current_same.
Qed.

(** ** Example: two CPUs of the QEMU board, with the argument of Args.v *)

Definition two_harts : kern :=
  mk_kern (k_cpus args_kern) (k_cpu_objs args_kern) 2 (replicate 8 (mk_thread 0 0 0 0 0 0 0 0 0 0 [] None)) 1 (k_pi args_kern) 0 (k_mem args_kern).

Lemma harts_start_witness :
  ∃ k1 k2 k3 k4 id, @k_init_leader rv64 qemu_virt args_layout None (Ret (0, demo_context)) 0x8000 0x9000 None
      (Some (@cpu_riscv_inv_range rv64 true)) two_harts 0 = Ret k1 ∧
    @init_children rv64 qemu_virt args_layout (Ret (0, demo_context)) 0x8000 [1] k1 = Ret k2 ∧ sched_ok k2 ∧
    @switch_from rv64 k2 0 [] = Ret (1, k3) ∧ @switch_from rv64 k2 1 [] = Ret (0, k4) ∧
    @enters rv64 k4 11 0x8000 0 (0x30000 + uwrap 64 ((id + 1) * 4096)) (@intr_stack rv64 qemu_virt args_layout id).
Proof.
  destruct (@fresh_booted qemu_virt two_harts) as (c & Hc & Hb); [by vm_compute|done|done|].
  assert (c = 10) as -> by (vm_compute in Hc; by injection Hc).
  destruct (@harts_start rv64 qemu_virt args_layout None None (Some (@cpu_riscv_inv_range rv64 true)) demo_context 0x8000 0x9000 two_harts 0 10 [1] [11])
    as (k1 & k2 & E1 & E2 & Hs & _ & _ & _ & _ & _ & _ & _ & Hsw); [done|done|apply cbo_range_ok|done|done|done|apply demo_args_ready|..].
  - by repeat constructor.
  - apply (bool_decide_unpack _). by vm_compute.
  - destruct (Hsw 0 10 []) as (id0 & k3 & _ & S1 & _); [left|]. destruct (Hsw 1 11 []) as (id1 & k4 & I1 & S2 & Hent); [right; left|].
    exists k1, k2, k3, k4, id1. split; [exact E1|]. split; [exact E2|]. split; [exact Hs|]. split; [exact S1|]. split; [exact S2|exact Hent].
Defined.
