(* ===== verification/Calls.v ===== *)
(** * System calls together (include/bmetal/syscall.h, libc/syscall_num.h, newlib/syscall_num.h,
      sys/libc/support.c, sys/newlib/support.c)

    The numbers of the two C libraries, the table of functions of each, the conversion of
    the arguments from registers to the types of the functions, and the functions of
    the other files on one state.  The last section composes them with the
    trap handler: what a program sees of a system call. *)

From S2P Require Import Prelude Config CString Memory SysMem Clock Event Regs Cpu Args Thread Device File Timer Syscall.
From S2P Require Import Intr Clk Uart Gpio SysDev Boards Trap Init.

(** ** Numbers *)

Definition libc_num_a : list (string * Z) :=
  [("io_setup", 0); ("io_destroy", 1); ("io_submit", 2); ("io_cancel", 3); ("io_getevents", 4); ("setxattr", 5);
   ("lsetxattr", 6); ("fsetxattr", 7); ("getxattr", 8); ("lgetxattr", 9); ("fgetxattr", 10); ("listxattr", 11);
   ("llistxattr", 12); ("flistxattr", 13); ("removexattr", 14); ("lremovexattr", 15); ("fremovexattr", 16);
   ("getcwd", 17); ("lookup_dcookie", 18); ("eventfd2", 19); ("epoll_create1", 20); ("epoll_ctl", 21);
   ("epoll_pwait", 22); ("dup", 23); ("dup3", 24); ("fcntl", 25); ("inotify_init1", 26); ("inotify_add_watch", 27);
   ("inotify_rm_watch", 28); ("ioctl", 29); ("ioprio_set", 30); ("ioprio_get", 31); ("flock", 32); ("mknodat", 33);
   ("mkdirat", 34); ("unlinkat", 35); ("symlinkat", 36); ("linkat", 37); ("umount2", 39); ("mount", 40);
   ("pivot_root", 41); ("nfsservctl", 42); ("statfs", 43); ("fstatfs", 44); ("truncate", 45); ("ftruncate", 46);
   ("fallocate", 47); ("faccessat", 48); ("chdir", 49); ("fchdir", 50); ("chroot", 51); ("fchmod", 52);
   ("fchmodat", 53); ("fchownat", 54); ("fchown", 55); ("openat", 56); ("close", 57); ("vhangup", 58); ("pipe2", 59);
   ("quotactl", 60); ("getdents64", 61); ("lseek", 62); ("read", 63); ("write", 64); ("readv", 65); ("writev", 66);
   ("pread64", 67); ("pwrite64", 68); ("preadv", 69); ("pwritev", 70); ("sendfile", 71); ("pselect6", 72);
   ("ppoll", 73); ("signalfd4", 74); ("vmsplice", 75); ("splice", 76); ("tee", 77); ("readlinkat", 78);
   ("newfstatat", 79); ("fstat", 80); ("sync", 81); ("fsync", 82); ("fdatasync", 83); ("sync_file_range", 84);
   ("timerfd_create", 85); ("timerfd_settime", 86); ("timerfd_gettime", 87); ("utimensat", 88); ("acct", 89);
   ("capget", 90); ("capset", 91); ("personality", 92); ("exit", 93); ("exit_group", 94); ("waitid", 95);
   ("set_tid_address", 96); ("unshare", 97); ("futex", 98); ("set_robust_list", 99); ("get_robust_list", 100);
   ("nanosleep", 101); ("getitimer", 102); ("setitimer", 103); ("kexec_load", 104); ("init_module", 105);
   ("delete_module", 106); ("timer_create", 107); ("timer_gettime", 108); ("timer_getoverrun", 109);
   ("timer_settime", 110); ("timer_delete", 111); ("clock_settime", 112); ("clock_gettime", 113);
   ("clock_getres", 114); ("clock_nanosleep", 115); ("syslog", 116); ("ptrace", 117); ("sched_setparam", 118);
   ("sched_setscheduler", 119); ("sched_getscheduler", 120); ("sched_getparam", 121); ("sched_setaffinity", 122);
   ("sched_getaffinity", 123); ("sched_yield", 124); ("sched_get_priority_max", 125);
   ("sched_get_priority_min", 126); ("sched_rr_get_interval", 127); ("restart_syscall", 128); ("kill", 129);
   ("tkill", 130); ("tgkill", 131); ("sigaltstack", 132); ("rt_sigsuspend", 133); ("rt_sigaction", 134);
   ("rt_sigprocmask", 135); ("rt_sigpending", 136); ("rt_sigtimedwait", 137); ("rt_sigqueueinfo", 138);
   ("rt_sigreturn", 139); ("setpriority", 140); ("getpriority", 141)]%string.
Definition libc_num_b : list (string * Z) :=
  [("reboot", 142); ("setregid", 143); ("setgid", 144); ("setreuid", 145); ("setuid", 146); ("setresuid", 147);
   ("getresuid", 148); ("setresgid", 149); ("getresgid", 150); ("setfsuid", 151); ("setfsgid", 152); ("times", 153);
   ("setpgid", 154); ("getpgid", 155); ("getsid", 156); ("setsid", 157); ("getgroups", 158); ("setgroups", 159);
   ("uname", 160); ("sethostname", 161); ("setdomainname", 162); ("getrlimit", 163); ("setrlimit", 164);
   ("getrusage", 165); ("umask", 166); ("prctl", 167); ("getcpu", 168); ("gettimeofday", 169); ("settimeofday", 170);
   ("adjtimex", 171); ("getpid", 172); ("getppid", 173); ("getuid", 174); ("geteuid", 175); ("getgid", 176);
   ("getegid", 177); ("gettid", 178); ("sysinfo", 179); ("mq_open", 180); ("mq_unlink", 181); ("mq_timedsend", 182);
   ("mq_timedreceive", 183); ("mq_notify", 184); ("mq_getsetattr", 185); ("msgget", 186); ("msgctl", 187);
   ("msgrcv", 188); ("msgsnd", 189); ("semget", 190); ("semctl", 191); ("semtimedop", 192); ("semop", 193);
   ("shmget", 194); ("shmctl", 195); ("shmat", 196); ("shmdt", 197); ("socket", 198); ("socketpair", 199);
   ("bind", 200); ("listen", 201); ("accept", 202); ("connect", 203); ("getsockname", 204); ("getpeername", 205);
   ("sendto", 206); ("recvfrom", 207); ("setsockopt", 208); ("getsockopt", 209); ("shutdown", 210); ("sendmsg", 211);
   ("recvmsg", 212); ("readahead", 213); ("brk", 214); ("munmap", 215); ("mremap", 216); ("add_key", 217);
   ("request_key", 218); ("keyctl", 219); ("clone", 220); ("execve", 221); ("mmap", 222); ("fadvise64", 223);
   ("swapon", 224); ("swapoff", 225); ("mprotect", 226); ("msync", 227); ("mlock", 228); ("munlock", 229);
   ("mlockall", 230); ("munlockall", 231); ("mincore", 232); ("madvise", 233); ("remap_file_pages", 234);
   ("mbind", 235); ("get_mempolicy", 236); ("set_mempolicy", 237); ("migrate_pages", 238); ("move_pages", 239);
   ("rt_tgsigqueueinfo", 240); ("perf_event_open", 241); ("accept4", 242); ("recvmmsg", 243);
   ("riscv_flush_icache", 259); ("wait4", 260); ("prlimit64", 261); ("fanotify_init", 262); ("fanotify_mark", 263);
   ("name_to_handle_at", 264); ("open_by_handle_at", 265); ("clock_adjtime", 266); ("syncfs", 267); ("setns", 268);
   ("sendmmsg", 269); ("process_vm_readv", 270); ("process_vm_writev", 271); ("kcmp", 272); ("finit_module", 273);
   ("sched_setattr", 274); ("sched_getattr", 275); ("renameat2", 276); ("seccomp", 277); ("getrandom", 278);
   ("memfd_create", 279); ("bpf", 280); ("execveat", 281); ("userfaultfd", 282); ("membarrier", 283);
   ("mlock2", 284); ("copy_file_range", 285); ("preadv2", 286); ("pwritev2", 287); ("pkey_mprotect", 288);
   ("pkey_alloc", 289); ("pkey_free", 290); ("statx", 291); ("io_pgetevents", 292); ("rseq", 293);
   ("kexec_file_load", 294)]%string.
Definition libc_num_32 : list (string * Z) :=
  [("clock_gettime64", 403); ("clock_settime64", 404); ("clock_adjtime64", 405); ("clock_getres_time64", 406);
   ("clock_nanosleep_time64", 407); ("timer_gettime64", 408); ("timer_settime64", 409); ("timerfd_gettime64", 410);
   ("timerfd_settime64", 411); ("utimensat_time64", 412); ("pselect6_time64", 413); ("ppoll_time64", 414);
   ("io_pgetevents_time64", 416); ("recvmmsg_time64", 417); ("mq_timedsend_time64", 418);
   ("mq_timedreceive_time64", 419); ("semtimedop_time64", 420); ("rt_sigtimedwait_time64", 421);
   ("futex_time64", 422); ("sched_rr_get_interval_time64", 423)]%string.
Definition libc_num_c : list (string * Z) :=
  [("pidfd_send_signal", 424); ("io_uring_setup", 425); ("io_uring_enter", 426); ("io_uring_register", 427);
   ("open_tree", 428); ("move_mount", 429); ("fsopen", 430); ("fsconfig", 431); ("fsmount", 432); ("fspick", 433);
   ("pidfd_open", 434); ("clone3", 435)]%string.
Definition newlib_num_a : list (string * Z) :=
  [("getcwd", 17); ("dup", 23); ("fcntl", 25); ("faccessat", 48); ("chdir", 49); ("openat", 56); ("close", 57);
   ("getdents64", 61); ("lseek", 62); ("read", 63); ("write", 64); ("writev", 66); ("pread64", 67); ("pwrite64", 68);
   ("newfstatat", 79); ("fstat", 80); ("exit", 93); ("exit_group", 94); ("kill", 129); ("rt_sigaction", 134);
   ("times", 153); ("uname", 160); ("gettimeofday", 169); ("getpid", 172); ("getuid", 174); ("geteuid", 175);
   ("getgid", 176); ("getegid", 177); ("brk", 214); ("munmap", 215); ("mremap", 216); ("mmap", 222)]%string.
Definition newlib_num_32 : list (string * Z) :=
  [("clock_gettime64", 403)]%string.
Definition newlib_num_b : list (string * Z) :=
  [("open", 1024); ("link", 1025); ("unlink", 1026); ("mkdir", 1030); ("access", 1033); ("stat", 1038);
   ("lstat", 1039); ("time", 1062); ("getmainvars", 2011)]%string.

(** [SYS_name] of the selected library, and the calls of its own that follow the numbers of the library. *)
Section Numbers.
Context `{Arch} `{Libc}.

Definition MAX_SYSCALLS_LIB : Z := if CONFIG_USE_LIBC then 440 else 2012.
Definition SYS_orig : Z := MAX_SYSCALLS_LIB.
Definition SYS_context_switch : Z := SYS_orig + 1.

Definition syscall_num : list (string * Z) :=
  (if CONFIG_USE_LIBC then libc_num_a ++ libc_num_b ++ (if xlen =? 64 then [] else libc_num_32) ++ libc_num_c
   else newlib_num_a ++ (if xlen =? 64 then [] else newlib_num_32) ++ newlib_num_b) ++ [("context_switch"%string, SYS_context_switch)].

Fixpoint find_num (name : string) (l : list (string * Z)) : option Z :=
  match l with
  | [] => None
  | (s, n) :: l => if String.eqb name s then Some n else find_num name l
  end.
Definition SYS (name : string) : option Z := find_num name syscall_num.
End Numbers.

(** ** Functions and the types of their arguments *)

(** [k_sys_wrap_name] for every call, and [k_sys_context_switch]. *)
Inductive call :=
| K_uname | K_prlimit64 | K_getuid | K_geteuid | K_getgid | K_getegid | K_getpid | K_gettid
| K_clock_gettime32 | K_clock_settime32 | K_clock_gettime64 | K_clock_settime64 | K_gettimeofday | K_settimeofday
| K_getrandom | K_openat | K_close | K_ioctl | K_read | K_write | K_writev
| K_brk | K_mmap | K_munmap | K_madvise | K_mprotect | K_clone | K_futex32 | K_futex64
| K_set_robust_list | K_set_tid_address | K_exit_group | K_exit | K_reboot | K_clone3 | K_context_switch.
#[export] Instance call_eq_dec : EqDecision call.
Proof. solve_decision. Defined.

Inductive ctype := T_int | T_uint | T_ushort | T_long | T_ulong | T_pointer.

(** [SYSCALL_WRAP0] to [SYSCALL_WRAP6] *)
Definition arg_types (c : call) : list ctype :=
  match c with
  | K_uname => [T_pointer]
  | K_prlimit64 => [T_int; T_int; T_pointer; T_pointer]
  | K_getuid | K_geteuid | K_getgid | K_getegid | K_getpid | K_gettid | K_context_switch => []
  | K_clock_gettime32 | K_clock_settime32 | K_clock_gettime64 | K_clock_settime64 => [T_int; T_pointer]
  | K_gettimeofday | K_settimeofday => [T_pointer; T_pointer]
  | K_getrandom => [T_pointer; T_ulong; T_uint]
  | K_openat => [T_int; T_pointer; T_int; T_ushort]
  | K_close => [T_int]
  | K_ioctl => [T_uint; T_uint; T_ulong]
  | K_read | K_write => [T_int; T_pointer; T_ulong]
  | K_writev => [T_int; T_pointer; T_int]
  | K_brk => [T_pointer]
  | K_mmap => [T_pointer; T_ulong; T_int; T_int; T_int; T_long]
  | K_munmap => [T_pointer; T_ulong]
  | K_madvise | K_mprotect => [T_pointer; T_ulong; T_int]
  | K_clone => [T_ulong; T_pointer; T_pointer; T_pointer; T_pointer]
  | K_futex32 | K_futex64 => [T_pointer; T_int; T_int; T_pointer; T_pointer; T_int]
  | K_set_robust_list => [T_pointer; T_ulong]
  | K_set_tid_address => [T_pointer]
  | K_exit_group | K_exit => [T_int]
  | K_reboot => [T_int; T_int; T_int]
  | K_clone3 => [T_pointer; T_ulong]
  end.

Section Wrap.
Context `{Arch}.

(** The cast of an [intptr_t], which is in a register as the number [v]. *)
Definition cast (t : ctype) (v : Z) : Z :=
  match t with
  | T_int => i32 v
  | T_uint => u32 v
  | T_ushort => uwrap 16 v
  | T_long => isize v
  | T_ulong | T_pointer => usize v
  end.
Definition k_sys_wrap (c : call) (regs : list Z) : list Z := zip_with cast (arg_types c) regs.

Definition fits (t : ctype) (v : Z) : Prop :=
  match t with
  | T_int => - 2 ^ 31 <= v < 2 ^ 31
  | T_uint => 0 <= v < 2 ^ 32
  | T_ushort => 0 <= v < 2 ^ 16
  | T_long => - 2 ^ (xlen - 1) <= v < 2 ^ (xlen - 1)
  | T_ulong | T_pointer => 0 <= v < 2 ^ xlen
  end.
End Wrap.

(** ** Tables *)

Section Tables.
Context `{Arch} `{Libc}.

Definition is64 : bool := xlen =? 64.
(** [SYSCALL_P] entries of sys/libc/support.c and of sys/newlib/support.c. *)
Definition table_libc : list (string * call) :=
  [("uname", K_uname); ("prlimit64", K_prlimit64); ("getuid", K_getuid); ("geteuid", K_geteuid); ("getgid", K_getgid);
   ("getegid", K_getegid); ("getpid", K_getpid); ("gettid", K_gettid)]%string ++
  (if is64 then [("clock_gettime", K_clock_gettime64); ("clock_settime", K_clock_settime64)]
   else [("clock_gettime", K_clock_gettime32); ("clock_settime", K_clock_settime32);
         ("clock_gettime64", K_clock_gettime64); ("clock_settime64", K_clock_settime64)])%string ++
  [("gettimeofday", K_gettimeofday); ("settimeofday", K_settimeofday); ("getrandom", K_getrandom); ("openat", K_openat);
   ("close", K_close); ("ioctl", K_ioctl); ("read", K_read); ("write", K_write); ("writev", K_writev); ("brk", K_brk);
   ("mmap", K_mmap); ("munmap", K_munmap); ("madvise", K_madvise); ("mprotect", K_mprotect); ("clone", K_clone)]%string ++
  (if is64 then [("futex", K_futex64)] else [("futex", K_futex32); ("futex_time64", K_futex64)])%string ++
  [("set_robust_list", K_set_robust_list); ("set_tid_address", K_set_tid_address); ("exit_group", K_exit_group);
   ("exit", K_exit); ("reboot", K_reboot); ("clone3", K_clone3); ("context_switch", K_context_switch)]%string.
Definition table_newlib : list (string * call) :=
  [("uname", K_uname); ("getuid", K_getuid); ("geteuid", K_geteuid); ("getgid", K_getgid); ("getegid", K_getegid);
   ("getpid", K_getpid)]%string ++
  (if is64 then [] else [("clock_gettime64", K_clock_gettime64)])%string ++
  [("gettimeofday", K_gettimeofday); ("openat", K_openat); ("close", K_close); ("read", K_read); ("write", K_write);
   ("writev", K_writev); ("brk", K_brk); ("mmap", K_mmap); ("munmap", K_munmap); ("exit_group", K_exit_group);
   ("exit", K_exit); ("context_switch", K_context_switch)]%string.
Definition table_syscalls : list (string * call) := if CONFIG_USE_LIBC then table_libc else table_newlib.

(** The entry of a number: null where the table has no initialiser. *)
Fixpoint find_call (n : Z) (l : list (string * call)) : option call :=
  match l with
  | [] => None
  | (name, c) :: l => if bool_decide (SYS name = Some n) then Some c else find_call n l
  end.
Definition k_table_syscalls (n : Z) : option call :=
  if (0 <=? n) && (n <? MAX_SYSCALLS) then find_call n table_syscalls else None.
End Tables.

(** ** The whole state *)

(** The system, the lock of [k_mem_brk_lock] and the offset of the real time. *)
Record world (W : Type) := mk_world {
  w_system : system W;
  w_brk_lock : Z;
  w_offset : timespec64
}.
Arguments mk_world {W}.
Arguments w_system {W}.
Arguments w_brk_lock {W}.
Arguments w_offset {W}.

Section Dispatch.
Context `{Arch} `{Config} `{Libc} {W : Type} `{Mmio W}.
Variable fuel : nat.

(** The address of the structure [uname], the parameters of Thread.v, and the number of the hart. *)
Variable uname_at : Z.
Variable L : layout.
Variable op_flush : option (kern → Z → Z → Z → exec (Z * list Z)).
Variable op_sleep : option (Z → kern → exec (Z * kern)).
Variable op_raise_ipi : option (Z → Z → kern → exec (Z * kern)).
Variable thread_init : exec (Z * user_regs).
Variable elsewhere : nat → kern → kern.
Variable hart : Z.

Definition kern_of (w : world W) : kern := kern_in (y_sys (w_system w)).
Definition set_sys (w : world W) (s : sys W) : world W :=
  let y := w_system w in mk_world (mk_system (y_heap y) (y_tree y) s (y_fds y) (y_lock y)) (w_brk_lock w) (w_offset w).
Definition set_kern (w : world W) (k : kern) : world W := set_sys w (with_kern (y_sys (w_system w)) k).
Definition set_memory (w : world W) (m : mem) : world W := set_kern w (with_kmem (kern_of w) m).
Definition memory (w : world W) : mem := k_mem (kern_of w).

Definition on_kern (f : kern → exec (Z * kern)) (w : world W) : exec (Z * world W) :=
  '(r, k) ← f (kern_of w); Ret (r, set_kern w k).
Definition on_memory (f : mem → exec (Z * mem)) (w : world W) : exec (Z * world W) :=
  '(r, m) ← f (memory w); Ret (r, set_memory w m).
Definition on_sysmem (f : sysmem → exec (Z * sysmem)) (w : world W) : exec (Z * world W) :=
  let y := w_system w in
  '(r, s) ← f (mk_sysmem (y_heap y) (memory w) (w_brk_lock w));
  let w := set_memory w (sm_mem s) in
  let y := w_system w in
  Ret (r, mk_world (mk_system (sm_g s) (y_tree y) (y_sys y) (y_fds y) (y_lock y)) (sm_lock_brk s) (w_offset w)).

(** The console is used with interrupts disabled, as they are in a trap; its device is the
    whole system. *)
Definition on_files (f : files (sys W) → exec (Z * files (sys W))) (w : world W) : exec (Z * world W) :=
  let y := w_system w in
  let k := kern_of w in
  '(r, x) ← f (mk_files (k_pi k) (y_fds y) (memory w) (mk_console (y_lock y) 0 (y_sys y)));
  let s := con_dev (f_con x) in
  let k := with_kmem (with_proc (kern_in s) (f_pi x)) (f_mem x) in
  Ret (r, mk_world (mk_system (y_heap y) (y_tree y) (with_kern s k) (f_desc x) (con_lock (f_con x))) (w_brk_lock w) (w_offset w)).

Definition set_io (w : world W) (io : W) : world W :=
  let '(e, q) := irq_get (y_sys (w_system w)) in set_sys w (irq_put (e, with_io q io) (y_sys (w_system w))).
Definition io_of (w : world W) : W := q_io (irq_get (y_sys (w_system w))).2.
Definition timer_of (w : world W) : exec (option (option (k_timer_driver_ops W))) :=
  let y := w_system w in system_timer acc_ops fuel timer_ops (y_tree y) (s_devs (y_sys y)).
Definition on_clock (f : option (option (k_timer_driver_ops W)) → mem → W → exec (Z * mem * W)) (w : world W) : exec (Z * world W) :=
  timer ← timer_of w;
  '(r, m, io) ← f timer (memory w) (io_of w);
  Ret (r, set_io (set_memory w m) io).
Definition on_offset (f : option (option (k_timer_driver_ops W)) → mem → W → exec (Z * timespec64 * W)) (w : world W) : exec (Z * world W) :=
  timer ← timer_of w;
  '(r, off, io) ← f timer (memory w) (io_of w);
  let w := set_io w io in
  Ret (r, mk_world (w_system w) (w_brk_lock w) off).
Definition on_reset (f : option (option (option (W → exec (Z * W)) * option (W → exec (Z * W)))) → W → exec (Z * W)) (w : world W) :
    exec (Z * world W) :=
  let y := w_system w in
  rst ← system_reset acc_ops reset_ops (y_tree y) (s_devs (y_sys y));
  '(r, io) ← f rst (io_of w);
  Ret (r, set_io w io).

(** [k_sys_name] with its arguments. *)
Definition k_sys (c : call) (args : list Z) (w : world W) : exec (Z * world W) :=
  let off := w_offset w in
  match c, args with
  | K_uname, [name] => on_memory (fun m => k_sys_uname m uname_at name) w
  | K_prlimit64, [_; resource; new_lim; old_lim] => on_memory (fun m => Ret (k_sys_prlimit64 m resource new_lim old_lim)) w
  | K_getuid, [] => Ret (k_sys_getuid, w)
  | K_geteuid, [] => Ret (k_sys_geteuid, w)
  | K_getgid, [] => Ret (k_sys_getgid, w)
  | K_getegid, [] => Ret (k_sys_getegid, w)
  | K_getpid, [] => r ← k_sys_getpid (kern_of w); Ret (r, w)
  | K_gettid, [] => r ← k_sys_gettid (kern_of w) hart; Ret (r, w)
  | K_clock_gettime32, [id; tp] => on_clock (fun t m io => k_sys_clock_gettime32 t hart off m id tp io) w
  | K_clock_settime32, [id; tp] => on_offset (fun t m io => k_sys_clock_settime32 t hart off m id tp io) w
  | K_clock_gettime64, [id; tp] => on_clock (fun t m io => k_sys_clock_gettime64 t hart off m id tp io) w
  | K_clock_settime64, [id; tp] => on_offset (fun t m io => k_sys_clock_settime64 t hart off m id tp io) w
  | K_gettimeofday, [tp; _] => on_clock (fun t m io => k_sys_gettimeofday t hart off m tp io) w
  | K_settimeofday, [tp; _] => on_offset (fun t m io => k_sys_settimeofday t hart off m tp io) w
  | K_getrandom, [buf; buflen; _] => on_memory (fun m => Ret (k_sys_getrandom m buf buflen)) w
  | K_openat, [_; _; _; _] => on_files (fun f => Ret (k_sys_openat f)) w
  | K_close, [fd] => on_files (fun f => k_sys_close f fd) w
  | K_ioctl, [fd; cmd; arg] => on_files (fun f => k_sys_ioctl f fd cmd arg) w
  | K_read, [fd; buf; count] => on_files (fun f => k_sys_read f fd buf count) w
  | K_write, [fd; buf; count] => on_files (fun f => k_sys_write f fd buf count) w
  | K_writev, [fd; iov; iovcnt] => on_files (fun f => k_sys_writev f fd iov iovcnt) w
  | K_brk, [addr] => on_sysmem (fun s => k_sys_brk s addr) w
  | K_mmap, [addr; length; prot; flags; fd; offset] => on_sysmem (fun s => k_sys_mmap s addr length prot flags fd offset) w
  | K_munmap, [addr; length] => on_sysmem (fun s => k_sys_munmap s addr length) w
  | K_madvise, [addr; length; advice] => on_sysmem (fun s => k_sys_madvise s addr length advice) w
  | K_mprotect, [addr; length; prot] => on_sysmem (fun s => Ret (k_sys_mprotect s addr length prot)) w
  | K_clone, [flags; stack; ptid; tls; ctid] =>
    on_kern (fun k => k_sys_clone L op_raise_ipi thread_init k hart flags stack ptid tls ctid) w
  | K_futex32, [uaddr; op; val; _; _; val3] => on_kern (fun k => k_sys_futex32 op_raise_ipi elsewhere fuel k hart uaddr op val val3) w
  | K_futex64, [uaddr; op; val; _; _; val3] => on_kern (fun k => k_sys_futex64 op_raise_ipi elsewhere fuel k hart uaddr op val val3) w
  | K_set_robust_list, [head; len] => on_kern (fun k => k_sys_set_robust_list k hart head len) w
  | K_set_tid_address, [tidptr] => on_kern (fun k => k_sys_set_tid_address k hart tidptr) w
  | K_exit_group, [status] => on_kern (fun k => k_sys_exit_group L op_flush op_sleep op_raise_ipi elsewhere fuel k hart status) w
  | K_exit, [status] => on_kern (fun k => k_sys_exit L op_flush op_sleep op_raise_ipi k hart status) w
  | K_reboot, [magic1; magic2; cmd] => on_reset (fun rst io => k_sys_reboot rst magic1 magic2 cmd io) w
  | K_clone3, [cargs; size] => on_kern (fun k => k_sys_clone3 L op_raise_ipi thread_init k hart cargs size) w
  | K_context_switch, [] => on_kern (fun k => k_sys_context_switch k hart) w
  | _, _ => Undef
  end.

(** The function of the table, or [k_sys_unknown]; [regs] are [a0] to [a6]. *)
Definition k_syscall (no : Z) (regs : list Z) (w : world W) : exec (Z * world W) :=
  match k_table_syscalls no with
  | Some c => k_sys c (k_sys_wrap c regs) w
  | None => Ret (k_sys_unknown, w)
  end.
End Dispatch.

(** ** Arguments *)

Section Arguments.
Context `{Arch}.

(** The bits of a type; a register holds a value of the type in its low bits, whatever is above. *)
Definition ctype_bits (t : ctype) : Z :=
  match t with T_int | T_uint => 32 | T_ushort => 16 | T_long | T_ulong | T_pointer => xlen end.
Definition holds (t : ctype) (r v : Z) : Prop := fits t v ∧ r mod 2 ^ ctype_bits t = v mod 2 ^ ctype_bits t.

Lemma cast_fits t r : fits t (cast t r).
Proof.
  pose proof xlen_ge. destruct t; cbn [fits cast].
  - pose proof (swrap_range 32 r). lia.
  - pose proof (uwrap_range 32 r). lia.
  - pose proof (uwrap_range 16 r). lia.
  - apply swrap_range. lia.
  - apply uwrap_range. lia.
  - apply uwrap_range. lia.
Qed.

Lemma swrap_mod w a b : a mod 2 ^ w = b mod 2 ^ w → swrap w a = swrap w b.
Proof. intros Hab. unfold swrap. by rewrite <-(Zplus_mod_idemp_l a), Hab, Zplus_mod_idemp_l. Qed.

Lemma cast_holds t r v : holds t r v → cast t r = v.
Proof.
  pose proof xlen_ge. intros [Hf Hm]. destruct t; cbn [fits cast ctype_bits] in *.
  - rewrite (swrap_mod _ _ _ Hm). apply swrap_small; lia.
  - unfold uwrap. rewrite Hm. apply Z.mod_small. lia.
  - unfold uwrap. rewrite Hm. apply Z.mod_small. lia.
  - rewrite (swrap_mod _ _ _ Hm). apply swrap_small; lia.
  - unfold uwrap. rewrite Hm. apply Z.mod_small. lia.
  - unfold uwrap. rewrite Hm. apply Z.mod_small. lia.
Qed.
End Arguments.

(** The wrappers give the functions what the program passed.  Whatever registers hold the arguments
    of a call in the low bits of their types, sign-extended, zero-extended or with rubbish above, and
    whatever is in the registers behind them, the function gets these arguments; and from any seven
    registers it gets values of its types. *)
Theorem k_sys_wrap_roundtrip `{Arch} c regs vs rest (Hregs : Forall3 holds (arg_types c) regs vs) (any : list Z) (Hany : length any = 7%nat) :
  k_sys_wrap c (regs ++ rest) = vs ∧ Forall2 fits (arg_types c) (k_sys_wrap c any).
Proof.
  unfold k_sys_wrap. split.
  - induction Hregs as [|t r v ts rs vs' Hh Hr IH]; [done|]. cbn. by rewrite (cast_holds _ _ _ Hh), IH.
  - assert (length (arg_types c) <= length any)%nat as Hl by (rewrite Hany; destruct c; cbn; lia). clear Hany Hregs.
    revert any Hl. induction (arg_types c) as [|t ts IH]; intros [|r rs] Hl; cbn in *; [constructor|constructor|lia|].
    constructor; [apply cast_fits|]. apply IH. lia.
Qed.

Lemma k_sys_wrap_roundtrip_witness :
  @k_sys_wrap rv64 K_close [2 ^ 64 - 1; 5] = [-1] ∧ @k_sys_wrap rv64 K_close [2 ^ 32 - 1; 5] = [-1].
Proof.
  split.
  - apply (@k_sys_wrap_roundtrip rv64 K_close [2 ^ 64 - 1] [-1] [5] ltac:(repeat constructor; by vm_compute) [0; 0; 0; 0; 0; 0; 0] eq_refl).
  - apply (@k_sys_wrap_roundtrip rv64 K_close [2 ^ 32 - 1] [-1] [5] ltac:(repeat constructor; by vm_compute) [0; 0; 0; 0; 0; 0; 0] eq_refl).
Defined.

(** ** The tables *)

Section TableProofs.
Context `{HA : Arch} `{HL : Libc}.

(** The interface of a program: the calls by their numbers on Linux for RISC-V, and those that a C library has, on 32 and on
    64 bits; [context_switch] has the number behind those of the library. *)
Definition abi_both : list (Z * call) :=
  [(56, K_openat); (57, K_close); (63, K_read); (64, K_write); (66, K_writev); (93, K_exit); (94, K_exit_group); (160, K_uname);
   (169, K_gettimeofday); (172, K_getpid); (174, K_getuid); (175, K_geteuid); (176, K_getgid); (177, K_getegid);
   (214, K_brk); (215, K_munmap); (222, K_mmap)].
Definition abi_libc : list (Z * call) :=
  [(29, K_ioctl); (96, K_set_tid_address); (99, K_set_robust_list); (142, K_reboot); (170, K_settimeofday); (178, K_gettid);
   (220, K_clone); (226, K_mprotect); (233, K_madvise); (261, K_prlimit64); (278, K_getrandom); (435, K_clone3); (441, K_context_switch)] ++
  (if xlen =? 64 then [(98, K_futex64); (112, K_clock_settime64); (113, K_clock_gettime64)]
   else [(98, K_futex32); (112, K_clock_settime32); (113, K_clock_gettime32);
         (403, K_clock_gettime64); (404, K_clock_settime64); (422, K_futex64)]).
Definition abi_newlib : list (Z * call) :=
  (2013, K_context_switch) :: (if xlen =? 64 then [] else [(403, K_clock_gettime64)]).
Definition abi : list (Z * call) := abi_both ++ (if CONFIG_USE_LIBC then abi_libc else abi_newlib).
Definition abi_call (n : Z) : option call := (list_to_map abi : gmap Z call) !! n.

(** The tables against the interface, entry by entry, and the numbers. *)
Definition entries_ok : bool :=
  forallb (fun '(name, c) => match SYS name with Some n => bool_decide (abi_call n = Some c) | None => false end) table_syscalls &&
  forallb (fun '(n, c) => bool_decide (k_table_syscalls n = Some c)) abi &&
  bool_decide (NoDup (map snd syscall_num)) &&
  forallb (fun '(name, n) => (0 <=? n) && ((n <? MAX_SYSCALLS_LIB) || String.eqb name "context_switch") && (n <? MAX_SYSCALLS)) syscall_num.

Lemma find_call_in n c l : find_call n l = Some c → ∃ name, (name, c) ∈ l ∧ SYS name = Some n.
Proof.
  induction l as [|[name k] l IH]; cbn; [done|]. case_bool_decide as E.
  - intros [= ->]. exists name. split; [left|done].
  - intros (name' & Hin & Hs)%IH. exists name'. split; [by right|done].
Qed.
End TableProofs.

Lemma tables_ok (HA : Arch) (HL : Libc) : entries_ok = true.
Proof. destruct HA as [w [-> | ->]], HL as [[|]]; vm_compute; reflexivity. Qed.

(** The table has the function of every call at its number, and nothing at other numbers. *)
Lemma table_is_abi `{Arch} `{Libc} n : k_table_syscalls n = abi_call n.
Proof.
  pose proof (tables_ok _ _) as Ht. unfold entries_ok in Ht. rewrite !andb_true_iff, !forallb_forall in Ht. destruct Ht as (((He & Ha) & _) & _).
  assert (∀ c, k_table_syscalls n = Some c → abi_call n = Some c) as H1.
  { intros c. unfold k_table_syscalls. destruct (_ && _); [|done]. intros (name & Hin & Hs)%find_call_in.
    specialize (He (name, c) (proj1 (list_elem_of_In _ _) Hin)). cbn in He. rewrite Hs in He. by apply bool_decide_eq_true_1 in He. }
  assert (∀ c, abi_call n = Some c → k_table_syscalls n = Some c) as H2.
  { intros c Hc. unfold abi_call in Hc. apply elem_of_list_to_map_2, list_elem_of_In in Hc. specialize (Ha (n, c) Hc). by apply bool_decide_eq_true_1 in Ha. }
  destruct (abi_call n) as [c|]; [by apply H2|]. destruct (k_table_syscalls n) as [c|]; [|done]. by specialize (H1 c eq_refl).
Qed.

(** C32: the tables of the system calls, for both C libraries, on 32 and on 64 bits, against the interface, which is given by
    the numbers alone: under every number there is the function of the call that has this number on Linux, as far as the C library
    has it; and under every other number, inside the array or outside, there is none, so that the call answers
    [-ENOTSUP] and changes nothing.  No two names of the library have the same
    number, and the number of [context_switch] is none of the library's. *)
Theorem k_table_syscalls_spec `{Arch} `{Config} `{Libc} {W : Type} `{Mmio W} fuel uname_at L op_flush op_sleep op_raise_ipi thread_init
    elsewhere hart n regs (w : world W) :
  k_table_syscalls n = abi_call n ∧
  (abi_call n = None → k_syscall fuel uname_at L op_flush op_sleep op_raise_ipi thread_init elsewhere hart n regs w = Ret (- ENOTSUP, w)) ∧
  (∀ s s' k, (s, k) ∈ syscall_num → (s', k) ∈ syscall_num → s = s') ∧
  (∀ s k, (s, k) ∈ syscall_num → s ≠ "context_switch"%string → 0 <= k < MAX_SYSCALLS_LIB).
Proof.
  split; [apply table_is_abi|]. split; [intros Hn; unfold k_syscall; by rewrite table_is_abi, Hn|].
  pose proof (tables_ok _ _) as Ht. unfold entries_ok in Ht. rewrite !andb_true_iff, !forallb_forall, !bool_decide_eq_true in Ht.
  destruct Ht as ((_ & Hn) & Hr). split.
  - intros s s' k H1' H2'. apply list_elem_of_lookup in H1' as [i Hi], H2' as [j Hj].
    assert (i = j) as ->; [|by simplify_eq]. eapply NoDup_lookup; [exact Hn|..]; by rewrite list_lookup_fmap, ?Hi, ?Hj.
  - intros s k Hin Hne. specialize (Hr (s, k) (proj1 (list_elem_of_In _ _) Hin)). cbn in Hr.
    rewrite !andb_true_iff, orb_true_iff in Hr. destruct Hr as ((Hr1 & [Hr2|Hr2]) & _); [lia|]. by apply String.eqb_eq in Hr2.
Qed.

(** What a program may expect of the number [n]: the function of the call, or an error. *)
Definition abi_syscall `{Arch} `{Libc} {A} (sys : call → A → exec (Z * A)) (n : Z) (w : A) : exec (Z * A) :=
  match abi_call n with Some c => sys c w | None => Ret (- ENOTSUP, w) end.

(** ** What a program sees *)

Section Program.
Context `{Arch} `{Config} `{Libc} {W : Type} `{Mmio W}.

(** The functions in C of the trap handler, the function at an address, the table, and the
    parameters of the calls. *)
Variable set_regs sys_unknown interrupt exception : machine → machine.
Variable function_at : Z → machine → machine.
Variable table_at : Z.
Variable addr : call → Z.
Variable fuel : nat.
Variable uname_at : Z.
Variable L : layout.
Variable op_flush : option (kern → Z → Z → Z → exec (Z * list Z)).
Variable op_sleep : option (Z → kern → exec (Z * kern)).
Variable op_raise_ipi : option (Z → Z → kern → exec (Z * kern)).
Variable thread_init : exec (Z * user_regs).
Variable elsewhere : nat → kern → kern.
Variable hart : Z.
Notation sys_fun := (k_sys fuel uname_at L op_flush op_sleep op_raise_ipi thread_init elsewhere hart).
Notation syscall := (k_syscall fuel uname_at L op_flush op_sleep op_raise_ipi thread_init elsewhere hart).

(** The state of the functions in C as the memory of the machine has it. *)
Variable view : machine → world W.

Notation start := (k_trap_start set_regs).

Definition args_of (m : machine) : list Z := map (x m) [A0; A1; A2; A3; A4; A5; A6].

(** A compiled function: it keeps to the calling convention, and called with the arguments [args] in
    the state [w] it does what the definition does, and has the result in [a0]. *)
Definition implements (base : Z) (f : machine → machine) (args : machine → Prop) (w : world W) (res : exec (Z * world W)) : Prop :=
  c_function base f ∧
  ∀ m r w', x m SP = base → args m → view m = w → res = Ret (r, w') → x (f m) A0 = usize r ∧ view (f m) = w'.

(** The calls that come back to their caller and leave the registers that the trap has saved alone; [clone] and [clone3] copy them. *)
Definition plain (c : call) : bool :=
  match c with K_exit | K_exit_group | K_context_switch | K_clone | K_clone3 => false | _ => true end.

Record compiled (m : machine) : Prop := {
  cp_set : c_function (trap_base m) set_regs;
  cp_quiet : quiet set_regs;
  cp_table n : 0 <= n < MAX_SYSCALLS →
    word (words m) (entry_at table_at n) = match k_table_syscalls n with Some c => addr c | None => 0 end ∧
    untouched set_regs (entry_at table_at n) ∧ outside (trap_base m) (entry_at table_at n);
  cp_addr c : addr c ≠ 0;
  cp_call c w : k_table_syscalls (call_no m) = Some c → plain c = true → w = view (start m) →
    implements (trap_base m) (function_at (addr c)) (fun m2 => args_of m2 = args_of m) w (sys_fun c (k_sys_wrap c (args_of m)) w);
  cp_unknown w : w = view (start m) → implements (trap_base m) sys_unknown (fun _ => True) w (Ret (k_sys_unknown, w));
  cp_view m1 m2 : (∀ a, outside (trap_base m) a → word (words m2) a = word (words m1) a) → view m2 = view m1
}.

Lemma call_no_small m : 0 <= x m A7 < 2 ^ xlen → 0 <= call_no m → x m A7 = call_no m.
Proof.
  intros Hr Hn. rewrite <-(usize_isize (x m A7)) by done. fold (call_no m).
  apply uwrap_small. pose proof (swrap_range xlen (x m A7)) as Hs. unfold call_no in *. pose proof xlen_ge.
  assert (2 ^ (xlen - 1) <= 2 ^ xlen) by (apply Z.pow_le_mono_r; lia). lia.
Qed.

Lemma table_is_kept m : compiled m → 0 <= x m A7 < 2 ^ xlen → table_kept set_regs table_at m.
Proof. intros Hc Hr Hn. rewrite call_no_small by (done || lia). by apply (cp_table m Hc). Qed.

(** The function that the trap handler chooses for a program does what [k_syscall] does. *)
Lemma called_syscall m m2 f r w' : compiled m → 0 <= x m A7 < 2 ^ xlen → called sys_unknown function_at table_at m m2 f →
  x m2 SP = trap_base m → view m2 = view (start m) → (∀ c, k_table_syscalls (call_no m) = Some c → plain c = true) →
  syscall (call_no m) (args_of m) (view (start m)) = Ret (r, w') →
  c_function (trap_base m) f ∧ x (f m2) A0 = usize r ∧ view (f m2) = w'.
Proof.
  intros Hcp Hr Hf Hsp Hv Hplain Hcall. unfold k_syscall in Hcall. destruct Hf as [Hno _ _|Hno Hne Hargs].
  - destruct (k_table_syscalls (call_no m)) as [c|] eqn:Ec.
    { exfalso. assert (0 <= call_no m < MAX_SYSCALLS) as Hin.
      { unfold k_table_syscalls in Ec. destruct ((0 <=? call_no m) && (call_no m <? MAX_SYSCALLS)) eqn:Eb; [bsplit; lia|done]. }
      rewrite call_no_small in Hno by (done || lia). destruct (cp_table m Hcp (call_no m) Hin) as [Ht _]. rewrite Ec in Ht.
      pose proof (cp_addr m Hcp c). destruct Hno as [?|[?|?]]; [lia|lia|congruence]. }
    destruct (cp_unknown m Hcp _ eq_refl) as [Hc Hu]. split; [done|]. by apply Hu.
  - rewrite call_no_small in * by (done || lia). destruct (cp_table m Hcp (call_no m) Hno) as [Ht _]. rewrite Ht in *.
    destruct (k_table_syscalls (call_no m)) as [c|] eqn:Ec; [|done].
    destruct (cp_call m Hcp c _ Ec (Hplain c eq_refl) eq_refl) as [Hc Hi]. split; [done|]. apply Hi; try done.
    unfold args_of. cbn [map]. rewrite !Hargs; [done|..]; by apply (bool_decide_unpack _); vm_compute.
Qed.

Notation trap := (k_trap set_regs sys_unknown interrupt exception function_at table_at).

(** C2: what a program sees of a system call, by its number on Linux.  When the functions in C are compiled correctly and the
    table in memory is that of the code, the trap of an [ecall] with the number of a call in [a7] does to the state of the kernel
    what the function of that call does with the arguments in the registers, converted to their types; with a number
    that no call of the library has it does nothing and answers [-ENOTSUP]; the program goes on behind the [ecall] with the
    result in [a0] and all its other registers as they were.  This is for the calls that come back and do not work on the saved
    registers: all but [exit], [exit_group], [context_switch], [clone] and [clone3]; and for a run of the function that returns. *)
Theorem syscall_from_program m r w' (Hok : trap_ok m) (Hcause : cause m = RV_CAUSE_EXC_ECALL_M) (Hreg : 0 <= x m A7 < 2 ^ xlen)
    (Hcp : compiled m) (Hplain : ∀ c, abi_call (call_no m) = Some c → plain c = true)
    (Hcall : abi_syscall (fun c w => sys_fun c (k_sys_wrap c (args_of m)) w) (call_no m) (view (start m)) = Ret (r, w')) :
  let m' := trap m in x m' A0 = usize r ∧ view m' = w' ∧ (∀ q, q ≠ X0 → q ≠ A0 → x m' q = x m q) ∧
    epc m' = usize (epc m + 4) ∧ status m' = status m ∧ scratch m' = scratch m.
Proof.
  assert (syscall (call_no m) (args_of m) (view (start m)) = Ret (r, w')) as Hsys.
  { unfold abi_syscall in Hcall. unfold k_syscall. rewrite table_is_abi. by destruct (abi_call (call_no m)). }
  assert (∀ c, k_table_syscalls (call_no m) = Some c → plain c = true) as Hp by (intros c; rewrite table_is_abi; apply Hplain).
  cbv zeta. destruct (k_trap_syscall_ends set_regs sys_unknown interrupt exception function_at table_at m Hok
    (table_is_kept m Hcp Hreg) Hcause (cp_set m Hcp) (cp_quiet m Hcp)) as (f & m2 & Hf & Hsp & Hctx & Hout & ->).
  destruct (called_syscall m m2 f r w' Hcp Hreg Hf Hsp (cp_view m Hcp (start m) m2 Hout) Hp Hsys) as (Hc & Ha & Hv).
  destruct (Hc m2 Hsp) as [Hk Hframe].
  destruct (syscall_end (f m2) (trap_base m) (x m) (usize (epc m + 4)) (status m) (scratch m)) as (Hx & He & Hs & Hsc & Ho).
  - by rewrite (keeps_sp _ _ Hk).
  - by apply trap_in_frame.
  - by apply (context_same _ _ _ _ _ m2).
  - split; [by rewrite Hx, decide_True|]. split; [by rewrite (cp_view m Hcp _ _ Ho)|].
    split; [|done]. intros q Hq Hqa. by rewrite Hx, decide_False.
Qed.
End Program.

(** ** Example *)

Section Example.
#[local] Existing Instance rv64.
#[local] Existing Instance qemu_virt.
#[local] Existing Instance demo_libc.

(** A thread that asked for [CLONE_CHILD_CLEARTID]; its pointer is the word at [0x5000]. *)
Definition demo_tid_world (ctid : Z) : world board_io :=
  let k := mk_kern [Some 10] {[10 := mk_cpu 0 0 1 (Some []) 0 (Some 0) None (Some 0) [] (mk_futex 0 0 0 0) 0 0]} 2
             [mk_thread 7 1 1 CLONE_CHILD_CLEARTID 0 0 0 ctid 0 0 [] (Some 10)] 8 (mk_proc 1 1 0 None []) 0 ∅ in
  let y := static_system qemu_virt_board (io_start []) ∅ ∅ in
  set_kern (mk_world y 0 (mk_timespec64 0 0)) k.
Definition demo_tid_view (m : machine) : world board_io := demo_tid_world (word (words m) 0x5000).

Definition demo_result (r : Z) (w : gmap Z Z → gmap Z Z) (m : machine) : machine :=
  mk_machine (fun q => match q with A0 => usize r | _ => x m q end) (w (words m)) (scratch m) (epc m) (cause m) (status m).
Definition demo_set_tid (m : machine) : machine := demo_result 7 <[0x5000 := x m A0]> m.
Definition demo_unknown : machine → machine := demo_result k_sys_unknown id.
Definition demo_table_words : gmap Z Z :=
  list_to_map (omap (fun n => match k_table_syscalls n with Some _ => Some (entry_at 0x9000 n, 0x100) | None => None end) (seqZ 0 448)).
(** [set_tid_address(0x6000)] *)
Definition demo_call : machine :=
  mk_machine (fun r => match r with X0 => 0 | SP => 0x4000 | A7 => 96 | A0 => 0x6000 | _ => reg_no r end)
    demo_table_words 0x8000 0x1000 RV_CAUSE_EXC_ECALL_M 0x1880.

Notation demo_fun := (k_sys 2 0 args_layout None None None Undef (fun _ k => k) 0).

(** [geteuid] has 175; 38 is no call. *)
Lemma k_table_syscalls_spec_witness (w := demo_tid_world 0) :
  k_table_syscalls 175 = Some K_geteuid ∧ k_syscall 2 0 args_layout None None None Undef (fun _ k => k) 0 38 [] w = Ret (- ENOTSUP, w).
Proof.
  destruct (k_table_syscalls_spec 2 0 args_layout None None None Undef (fun _ k => k) 0 175 [] w) as (E & _).
  destruct (k_table_syscalls_spec 2 0 args_layout None None None Undef (fun _ k => k) 0 38 [] w) as (_ & Hn & _).
  split; [rewrite E; vm_compute; reflexivity|]. apply Hn. vm_compute. reflexivity.
Defined.

Lemma demo_result_c r w base : (∀ m, same_frame base m (demo_result r w m)) → c_function base (demo_result r w).
Proof.
  intros Hw m _. split; [|apply Hw].
  assert (Forall (fun q => q ≠ A0) kept_regs) as Hk by (apply (bool_decide_unpack _); vm_compute; exact I).
  intros q Hq. pose proof (proj1 (Forall_forall _ _) Hk q Hq). by destruct q.
Qed.

(** The table lies behind the stack for interrupts and has the functions of [k_table_syscalls]. *)
Lemma demo_table_ok n : 0 <= n < MAX_SYSCALLS →
  word demo_table_words (entry_at 0x9000 n) = match k_table_syscalls n with Some _ => 0x100 | None => 0 end ∧ outside 0x7ef0 (entry_at 0x9000 n).
Proof.
  intros Hn. assert (Forall (fun n => word demo_table_words (entry_at 0x9000 n) = match k_table_syscalls n with Some _ => 0x100 | None => 0 end ∧
    0x9000 <= entry_at 0x9000 n) (seqZ 0 448)) as Hall by (apply (bool_decide_unpack _); vm_compute; exact I).
  pose proof (proj1 (Forall_forall _ _) Hall n ltac:(by apply elem_of_seqZ)) as [Hw Hr]. split; [done|].
  intros i Hi. unfold slot. change REGSIZE with 8. lia.
Qed.

Lemma demo_outside : outside 0x7ef0 0x5000.
Proof. intros i Hi. unfold slot. change REGSIZE with 8. lia. Qed.

Lemma demo_set_tid_c : c_function 0x7ef0 demo_set_tid.
Proof.
  intros m Hm. refine (demo_result_c 7 <[0x5000 := x m A0]> 0x7ef0 _ m Hm). intros m' i Hi.
  unfold word. cbn [demo_result words]. rewrite lookup_insert_ne; [done|]. by apply demo_outside.
Qed.

Lemma demo_tid_call v : abi_syscall (fun c w => demo_fun c (k_sys_wrap c (args_of demo_call)) w) 96 (demo_tid_world v) = Ret (7, demo_tid_world 0x6000).
Proof. reflexivity. Qed.

Lemma demo_compiled : compiled demo_sum demo_unknown (fun _ => demo_set_tid) 0x9000 (fun _ => 0x100) 2 0 args_layout None None None Undef
  (fun _ k => k) 0 demo_tid_view demo_call.
Proof.
  split.
  - apply demo_sum_c.
  - apply demo_sum_quiet.
  - intros n Hn. destruct (demo_table_ok n Hn) as [Hw Ho]. split; [exact Hw|]. split; [intros m; reflexivity|exact Ho].
  - done.
  - intros c w Hc _ ->. change (Some K_set_tid_address = Some c) in Hc. injection Hc as <-. split.
    + apply demo_set_tid_c.
    + intros m r w' _ Ha Hv Hres. change (Ret (7, demo_tid_world 0x6000) = Ret (r, w')) in Hres. injection Hres as <- <-.
      split; [done|]. unfold demo_tid_view, demo_set_tid, demo_result, word. cbn [words]. rewrite lookup_insert_eq.
      by injection Ha as -> _.
  - intros w ->. split; [apply demo_result_c; by intros m i _|]. intros m r w' _ _ Hv [= <- <-]. split; [done|]. exact Hv.
  - intros m1 m2 Hw. unfold demo_tid_view. by rewrite (Hw 0x5000 demo_outside).
Qed.

Lemma syscall_from_program_witness :
  let m' := k_trap demo_sum demo_unknown demo_sum demo_sum (fun _ => demo_set_tid) 0x9000 demo_call in
  x m' A0 = 7 ∧ demo_tid_view m' = demo_tid_world 0x6000 ∧ x m' A1 = x demo_call A1 ∧ epc m' = 0x1004.
Proof.
  destruct (syscall_from_program demo_sum demo_unknown demo_sum demo_sum (fun _ => demo_set_tid) 0x9000 (fun _ => 0x100) 2 0 args_layout None None None Undef
    (fun _ k => k) 0 demo_tid_view demo_call 7 (demo_tid_world 0x6000)) as (Ha & Hv & Hx & He & _).
  - split; [done|]. by vm_compute.
  - done.
  - done.
  - apply demo_compiled.
  - intros c Hc. change (Some K_set_tid_address = Some c) in Hc. by injection Hc as <-.
  - apply demo_tid_call.
  - cbv zeta. split_and!; [exact Ha|exact Hv|by apply Hx|exact He].
Defined.
End Example.
