(* ===== verification/Locks.v ===== *)
(** * System calls and locks

    Every lock that a system call takes is free again when the call returns, and a call that finds
    the locks free does not wait for one: the locks of the system, of the process and of the
    CPUs, of the heap and of the break, of the console and of the descriptors of Calls.v. *)

From S2P Require Import Prelude Config CString Memory SysMem Clock Event Regs Cpu Cache Args Thread Device File Timer Syscall.
From S2P Require Import Intr Clk Uart Gpio SysDev Boards Trap Init Calls.

(** ** Outcomes *)

(** What a piece of code returns has the property [P]; it comes back, unless [h] allows it not to. *)
Definition outcome {A} (h : bool) (P : A → Prop) (e : exec A) : Prop :=
  match e with Ret a => P a | Undef => True | Hang => h = true end.

Lemma outcome_bind {A B} h (P : A → Prop) (Q : B → Prop) e (f : A → exec B) :
  outcome h P e → (∀ a, P a → outcome h Q (f a)) → outcome h Q (e ≫= f).
Proof. destruct e; cbn; auto. Qed.
Lemma outcome_mono {A} h (P Q : A → Prop) e : outcome h P e → (∀ a, P a → Q a) → outcome h Q e.
Proof. destruct e; cbn; auto. Qed.
Lemma outcome_of_opt {A} h (P : A → Prop) (o : option A) : (∀ a, o = Some a → P a) → outcome h P (of_opt o).
Proof. destruct o; cbn; auto. Qed.
Lemma of_opt_ok {A} h (o : option A) : outcome h (fun _ => True) (of_opt o).
Proof. by destruct o. Qed.
Lemma outcome_waits {A} h (P : A → Prop) e : outcome h P e → outcome true P e.
Proof. destruct e; cbn; auto. Qed.

(** One step of a sequence, by the lemma on it. *)
Tactic Notation "ostep" uconstr(lem) := eapply outcome_bind; [apply lem|cbn beta].

(** ** The locks of CPUs and processes *)

Definition kern_locks (k : kern) : Z * Z * gmap Z Z := (k_lock_smp k, pi_lock (k_pi k), cpu_lock <$> k_cpu_objs k).
Definition all_free (l : Z * Z * gmap Z Z) : Prop := l.1.1 = 0 ∧ l.1.2 = 0 ∧ map_Forall (fun _ v => v = 0) l.2.

(** The locks are as they were. *)
Definition kept (l : Z * Z * gmap Z Z) (k : kern) : Prop := kern_locks k = l.

Section Kern.
Context `{Arch} `{Config}.
Implicit Types (k : kern) (l : Z * Z * gmap Z Z).

Lemma get_cpu_ok h k c : outcome h (fun x => k_cpu_objs k !! c = Some x) (get_cpu k c).
Proof. by apply outcome_of_opt. Qed.
Lemma put_cpu_locks k c x y : k_cpu_objs k !! c = Some x → cpu_lock y = cpu_lock x → kern_locks (put_cpu k c y) = kern_locks k.
Proof.
  intros Hx Hy. unfold kern_locks. cbn. f_equal. rewrite fmap_insert, insert_id; [done|]. by rewrite lookup_fmap, Hx, Hy.
Qed.
Lemma get_thread_ok h k t : outcome h (fun _ => True) (get_thread k t).
Proof. by apply outcome_of_opt. Qed.
Lemma put_thread_ok h k t x : outcome h (kept (kern_locks k)) (put_thread k t x).
Proof. unfold put_thread. by destruct (zset _ _ _). Qed.

(** Updates of a CPU that leave its lock alone. *)
Lemma update_cpu_ok h k c (f : k_cpu_device → k_cpu_device) : (∀ x, cpu_lock (f x) = cpu_lock x) →
  outcome h (kept (kern_locks k)) (x ← get_cpu k c; Ret (put_cpu k c (f x))).
Proof.
  intros Hf. ostep get_cpu_ok. intros x Hx. by apply (put_cpu_locks _ _ x).
Qed.

Lemma cpu_lock_ok h k c l : all_free l → kept l k →
  outcome h (fun k' => kept (l.1, <[c := 1]> l.2) k' ∧ is_Some (l.2 !! c)) (k_cpu_lock k c).
Proof.
  intros Hf Hk. unfold k_cpu_lock. ostep get_cpu_ok. intros x Hx.
  assert (l.2 !! c = Some (cpu_lock x)) as Hl by (rewrite <-Hk; cbn; by rewrite lookup_fmap, Hx).
  destruct Hf as (_ & _ & Ha). rewrite (Ha _ _ Hl). cbn. rewrite Hl. split; [|done].
  unfold kept, kern_locks in *. cbn. rewrite fmap_insert. subst l. done.
Qed.
Lemma cpu_unlock_ok h k c l : all_free l → is_Some (l.2 !! c) → kept (l.1, <[c := 1]> l.2) k → outcome h (kept l) (k_cpu_unlock k c).
Proof.
  intros Hf [v Hv] Hk. unfold k_cpu_unlock. ostep get_cpu_ok. intros x Hx.
  unfold kept, kern_locks in *. cbn. rewrite fmap_insert. injection Hk as E1 E2. rewrite E1, E2. cbn.
  rewrite insert_insert_eq, insert_id; [by destruct l|].
  rewrite Hv. f_equal. by apply (proj2 (proj2 Hf) c).
Qed.

Lemma find_phys_ok h k cs phys : outcome h (fun _ => True) (find_phys k cs phys).
Proof.
  induction cs as [|[c|] cs IH]; cbn; [done| |done]. ostep get_cpu_ok. intros x _. by case_match.
Qed.
Lemma get_current_ok h k hart : outcome h (fun _ => True) (k_cpu_get_current k hart).
Proof. ostep find_phys_ok. intros c _. by apply outcome_of_opt. Qed.
Lemma cpu_get_ok h k i : outcome h (fun _ => True) (k_cpu_get k i).
Proof. unfold k_cpu_get. case_match; [done|]. by apply outcome_of_opt. Qed.
Lemma set_arg_ok h regs t v : outcome h (fun _ => True) (k_arch_riscv_set_arg regs t v).
Proof. unfold k_arch_riscv_set_arg. case_match; [|done]. by destruct (zset _ _ _). Qed.
Lemma get_task_ok h k c : outcome h (fun _ => True) (k_cpu_get_thread_task k c).
Proof. ostep get_cpu_ok. done. Qed.

(** ** Threads *)

Variable L : layout.
Variable op_flush : option (kern → Z → Z → Z → exec (Z * list Z)).
Variable op_sleep : option (Z → kern → exec (Z * kern)).
Variable op_raise_ipi : option (Z → Z → kern → exec (Z * kern)).
Variable thread_init : exec (Z * user_regs).
Variable elsewhere : nat → kern → kern.

(** What is asked of the operations of the CPU driver and of the assembly code: they come back and leave the locks alone. *)
Record driver_ok : Prop := {
  dr_flush f k c a n : op_flush = Some f → outcome false (fun _ => True) (f k c a n);
  dr_sleep f c k : op_sleep = Some f → outcome false (fun r => kept (kern_locks k) r.2) (f c k);
  dr_ipi f c d k : op_raise_ipi = Some f → outcome false (fun r => kept (kern_locks k) r.2) (f c d k);
  dr_init : outcome false (fun _ => True) thread_init
}.
Hypothesis Hdr : driver_ok.

Notation keeps l := (fun r : Z * kern => kept l r.2).

Lemma raise_ipi_ok k hart c : outcome false (keeps (kern_locks k)) (k_cpu_raise_ipi op_raise_ipi k hart c).
Proof.
  ostep get_current_ok. intros cur _. destruct op_raise_ipi as [f|] eqn:E; [|done]. by apply (dr_ipi Hdr).
Qed.

Lemma thread_create_ok k pi : pi_lock (k_pi k) = 0 →
  outcome false (fun r => kept (kern_locks k) r.2) (k_thread_create thread_init k pi).
Proof.
  intros Hl. unfold k_thread_create. case_match; [done|]. unfold pi_spin_lock. rewrite Hl. cbn [truth Z.eqb negb]. mstep.
  set (k1 := with_proc _ _). assert (∀ k2, kept (kern_locks k1) k2 → kept (kern_locks k) (pi_spin_unlock k2)) as Hun.
  { intros k2 E. unfold kept, kern_locks, pi_spin_unlock in *. cbn in *. injection E as -> _ ->. by rewrite Hl. }
  case_match; [|by apply Hun]. destruct (alloc_tid k1) as [tid k2] eqn:Ea.
  assert (kept (kern_locks k1) k2) as Hk2 by (unfold alloc_tid in Ea; by injection Ea as _ <-).
  ostep get_thread_ok. intros x _. ostep put_thread_ok. intros k3 Hk3. rewrite Hk2 in Hk3.
  ostep (dr_init Hdr). intros [r regs] _. ostep get_thread_ok. intros y _.
  ostep put_thread_ok. intros k4 Hk4. rewrite Hk3 in Hk4. case_match; by apply Hun.
Qed.

Lemma thread_destroy_ok k t : outcome false (keeps (kern_locks k)) (k_thread_destroy k t).
Proof.
  destruct t as [t|]; [|done]. ostep get_thread_ok. intros x _. case_match; [done|].
  ostep put_thread_ok. done.
Qed.
Lemma set_task_ok h k c t : outcome h (kept (kern_locks k)) (k_cpu_set_thread_task k c t).
Proof. by apply update_cpu_ok. Qed.
Lemma thread_run_ok k t cpu : outcome false (keeps (kern_locks k)) (k_thread_run k t cpu).
Proof.
  ostep get_thread_ok. intros x _. ostep put_thread_ok. intros k1 Hk1.
  ostep set_task_ok. intros k2 Hk2. cbn. congruence.
Qed.
Lemma thread_stop_ok k t : outcome false (keeps (kern_locks k)) (k_thread_stop k t).
Proof.
  ostep get_thread_ok. intros x _. ostep of_opt_ok. intros c _.
  ostep set_task_ok. intros k2 Hk2. ostep put_thread_ok. intros k1 Hk1. cbn. congruence.
Qed.

(** ** Clone *)

Lemma smp_ok k l : all_free l → kept l k → k_smp_lock k = Ret (with_smp k 1) ∧ ∀ k', kept (kern_locks (with_smp k 1)) k' → kept l (k_smp_unlock k').
Proof.
  intros (Hs & _) Hk. unfold kept in Hk. subst l. cbn in Hs. unfold k_smp_lock. rewrite Hs. split; [done|].
  unfold kept, kern_locks. cbn. intros k' E. injection E as _ -> ->. by rewrite Hs.
Qed.

Lemma find_idle_ok h k cs : outcome h (fun _ => True) (find_idle k cs).
Proof. induction cs as [|[c|] cs IH]; cbn; [done| |done]. ostep get_task_ok. intros t _. by case_match. Qed.

Lemma find_idle_cpu_ok h k : outcome h (fun _ => True) (k_smp_find_idle_cpu k).
Proof. unfold k_smp_find_idle_cpu. ostep find_idle_ok. by intros [c|] _. Qed.

Lemma clone_pick_ok k : all_free (kern_locks k) → outcome false (fun r => kept (kern_locks k) r.2) (clone_pick k).
Proof.
  intros Hf. destruct (smp_ok k _ Hf eq_refl) as [E Hun]. unfold clone_pick. rewrite E. mstep.
  ostep find_idle_cpu_ok. intros [r c] _. by apply Hun.
Qed.

Lemma clone_regs_ok h regs sp intr tls : outcome h (fun _ => True) (clone_regs regs sp intr tls).
Proof. unfold clone_regs. do 4 (ostep set_arg_ok; intros [? ?] _). done. Qed.

Lemma clone_on_ok k hart cur cpu a need : all_free (kern_locks k) →
  outcome false (keeps (kern_locks k)) (clone_on L op_raise_ipi thread_init k hart cur cpu a need).
Proof.
  intros Hf. destruct need as [[nc np] nt]. unfold clone_on. ostep cpu_lock_ok; [done..|]. intros k1 [Hk1 Hc].
  set (l1 := (_, _)) in Hk1. assert (∀ r k2, kept l1 k2 → outcome false (keeps (kern_locks k)) (k ← k_cpu_unlock k2 cpu; Ret (r, k))) as Hun.
  { intros r k2 Hk2. ostep (cpu_unlock_ok _ _ _ (kern_locks k)); [done..|]. done. }
  ostep thread_create_ok. { injection Hk1 as _ -> _. apply Hf. }
  rewrite Hk1. intros [t k2] Hk2. cbn [fst snd] in *. destruct t as [t|]; [|by apply Hun].
  ostep get_thread_ok. intros x _. cbv zeta. ostep get_cpu_ok. intros y _. ostep of_opt_ok. intros regs _.
  ostep get_cpu_ok. intros z _. ostep clone_regs_ok. intros regs' _. ostep put_thread_ok. intros k3 Hk3.
  assert (kept l1 k3) as Hk3' by (rewrite <-Hk2; exact Hk3). clear Hk3.
  ostep thread_run_ok. intros [r4 k4] Hk4. cbn [snd] in Hk4. rewrite Hk3' in Hk4.
  ostep raise_ipi_ok. intros [r5 k5] Hk5. cbn [snd] in Hk5. rewrite Hk4 in Hk5. case_match.
  - ostep thread_stop_ok. intros [r6 k6] Hk6. cbn [snd] in Hk6. rewrite Hk5 in Hk6.
    ostep thread_destroy_ok. intros [r7 k7] Hk7. cbn [snd] in Hk7. rewrite Hk6 in Hk7. by apply Hun.
  - ostep (cpu_unlock_ok _ _ _ (kern_locks k)); [done..|]. intros k6 Hk6. ostep get_thread_ok. done.
Qed.

Lemma thread_clone_ok k hart a : all_free (kern_locks k) →
  outcome false (keeps (kern_locks k)) (k_thread_clone L op_raise_ipi thread_init k hart a).
Proof.
  intros Hf. unfold k_thread_clone. ostep get_current_ok. intros cur _. destruct (clone_needs a) as [r need].
  case_match; [done|]. ostep clone_pick_ok; [done|]. intros [[r1 c] k1] Hk1. cbn [snd] in Hk1. case_match; [done|].
  ostep of_opt_ok. intros cpu _. rewrite <-Hk1. apply clone_on_ok. by rewrite Hk1.
Qed.

(** ** Context switch and exit *)

Lemma switch_nolock_ok k hart : outcome false (keeps (kern_locks k)) (k_thread_context_switch_nolock k hart).
Proof.
  unfold k_thread_context_switch_nolock. ostep get_current_ok. intros c _. ostep get_cpu_ok. intros x _.
  eapply (outcome_bind _ (kept (kern_locks k))).
  { case_match; [|done]. ostep of_opt_ok. intros t _. ostep of_opt_ok. intros regs _. ostep get_thread_ok. intros y _. apply put_thread_ok. }
  intros k1 Hk1. ostep of_opt_ok. intros t _. ostep get_thread_ok. intros y _. ostep of_opt_ok. intros _ _.
  ostep (update_cpu_ok _ _ _ (fun x => cpu_set_regs x (Some (ti_regs y)))); [done|]. intros k2 Hk2.
  ostep (update_cpu_ok _ _ _ (fun z => cpu_set_threads z _ (cpu_ti_idle z) (cpu_ti_task z))); [done|]. intros k3 Hk3.
  cbn. congruence.
Qed.

Lemma retval_ok h k c : outcome h (fun _ => True) (retval_of k c).
Proof.
  unfold retval_of. ostep get_cpu_ok. intros x _. ostep of_opt_ok. intros regs _.
  eapply (outcome_bind _ (fun _ => True)); [|intros [? ?] _; apply of_opt_ok].
  unfold k_arch_riscv_get_arg. case_match; [|done]. ostep of_opt_ok. done.
Qed.

Lemma sys_context_switch_ok k hart : all_free (kern_locks k) → outcome false (keeps (kern_locks k)) (k_sys_context_switch k hart).
Proof.
  intros Hf. destruct (smp_ok k _ Hf eq_refl) as [E Hun]. unfold k_sys_context_switch, k_thread_context_switch.
  ostep get_current_ok. intros c _. eapply (outcome_bind _ (keeps (kern_locks k))).
  - rewrite E. mstep. ostep switch_nolock_ok. intros [r k1] Hk1. by apply Hun.
  - intros [r k1] Hk1. cbn [snd] in Hk1. case_match; [done|]. ostep retval_ok. done.
Qed.

Lemma flush_range_ok h f k c a n : (∀ g, f = Some g → outcome h (fun _ => True) (g k c a n)) →
  outcome h (fun _ => True) (k_cpu_cache_flush_range f k c a n).
Proof. intros Hf. unfold k_cpu_cache_flush_range, k_cpu_cache_clean_range. destruct f; [by apply Hf|done]. Qed.

Lemma unmap_argv_ok fuel hart : ∀ k i buf, num_args L (k_mem k) - i <= Z.of_nat fuel →
  outcome false (kept (kern_locks k)) (unmap_argv L op_flush fuel k hart i buf).
Proof.
  induction fuel as [|fuel IH]; intros k i buf Hi; cbn [unmap_argv]; (destruct (_ <? _) eqn:E; bsplit; [|done]); [lia|].
  ostep get_current_ok. intros c _. cbv zeta. ostep flush_range_ok; [intros g Hg; by apply (dr_flush Hdr)|]. intros [r b] _. apply IH. lia.
Qed.

Lemma fini_args_ok k hart st : outcome false (kept (kern_locks k)) (fini_args L op_flush k hart st).
Proof.
  unfold fini_args. ostep get_current_ok. intros c _. case_match; [|done].
  ostep unmap_argv_ok; [lia|]. intros k1 Hk1. cbv zeta.
  do 2 (ostep flush_range_ok; [intros g Hg; by apply (dr_flush Hdr)|]; intros [? ?] _). done.
Qed.

Lemma each_cpu_ok f hart ids : (∀ c k, outcome false (keeps (kern_locks k)) (f c k)) →
  ∀ res k, outcome false (keeps (kern_locks k)) (each_cpu op_raise_ipi f hart ids res k).
Proof.
  intros Hf. induction ids as [|i ids IH]; intros res k; cbn [each_cpu]; [done|].
  ostep cpu_get_ok. intros [c|] _; [|apply IH]. ostep Hf. intros [r k1] Hk1. cbn [snd] in Hk1. cbv zeta.
  ostep raise_ipi_ok. intros [r2 k2] Hk2. cbn [snd] in Hk2. rewrite Hk1 in Hk2. rewrite <-Hk2. apply IH.
Qed.

Lemma set_running_ok h k c r : outcome h (kept (kern_locks k)) (k_cpu_set_running k c r).
Proof. by apply (update_cpu_ok _ _ _ (fun x => cpu_set_running x r)). Qed.

Lemma fini_leader_ok k hart st : outcome false (kept (kern_locks k)) (k_fini_leader L op_flush op_sleep op_raise_ipi k hart st).
Proof.
  unfold k_fini_leader. ostep fini_args_ok. intros k1 Hk1. eapply (outcome_bind _ (keeps (kern_locks k1))).
  - unfold k_cpu_sleep_all. ostep each_cpu_ok.
    + intros c k2. unfold k_cpu_sleep. eapply (outcome_bind _ (keeps (kern_locks k2))).
      { destruct op_sleep as [f|] eqn:E; [by apply (dr_sleep Hdr)|done]. }
      intros [r k3] Hk3. cbn [snd] in Hk3. case_match; [done|]. rewrite <-Hk3. ostep set_running_ok. done.
    + intros [r k2] Hk2. cbn [snd] in Hk2. ostep cpu_get_ok. intros [c|] _; [|done]. rewrite <-Hk2. ostep set_running_ok. done.
  - intros [r k2] Hk2. cbn in *. congruence.
Qed.

Lemma futex_wake_ok k hart uaddr val bitset : all_free (kern_locks k) →
  outcome false (keeps (kern_locks k)) (k_cpu_futex_wake op_raise_ipi k hart uaddr val bitset).
Proof.
  intros Hf. unfold k_cpu_futex_wake. ostep get_current_ok. intros cur _. case_match; [done|].
  generalize (seqZ 0 CONFIG_NUM_CORES) as ids. intros ids. generalize 0 as res. intros res.
  assert (kept (kern_locks k) k) as Hk by done. revert Hk. generalize k at 2 4 as k1.
  revert res. induction ids as [|i ids IH]; intros res k1 Hk1; cbn [futex_wake_loop]; [done|]. case_match; [done|].
  ostep cpu_get_ok. intros [c|] _; [|by apply IH]. case_match; [by apply IH|].
  ostep (cpu_lock_ok _ _ _ (kern_locks k)); [done..|]. intros k2 [Hk2 Hc]. ostep get_cpu_ok. intros x Hx.
  case_match; cbv zeta.
  - ostep (cpu_unlock_ok _ _ _ (kern_locks k)); [done..|]. by apply IH.
  - ostep (cpu_unlock_ok _ _ _ (kern_locks k)); [done|done| |].
    { unfold kept. by rewrite (put_cpu_locks _ _ _ _ Hx). }
    intros k3 Hk3. ostep raise_ipi_ok. intros [r k4] Hk4. cbn [snd] in Hk4. rewrite Hk3 in Hk4. by apply IH.
Qed.

Lemma sys_exit_ok k hart st : all_free (kern_locks k) →
  outcome false (keeps (kern_locks k)) (k_sys_exit L op_flush op_sleep op_raise_ipi k hart st).
Proof.
  intros Hf. unfold k_sys_exit. cbv zeta. ostep get_current_ok. intros cpu _. ostep cpu_lock_ok; [done..|]. intros k1 [Hk1 Hc].
  set (l1 := (_, _)) in Hk1. assert (∀ r k2, kept l1 k2 → outcome false (keeps (kern_locks k)) (k ← k_cpu_unlock k2 cpu; Ret (r, k))) as Hun.
  { intros r k2 Hk2. ostep (cpu_unlock_ok _ _ _ (kern_locks k)); [done..|]. done. }
  ostep get_task_ok. intros [t|] _; [|by apply Hun].
  ostep thread_stop_ok. intros [r2 k2] Hk2. cbn [snd] in Hk2. rewrite Hk1 in Hk2.
  ostep thread_destroy_ok. intros [r3 k3] Hk3. cbn [snd] in Hk3. rewrite Hk2 in Hk3.
  case_match; [by apply Hun|]. case_match; [done|]. eapply (outcome_bind _ (kept l1)).
  { case_match; [|done]. rewrite <-Hk3. apply fini_leader_ok. }
  intros k4 Hk4. ostep get_thread_ok. intros x _. set (k5 := if has _ _ then _ else _).
  assert (kept l1 k5) as Hk5 by (unfold k5; by case_match).
  ostep switch_nolock_ok. intros [r6 k6] Hk6. cbn [snd] in Hk6. rewrite Hk5 in Hk6. case_match; [by apply Hun|].
  ostep retval_ok. intros v _. ostep (cpu_unlock_ok _ _ _ (kern_locks k)); [done..|]. intros k7 Hk7.
  eapply (outcome_bind _ (kept (kern_locks k))); [|done]. case_match; [|done].
  ostep get_thread_ok. intros y _. ostep futex_wake_ok; [by rewrite Hk7|]. intros [r8 k8] Hk8. cbn in *. congruence.
Qed.

(** ** Calls that wait *)

(** While a call waits the rest of the system gives back what it takes. *)
Hypothesis Helse : ∀ n k, kern_locks (elsewhere n k) = kern_locks k.

Lemma futex_loop_ok fuel c uaddr : ∀ n k, outcome true (keeps (kern_locks k)) (futex_wait_loop elsewhere fuel c uaddr n k).
Proof.
  induction fuel as [|fuel IH]; intros n k; cbn [futex_wait_loop]; ostep get_cpu_ok; intros x _; (case_match; [done|]);
    (case_match; [done|]); [done|]. rewrite <-(Helse n k). apply IH.
Qed.

Lemma futex_wait_ok fuel k hart uaddr val bitset : all_free (kern_locks k) →
  outcome true (keeps (kern_locks k)) (k_cpu_futex_wait elsewhere fuel k hart uaddr val bitset).
Proof.
  intros Hf. unfold k_cpu_futex_wait. ostep get_current_ok. intros c _. case_match; [done|].
  ostep (cpu_lock_ok _ _ _ (kern_locks k)); [done..|]. intros k2 [Hk2 Hc]. ostep get_cpu_ok. intros x Hx. cbv zeta.
  ostep (cpu_unlock_ok _ _ _ (kern_locks k)); [done|done| |].
  { unfold kept. by rewrite (put_cpu_locks _ _ _ _ Hx). }
  intros k3 Hk3. ostep futex_loop_ok. intros [r k4] Hk4. cbn [snd] in Hk4. rewrite Hk3 in Hk4.
  ostep (cpu_lock_ok _ _ _ (kern_locks k)); [done..|]. intros k5 [Hk5 _]. ostep get_cpu_ok. intros y Hy.
  ostep (cpu_unlock_ok _ _ _ (kern_locks k)); [done|done| |done].
  unfold kept. by rewrite (put_cpu_locks _ _ _ _ Hy).
Qed.

Lemma wait_task_ok fuel c : ∀ n k, outcome true (fun r => kept (kern_locks k) r.2) (wait_task elsewhere fuel c n k).
Proof.
  induction fuel as [|fuel IH]; intros n k; cbn [wait_task]; ostep get_task_ok; intros [t|] _; try done. rewrite <-(Helse n k). apply IH.
Qed.
Lemma wait_children_ok fuel ids : ∀ n k, outcome true (kept (kern_locks k)) (wait_children elsewhere fuel ids n k).
Proof.
  induction ids as [|i ids IH]; intros n k; cbn [wait_children]; [done|]. ostep cpu_get_ok. intros [c|] _; [|apply IH].
  ostep wait_task_ok. intros [n1 k1] Hk1. cbn [snd] in Hk1. rewrite <-Hk1. apply IH.
Qed.

Lemma sys_exit_group_ok fuel k hart st : all_free (kern_locks k) →
  outcome true (keeps (kern_locks k)) (k_sys_exit_group L op_flush op_sleep op_raise_ipi elsewhere fuel k hart st).
Proof.
  intros Hf. unfold k_sys_exit_group. cbv zeta. ostep get_current_ok. intros c _. ostep cpu_lock_ok; [done..|]. intros k1 [Hk1 Hc].
  assert (outcome true (kept (kern_locks k)) (k_cpu_unlock k1 c)) as Hun by by apply cpu_unlock_ok.
  ostep get_task_ok. intros [t|] _; [|ostep Hun; done]. case_match; [done|].
  case_match; ostep Hun; intros k2 Hk2.
  - ostep wait_children_ok. intros k3 Hk3. rewrite Hk2 in Hk3. rewrite <-Hk3. eapply outcome_waits, sys_exit_ok. by rewrite Hk3.
  - rewrite <-Hk2. eapply outcome_waits, sys_exit_ok. by rewrite Hk2.
Qed.

Lemma sys_futex_ok fuel k hart uaddr op val val3 : all_free (kern_locks k) →
  outcome true (keeps (kern_locks k)) (k_sys_futex64 op_raise_ipi elsewhere fuel k hart uaddr op val val3).
Proof.
  intros Hf. unfold k_sys_futex64. cbv zeta.
  repeat (case_match; [first [done|by apply futex_wait_ok|by eapply outcome_waits, futex_wake_ok]|]). done.
Qed.

Lemma set_robust_list_ok k hart head len : outcome false (keeps (kern_locks k)) (k_sys_set_robust_list k hart head len).
Proof.
  unfold k_sys_set_robust_list. ostep get_current_ok. intros c _. case_match; [done|]. ostep get_task_ok. intros [t|] _; [|done].
  ostep get_thread_ok. intros x _. ostep put_thread_ok. done.
Qed.
Lemma set_tid_address_ok k hart p : outcome false (keeps (kern_locks k)) (k_sys_set_tid_address k hart p).
Proof.
  unfold k_sys_set_tid_address. ostep get_current_ok. intros c _. ostep get_task_ok. intros [t|] _; [|done]. ostep get_thread_ok. intros x _.
  eapply (outcome_bind _ (kept (kern_locks k))); [case_match; [apply put_thread_ok|done]|]. intros k1 Hk1. ostep get_thread_ok. done.
Qed.
Lemma gettid_ok k hart : outcome false (fun _ => True) (k_sys_gettid k hart).
Proof.
  unfold k_sys_gettid, k_thread_get_tid. eapply (outcome_bind _ (fun _ => True)).
  - unfold k_thread_get_current. ostep get_current_ok. intros c _. ostep get_cpu_ok. done.
  - intros t _. ostep of_opt_ok. intros i _. ostep get_thread_ok. done.
Qed.
End Kern.

(** ** The heap and the break *)

Section Heap.
Context `{Arch} `{Config}.

Lemma outcome_while {S} (I : S → Prop) (μ : S → Z) fuel cond (body : S → exec S) s : I s → μ s <= Z.of_nat fuel →
  (∀ s, I s → cond s = true → 0 < μ s ∧ outcome false (fun s' => I s' ∧ μ s' < μ s) (body s)) →
  outcome false I (while fuel cond body s).
Proof.
  intros Hs Hf Hb.
  assert (∀ s0, I s0 → cond s0 = true → 0 < μ s0 ∧ match body s0 with Ret s' => I s' ∧ μ s' < μ s0 | Undef => True | Hang => False end) as Hb'.
  { intros s0 Hs0 Hc. destruct (Hb s0 Hs0 Hc) as [Hpos Ho]. split; [done|]. by destruct (body s0). }
  pose proof (while_rule_undef I True μ fuel cond body s Hb' Hs Hf) as Hw. destruct (while fuel cond body s); [apply Hw|done|done].
Qed.

Lemma any_free_ok m off n : outcome false (fun _ => True) (any_free m off n).
Proof.
  unfold any_free. eapply (outcome_bind _ (fun _ => True)); [|by intros [? ?] _].
  apply (outcome_while (fun _ => True) (fun '(i, _) => off + n - i)); [done|lia|].
  intros [i f] _ Hc. bsplit. split; [lia|]. ostep of_opt_ok. intros v _. split; [done|lia].
Qed.

Lemma set_page_flag_ok m off n v : outcome false (fun m' => m_lock m' = m_lock m) (k_mem_node_set_page_flag m off n v).
Proof.
  unfold k_mem_node_set_page_flag. eapply (outcome_bind _ (fun _ => True)); [|by intros [? ?] _].
  apply (outcome_while (fun _ => True) (fun '(_, i) => off + n - i)); [done|lia|].
  intros [l i] _ Hc. bsplit. split; [lia|]. ostep of_opt_ok. intros l' _. split; [done|lia].
Qed.

Lemma count_ok m off lim : 0 <= off → outcome false (fun r => 0 < r) (k_mem_node_count_cont_pages m off lim).
Proof.
  intros Hoff. unfold k_mem_node_count_cont_pages. eapply (outcome_bind _ (fun '(i, r, b) => 0 <= i ∧ 0 < r)); [|intros [[i r] b] [_ Hr]; exact Hr].
  apply (outcome_while (fun '(i, r, b) => 0 <= i ∧ 0 < r) (fun '(i, r, b) => if b : bool then 0 else Z.max 1 (zlen (stat_page m) + 1 - i)));
    [lia|lia|].
  intros [[i r] b] [Hi Hr] Hc. bsplit. destruct b; [done|]. split; [lia|].
  eapply outcome_bind; [apply (outcome_of_opt _ (fun _ => 0 <= i < zlen (stat_page m))); intros v Hv; by eapply zget_Some|].
  cbn beta. intros v Hv. case_match; cbn; lia.
Qed.

Lemma alloc_nolock_ok m num len : outcome false (fun r => m_lock r.1.2 = m_lock m) (k_mem_node_alloc_pages_nolock m num len).
Proof.
  unfold k_mem_node_alloc_pages_nolock. case_match; [done|]. cbv zeta. case_match; [done|].
  eapply (outcome_bind _ (fun '(i, f, x, n) => m_lock x = m_lock m)); [|intros [[[i f] x] n] Hx; by case_match].
  eapply outcome_mono; [apply (outcome_while (fun '(i, f, x, n) => m_lock x = m_lock m ∧ 0 <= i ∧ (f = false → stat_page x = stat_page m))
    (fun '(i, f, x, n) => if f : bool then 0 else Z.max 1 (zlen (stat_page m) + 1 - i)))|].
  - done.
  - lia.
  - intros [[[i f] x] n] (Hl & Hi & Hst) Hc. bsplit. destruct f; [done|]. specialize (Hst eq_refl). split; [lia|]. unfold alloc_step.
    eapply outcome_bind; [apply (outcome_of_opt _ (fun _ => 0 <= i < zlen (stat_page m))); intros v Hv; rewrite <-Hst; by eapply zget_Some|].
    cbn beta. intros v Hv. case_match; [cbn; split_and!; done || lia|]. ostep count_ok; [done|]. cbn beta. intros c Hcnt. case_match.
    + ostep set_page_flag_ok. intros y Hy. cbn. split_and!; [congruence|done|done|lia].
    + cbn. split_and!; done || lia.
  - intros [[[i f] x] n] (Hl & _). done.
Qed.

Notation heap_free g := (m_lock (node_head g) = 0).

Lemma node_lock_ok m : m_lock m = 0 → k_mem_node_lock m = Ret (set_lock m 1).
Proof. intros Hl. unfold k_mem_node_lock. by rewrite Hl. Qed.

Lemma alloc_pages_ok g len : heap_free g → outcome false (fun r => heap_free r.2) (k_mem_alloc_pages g len).
Proof.
  intros Hl. unfold k_mem_alloc_pages, k_mem_node_alloc_pages. rewrite node_lock_ok by done. mstep.
  eapply (outcome_bind _ (fun r => m_lock r.1.2 = 0)); [ostep alloc_nolock_ok|]; by intros [[r m] n].
Qed.
Lemma check_pages_ok g start len : heap_free g → outcome false (fun r => heap_free r.2) (k_mem_check_pages g start len).
Proof.
  intros Hl. unfold k_mem_check_pages, k_mem_node_check_pages. rewrite node_lock_ok by done. mstep.
  eapply (outcome_bind _ (fun r => m_lock r.2 = 0)); [|by intros [r m]].
  eapply (outcome_bind _ (fun _ => True)); [|done]. unfold k_mem_node_check_pages_nolock. case_match; [done|].
  destruct (page_range _ _ _) as [[o n]|]; [|done]. ostep any_free_ok. intros f _. by case_match.
Qed.
Lemma free_pages_ok g start len : heap_free g → outcome false (fun r => heap_free r.2) (k_mem_free_pages g start len).
Proof.
  intros Hl. unfold k_mem_free_pages, k_mem_node_free_pages. rewrite node_lock_ok by done. mstep.
  eapply (outcome_bind _ (fun r => m_lock r.2 = 0)); [|by intros [r m]].
  eapply (outcome_bind _ (fun _ => True)); [|by intros [r m]]. unfold k_mem_node_free_pages_nolock. case_match; [done|].
  destruct (page_range _ _ _) as [[o n]|]; [|done]. ostep any_free_ok. intros f _. ostep set_page_flag_ok. done.
Qed.

Lemma memset_ok m s c n : 0 <= n → outcome false (fun _ => True) (k_memset m s c n).
Proof. intros Hn. by destruct (memset_filled m s c n Hn) as (m' & -> & _). Qed.

(** Blocks that overlap are copied to the end as well. *)
Lemma memcpy_ok m d s n : 0 <= n → outcome false (fun _ => True) (k_memcpy m d s n).
Proof.
  intros Hn. pose proof OPT_pos. unfold k_memcpy. cbv zeta. set (I := fun x : mem * Z * Z * Z => 0 <= x.2 <= n).
  assert (∀ step c (f : mem * Z * Z * Z → exec (mem * Z * Z * Z)) st, 0 < step → I st → (∀ m d s i, c (m, d, s, i) = (i >=? step)) →
    (∀ st, outcome false (fun st' => st'.2 = st.2 - step) (f st)) → outcome false I (while (Z.to_nat n) c f st)) as Hloop.
  { intros step c f [[[m0 d0] s0] i0] Hs HI Hc Hf. apply (outcome_while I (fun st => st.2)); [done|unfold I in *; cbn in *; lia|].
    intros [[[m1 d1] s1] i1] HI1 E. rewrite Hc in E. bsplit. unfold I in HI1 |- *. cbn in HI1 |- *. split; [lia|]. eapply outcome_mono; [apply Hf|].
    intros [[[m2 d2] s2] i2] E2. unfold I in *. cbn in *. lia. }
  eapply (outcome_bind _ I).
  - case_match; [|unfold I; cbn; lia]. eapply (outcome_bind _ I).
    + apply (Hloop (OPT_BYTES * 4)); [lia|unfold I; cbn; lia|done|]. by intros [[[? ?] ?] ?].
    + intros st HI. apply (Hloop OPT_BYTES); [lia|done|done|]. by intros [[[? ?] ?] ?].
  - intros [[[m1 d1] s1] n1] HI. eapply (outcome_bind _ (fun _ => True)); [|by intros [[[? ?] ?] ?]].
    eapply outcome_mono; [apply (outcome_while I (fun st => st.2))|done]; [done|unfold I in *; cbn in *; lia|].
    intros [[[m2 d2] s2] n2] HI2 E. apply truth_true in E. unfold I in *. cbn in *. lia.
Qed.

Definition mem_free (s : sysmem) : Prop := heap_free (sm_g s) ∧ sm_lock_brk s = 0.
Notation calls_ok := (outcome false (fun r : Z * sysmem => mem_free r.2)).

Lemma sys_brk_ok s addr : mem_free s → calls_ok (k_sys_brk s addr).
Proof.
  intros [Hg Hl]. unfold k_sys_brk, k_mem_brk_lock. cbv zeta. rewrite Hl. cbn [truth Z.eqb negb]. mstep.
  case_match; [done|]. case_match; [done|]. eapply (outcome_bind _ (fun _ => True)); [|by intros [m a]].
  destruct (_ >? _) eqn:E; bsplit; [apply memset_ok; lia|]. case_match; [|done]. apply memset_ok. lia.
Qed.
Lemma sys_mmap_ok s addr len prot flags fd off : 0 <= len → mem_free s → calls_ok (k_sys_mmap s addr len prot flags fd off).
Proof.
  intros Hn [Hg Hl]. unfold k_sys_mmap. cbv zeta. case_match; [done|]. ostep alloc_pages_ok; [done|]. intros [r g] Hg'.
  case_match; [done|]. ostep memset_ok; [case_match; lia|]. by intros [m a].
Qed.
Lemma sys_munmap_ok s addr len : mem_free s → calls_ok (k_sys_munmap s addr len).
Proof. intros [Hg Hl]. unfold k_sys_munmap. case_match; [done|]. ostep free_pages_ok; [done|]. by intros [r g]. Qed.
Lemma sys_madvise_ok s addr len advice : mem_free s → calls_ok (k_sys_madvise s addr len advice).
Proof.
  intros [Hg Hl]. unfold k_sys_madvise. case_match; [|done]. ostep check_pages_ok; [done|]. intros [r g] Hg'. cbv zeta.
  case_match; [done|]. ostep memset_ok; [done|]. by intros [m a].
Qed.
End Heap.

(** ** Files and the console *)

Section Files.
Context `{Arch} `{Config} {D X : Type}.
(** The locks inside the device of the console. *)
Variable obs : D → X.
Implicit Types (f : files D) (d : Z).

Definition con_kept (c c' : console D) : Prop := con_lock c' = 0 ∧ obs (con_dev c') = obs (con_dev c).

(** What a file asks of its operations: with the lock of the console free, they leave the locks as they were, and
    all but reading, which may wait for a character, come back. *)
Record file_ops_ok (o : k_file_ops D) : Prop := {
  fo_read op m c b n : op_read o = Some op → con_lock c = 0 → outcome true (fun r => con_kept c r.2) (op m c b n);
  fo_write op m c b n : op_write o = Some op → con_lock c = 0 → outcome false (fun r => con_kept c r.2) (op m c b n);
  fo_ioctl op m c b n : op_ioctl o = Some op → con_lock c = 0 → outcome false (fun r => con_kept c r.2) (op m c b n);
  fo_close op c : op_close o = Some op → con_lock c = 0 → outcome false (fun r => con_kept c r.2) (op c)
}.
Definition desc_ok (x : k_file_desc D) : Prop := desc_lock x = 0 ∧ ∀ o, desc_ops x = Some o → file_ops_ok o.

(** The descriptors, the lock of the process and those of the console. *)
Definition files_are (descs : gmap Z (k_file_desc D)) (f f' : files D) : Prop :=
  f_desc f' = descs ∧ pi_lock (f_pi f') = pi_lock (f_pi f) ∧ con_kept (f_con f) (f_con f').
Notation fkept f := (fun r : Z * files D => files_are (f_desc f) f r.2).

Lemma ops_get_Some {A} (x : k_file_desc D) (op : k_file_ops D → option A) a : ops_get x op = Some a → ∃ o, desc_ops x = Some o ∧ op o = Some a.
Proof. unfold ops_get. destruct (desc_ops x); [|done]. eauto. Qed.

Definition files_ok (f : files D) : Prop := con_lock (f_con f) = 0 ∧ map_Forall (fun _ x => desc_ok x) (f_desc f).
(** The operations of a descriptor, whether its lock is taken or not. *)
Definition usable (f : files D) (d : Z) : Prop :=
  con_lock (f_con f) = 0 ∧ ∀ x o, f_desc f !! d = Some x → desc_ops x = Some o → file_ops_ok o.

Lemma files_are_refl f : con_lock (f_con f) = 0 → files_are (f_desc f) f f.
Proof. done. Qed.
Lemma files_are_trans ds ds' f f1 f2 : files_are ds f f1 → files_are ds' f1 f2 → files_are ds' f f2.
Proof. intros (_ & E1 & _ & E2) (E3 & E4 & E5 & E6). split_and!; [done|congruence|split; [done|congruence]]. Qed.

Lemma get_desc_ok h f d : outcome h (fun x => f_desc f !! d = Some x) (get_desc f d).
Proof. by apply outcome_of_opt. Qed.

Lemma desc_lock_ok h f d : files_ok f → outcome h (fun f1 => ∃ x, f_desc f !! d = Some x ∧ desc_ok x ∧
  files_are (<[d := mk_desc 1 (desc_ops x)]> (f_desc f)) f f1 ∧ usable f1 d) (desc_spin_lock f d).
Proof.
  intros [Hc Hd]. unfold desc_spin_lock. ostep get_desc_ok. intros x Hx. pose proof (Hd _ _ Hx) as Hok. rewrite (proj1 Hok). cbn [truth Z.eqb negb].
  unfold desc_lock_set. ostep get_desc_ok. intros y Hy. assert (y = x) as -> by congruence.
  exists x. do 3 (split; [done|]). split; [done|]. cbn. intros z o. rewrite lookup_insert_eq. intros [= <-]. cbn. apply Hok.
Qed.
Lemma desc_unlock_ok h f f1 d x : f_desc f !! d = Some x → desc_ok x → files_are (<[d := mk_desc 1 (desc_ops x)]> (f_desc f)) f f1 →
  outcome h (files_are (f_desc f) f) (desc_spin_unlock f1 d).
Proof.
  intros Hx [Hl _] (E1 & E2 & E3). unfold desc_spin_unlock, desc_lock_set. ostep get_desc_ok. intros y Hy.
  rewrite E1, lookup_insert_eq in Hy. injection Hy as <-. split_and!; [|done|done]. cbn. rewrite E1, insert_insert_eq.
  apply insert_id. rewrite Hx. destruct x. cbn in *. by subst.
Qed.

(** An operation between taking and releasing the lock of the descriptor. *)
Lemma file_op_ok h f d (g : files D → exec (Z * files D)) : files_ok f → (∀ f1, usable f1 d → outcome h (fkept f1) (g f1)) →
  outcome h (fkept f) (f ← desc_spin_lock f d; '(r, f) ← g f; f ← desc_spin_unlock f d; Ret (r, f)).
Proof.
  intros Hf Hg. ostep desc_lock_ok; [done|]. intros f1 (x & Hx & Hok & Hk & Hu). ostep Hg; [done|]. intros [r f2] Hk2. cbn [snd] in Hk2.
  ostep (desc_unlock_ok _ f _ _ x); [done|done| |done]. eapply files_are_trans; [exact Hk|]. by destruct Hk as [<- _].
Qed.

Lemma set_con_are f c : con_kept (f_con f) c → files_are (f_desc f) f (set_con f c).
Proof. done. Qed.
Lemma set_mem_con_are f m c : con_kept (f_con f) c → files_are (f_desc f) f (set_mem_con f m c).
Proof. done. Qed.

Lemma read_nolock_ok f d buf count : usable f d → outcome true (fkept f) (k_file_read_nolock f d buf count).
Proof.
  intros [Hc Hu]. unfold k_file_read_nolock. case_match; [done|]. case_match; [done|]. ostep get_desc_ok. intros x Hx.
  destruct (ops_get x op_read) as [op|] eqn:E; [|done]. apply ops_get_Some in E as (o & Ho & Hop).
  ostep (fo_read o (Hu _ _ Hx Ho)); [done..|]. by intros [[r m] c].
Qed.
Lemma write_nolock_ok f d buf count : usable f d → outcome false (fkept f) (k_file_write_nolock f d buf count).
Proof.
  intros [Hc Hu]. unfold k_file_write_nolock. case_match; [done|]. case_match; [done|]. ostep get_desc_ok. intros x Hx.
  destruct (ops_get x op_write) as [op|] eqn:E; [|done]. apply ops_get_Some in E as (o & Ho & Hop).
  ostep (fo_write o (Hu _ _ Hx Ho)); [done..|]. by intros [r c].
Qed.
Lemma ioctl_nolock_ok f d cmd arg : usable f d → outcome false (fkept f) (k_file_ioctl_nolock f d cmd arg).
Proof.
  intros [Hc Hu]. unfold k_file_ioctl_nolock. ostep get_desc_ok. intros x Hx.
  destruct (ops_get x op_ioctl) as [op|] eqn:E; [|done]. apply ops_get_Some in E as (o & Ho & Hop).
  ostep (fo_ioctl o (Hu _ _ Hx Ho)); [done..|]. by intros [[r m] c].
Qed.

Lemma file_get_desc_ok h f fd : outcome h (fun _ => True) (k_file_get_desc f fd).
Proof. unfold k_file_get_desc. case_match; [done|]. case_match; [done|]. apply of_opt_ok. Qed.
Lemma desc_with_ok {A} h f fd (op : k_file_ops D → option A) : outcome h (fun _ => True) (desc_with f fd op).
Proof. unfold desc_with. ostep file_get_desc_ok. intros [d|] _; [|done]. ostep get_desc_ok. done. Qed.

Lemma sys_read_ok f fd buf count : files_ok f → outcome true (fkept f) (k_sys_read f fd buf count).
Proof.
  intros Hf. unfold k_sys_read. ostep desc_with_ok. intros [d|] _; [|by destruct Hf]. apply file_op_ok; [done|].
  intros f1. apply read_nolock_ok.
Qed.
Lemma sys_write_ok f fd buf count : files_ok f → outcome false (fkept f) (k_sys_write f fd buf count).
Proof.
  intros Hf. unfold k_sys_write. ostep desc_with_ok. intros [d|] _; [|by destruct Hf]. apply file_op_ok; [done|].
  intros f1. apply write_nolock_ok.
Qed.
Lemma sys_ioctl_ok f fd cmd arg : files_ok f → outcome false (fkept f) (k_sys_ioctl f fd cmd arg).
Proof.
  intros Hf. unfold k_sys_ioctl. ostep desc_with_ok. intros [d|] _; [|by destruct Hf]. apply file_op_ok; [done|].
  intros f1. apply ioctl_nolock_ok.
Qed.

Lemma writev_loop_ok n d : ∀ f iov ret, usable f d → outcome false (fkept f) (writev_loop n f d iov ret).
Proof.
  induction n as [|n IH]; intros f iov ret Hu; cbn [writev_loop]; [by destruct Hu|]. cbv zeta. case_match; [by apply IH|].
  ostep write_nolock_ok; [done|]. intros [wr f1] Hk. cbn [snd] in Hk. case_match; [|by case_match].
  eapply outcome_mono; [apply IH|].
  - destruct Hk as (E1 & _ & E2 & _), Hu as [_ Hu]. split; [done|]. by rewrite E1.
  - intros [r f2] Hk2. cbn [snd] in *. eapply files_are_trans; [exact Hk|]. by destruct Hk as [<- _].
Qed.
Lemma sys_writev_ok f fd iov n : files_ok f → outcome false (fkept f) (k_sys_writev f fd iov n).
Proof.
  intros Hf. unfold k_sys_writev. ostep desc_with_ok. intros [d|] _; [|by destruct Hf]. do 3 (case_match; [by destruct Hf|]).
  apply file_op_ok; [done|]. intros f1. apply writev_loop_ok.
Qed.

Lemma file_set_desc_ok f fd o : con_lock (f_con f) = 0 → outcome false (fun r => files_are (f_desc f) f r.2) (k_file_set_desc f fd o).
Proof.
  intros Hc. unfold k_file_set_desc. case_match; [done|]. case_match; [done|]. ostep of_opt_ok. intros old _. ostep of_opt_ok. done.
Qed.
Lemma sys_close_ok f fd : files_ok f → outcome false (fkept f) (k_sys_close f fd).
Proof.
  intros [Hc Hd]. unfold k_sys_close. ostep file_get_desc_ok. intros [d|] _; [|done]. ostep get_desc_ok. intros x Hx.
  eapply (outcome_bind _ (fkept f)).
  - destruct (ops_get x op_close) as [op|] eqn:E; [|done]. apply ops_get_Some in E as (o & Ho & Hop).
    ostep (fo_close o (proj2 (Hd _ _ Hx) _ Ho)); [done..|]. by intros [r c].
  - intros [r f1] Hk. cbn [snd] in Hk. ostep file_set_desc_ok; [apply Hk|]. intros [o f2] Hk2. cbn [snd] in Hk2.
    eapply files_are_trans; [exact Hk|]. by destruct Hk as [<- _].
Qed.

(** The standard files: the functions of the serial port leave the locks alone. *)
Lemma stdio_ops_ok (getchar : D → exec (Z * D)) (putchar : Z → D → exec (Z * D)) :
  (∀ v, outcome true (fun r => obs r.2 = obs v) (getchar v)) → (∀ c v, outcome false (fun r => obs r.2 = obs v) (putchar c v)) →
  file_ops_ok (file_stdio_ops getchar putchar).
Proof.
  intros Hg Hp. split; try done.
  - intros op m c b n [= <-] Hl. unfold k_file_stdio_read, k_pri_read_stdin, pri_enter, k_intr_save_local. cbn. rewrite Hl. cbn.
    pose proof (Hg (con_dev c)) as E. unfold k_getchar_nolock. cbn. destruct (getchar (con_dev c)) as [[ch v]| |]; [|done..].
    cbn. case_match; by split.
  - intros op m c b n [= <-] Hl. unfold k_file_stdio_write, k_pri_write_stdout, pri_enter, k_intr_save_local. cbn. rewrite Hl. cbn.
    rewrite put_loop_eq. cbn [con_dev]. assert (∀ l v, outcome false (fun v' => obs v' = obs v) (put_all putchar v l)) as Hall.
    { induction l as [|ch l IH]; intros v; [done|]. cbn [put_all]. ostep Hp. intros [r v1] E. cbn [snd] in E. by rewrite <-E. }
    specialize (Hall (block m b (Z.of_nat (Z.to_nat n))) (con_dev c)). destruct (put_all _ _ _); [|done..]. by split.
Qed.
End Files.

(** ** The whole state *)

Section World.
Context `{Arch} `{Config} `{Libc} {W : Type} `{Mmio W}.

Implicit Types (w : world W).

Definition sys_locks (s : sys W) : Z * Z * gmap Z Z := kern_locks (kern_in s).

(** All locks are free, and the files that are open keep to [file_ops_ok]. *)
Record world_free (w : world W) : Prop := {
  wf_kern : all_free (kern_locks (kern_of w));
  wf_heap : m_lock (node_head (y_heap (w_system w))) = 0;
  wf_brk : w_brk_lock w = 0;
  wf_console : y_lock (w_system w) = 0;
  wf_files : map_Forall (fun _ x => desc_ok sys_locks x) (y_fds (w_system w))
}.

(** The calls that wait for another thread, or for a device. *)
Definition may_wait (c : call) : bool :=
  match c with
  | K_futex32 | K_futex64 | K_exit_group | K_read | K_reboot
  | K_clock_gettime32 | K_clock_settime32 | K_clock_gettime64 | K_clock_settime64 | K_gettimeofday | K_settimeofday => true
  | _ => false
  end.

Variable fuel : nat.
Variable uname_at : Z.
Variable L : layout.
Variable op_flush : option (kern → Z → Z → Z → exec (Z * list Z)).
Variable op_sleep : option (Z → kern → exec (Z * kern)).
Variable op_raise_ipi : option (Z → Z → kern → exec (Z * kern)).
Variable thread_init : exec (Z * user_regs).
Variable elsewhere : nat → kern → kern.
Variable hart : Z.
Hypothesis Hdr : driver_ok op_flush op_sleep op_raise_ipi thread_init.
Hypothesis Helse : ∀ n k, kern_locks (elsewhere n k) = kern_locks k.

Notation free_after h := (outcome h (fun r : Z * world W => world_free r.2)).

Lemma kern_of_set w k : kern_of (set_kern w k) = k.
Proof. by destruct w as [[? ? [] ? ?] ? ?]. Qed.

Lemma on_kern_ok h f w : world_free w → outcome h (fun r => kept (kern_locks (kern_of w)) r.2) (f (kern_of w)) → free_after h (on_kern f w).
Proof.
  intros [Hk Hh Hb Hc Hf] Ho. unfold on_kern. ostep Ho. intros [r k] Hr. cbn [snd] in Hr.
  split; [|done..]. cbn [snd]. by rewrite kern_of_set, Hr.
Qed.

Lemma set_memory_free w m : world_free w → world_free (set_memory w m).
Proof. intros [Hk Hh Hb Hc Hf]. split; [|done..]. unfold set_memory. by rewrite kern_of_set. Qed.
Lemma on_memory_ok h f w : world_free w → outcome h (fun _ => True) (f (memory w)) → free_after h (on_memory f w).
Proof. intros Hw Ho. unfold on_memory. ostep Ho. intros [r m] _. by apply set_memory_free. Qed.

Lemma on_sysmem_ok h f w : world_free w → (∀ s, mem_free s → outcome h (fun r => mem_free r.2) (f s)) → free_after h (on_sysmem f w).
Proof.
  intros Hw Ho. unfold on_sysmem. cbv zeta. ostep Ho; [split; apply Hw|]. intros [r s] [Hg Hb]. cbn in Hg, Hb.
  destruct (set_memory_free w (sm_mem s) Hw) as [Hk _ _ Hc Hf]. by split.
Qed.

Lemma on_files_ok h f w : world_free w →
  (∀ x, files_ok sys_locks x → outcome h (fun r => files_are sys_locks (f_desc x) x r.2) (f x)) → free_after h (on_files f w).
Proof.
  intros [Hk Hh Hb Hc Hf] Ho. unfold on_files. cbv zeta. ostep Ho; [by split|]. intros [r x] (E1 & E2 & E3 & E4). cbn in *.
  split; cbn; try done; [|by rewrite E1]. set (s := con_dev _) in *. unfold kern_of, with_kern, irq_get. cbn.
  unfold sys_locks, kern_locks in E4. injection E4 as E5 E6 E7. unfold kern_locks, put_kern. cbn. unfold kern_in in *. rewrite E2, E5, E7.
  exact Hk.
Qed.

Lemma outcome_any {A} (e : exec A) : outcome true (fun _ => True) e.
Proof. by destruct e. Qed.
Lemma set_io_free w io : world_free w → world_free (set_io w io).
Proof. intros [Hk Hh Hb Hc Hf]. by destruct w as [[? ? [] ? ?] ? ?]. Qed.
Lemma on_clock_ok f w : world_free w → free_after true (on_clock fuel f w).
Proof.
  intros Hw. unfold on_clock. ostep outcome_any. intros t _. ostep outcome_any. intros [[r m] io] _. by apply set_io_free, set_memory_free.
Qed.
Lemma on_offset_ok f w : world_free w → free_after true (on_offset fuel f w).
Proof.
  intros Hw. unfold on_offset. ostep outcome_any. intros t _. ostep outcome_any. intros [[r off] io] _. cbv zeta.
  destruct (set_io_free w io Hw). by split.
Qed.
Lemma on_reset_ok f w : world_free w → free_after true (on_reset f w).
Proof.
  intros Hw. unfold on_reset. cbv zeta. ostep outcome_any. intros rst _. ostep outcome_any. intros [r io] _. by apply set_io_free.
Qed.

Notation sys_fun := (k_sys fuel uname_at L op_flush op_sleep op_raise_ipi thread_init elsewhere hart).

(** Each function, by the file it is in. *)
Lemma k_sys_ok c args w : world_free w → (∀ i t v, arg_types c !! i = Some t → args !! i = Some v → fits t v) →
  free_after (may_wait c) (sys_fun c args w).
Proof.
  intros Hw Hargs. pose proof (wf_kern w Hw) as Hk.
  assert (∀ i, arg_types c !! i = Some T_ulong → ∀ v, args !! i = Some v → 0 <= v) as Hlen by (intros i Ht v Hv; apply (Hargs i _ _ Ht Hv)).
  destruct c; cbn [may_wait]; unfold k_sys;
    repeat (match goal with |- outcome _ _ (match ?a with [] => _ | _ :: _ => _ end) => destruct a; [try done|try done] end);
    try done; try (by apply on_clock_ok); try (by apply on_offset_ok); try (by apply on_reset_ok).
  - apply on_memory_ok; [done|]. unfold k_sys_uname. ostep memcpy_ok; [done|]. by intros [m a].
  - by apply on_memory_ok.
  - unfold k_sys_getpid, k_proc_get_pid. by case_match.
  - ostep gettid_ok. done.
  - by apply on_memory_ok.
  - apply on_files_ok; [done|]. by intros x [? _].
  - apply on_files_ok; [done|]. intros x. apply sys_close_ok.
  - apply on_files_ok; [done|]. intros x. apply sys_ioctl_ok.
  - apply on_files_ok; [done|]. intros x. apply sys_read_ok.
  - apply on_files_ok; [done|]. intros x. apply sys_write_ok.
  - apply on_files_ok; [done|]. intros x. apply sys_writev_ok.
  - apply on_sysmem_ok; [done|]. intros x. apply sys_brk_ok.
  - apply on_sysmem_ok; [done|]. intros x. apply sys_mmap_ok. by apply (Hlen 1%nat).
  - apply on_sysmem_ok; [done|]. intros x. apply sys_munmap_ok.
  - apply on_sysmem_ok; [done|]. intros x. apply sys_madvise_ok.
  - by apply on_sysmem_ok.
  - apply on_kern_ok; [done|]. by eapply thread_clone_ok.
  - apply on_kern_ok; [done|]. by eapply sys_futex_ok.
  - apply on_kern_ok; [done|]. by eapply sys_futex_ok.
  - apply on_kern_ok; [done|]. apply set_robust_list_ok.
  - apply on_kern_ok; [done|]. apply set_tid_address_ok.
  - apply on_kern_ok; [done|]. by eapply sys_exit_group_ok.
  - apply on_kern_ok; [done|]. by eapply sys_exit_ok.
  - apply on_kern_ok; [done|]. unfold k_sys_clone3. case_match; [done|]. by eapply thread_clone_ok.
  - apply on_kern_ok; [done|]. by apply sys_context_switch_ok.
Qed.

Notation syscall := (k_syscall fuel uname_at L op_flush op_sleep op_raise_ipi thread_init elsewhere hart).

(** Calls one after the other: their results and the state behind the last. *)
Fixpoint run_calls (l : list (Z * list Z)) (w : world W) : exec (list Z * world W) :=
  match l with
  | [] => Ret ([], w)
  | (no, regs) :: l => '(r, w) ← syscall no regs w; '(rs, w) ← run_calls l w; Ret (r :: rs, w)
  end.
Definition waiting (l : list (Z * list Z)) : bool :=
  existsb (fun '(no, _) => match k_table_syscalls no with Some c => may_wait c | None => false end) l.

Lemma syscall_ok no regs w : world_free w → free_after (waiting [(no, regs)]) (syscall no regs w).
Proof.
  intros Hw. unfold k_syscall, waiting. cbn. rewrite orb_false_r. destruct (k_table_syscalls no) as [c|]; [|done].
  apply k_sys_ok; [done|]. intros i t v Ht Hv. unfold k_sys_wrap in Hv. rewrite lookup_zip_with, Ht in Hv. cbn in Hv.
  destruct (regs !! i) as [y|]; cbn in Hv; simplify_eq. apply cast_fits.
Qed.
End World.

(** C3: system calls and locks.  After any sequence of system calls that starts with all locks free, whatever their
    numbers and registers, all locks are free: of the system, of the process, of the CPUs, of the heap, of the break,
    of the console and of every open file; on every branch of every call, errors included.  And unless a
    call of the sequence waits for another thread or for a device, they all come back: no call waits for a lock that
    it, or one before it, has taken and not given back, and no loop of the calls runs for ever.  (A call that follows
    a bad pointer is undefined, and nothing is said of it.  The writes of the open files are taken to return, as those of
    the standard files do on a port that takes what it is sent.) *)
Theorem syscalls_release_locks `{Arch} `{Config} `{Libc} {W : Type} `{Mmio W} fuel uname_at L op_flush op_sleep op_raise_ipi thread_init
    elsewhere hart l (w : world W) (Hdr : driver_ok op_flush op_sleep op_raise_ipi thread_init)
    (Helse : ∀ n k, kern_locks (elsewhere n k) = kern_locks k) (Hw : world_free w) :
  match run_calls fuel uname_at L op_flush op_sleep op_raise_ipi thread_init elsewhere hart l w with
  | Ret (_, w') => world_free w'
  | Undef => True
  | Hang => waiting l = true
  end.
Proof.
  enough (outcome (waiting l) (fun r : list Z * world W => world_free r.2)
    (run_calls fuel uname_at L op_flush op_sleep op_raise_ipi thread_init elsewhere hart l w)) as Ho.
  { unfold outcome in Ho. by destruct (run_calls _ _ _ _ _ _ _ _ _ l w) as [[rs w']| |]. }
  revert w Hw. induction l as [|[no regs] l IH]; intros w Hw; [done|]. cbn [run_calls].
  assert (∀ A (P : A → Prop) e, outcome (waiting [(no, regs)]) P e → outcome (waiting ((no, regs) :: l)) P e) as Hfirst.
  { intros A P e He. unfold waiting in *. cbn in *. destruct e; cbn in *; try done. rewrite orb_false_r in He. by rewrite He. }
  eapply outcome_bind; [apply Hfirst; by eapply syscall_ok|]. intros [r w1] Hw1. cbn [snd] in Hw1.
  eapply (outcome_bind _ (fun r : list Z * world W => world_free r.2)); [|by intros [rs w2]].
  specialize (IH w1 Hw1). destruct (run_calls _ _ _ _ _ _ _ _ _ l w1); cbn in *; try done. unfold waiting in *. cbn. by rewrite IH, orb_true_r.
Qed.

(** ** The files that are open at the start *)

Section SystemFiles.
Context `{Arch} `{Config} {W : Type} `{Mmio W}.
Variable fuel : nat.
Variable t : devtree.
Implicit Types (s : sys W).

(** Access to the registers of a device leaves the locks alone. *)
Lemma with_regs_locks {A} h dev (f : option (k_device_driver_ops W) → k_device → W → exec (A * W)) s :
  (∀ ops x w, outcome h (fun _ => True) (f ops x w)) →
  outcome h (fun r => sys_locks r.2 = sys_locks s) (with_regs acc_ops t dev f s).
Proof.
  intros Hf. unfold with_regs. ostep of_opt_ok. intros x _. ostep Hf. by intros [a w] _.
Qed.
Lemma on_regs_locks dev (f : option (k_device_driver_ops W) → k_device → W → exec W) s :
  outcome true (fun s' => sys_locks s' = sys_locks s) (on_regs acc_ops t dev f s).
Proof. unfold on_regs. ostep with_regs_locks; [intros; apply outcome_any|]. by intros [a s'] E. Qed.

Lemma getchar_locks s : outcome true (fun r => sys_locks r.2 = sys_locks s) (pri_getchar (uart_ops fuel) t s).
Proof.
  unfold pri_getchar, uart_getc. case_match; [|done]. case_match; [|done]. ostep of_opt_ok. intros x _. case_match; [done|].
  destruct (dev_drv x) as [d|]; [|done]. cbn [mbind option_bind]. unfold uart_ops.
  repeat case_match; cbn in *; simplify_eq; try done.
  - unfold ns16550_char_in. ostep of_opt_ok. intros p _. apply with_regs_locks. intros; apply outcome_any.
  - apply with_regs_locks. intros; apply outcome_any.
  - apply with_regs_locks. intros; apply outcome_any.
Qed.
Lemma putchar_locks c s : outcome true (fun r => sys_locks r.2 = sys_locks s) (pri_putchar (uart_ops fuel) c t s).
Proof.
  unfold pri_putchar, uart_putc. case_match; [|done]. case_match; [|done]. ostep of_opt_ok. intros x _. case_match; [done|].
  destruct (dev_drv x) as [d|]; [|done]. cbn [mbind option_bind]. unfold uart_ops.
  repeat case_match; cbn in *; simplify_eq; try done.
  - eapply (outcome_bind _ (fun s' => sys_locks s' = sys_locks s)); [|done]. unfold ns16550_char_out. ostep of_opt_ok. intros p _.
    apply on_regs_locks.
  - ostep on_regs_locks. done.
  - ostep on_regs_locks. done.
Qed.

(** The two functions of the console; they wait for the port. *)
Definition sys_getchar s : exec (Z * sys W) := pri_getchar (uart_ops fuel) t s.
Definition sys_putchar (c : Z) s : exec (Z * sys W) := pri_putchar (uart_ops fuel) c t s.

Lemma v2_get_locks g i s : outcome false (fun r => sys_locks r.2 = sys_locks s) (v2_get acc_ops g i t s).
Proof. apply with_regs_locks. intros ops x w. unfold gpio_v2_get. by destruct (k_device_read32 _ _ _ _). Qed.
Lemma v2_set_locks g i v s : outcome false (fun r => sys_locks r.2 = sys_locks s) (v2_set acc_ops g i v t s).
Proof. apply with_regs_locks. intros ops x w. unfold gpio_v2_set. by destruct (k_device_read32 _ _ _ _). Qed.

Lemma get_loop_locks (get : Z → sys W → exec (Z * sys W)) mask l :
  (∀ i s, outcome false (fun r => sys_locks r.2 = sys_locks s) (get i s)) →
  ∀ ret bits s, outcome false (fun r => sys_locks r.2 = sys_locks s) (get_loop get mask l ret bits s).
Proof.
  intros Hg. induction l as [|i l IH]; intros ret bits s; cbn [get_loop]; [done|]. case_match; [apply IH|].
  ostep Hg. intros [r s1] E. cbn [snd] in E. rewrite <-E. case_match; apply IH.
Qed.
Lemma set_loop_locks (set : Z → Z → sys W → exec (Z * sys W)) mask bits l :
  (∀ i v s, outcome false (fun r => sys_locks r.2 = sys_locks s) (set i v s)) →
  ∀ ret s, outcome false (fun r => sys_locks r.2 = sys_locks s) (set_loop set mask bits l ret s).
Proof.
  intros Hg. induction l as [|i l IH]; intros ret s; cbn [set_loop]; [done|]. case_match; [apply IH|].
  ostep Hg. intros [r s1] E. cbn [snd] in E. rewrite <-E. apply IH.
Qed.

(** Standard input and output on a port that takes what it is sent, and the lines of the GPIO. *)
Lemma system_files_ok : (∀ c s, sys_putchar c s ≠ Hang) →
  file_ops_ok sys_locks (file_stdio_ops sys_getchar sys_putchar) ∧ file_ops_ok sys_locks (gpio_line_ops gpio_ops t).
Proof.
  intros Htakes. split.
  - apply stdio_ops_ok.
    + apply getchar_locks.
    + intros c s. pose proof (putchar_locks c s) as E. pose proof (Htakes c s) as Hn. unfold sys_putchar in *. by destruct (pri_putchar _ _ _ _).
  - split; cbn; [by intros op m c b n [= <-] Hl|by intros op m c b n [= <-] Hl| |by intros op c [= <-] Hl].
    intros op m c cmd arg [= <-] Hl. unfold k_gpio_line_ioctl. cbv zeta.
    assert (∀ g, outcome false (fun _ => True) (k_device_get_drv t (Some g))) as Hdrv by (intros g; cbn; by ostep of_opt_ok).
    case_match; [|done]. case_match; [|case_match; [|done]].
    + eapply (outcome_bind _ (fun r => sys_locks r.2 = sys_locks (con_dev c))); [|by intros [[r m'] s] E].
      unfold k_gpio_line_get_values. ostep Hdrv. intros drv _. destruct drv as [d|]; [|done]. cbn [mbind option_bind].
      unfold gpio_ops. destruct (d =? drv_gpio_v2); [|done]. cbn. case_match; [done|].
      ostep get_loop_locks; [intros; apply v2_get_locks|]. by intros [[r b] s] E.
    + eapply (outcome_bind _ (fun r => sys_locks r.2 = sys_locks (con_dev c))); [|by intros [r s] E].
      unfold k_gpio_line_set_values. ostep Hdrv. intros drv _. destruct drv as [d|]; [|done]. cbn [mbind option_bind].
      unfold gpio_ops. destruct (d =? drv_gpio_v2); [|done]. cbn. case_match; [done|].
      apply set_loop_locks. intros; apply v2_set_locks.
Qed.
End SystemFiles.

(** ** Example *)

Section Example.
#[local] Existing Instance rv64.
#[local] Existing Instance qemu_virt.
#[local] Existing Instance demo_libc.

(** One thread, whose process has the standard output open as 1. *)
Definition lock_kern : kern :=
  mk_kern [Some 10] {[10 := mk_cpu 0 0 1 (Some []) 0 (Some 0) None (Some 0) [] (mk_futex 0 0 0 0) 0 0]} 2
    [mk_thread 7 1 1 CLONE_CHILD_CLEARTID 0 0 0 0 0 0 [] (Some 10)] 8
    (mk_proc 1 1 0 None (<[1%nat := Some 1]> (replicate 64 None))) 0 ∅.
(** A board whose registers read as ones, so that its port, a ns16550, always has room, when the drivers are started. *)
#[local] Instance ready_io : Mmio board_io := {|
  io_read width a w := (2 ^ width - 1, w);
  io_write width v a w := mk_board_io (<[a := v]> (bi_regs w)) (bi_ones w) ((a, v) :: bi_log w)
|}.
Definition lock_start : devtree * sys board_io :=
  match start 2 true qemu_virt_board (io_start []) with
  | Ret (_, t, s) => (t, s)
  | _ => (tree_of qemu_virt_board, sys_static qemu_virt_board (io_start []))
  end.
Definition lock_files : gmap Z (k_file_desc (sys board_io)) :=
  {[1 := mk_desc 0 (Some (file_stdio_ops (sys_getchar 2 lock_start.1) (sys_putchar 2 lock_start.1)))]}.
Definition lock_world : world board_io :=
  set_kern (mk_world (mk_system mem_state_reset lock_start.1 lock_start.2 lock_files 0) 0 (mk_timespec64 0 0)) lock_kern.

(** The serial ports of the board have the driver of the ns16550, which finds room in the port. *)
Definition ns_driven (x : k_device) : bool :=
  match dev_drv x with Some d => negb (d =? drv_sifive_uart) && negb (d =? drv_uart_lite) | None => true end.
Lemma lock_drivers u x : t_devices lock_start.1 !! u = Some x → ns_driven x = true.
Proof.
  assert (bool_decide (map_Forall (fun _ x => ns_driven x = true) (t_devices lock_start.1)) = true) as H by (vm_compute; reflexivity).
  apply bool_decide_eq_true_1 in H. apply (H u).
Qed.
Lemma ready_takes x shift c w : ∃ w', uart_ns16550_char_out (acc_ops drv_ns16550) x shift 2 c w = Ret w'.
Proof.
  unfold uart_ns16550_char_out. cbn [ns16550_poll].
  assert (∃ w1, uart_read (acc_ops drv_ns16550) x shift NS_REG_LSR w = (255, w1)) as [w1 ->].
  { unfold uart_read, k_device_read8, k_device_read16, k_device_read32, dev_read.
    destruct (shift =? 0), (shift =? 1), (shift =? 2), (truth (dev_virt x)); eexists; reflexivity. }
  change (Z.land 255 LSR_THR_EMPTY =? 0) with false. eexists. by mstep.
Qed.
Lemma ns_putchar_returns t c s : (∀ u x, t_devices t !! u = Some x → ns_driven x = true) → sys_putchar 2 t c s ≠ Hang.
Proof.
  intros Hdrv.
  unfold sys_putchar, pri_putchar, uart_putc. case_match; [|done]. case_match; [|done]. unfold get_device.
  destruct (t_devices _ !! _) as [x|] eqn:Hx; mstep; [|done]. pose proof (Hdrv _ _ Hx) as Hn. unfold ns_driven in Hn.
  destruct (negb (dev_probed x)); [done|]. destruct (dev_drv x) as [d|] eqn:Hd; [|done]. apply andb_prop in Hn as [H1 H2].
  apply negb_true_iff in H1, H2. cbn [mbind option_bind]. unfold uart_ops. rewrite H1, H2. destruct (d =? drv_ns16550) eqn:E; [|done].
  apply Z.eqb_eq in E as ->. cbn [mbind option_bind uop_char_out ns16550_uart_ops]. unfold ns16550_char_out, get_ns.
  destruct (u_ns (uarts_get s) !! _) as [p|]; cbn [of_opt]; mstep; [|done]. unfold on_regs, with_regs, get_device. rewrite Hx. mstep. rewrite Hd. cbn [mbind option_bind].
  destruct (ready_takes x (ns_addr_shift p) c (io_get s)) as [w' ->]. by mstep.
Qed.

(** It is computed where it must be, with [vm_compute]. *)
#[local] Opaque lock_start.

(** [set_tid_address], [write] and [brk]; [set_robust_list] with the length 0 is an error. *)
Definition lock_calls : list (Z * list Z) := [(96, [0x6000]); (64, [1; 0x500; 2]); (214, [0]); (99, [0x100; 0])].

Notation run := (run_calls 2 0 args_layout None None None Undef (fun _ k => k) 0 lock_calls lock_world).

(** The port is sent the two characters of [write]. *)
Definition sent_last (w : world board_io) : list (Z * Z) := take 2 (bi_log (q_io (s_irq (y_sys (w_system w))))).
Definition results (e : exec (list Z * world board_io)) : option (list Z * list (Z * Z)) :=
  match e with Ret (rs, w) => Some (rs, sent_last w) | _ => None end.
Lemma results_ret e rs l : results e = Some (rs, l) → ∃ w, e = Ret (rs, w) ∧ sent_last w = l.
Proof. destruct e as [[rs' w]| |]; cbn; intros E; simplify_eq. by exists w. Qed.
Lemma lock_calls_run : ∃ w, run = Ret ([7; 2; 0; - EINVAL], w) ∧ sent_last w = [(0x10000000, 0); (0x10000000, 0)].
Proof. apply results_ret. vm_compute. reflexivity. Qed.

Lemma lock_world_free : world_free lock_world.
Proof.
  split; [|reflexivity|reflexivity|reflexivity|].
  - unfold lock_world. rewrite kern_of_set. split; [reflexivity|]. split; [reflexivity|].
    change (map_Forall (fun _ v => v = 0) (cpu_lock <$> k_cpu_objs lock_kern)). intros c v. rewrite lookup_fmap. intros (x & Hx & ->)%fmap_Some. cbn in Hx. by apply lookup_singleton_Some in Hx as [_ <-].
  - intros d x Hx. change (lock_files !! d = Some x) in Hx. unfold lock_files in Hx. cbv zeta in Hx.
    apply lookup_singleton_Some in Hx as [_ <-]. split; [done|]. intros o [= <-]. apply (system_files_ok 2 lock_start.1).
    intros c s. apply ns_putchar_returns, lock_drivers.
Qed.

Lemma syscalls_release_locks_witness :
  ∃ w, run = Ret ([7; 2; 0; - EINVAL], w) ∧ sent_last w = [(0x10000000, 0); (0x10000000, 0)] ∧ world_free w.
Proof.
  pose proof (syscalls_release_locks 2 0 args_layout None None None Undef (fun _ k => k) 0 lock_calls lock_world) as Ht.
  destruct lock_calls_run as (w & E & Es). exists w. split; [exact E|]. split; [exact Es|]. rewrite E in Ht. apply Ht; [by split|done|apply lock_world_free].
Defined.
End Example.
