(* ===== verification/AuxTool.v ===== *)
(** * The host tool that embeds the program headers (tool/add_auxdata.c)

    After the link, [add_auxdata] opens the ELF file, finds its section
    [.auxdata] and copies the ELF header and the table of the program headers into it,
    behind a [struct __aux_data] that the start-up code of Args.v reads.  The file is mapped
    shared, so a [file] is the list of its bytes and a pointer into it an offset; an access
    outside the file is undefined.  The tool runs on a little-endian machine of 64 bits. *)

From S2P Require Import Prelude Config CString Args.

(** ** Bytes of the file *)

Notation file := (list Z).

(** A little-endian object of the bytes [l]; the [n] bytes of [v]. *)
Fixpoint le (l : list Z) : Z :=
  match l with
  | [] => 0
  | b :: l => b + 256 * le l
  end.
Fixpoint le_bytes (n : nat) (v : Z) : list Z :=
  match n with
  | O => []
  | S n => u8 v :: le_bytes n (v / 256)
  end.

Definition slice (f : file) (o n : Z) : list Z := take (Z.to_nat n) (drop (Z.to_nat o) f).
Definition in_file (f : file) (o n : Z) : bool := (0 <=? o) && (o + n <=? zlen f).
Definition fread (n : Z) (f : file) (o : Z) : exec Z :=
  if in_file f o n then Ret (le (slice f o n)) else Undef.
Definition put (f : file) (o : Z) (l : list Z) : file :=
  take (Z.to_nat o) f ++ l ++ drop (Z.to_nat (o + zlen l)) f.
(** [memcpy] of an object, and of [n] bytes from the start of the file: the areas must
    not overlap. *)
Definition fwrite (f : file) (o : Z) (l : list Z) : exec file :=
  if in_file f o (zlen l) then Ret (put f o l) else Undef.
Definition fcopy (f : file) (dest n : Z) : exec file :=
  if n =? 0 then Ret f
  else if in_file f 0 n && in_file f dest n && (n <=? dest) then Ret (put f dest (slice f 0 n)) else Undef.

(** [strcmp] of the string at [o] with a literal, given with its terminator. *)
Fixpoint same_string (f : file) (o : Z) (name : list Z) : exec bool :=
  match name with
  | [] => Ret true
  | c :: l => b ← fread 1 f o; if b =? c then same_string f (o + 1) l else Ret false
  end.

Fixpoint read_each {A} (g : Z → exec A) (l : list Z) : exec (list A) :=
  match l with
  | [] => Ret []
  | i :: l => x ← g i; r ← read_each g l; Ret (x :: r)
  end.

(** ** Data *)

Record aux_data := mk_aux_data {
  valid : Z;
  phent : Z;
  phnum : Z;
  phdr_size : Z
}.
Definition AUX_DATA_SIZE : Z := 32.
(** The bytes of the structure; those between [valid] and [phent] are whatever the stack held. *)
Definition aux_bytes (pad : Z) (a : aux_data) : list Z :=
  le_bytes 4 (valid a) ++ le_bytes 4 pad ++ le_bytes 8 (phent a) ++ le_bytes 8 (phnum a) ++ le_bytes 8 (phdr_size a).

(** [index] and [src], which nothing sets, are left out. *)
Record prg_header := mk_prg {
  p_type : Z;
  p_flags : Z;
  p_offset : Z;
  p_vaddr : Z;
  p_paddr : Z;
  p_filesz : Z;
  p_memsz : Z;
  p_align : Z
}.

Record sec_header := mk_sec {
  sh_name : Z;
  sh_type : Z;
  sh_flags : Z;
  sh_addr : Z;
  sh_offset : Z;
  sh_size : Z;
  sh_link : Z;
  sh_info : Z;
  sh_addralign : Z;
  sh_entsize : Z
}.

(** The fields of [struct elf_info] that hold the ELF header. *)
Record elf_header := mk_header {
  e_type : Z;
  e_machine : Z;
  e_version : Z;
  e_entry : Z;
  e_phoff : Z;
  e_shoff : Z;
  e_flags : Z;
  e_ehsize : Z;
  e_phentsize : Z;
  e_phnum : Z;
  e_shentsize : Z;
  e_shnum : Z;
  e_shstrndx : Z
}.

(** [buf] tells whether the pointer is set; [p_hdr_ent], [s_hdr_ent] and [shstr_ent] are
    offsets from it. *)
Record elf_info := mk_elf {
  elf_size : Z;
  buf : bool;
  p_hdr_ent : Z;
  s_hdr_ent : Z;
  shstr_ent : Z;
  shstr_size : Z;
  elf_class : Z;
  hdr : elf_header;
  phs : option (list prg_header);
  shs : option (list sec_header)
}.

Definition ELFMAG : list Z := [0x7f; 0x45; 0x4c; 0x46].
Definition EI_CLASS : Z := 4.
Definition ELFCLASS32 : Z := 1.
Definition ELFCLASS64 : Z := 2.
Definition ET_EXEC : Z := 2.
Definition EM_RISCV : Z := 243.

(** ".auxdata" and "(unknown)" with their terminators *)
Definition AUX_SECTION : list Z := [0x2e; 0x61; 0x75; 0x78; 0x64; 0x61; 0x74; 0x61; 0].
Definition UNKNOWN_NAME : list Z := [0x28; 0x75; 0x6e; 0x6b; 0x6e; 0x6f; 0x77; 0x6e; 0x29; 0].
Definition zero_prg : prg_header := mk_prg 0 0 0 0 0 0 0 0.
Definition zero_sec : sec_header := mk_sec 0 0 0 0 0 0 0 0 0 0.

Definition set_hdr (e : elf_info) (h : elf_header) : elf_info :=
  mk_elf (elf_size e) (buf e) (p_hdr_ent e) (s_hdr_ent e) (shstr_ent e) (shstr_size e) (elf_class e) h (phs e) (shs e).
Definition set_buf (e : elf_info) (b : bool) (len : Z) : elf_info :=
  mk_elf len b (p_hdr_ent e) (s_hdr_ent e) (shstr_ent e) (shstr_size e) (elf_class e) (hdr e) (phs e) (shs e).
Definition set_class (e : elf_info) (c : Z) : elf_info :=
  mk_elf (elf_size e) (buf e) (p_hdr_ent e) (s_hdr_ent e) (shstr_ent e) (shstr_size e) c (hdr e) (phs e) (shs e).
Definition set_ents (e : elf_info) (p s : Z) : elf_info :=
  mk_elf (elf_size e) (buf e) p s (shstr_ent e) (shstr_size e) (elf_class e) (hdr e) (phs e) (shs e).
Definition set_phs (e : elf_info) (l : option (list prg_header)) : elf_info :=
  mk_elf (elf_size e) (buf e) (p_hdr_ent e) (s_hdr_ent e) (shstr_ent e) (shstr_size e) (elf_class e) (hdr e) l (shs e).
Definition set_shs (e : elf_info) (l : option (list sec_header)) : elf_info :=
  mk_elf (elf_size e) (buf e) (p_hdr_ent e) (s_hdr_ent e) (shstr_ent e) (shstr_size e) (elf_class e) (hdr e) (phs e) l.
Definition set_shstr (e : elf_info) (o n : Z) : elf_info :=
  mk_elf (elf_size e) (buf e) (p_hdr_ent e) (s_hdr_ent e) o n (elf_class e) (hdr e) (phs e) (shs e).

(** ** Reading the file *)

Definition elf_init (e : elf_info) : elf_info := set_shs (set_phs (set_buf e false (elf_size e)) None) None.
Definition elf_fini (e : elf_info) : elf_info := set_buf (set_phs (set_shs e None) None) false (elf_size e).

(** The magic number is compared byte by byte. *)
Fixpoint bad_magic (f : file) (o : Z) (l : list Z) : exec bool :=
  match l with
  | [] => Ret false
  | c :: l => b ← fread 1 f o; if negb (b =? c) then Ret true else bad_magic f (o + 1) l
  end.

Definition elf_get_class (f : file) : exec (Z * option Z) :=
  bad ← bad_magic f 0 ELFMAG;
  if (bad : bool) then Ret (- EINVAL, None) else
  c ← fread 1 f EI_CLASS;
  if c =? ELFCLASS32 then Ret (0, Some 32)
  else if c =? ELFCLASS64 then Ret (0, Some 64)
  else Ret (- EINVAL, None).

(** Products of the sizes are computed with 32 bits, sums of offsets with 64. *)
Definition ph_size (h : elf_header) : Z := u32 (e_phnum h * e_phentsize h).
Definition sh_size_all (h : elf_header) : Z := u32 (e_shnum h * e_shentsize h).

Definition elf_is_valid_header (e : elf_info) : Z :=
  let h := hdr e in
  if negb (e_type h =? ET_EXEC) then - EINVAL else
  if negb (e_machine h =? EM_RISCV) then - EINVAL else
  if (e_phoff h =? 0) || (e_phnum h =? 0) || (e_phentsize h =? 0) then - EINVAL else
  if elf_size e <? u64 (e_phoff h + ph_size h) then - EINVAL else
  if elf_size e <? u64 (e_shoff h + sh_size_all h) then - EINVAL else
  if e_shentsize h =? 0 then - EINVAL else
  if elf_size e <? u64 (e_shoff h + sh_size_all h) then - EINVAL else
  if e_shstrndx h >=? e_shnum h then - EINVAL else
  if negb (e_entry h mod 4 =? 0) then - EINVAL else 0.

Definition SIZEOF_EHDR32 : Z := 52.
Definition SIZEOF_EHDR64 : Z := 64.
Definition SIZEOF_PHDR32 : Z := 32.
Definition SIZEOF_PHDR64 : Z := 56.
Definition SIZEOF_SHDR32 : Z := 40.
Definition SIZEOF_SHDR64 : Z := 64.

Definition elf_read_elf32 (f : file) (e : elf_info) : exec (Z * elf_info) :=
  type ← fread 2 f 16; machine ← fread 2 f 18; version ← fread 4 f 20; entry ← fread 4 f 24;
  phoff ← fread 4 f 28; shoff ← fread 4 f 32; flags ← fread 4 f 36; ehsize ← fread 2 f 40;
  phentsize ← fread 2 f 42; phnum ← fread 2 f 44; shentsize ← fread 2 f 46; shnum ← fread 2 f 48;
  shstrndx ← fread 2 f 50;
  let e := set_hdr e (mk_header type machine version entry phoff shoff flags ehsize phentsize phnum shentsize shnum shstrndx) in
  if phentsize <? SIZEOF_PHDR32 then Ret (- EINVAL, e) else
  if shentsize <? SIZEOF_SHDR32 then Ret (- EINVAL, e) else Ret (0, e).

Definition elf_read_elf64 (f : file) (e : elf_info) : exec (Z * elf_info) :=
  type ← fread 2 f 16; machine ← fread 2 f 18; version ← fread 4 f 20; entry ← fread 8 f 24;
  phoff ← fread 8 f 32; shoff ← fread 8 f 40; flags ← fread 4 f 48; ehsize ← fread 2 f 52;
  phentsize ← fread 2 f 54; phnum ← fread 2 f 56; shentsize ← fread 2 f 58; shnum ← fread 2 f 60;
  shstrndx ← fread 2 f 62;
  let e := set_hdr e (mk_header type machine version entry phoff shoff flags ehsize phentsize phnum shentsize shnum shstrndx) in
  if phentsize <? SIZEOF_PHDR64 then Ret (- EINVAL, e) else
  if shentsize <? SIZEOF_SHDR64 then Ret (- EINVAL, e) else Ret (0, e).

Definition elf_read_elf (f : file) (e : elf_info) : exec (Z * elf_info) :=
  '(r, e) ← (if elf_class e =? 32 then elf_read_elf32 f e
             else if elf_class e =? 64 then elf_read_elf64 f e else Ret (- EINVAL, e));
  if truth r then Ret (r, e) else Ret (0, set_ents e (e_phoff (hdr e)) (e_shoff (hdr e))).

(** One turn of the loops over the headers. *)
Definition phdr32 (f : file) (o : Z) : exec prg_header :=
  type ← fread 4 f o; flags ← fread 4 f (o + 24); offset ← fread 4 f (o + 4); vaddr ← fread 4 f (o + 8);
  paddr ← fread 4 f (o + 12); filesz ← fread 4 f (o + 16); memsz ← fread 4 f (o + 20); align ← fread 4 f (o + 28);
  Ret (mk_prg type flags offset vaddr paddr filesz memsz align).
Definition phdr64 (f : file) (o : Z) : exec prg_header :=
  type ← fread 4 f o; flags ← fread 4 f (o + 4); offset ← fread 8 f (o + 8); vaddr ← fread 8 f (o + 16);
  paddr ← fread 8 f (o + 24); filesz ← fread 8 f (o + 32); memsz ← fread 8 f (o + 40); align ← fread 8 f (o + 48);
  Ret (mk_prg type flags offset vaddr paddr filesz memsz align).
Definition shdr32 (f : file) (o : Z) : exec sec_header :=
  name ← fread 4 f o; type ← fread 4 f (o + 4); flags ← fread 4 f (o + 8); addr ← fread 4 f (o + 12);
  offset ← fread 4 f (o + 16); size ← fread 4 f (o + 20); link ← fread 4 f (o + 24); info ← fread 4 f (o + 28);
  align ← fread 4 f (o + 32); entsize ← fread 4 f (o + 36);
  Ret (mk_sec name type flags addr offset size link info align entsize).
Definition shdr64 (f : file) (o : Z) : exec sec_header :=
  name ← fread 4 f o; type ← fread 4 f (o + 4); flags ← fread 8 f (o + 8); addr ← fread 8 f (o + 16);
  offset ← fread 8 f (o + 24); size ← fread 8 f (o + 32); link ← fread 4 f (o + 40); info ← fread 4 f (o + 44);
  align ← fread 8 f (o + 48); entsize ← fread 8 f (o + 56);
  Ret (mk_sec name type flags addr offset size link info align entsize).

Definition ph_at (e : elf_info) (i : Z) : Z := p_hdr_ent e + u32 (i * e_phentsize (hdr e)).
Definition sh_at (e : elf_info) (i : Z) : Z := s_hdr_ent e + u32 (i * e_shentsize (hdr e)).

Definition elf_read_ph32 (f : file) (e : elf_info) : exec elf_info :=
  l ← read_each (fun i => phdr32 f (ph_at e i)) (seqZ 0 (e_phnum (hdr e))); Ret (set_phs e (Some l)).
Definition elf_read_ph64 (f : file) (e : elf_info) : exec elf_info :=
  l ← read_each (fun i => phdr64 f (ph_at e i)) (seqZ 0 (e_phnum (hdr e))); Ret (set_phs e (Some l)).
Definition elf_read_shs32 (f : file) (e : elf_info) : exec elf_info :=
  l ← read_each (fun i => shdr32 f (sh_at e i)) (seqZ 0 (e_shnum (hdr e))); Ret (set_shs e (Some l)).
Definition elf_read_shs64 (f : file) (e : elf_info) : exec elf_info :=
  l ← read_each (fun i => shdr64 f (sh_at e i)) (seqZ 0 (e_shnum (hdr e))); Ret (set_shs e (Some l)).

Section Tool.
(** Whether [calloc] of so many objects finds memory. *)
Variable calloc : Z → bool.

Definition elf_read_ph (f : file) (e : elf_info) : exec (Z * elf_info) :=
  if negb (calloc (e_phnum (hdr e))) then Ret (- ENOMEM, e) else
  let e := set_phs e (Some (replicate (Z.to_nat (e_phnum (hdr e))) zero_prg)) in
  if elf_class e =? 32 then e ← elf_read_ph32 f e; Ret (0, e)
  else if elf_class e =? 64 then e ← elf_read_ph64 f e; Ret (0, e)
  else Ret (- EINVAL, e).

Definition elf_read_shs (f : file) (e : elf_info) : exec (Z * elf_info) :=
  if negb (calloc (e_shnum (hdr e))) then Ret (- ENOMEM, e) else
  let e := set_shs e (Some (replicate (Z.to_nat (e_shnum (hdr e))) zero_sec)) in
  '(r, e) ← (if elf_class e =? 32 then e ← elf_read_shs32 f e; Ret (0, e)
             else if elf_class e =? 64 then e ← elf_read_shs64 f e; Ret (0, e)
             else Ret (- EINVAL, e));
  if truth r then Ret (r, e) else
  l ← of_opt (shs e);
  s ← of_opt (zget l (e_shstrndx (hdr e)));
  Ret (0, set_shstr e (sh_offset s) (sh_size s)).

(** [None] stands for the literal "(unknown)". *)
Definition get_sh_name (e : elf_info) (off : Z) : option Z :=
  if shstr_size e <=? off then None else Some (shstr_ent e + off).

Fixpoint find_loop (f : file) (e : elf_info) (name : list Z) (l : list sec_header) : exec (option sec_header) :=
  match l with
  | [] => Ret None
  | s :: l =>
    same ← (match get_sh_name e (sh_name s) with
            | None => Ret (bool_decide (name = UNKNOWN_NAME))
            | Some o => same_string f o name
            end);
    if (same : bool) then Ret (Some s) else find_loop f e name l
  end.
Definition find_shs (f : file) (e : elf_info) (name : list Z) : exec (Z * option sec_header) :=
  l ← of_opt (shs e);
  s ← find_loop f e name l;
  Ret (if s is Some _ then 0 else - EINVAL, s).

Definition elf_load (e : elf_info) (f : file) : exec (Z * elf_info) :=
  let e := set_buf (elf_init e) true (zlen f) in
  '(r, arch) ← elf_get_class f;
  if truth r then Ret (r, e) else
  arch ← of_opt arch;
  '(r, e) ← elf_read_elf f (set_class e arch);
  if truth r then Ret (r, e) else
  let r := elf_is_valid_header e in
  if truth r then Ret (r, e) else
  '(r, e) ← elf_read_ph f e;
  if truth r then Ret (r, e) else
  '(r, e) ← elf_read_shs f e;
  if truth r then Ret (r, e) else Ret (0, e).

Definition elf_unload (e : elf_info) : Z * elf_info := (0, elf_fini e).

(** The result, the file and [elf] as the call leaves it: what it still holds is never freed.
    [elf] is not initialised, [pad] are the bytes of the padding in [aux]. *)
Definition embed_auxv (elf : elf_info) (pad : Z) (f : file) : exec (Z * file * elf_info) :=
  '(r, e) ← elf_load elf f;
  if truth r then Ret (- EINVAL, f, e) else
  '(r, sec) ← find_shs f e AUX_SECTION;
  if truth r then Ret (- EINVAL, f, e) else
  sec ← of_opt sec;
  let h := hdr e in
  let aux := mk_aux_data 1 (e_phentsize h) (e_phnum h) (ph_size h) in
  let sz_req := u64 (AUX_DATA_SIZE + e_phoff h + phdr_size aux) in
  if sh_size sec <? sz_req then Ret (- ENOMEM, f, e) else
  f ← fwrite f (sh_offset sec) (aux_bytes pad aux);
  f ← fcopy f (sh_offset sec + AUX_DATA_SIZE) (u64 (e_phoff h + phdr_size aux));
  let '(r, e) := elf_unload e in
  if truth r then Ret (- EINVAL, f, e) else Ret (0, f, e).

(** ** Files *)

(** The files, and what the process holds: descriptors, mappings, arrays of headers. *)
Record host := mk_host {
  h_files : gmap string file;
  h_fds : Z;
  h_maps : Z;
  h_arrays : Z
}.
Definition held {A} (o : option A) : Z := if o is Some _ then 1 else 0.

(** What the system answers: whether [open] and [mmap] fail, the result of [fstat]. *)
Variable open_fails mmap_fails : string → bool.
Variable fstat_result : string → Z.

(** A mapping of no bytes fails.  A call of the program begins with some [elf] and [pad] on its stack. *)
Definition embed_file (elf : elf_info) (pad : Z) (fname : string) (h : host) : exec (Z * host) :=
  match h_files h !! fname with
  | None => Ret (-1, h)
  | Some f =>
    if open_fails fname then Ret (-1, h) else
    let h := mk_host (h_files h) (h_fds h + 1) (h_maps h) (h_arrays h) in
    if truth (fstat_result fname) then Ret (fstat_result fname, h) else
    if (zlen f =? 0) || mmap_fails fname then Ret (-1, h) else
    '(r, f, e) ← embed_auxv elf pad f;
    let h := mk_host (<[fname := f]> (h_files h)) (h_fds h) (h_maps h + 1) (h_arrays h + held (phs e) + held (shs e)) in
    if truth r then Ret (r, h)
    else Ret (0, mk_host (h_files h) (h_fds h - 1) (h_maps h - 1) (h_arrays h))
  end.

Fixpoint embed_files (elf : elf_info) (pad : Z) (l : list string) (ret : Z) (h : host) : exec (Z * host) :=
  match l with
  | [] => Ret (ret, h)
  | fname :: l =>
    '(r, h) ← embed_file elf pad fname h;
    embed_files elf pad l (if truth r then r else ret) h
  end.
(** [argv] without the name of the program *)
Definition tool_main (elf : elf_info) (pad : Z) (argv : list string) (h : host) : exec (Z * host) :=
  match argv with
  | [] => embed_file elf pad "a.out" h
  | _ => embed_files elf pad argv 0 h
  end.
End Tool.

(** ** What the start-up code reads

    The section is loaded at [k_aux_start]; [__ehdr_start] lies behind the structure
    (include/linker/riscv/linker.ld), where the tool copied the ELF header. *)
Definition read_aux `{Arch} (m : mem) (k_aux_start : Z) (L : layout) : layout :=
  let ehdr := k_aux_start + AUX_DATA_SIZE in
  mk_layout (k_comm_area L) (k_stack_main L) (k_stack_intr L) (k_stack_idle L) (at_random L) (kernel_name L)
    (load_le 4 m k_aux_start) (load_le 8 m (k_aux_start + 8)) (load_le 8 m (k_aux_start + 16)) ehdr
    (if xlen =? 64 then load_le 8 m (ehdr + 32) else load_le 4 m (ehdr + 28)).

(** ** Reading and writing *)

Lemma length_le_bytes n : ∀ v, length (le_bytes n v) = n.
Proof. induction n as [|n IH]; intros v; [done|]. cbn [le_bytes length]. by rewrite IH. Qed.

Lemma le_le_bytes n : ∀ v, 0 <= v < 256 ^ Z.of_nat n → le (le_bytes n v) = v.
Proof.
  induction n as [|n IH]; intros v Hv; [simpl in *; lia|]. cbn [le_bytes le].
  rewrite Nat2Z.inj_succ, Z.pow_succ_r in Hv by lia. rewrite IH; [unfold uwrap; dlia|].
  split; [apply Z.div_pos; lia|apply Z.div_lt_upper_bound; lia].
Qed.

Lemma in_fileP f o n : in_file f o n = true ↔ 0 <= o ∧ o + n <= zlen f.
Proof. unfold in_file. rewrite andb_true_iff, !Z.leb_le. lia. Qed.

Lemma fread_in n f o : 0 <= o → o + n <= zlen f → fread n f o = Ret (le (slice f o n)).
Proof. intros. unfold fread. by rewrite (proj2 (in_fileP _ _ _)) by lia. Qed.

Lemma fread_ret n f o v : fread n f o = Ret v → 0 <= o ∧ o + n <= zlen f ∧ v = le (slice f o n).
Proof. unfold fread. case_match eqn:E; [|done]. apply in_fileP in E. intros [= <-]. lia. Qed.

Lemma length_slice f o n : 0 <= o → 0 <= n → o + n <= zlen f → zlen (slice f o n) = n.
Proof. intros. unfold slice. rewrite length_take, length_drop. lia. Qed.

Lemma slice_lookup f o n i : 0 <= o → 0 <= n →
  slice f o n !! i = if Z.of_nat i <? n then f !! Z.to_nat (o + Z.of_nat i) else None.
Proof.
  intros. unfold slice. destruct (Z.ltb_spec (Z.of_nat i) n).
  - rewrite lookup_take_lt by lia. rewrite lookup_drop. f_equal. lia.
  - apply lookup_take_ge. lia.
Qed.

(** Two slices of the same length are equal when they agree byte by byte. *)
Lemma slice_eq f g o p n : 0 <= o → 0 <= p → 0 <= n →
  (∀ i, 0 <= i < n → f !! Z.to_nat (o + i) = g !! Z.to_nat (p + i)) → slice f o n = slice g p n.
Proof.
  intros Ho Hp Hn H. apply list_eq. intros i. rewrite !slice_lookup by done.
  destruct (Z.ltb_spec (Z.of_nat i) n); [|done]. apply H. lia.
Qed.

Lemma length_put f o l : 0 <= o → o + zlen l <= zlen f → length (put f o l) = length f.
Proof. intros. unfold put. rewrite !length_app, length_take, length_drop. lia. Qed.

Lemma put_lookup f o l i : 0 <= o → 0 <= i → o + zlen l <= zlen f →
  put f o l !! Z.to_nat i = if (o <=? i) && (i <? o + zlen l) then l !! Z.to_nat (i - o) else f !! Z.to_nat i.
Proof.
  intros. unfold put.
  destruct (Z.leb_spec o i); cbn [andb].
  - rewrite lookup_app_r by (rewrite length_take; lia). rewrite length_take, Nat.min_l by lia.
    destruct (Z.ltb_spec i (o + zlen l)).
    + rewrite lookup_app_l by lia. f_equal. lia.
    + rewrite lookup_app_r by lia. rewrite lookup_drop. f_equal. lia.
  - rewrite lookup_app_l by (rewrite length_take; lia). apply lookup_take_lt. lia.
Qed.

Lemma slice_put_out f o l p n : 0 <= o → o + zlen l <= zlen f → 0 <= p → 0 <= n →
  p + n <= o ∨ o + zlen l <= p → slice (put f o l) p n = slice f p n.
Proof.
  intros Ho Hl Hp Hn Hd. apply slice_eq; [done..|]. intros i Hi. rewrite put_lookup by lia.
  destruct (Z.leb_spec o (p + i)), (Z.ltb_spec (p + i) (o + zlen l)); (lia || done).
Qed.

Lemma slice_put_in f o l p n : 0 <= o → o + zlen l <= zlen f → o <= p → 0 <= n → p + n <= o + zlen l →
  slice (put f o l) p n = slice l (p - o) n.
Proof.
  intros Ho Hl Hp Hn Hd. apply slice_eq; [lia..|]. intros i Hi. rewrite put_lookup by lia.
  rewrite (proj2 (Z.leb_le o (p + i))), (proj2 (Z.ltb_lt (p + i) (o + zlen l))) by lia.
  cbn [andb]. f_equal. lia.
Qed.

Lemma put_nil f o : 0 <= o → put f o [] = f.
Proof. intros. unfold put. cbn [app length Z.of_nat]. rewrite Z.add_0_r. apply take_drop. Qed.

Lemma length_aux_bytes pad a : zlen (aux_bytes pad a) = AUX_DATA_SIZE.
Proof. unfold aux_bytes. rewrite !length_app, !length_le_bytes. done. Qed.

(** The fields of the structure in its bytes. *)
Lemma aux_bytes_fields pad a :
  slice (aux_bytes pad a) 0 4 = le_bytes 4 (valid a) ∧ slice (aux_bytes pad a) 8 8 = le_bytes 8 (phent a) ∧
  slice (aux_bytes pad a) 16 8 = le_bytes 8 (phnum a) ∧ slice (aux_bytes pad a) 24 8 = le_bytes 8 (phdr_size a).
Proof. done. Qed.

(** ** The reads stay in the file *)

Notation bytes f := (Forall (fun b => 0 <= b < 256) f).

Lemma le_range l : bytes l → 0 <= le l < 256 ^ zlen l.
Proof.
  induction 1 as [|b l Hb Hl IH]; [done|]. cbn [le length]. rewrite Nat2Z.inj_succ, Z.pow_succ_r by lia. lia.
Qed.

Lemma slice_bytes f o n : bytes f → bytes (slice f o n).
Proof. intros H. unfold slice. by apply Forall_take, Forall_drop. Qed.

(** A field of the file, and the range it has. *)
Lemma fread_field n f o : bytes f → 0 <= n → 0 <= o → o + n <= zlen f →
  ∃ v, fread n f o = Ret v ∧ 0 <= v < 256 ^ n ∧ v = le (slice f o n).
Proof.
  intros Hb Hn Ho Hl. eexists. split; [by apply fread_in|]. split; [|done].
  pose proof (le_range _ (slice_bytes f o n Hb)) as H. by rewrite length_slice in H by lia.
Qed.

(** Read the next field: its value is [v]. *)
Ltac field v :=
  match goal with
  | Hb : bytes ?f |- context [fread ?n ?f ?o] =>
    let E := fresh "E" in let H := fresh "Hv" in let Hw := fresh "Hw" in
    destruct (fread_field n f o Hb ltac:(lia) ltac:(lia) ltac:(lia)) as (v & E & H & Hw);
    rewrite E; mstep; clear E
  end.

Lemma read_each_ret {A} (g : Z → exec A) l : (∀ i, i ∈ l → ∃ x, g i = Ret x) →
  ∃ r, read_each g l = Ret r ∧ length r = length l.
Proof.
  induction l as [|i l IH]; intros H; [by exists []|]. cbn [read_each].
  destruct (H i ltac:(left)) as (x & ->). mstep.
  destruct IH as (r & -> & Hr); [intros j Hj; apply H; by right|]. mstep. exists (x :: r). simpl. by rewrite Hr.
Qed.

Lemma bad_magic_ret f l : ∀ o, bytes f → 0 <= o → o + zlen l <= zlen f → ∃ b, bad_magic f o l = Ret b.
Proof.
  induction l as [|c l IH]; intros o Hb Ho Hl; [by exists false|]. cbn [bad_magic length] in *.
  field v. case_match; [by exists true|]. apply IH; [done|lia..].
Qed.

Lemma get_class_ret f : bytes f → 5 <= zlen f → ∃ r c, elf_get_class f = Ret (r, c) ∧
  (r = - EINVAL ∧ c = None ∨
   r = 0 ∧ c = Some 32 ∧ le (slice f EI_CLASS 1) = ELFCLASS32 ∨
   r = 0 ∧ c = Some 64 ∧ le (slice f EI_CLASS 1) = ELFCLASS64).
Proof.
  intros Hb Hl. unfold elf_get_class, EI_CLASS.
  destruct (bad_magic_ret f ELFMAG 0 Hb ltac:(lia)) as (b & ->); [change (zlen ELFMAG) with 4; lia|]. mstep.
  destruct b; [do 2 eexists; split; [done|]; by left|]. field v. subst v.
  repeat case_match; bsplit; do 2 eexists; (split; [done|]); auto.
Qed.

(** What is known of a header that was read: the sizes of its entries are at least those of
    the format, its offsets below [lim]. *)
Record header_ok (pmin smin lim : Z) (h : elf_header) : Prop := {
  ok_phoff : 0 <= e_phoff h < lim;
  ok_shoff : 0 <= e_shoff h < lim;
  ok_phentsize : pmin <= e_phentsize h < 2 ^ 16;
  ok_shentsize : smin <= e_shentsize h < 2 ^ 16;
  ok_phnum : 0 <= e_phnum h < 2 ^ 16;
  ok_shnum : 0 <= e_shnum h < 2 ^ 16;
  ok_shstrndx : 0 <= e_shstrndx h
}.

Lemma read_elf32_ret f e : bytes f → SIZEOF_EHDR32 <= zlen f → ∃ r h,
  elf_read_elf32 f e = Ret (r, set_hdr e h) ∧ (r = 0 → header_ok SIZEOF_PHDR32 SIZEOF_SHDR32 (2 ^ 32) h).
Proof.
  unfold SIZEOF_EHDR32. intros Hb Hl. unfold elf_read_elf32.
  field ty. field ma. field ve. field en. field po. field so. field fl. field eh. field pe. field pn. field sz. field sm. field sx.
  repeat case_match; bsplit; do 2 eexists; (split; [done|]); intros Hr; (done || (split; cbn; lia)).
Qed.

Lemma read_elf64_ret f e : bytes f → SIZEOF_EHDR64 <= zlen f →
  le (slice f 32 8) < 2 ^ 63 → le (slice f 40 8) < 2 ^ 63 → ∃ r h,
  elf_read_elf64 f e = Ret (r, set_hdr e h) ∧ (r = 0 → header_ok SIZEOF_PHDR64 SIZEOF_SHDR64 (2 ^ 63) h).
Proof.
  unfold SIZEOF_EHDR64. intros Hb Hl Hpo Hso. unfold elf_read_elf64.
  field ty. field ma. field ve. field en. field po. field so. field fl. field eh. field pe. field pn. field sz. field sm. field sx.
  subst po so.
  repeat case_match; bsplit; do 2 eexists; (split; [done|]); intros Hr; (done || (split; cbn; lia)).
Qed.

(** The products of 16 bits do not overflow. *)
Lemma product_fits a b c : 0 <= a <= b → 0 <= b < 2 ^ 16 → 0 <= c < 2 ^ 16 → u32 (a * c) = a * c.
Proof. intros. unfold uwrap. apply Z.mod_small. nia. Qed.

(** A header that passes the checks lies, with both tables, in the file. *)
Lemma valid_header pmin smin lim e : 0 < pmin → 0 < smin → lim <= 2 ^ 63 →
  elf_is_valid_header e = 0 → header_ok pmin smin lim (hdr e) →
  e_phoff (hdr e) + e_phnum (hdr e) * e_phentsize (hdr e) <= elf_size e ∧
  e_shoff (hdr e) + e_shnum (hdr e) * e_shentsize (hdr e) <= elf_size e ∧ e_shstrndx (hdr e) < e_shnum (hdr e).
Proof.
  intros Hp Hs Hlim Hv [Hpo Hso Hpe Hse Hpn Hsn Hsx]. revert Hv. unfold elf_is_valid_header, ph_size, sh_size_all. cbv zeta.
  rewrite (product_fits _ (e_phnum (hdr e)) (e_phentsize (hdr e))), (product_fits _ (e_shnum (hdr e)) (e_shentsize (hdr e))) by lia.
  assert (∀ a b c, 0 <= a < lim → 0 <= b < 2 ^ 16 → 0 <= c < 2 ^ 16 → u64 (a + b * c) = a + b * c) as Hw.
  { intros a b c Ha Hb Hc. apply Z.mod_small. nia. }
  rewrite !Hw by lia.
  repeat case_match; bsplit; intros Hr; try done; lia.
Qed.

(** Entry [i] of a table of [n] entries of [size] bytes. *)
Lemma entry_in i n size min (Hi : 0 <= i < n) (Hsize : min <= size) : 0 < min → i * size + min <= n * size.
Proof. intros. nia. Qed.

Section Entries.
Variable f : file.
Hypothesis Hf : bytes f.

Lemma phdr32_ret o : 0 <= o → o + SIZEOF_PHDR32 <= zlen f → ∃ x, phdr32 f o = Ret x.
Proof.
  unfold SIZEOF_PHDR32, phdr32. intros. field a1. field a2. field a3. field a4. field a5. field a6. field a7. field a8. by eexists.
Qed.
Lemma phdr64_ret o : 0 <= o → o + SIZEOF_PHDR64 <= zlen f → ∃ x, phdr64 f o = Ret x.
Proof.
  unfold SIZEOF_PHDR64, phdr64. intros. field a1. field a2. field a3. field a4. field a5. field a6. field a7. field a8. by eexists.
Qed.
Lemma shdr32_ret o : 0 <= o → o + SIZEOF_SHDR32 <= zlen f → ∃ x, shdr32 f o = Ret x.
Proof.
  unfold SIZEOF_SHDR32, shdr32. intros. field a1. field a2. field a3. field a4. field a5. field a6. field a7. field a8.
  field a9. field a10. by eexists.
Qed.
Lemma shdr64_ret o : 0 <= o → o + SIZEOF_SHDR64 <= zlen f → ∃ x, shdr64 f o = Ret x.
Proof.
  unfold SIZEOF_SHDR64, shdr64. intros. field a1. field a2. field a3. field a4. field a5. field a6. field a7. field a8.
  field a9. field a10. by eexists.
Qed.

(** A table of headers that lies in the file can be read. *)
Lemma read_table {A} (g : Z → exec A) min start n size : (∀ o, 0 <= o → o + min <= zlen f → ∃ x, g o = Ret x) →
  0 < min <= size → size < 2 ^ 16 → 0 <= n < 2 ^ 16 → 0 <= start → start + n * size <= zlen f →
  ∃ r, read_each (fun i => g (start + u32 (i * size))) (seqZ 0 n) = Ret r ∧ zlen r = n.
Proof.
  intros Hg Hmin Hsize Hn Hs Hfit. destruct (read_each_ret (fun i => g (start + u32 (i * size))) (seqZ 0 n)) as (r & E & Hr).
  - intros i Hi%elem_of_seqZ. rewrite (product_fits i n) by lia.
    pose proof (entry_in i n size min ltac:(lia) ltac:(lia) ltac:(lia)). apply Hg; nia.
  - exists r. split; [done|]. rewrite Hr, length_seqZ. lia.
Qed.
End Entries.

Section Load.
Variable calloc : Z → bool.

(** The limits of a class. *)
Definition class_ok (e : elf_info) : Prop :=
  elf_class e = 32 ∧ header_ok SIZEOF_PHDR32 SIZEOF_SHDR32 (2 ^ 32) (hdr e) ∨
  elf_class e = 64 ∧ header_ok SIZEOF_PHDR64 SIZEOF_SHDR64 (2 ^ 63) (hdr e).

(** [elf] after the header was read. *)
Definition in_tables (f : file) (e : elf_info) : Prop :=
  class_ok e ∧ p_hdr_ent e = e_phoff (hdr e) ∧ s_hdr_ent e = e_shoff (hdr e) ∧
  e_phoff (hdr e) + e_phnum (hdr e) * e_phentsize (hdr e) <= zlen f ∧
  e_shoff (hdr e) + e_shnum (hdr e) * e_shentsize (hdr e) <= zlen f ∧ e_shstrndx (hdr e) < e_shnum (hdr e).

Lemma read_header_ret f e : bytes f → elf_size e = zlen f → elf_class e = 32 ∨ elf_class e = 64 →
  (if elf_class e =? 64 then SIZEOF_EHDR64 else SIZEOF_EHDR32) <= zlen f →
  (elf_class e = 64 → le (slice f 32 8) < 2 ^ 63 ∧ le (slice f 40 8) < 2 ^ 63) →
  ∃ r e', elf_read_elf f e = Ret (r, e') ∧ (r = 0 → elf_is_valid_header e' = 0 → in_tables f e').
Proof.
  intros Hb Hs Hc Hl H64. unfold elf_read_elf. destruct Hc as [Hc|Hc]; rewrite Hc in *; cbn [Z.eqb Pos.eqb] in *.
  - destruct (read_elf32_ret f e Hb Hl) as (r & h & -> & Hok). mstep. destruct r; cbn [truth negb Z.eqb].
    2,3: do 2 eexists; (split; [done|]); lia.
    do 2 eexists. split; [done|]. intros _ Hv. pose proof (Hok eq_refl) as Hh.
    destruct (valid_header SIZEOF_PHDR32 SIZEOF_SHDR32 (2 ^ 32) _ ltac:(done) ltac:(done) ltac:(lia) Hv Hh) as (? & ? & ?).
    cbn [hdr set_ents set_hdr elf_size] in *. rewrite Hs in *. unfold in_tables, class_ok. cbn. auto 10.
  - destruct (H64 eq_refl). destruct (read_elf64_ret f e Hb Hl) as (r & h & -> & Hok); [done..|]. mstep.
    destruct r; cbn [truth negb Z.eqb].
    2,3: do 2 eexists; (split; [done|]); lia.
    do 2 eexists. split; [done|]. intros _ Hv. pose proof (Hok eq_refl) as Hh.
    destruct (valid_header SIZEOF_PHDR64 SIZEOF_SHDR64 (2 ^ 63) _ ltac:(done) ltac:(done) ltac:(lia) Hv Hh) as (? & ? & ?).
    cbn [hdr set_ents set_hdr elf_size] in *. rewrite Hs in *. unfold in_tables, class_ok. cbn. auto 10.
Qed.

Lemma read_ph_ret f e : bytes f → in_tables f e →
  elf_read_ph calloc f e = Ret (- ENOMEM, e) ∨
  ∃ l, elf_read_ph calloc f e = Ret (0, set_phs e (Some l)) ∧ zlen l = e_phnum (hdr e).
Proof.
  intros Hb (Hc & Hp & _ & Hfit & _). unfold elf_read_ph. destruct (calloc _); cbn [negb]; [right|by left].
  cbv zeta. cbn [set_phs elf_class].
  destruct Hc as [[-> [Hpo _ Hpe _ Hpn _ _]]|[-> [Hpo _ Hpe _ Hpn _ _]]]; cbn [Z.eqb Pos.eqb].
  - destruct (read_table f (phdr32 f) SIZEOF_PHDR32 (e_phoff (hdr e)) (e_phnum (hdr e)) (e_phentsize (hdr e)))
      as (l & E & Hl); [apply (phdr32_ret f Hb)|unfold SIZEOF_PHDR32 in *; lia..|].
    exists l. unfold elf_read_ph32, ph_at. cbn [set_phs hdr p_hdr_ent]. rewrite Hp, E. done.
  - destruct (read_table f (phdr64 f) SIZEOF_PHDR64 (e_phoff (hdr e)) (e_phnum (hdr e)) (e_phentsize (hdr e)))
      as (l & E & Hl); [apply (phdr64_ret f Hb)|unfold SIZEOF_PHDR64 in *; lia..|].
    exists l. unfold elf_read_ph64, ph_at. cbn [set_phs hdr p_hdr_ent]. rewrite Hp, E. done.
Qed.

Lemma read_shs_ret f e : bytes f → in_tables f e →
  elf_read_shs calloc f e = Ret (- ENOMEM, e) ∨
  ∃ l o n, elf_read_shs calloc f e = Ret (0, set_shstr (set_shs e (Some l)) o n) ∧ zlen l = e_shnum (hdr e).
Proof.
  intros Hb (Hc & _ & Hs & _ & Hfit & Hx). unfold elf_read_shs. destruct (calloc _); cbn [negb]; [right|by left].
  assert (∃ l, (if elf_class e =? 32 then e ← elf_read_shs32 f e; Ret (0, e)
             else if elf_class e =? 64 then e ← elf_read_shs64 f e; Ret (0, e)
             else Ret (- EINVAL, e)) = Ret (0, set_shs e (Some l)) ∧ zlen l = e_shnum (hdr e)) as (l & E & Hl).
  { destruct Hc as [[-> [_ Hpo _ Hpe _ Hpn _]]|[-> [_ Hpo _ Hpe _ Hpn _]]]; cbn [Z.eqb Pos.eqb].
    - destruct (read_table f (shdr32 f) SIZEOF_SHDR32 (e_shoff (hdr e)) (e_shnum (hdr e)) (e_shentsize (hdr e)))
        as (l & E & Hl); [apply (shdr32_ret f Hb)|unfold SIZEOF_SHDR32 in *; lia..|].
      exists l. unfold elf_read_shs32, sh_at. rewrite Hs, E. done.
    - destruct (read_table f (shdr64 f) SIZEOF_SHDR64 (e_shoff (hdr e)) (e_shnum (hdr e)) (e_shentsize (hdr e)))
        as (l & E & Hl); [apply (shdr64_ret f Hb)|unfold SIZEOF_SHDR64 in *; lia..|].
      exists l. unfold elf_read_shs64, sh_at. rewrite Hs, E. done. }
  assert (0 <= e_shstrndx (hdr e)) by (destruct Hc as [[_ []]|[_ []]]; done).
  destruct (lookup_lt_is_Some_2 l (Z.to_nat (e_shstrndx (hdr e)))) as (s & Es); [lia|].
  exists l, (sh_offset s), (sh_size s). split; [|done].
  unfold elf_read_shs32, elf_read_shs64, sh_at in *. cbn [set_shs elf_class hdr s_hdr_ent] in *.
  destruct (elf_class e =? 32); [|destruct (elf_class e =? 64); [|done]].
  all: destruct (read_each _ _) as [l'| |]; [|done..]; mstep_in E; mstep; injection E as ->; cbn [truth negb Z.eqb set_shs shs hdr].
  all: mstep; unfold zget; rewrite (proj2 (Z.ltb_ge _ _)) by lia; rewrite Es; done.
Qed.
End Load.

(** ** Properties *)

(** C21: reading an ELF file never leaves it.  A file with a whole ELF header, whose tables begin
    below 2^63 when it is of the 64-bit class (any offset will do when it is of the other),
    whatever else its bytes are, is either refused or read: the tables of the program and section
    headers that [elf_load] accepts lie in the file, each with as many entries as the
    header says, and the section of the names is one of them. *)
Theorem elf_load_in_bounds calloc elf f (Hb : bytes f) (Hmin : 5 <= zlen f)
    (Hlen : (if le (slice f EI_CLASS 1) =? ELFCLASS64 then SIZEOF_EHDR64 else SIZEOF_EHDR32) <= zlen f)
    (H64 : le (slice f EI_CLASS 1) = ELFCLASS64 → le (slice f 32 8) < 2 ^ 63 ∧ le (slice f 40 8) < 2 ^ 63) :
  ∃ r e, elf_load calloc elf f = Ret (r, e) ∧
    (r = 0 → ∃ lp ls, phs e = Some lp ∧ shs e = Some ls ∧ zlen lp = e_phnum (hdr e) ∧ zlen ls = e_shnum (hdr e) ∧
      e_phoff (hdr e) + e_phnum (hdr e) * e_phentsize (hdr e) <= zlen f ∧
      e_shoff (hdr e) + e_shnum (hdr e) * e_shentsize (hdr e) <= zlen f ∧
      0 <= e_shstrndx (hdr e) < e_shnum (hdr e)).
Proof.
  unfold elf_load. destruct (get_class_ret f Hb Hmin) as (r & c & -> & Hc). mstep.
  destruct r as [|r|r]; cbn [truth negb Z.eqb]; [|do 2 eexists; split; [done|lia]..].
  destruct (read_header_ret f (set_class (set_buf (elf_init elf) true (zlen f)) (default 0 c)) Hb) as (r & e & E & Ht).
  1-4: destruct Hc as [[? _]|[(_ & -> & E)|(_ & -> & E)]]; [done|..]; rewrite E in *; cbn in *; auto; done.
  destruct c as [c|]; [|destruct Hc as [[? _]|[(_ & ? & _)|(_ & ? & _)]]; done]. mstep. cbn [default from_option id] in E. rewrite E. mstep.
  destruct r as [|r|r]; cbn [truth negb Z.eqb]; [|do 2 eexists; split; [done|lia]..].
  destruct (Z.eq_dec (elf_is_valid_header e) 0) as [Hv|Hv].
  2: { unfold truth. rewrite (proj2 (Z.eqb_neq _ _) Hv). do 2 eexists. split; [done|lia]. }
  rewrite Hv. cbn [truth negb Z.eqb]. specialize (Ht eq_refl Hv).
  destruct (read_ph_ret calloc f e Hb Ht) as [->|(lp & -> & Hlp)]; mstep; [do 2 eexists; by split|].
  cbn [truth negb Z.eqb].
  destruct (read_shs_ret calloc f (set_phs e (Some lp)) Hb) as [->|(ls & o & n & -> & Hls)]; [exact Ht| |]; mstep.
  - do 2 eexists. by split.
  - do 2 eexists. split; [done|]. intros _. exists lp, ls. destruct Ht as (Hc' & _ & _ & Hp & Hs & Hx).
    repeat (split; [done|]). split; [|done]. by destruct Hc' as [[_ []]|[_ []]].
Qed.

(** A name of section: the string at its offset. *)
Definition named (f : file) (e : elf_info) (s : sec_header) (name : list Z) : Prop :=
  ∃ o, get_sh_name e (sh_name s) = Some o ∧ same_string f o name = Ret true.

Lemma find_loop_ret f e name l s : name ≠ UNKNOWN_NAME → find_loop f e name l = Ret (Some s) → s ∈ l ∧ named f e s name.
Proof.
  intros Hn. induction l as [|x l IH]; [done|]. cbn [find_loop]. destruct (get_sh_name e (sh_name x)) as [o|] eqn:Eo.
  - destruct (same_string f o name) as [[]| |] eqn:Es; mstep; [|..|done|done].
    + intros [= ->]. split; [left|by exists o].
    + intros H. destruct (IH H). split; [by right|done].
  - rewrite bool_decide_eq_false_2 by done. mstep. intros H. destruct (IH H). split; [by right|done].
Qed.

(** What [embed_auxv] does when it succeeds. *)
Lemma embed_auxv_ret calloc elf pad f f' e' : embed_auxv calloc elf pad f = Ret (0, f', e') →
  ∃ e sec l, elf_load calloc elf f = Ret (0, e) ∧ e' = elf_fini e ∧ shs e = Some l ∧ sec ∈ l ∧ named f e sec AUX_SECTION ∧
    let h := hdr e in
    u64 (AUX_DATA_SIZE + e_phoff h + ph_size h) <= sh_size sec ∧
    ∃ f1, fwrite f (sh_offset sec) (aux_bytes pad (mk_aux_data 1 (e_phentsize h) (e_phnum h) (ph_size h))) = Ret f1 ∧
      fcopy f1 (sh_offset sec + AUX_DATA_SIZE) (u64 (e_phoff h + ph_size h)) = Ret f'.
Proof.
  unfold embed_auxv. destruct (elf_load calloc elf f) as [[r e]| |]; mstep; [|done..].
  destruct (Z.eqb_spec r 0) as [->|]; [|unfold truth; rewrite (proj2 (Z.eqb_neq r 0)) by done; cbn; intros [=]].
  cbn [truth negb Z.eqb]. unfold find_shs. destruct (shs e) as [l|] eqn:El; mstep; [|done].
  destruct (find_loop f e AUX_SECTION l) as [[sec|]| |] eqn:Ef; mstep; cbn [truth negb Z.eqb Z.opp EINVAL]; [|try done..].
  destruct (find_loop_ret _ _ AUX_SECTION _ _ ltac:(done) Ef). cbn [phdr_size].
  destruct (Z.ltb_spec (sh_size sec) (u64 (AUX_DATA_SIZE + e_phoff (hdr e) + ph_size (hdr e)))); [done|].
  destruct (fwrite _ _ _) as [f1| |] eqn:E1; mstep; [|done..].
  destruct (fcopy _ _ _) as [f2| |] eqn:E2; mstep; [|done..].
  intros [= <- <-]. exists e, sec, l. repeat (split; [done|]). by exists f1.
Qed.

(** The two copies, for a file of less than 2^63 bytes: the structure at [o], and [n] bytes of the start behind it. *)
Lemma embed_auxv_copies calloc elf pad f f' e' : zlen f < 2 ^ 63 → embed_auxv calloc elf pad f = Ret (0, f', e') →
  ∃ e sec l, elf_load calloc elf f = Ret (0, e) ∧ e' = elf_fini e ∧ shs e = Some l ∧ sec ∈ l ∧ named f e sec AUX_SECTION ∧
    let o := sh_offset sec in let n := u64 (e_phoff (hdr e) + ph_size (hdr e)) in
    let a := mk_aux_data 1 (e_phentsize (hdr e)) (e_phnum (hdr e)) (ph_size (hdr e)) in
    AUX_DATA_SIZE + n <= sh_size sec ∧ 0 <= o ∧ 0 <= n <= o + AUX_DATA_SIZE ∧ o + AUX_DATA_SIZE + n <= zlen f ∧
    let f1 := put f o (aux_bytes pad a) in f' = put f1 (o + AUX_DATA_SIZE) (slice f1 0 n).
Proof.
  intros Hf (e & sec & l & El & -> & Hl & Hs & Hn & Hsz & f1 & E1 & E2)%embed_auxv_ret.
  exists e, sec, l. repeat (split; [done|]). cbv zeta.
  set (n := u64 (e_phoff (hdr e) + ph_size (hdr e))) in *.
  assert (0 <= n < 2 ^ 64) by (subst n; unfold uwrap; dlia).
  unfold fwrite in E1. destruct (in_file _ _ _) eqn:Hi; [|done]. apply in_fileP in Hi.
  rewrite length_aux_bytes in Hi. injection E1 as <-.
  assert (AUX_DATA_SIZE + n < 2 ^ 64 → AUX_DATA_SIZE + n <= sh_size sec) as Hfit.
  { intros Hw. revert Hsz. rewrite <-Z.add_assoc. unfold uwrap. rewrite <-Zplus_mod_idemp_r.
    fold (u64 (e_phoff (hdr e) + ph_size (hdr e))). fold n. rewrite Z.mod_small by (unfold AUX_DATA_SIZE in *; lia). done. }
  unfold fcopy in E2. destruct (Z.eqb_spec n 0) as [E|].
  - injection E2 as <-. split; [apply Hfit; unfold AUX_DATA_SIZE; lia|]. unfold AUX_DATA_SIZE in *. repeat (split; [lia|]).
    rewrite E. symmetry. apply put_nil. lia.
  - destruct (_ && _) eqn:H0 in E2; [|done]. apply andb_prop in H0 as [H0 H2]. apply andb_prop in H0 as [H0 H1].
    apply in_fileP in H0, H1. apply Z.leb_le in H2. injection E2 as <-.
    rewrite length_put in * by (rewrite ?length_aux_bytes; lia). unfold AUX_DATA_SIZE in *.
    split; [apply Hfit; lia|]. repeat (split; [lia|]). done.
Qed.

(** An error leaves the file alone. *)
Lemma embed_auxv_error calloc elf pad f r f' e' : r ≠ 0 → embed_auxv calloc elf pad f = Ret (r, f', e') → f' = f.
Proof.
  intros Hr. unfold embed_auxv. destruct (elf_load calloc elf f) as [[r0 e]| |]; mstep; [|done..].
  destruct (truth r0); [congruence|]. destruct (find_shs _ _ _) as [[r1 sec]| |]; mstep; [|done..].
  destruct (truth r1); [congruence|]. destruct sec as [sec|]; mstep; [|done].
  case_match; [congruence|]. destruct (fwrite _ _ _); mstep; [|done..]. destruct (fcopy _ _ _); mstep; [|done..].
  intros [= <- _ _]. done.
Qed.

(** C20: the tool touches the section [.auxdata] and nothing else.  Whenever [embed_auxv]
    returns, the file keeps its length; if it returns an error, it has not been changed; if it
    returns 0, the two arrays of headers are freed and every byte outside the section that
    is called [.auxdata] is what it was, for any file of less than 2^63 bytes, even one
    made to mislead it. *)
Theorem embed_auxv_frame calloc elf pad f r f' e' (Hf : zlen f < 2 ^ 63)
    (E : embed_auxv calloc elf pad f = Ret (r, f', e')) :
  length f' = length f ∧
  (r ≠ 0 → f' = f) ∧
  (r = 0 → phs e' = None ∧ shs e' = None ∧ ∃ e sec l, elf_load calloc elf f = Ret (0, e) ∧
    shs e = Some l ∧ sec ∈ l ∧ named f e sec AUX_SECTION ∧
    (∀ i, 0 <= i → ¬ (sh_offset sec <= i < sh_offset sec + sh_size sec) → f' !! Z.to_nat i = f !! Z.to_nat i)).
Proof.
  destruct (Z.eq_dec r 0) as [->|Hr].
  - destruct (embed_auxv_copies _ _ _ _ _ _ Hf E) as (e & sec & l & El & -> & Hl & Hs & Hn & Hsz & Ho & Hn0 & Hfit & ->).
    cbv zeta in *. set (n := u64 _) in *. set (f1 := put f _ _) in *.
    assert (length f1 = length f) as H1 by (unfold f1; apply length_put; rewrite ?length_aux_bytes; lia).
    assert (zlen (slice f1 0 n) = n) as Hsl by (apply length_slice; unfold AUX_DATA_SIZE in *; lia).
    split; [rewrite length_put; [done|..]; rewrite ?Hsl; unfold AUX_DATA_SIZE in *; lia|]. split; [done|].
    intros _. do 2 (split; [done|]). exists e, sec, l. repeat (split; [done|]). intros i Hi Hout.
    rewrite put_lookup by (rewrite ?Hsl; unfold AUX_DATA_SIZE in *; lia).
    rewrite Hsl. replace ((_ <=? i) && _) with false.
    2: { symmetry. apply andb_false_iff. rewrite Z.leb_gt, Z.ltb_ge. unfold AUX_DATA_SIZE in *. lia. }
    subst f1. rewrite put_lookup by (rewrite ?length_aux_bytes; lia). rewrite length_aux_bytes.
    replace ((_ <=? i) && _) with false; [done|].
    symmetry. apply andb_false_iff. rewrite Z.leb_gt, Z.ltb_ge. unfold AUX_DATA_SIZE in *. lia.
  - split; [by rewrite (embed_auxv_error _ _ _ _ _ _ _ Hr E)|]. split; [intros _; by eapply embed_auxv_error|done].
Qed.

(** ** From the tool to the main function *)

(** What the header says of the file it was read from. *)
Definition header_of (f : file) (e : elf_info) : Prop :=
  (0 <= e_phentsize (hdr e) < 2 ^ 16 ∧ 0 <= e_phnum (hdr e) < 2 ^ 16) ∧ 0 <= e_phoff (hdr e) ∧
  (elf_class e = 32 ∧ e_phoff (hdr e) = le (slice f 28 4) ∨
   elf_class e = 64 ∧ e_phoff (hdr e) = le (slice f 32 8)).

(** Take the next read of a hypothesis apart. *)
Ltac read_in H :=
  match type of H with
  | context [fread ?n ?f ?o] =>
    let E := fresh "E" in let v := fresh "v" in
    destruct (fread n f o) as [v| |] eqn:E; mstep_in H; [|discriminate H..]; apply fread_ret in E as (? & ? & ?)
  end.

Lemma slice_range f o n : bytes f → 0 <= o → 0 <= n → o + n <= zlen f → 0 <= le (slice f o n) < 256 ^ n.
Proof. intros Hb ???. pose proof (le_range _ (slice_bytes f o n Hb)) as H3. by rewrite length_slice in H3. Qed.

Lemma read_elf_header f e e' : bytes f → elf_read_elf f e = Ret (0, e') → header_of f e'.
Proof.
  intros Hb. unfold elf_read_elf. destruct (Z.eqb_spec (elf_class e) 32) as [Hc|Hc].
  - unfold elf_read_elf32. intros H. repeat read_in H. subst. repeat case_match; try discriminate.
    injection H as <-. unfold header_of. cbn [hdr set_ents set_hdr e_phentsize e_phnum e_phoff elf_class].
    pose proof (slice_range f 42 2 Hb). pose proof (slice_range f 44 2 Hb). pose proof (slice_range f 28 4 Hb).
    split; [lia|]. split; [lia|]. by left.
  - destruct (Z.eqb_spec (elf_class e) 64) as [Hc'|Hc']; [|mstep; intros [=]].
    unfold elf_read_elf64. intros H. repeat read_in H. subst. repeat case_match; try discriminate.
    injection H as <-. unfold header_of. cbn [hdr set_ents set_hdr e_phentsize e_phnum e_phoff elf_class].
    pose proof (slice_range f 54 2 Hb). pose proof (slice_range f 56 2 Hb). pose proof (slice_range f 32 8 Hb).
    split; [lia|]. split; [lia|]. by right.
Qed.

Lemma read_ph_keeps calloc f e r e' : elf_read_ph calloc f e = Ret (r, e') → hdr e' = hdr e ∧ elf_class e' = elf_class e.
Proof.
  unfold elf_read_ph, elf_read_ph32, elf_read_ph64. cbv zeta. cbn [set_phs elf_class hdr].
  repeat case_match; try (intros [= <- <-]; done).
  all: destruct (read_each _ _); mstep; [|done..]; intros [= <- <-]; done.
Qed.
Lemma read_shs_keeps calloc f e r e' : elf_read_shs calloc f e = Ret (r, e') → hdr e' = hdr e ∧ elf_class e' = elf_class e.
Proof.
  unfold elf_read_shs, elf_read_shs32, elf_read_shs64. cbv zeta. cbn [set_shs elf_class hdr].
  destruct (calloc _); cbn [negb]; [|intros [= <- <-]; done].
  destruct (elf_class e =? 32); [|destruct (elf_class e =? 64); [|mstep; intros [= <- <-]; done]].
  all: destruct (read_each _ _) as [l| |]; mstep; [|done..]; cbn [truth negb Z.eqb set_shs shs hdr]; mstep.
  all: destruct (zget l _); mstep; [|done]; intros [= <- <-]; done.
Qed.

Lemma load_header calloc elf f e : bytes f → elf_load calloc elf f = Ret (0, e) → header_of f e.
Proof.
  intros Hb. unfold elf_load. cbv zeta. destruct (elf_get_class f) as [[r c]| |]; mstep; [|done..].
  destruct (truth r) eqn:Hr; [intros [= -> _]; done|]. destruct c as [c|]; mstep; [|done].
  destruct (elf_read_elf f _) as [[r1 e1]| |] eqn:E1; mstep; [|done..].
  destruct (truth r1) eqn:Hr1; [intros [= -> _]; done|].
  destruct (truth (elf_is_valid_header e1)) eqn:Hv; [intros [= Hx _]; rewrite Hx in Hv; done|].
  destruct (elf_read_ph calloc f e1) as [[r2 e2]| |] eqn:E2; mstep; [|done..].
  destruct (truth r2) eqn:Hr2; [intros [= -> _]; done|].
  destruct (elf_read_shs calloc f e2) as [[r3 e3]| |] eqn:E3; mstep; [|done..].
  destruct (truth r3) eqn:Hr3; [intros [= -> _]; done|]. intros [= <-].
  assert (r1 = 0) as -> by (unfold truth in Hr1; bsplit; done).
  apply read_ph_keeps in E2 as [? E2]. apply read_shs_keeps in E3 as [? E3].
  unfold header_of. replace (hdr e3) with (hdr e1) by congruence. rewrite E3, E2. by apply read_elf_header in E1.
Qed.

(** [n] bytes of the file at [o] lie in memory at [a]. *)
Definition loaded (f : file) (o n : Z) (m : mem) (a : Z) : Prop :=
  ∀ i, 0 <= i < n → f !! Z.to_nat (o + i) = Some (load8 m (a + i)).

Lemma slice_cons f o n b : 0 <= o → 0 <= n → f !! Z.to_nat o = Some b → slice f o (n + 1) = b :: slice f (o + 1) n.
Proof.
  intros Ho Hn Hb. unfold slice. rewrite (drop_S f b (Z.to_nat o)) by done.
  replace (Z.to_nat (n + 1)) with (S (Z.to_nat n)) by lia. cbn [firstn take]. do 3 f_equal. lia.
Qed.

Lemma load_slice f m k : ∀ o a, 0 <= o → (∀ i, 0 <= i < Z.of_nat k → f !! Z.to_nat (o + i) = Some (load8 m (a + i))) →
  load_le k m a = le (slice f o (Z.of_nat k)).
Proof.
  induction k as [|k IH]; intros o a Ho H; [done|]. rewrite Nat2Z.inj_succ. unfold Z.succ.
  rewrite (slice_cons f o (Z.of_nat k) (load8 m a)); [|lia..|]; cycle 1.
  { specialize (H 0 ltac:(lia)). rewrite !Z.add_0_r in H. done. }
  cbn [load_le le]. f_equal. f_equal. apply IH; [lia|]. intros i Hi.
  specialize (H (i + 1) ltac:(lia)). rewrite <-!Z.add_assoc, !(Z.add_comm 1). done.
Qed.

Lemma loaded_field f o n m a p k : loaded f o n m a → 0 <= o → 0 <= p → p + Z.of_nat k <= n →
  load_le k m (a + p) = le (slice f (o + p) (Z.of_nat k)).
Proof.
  intros H Ho Hp Hk. apply load_slice; [lia|]. intros i Hi. rewrite <-!Z.add_assoc. apply H. lia.
Qed.

Lemma slice_slice f o n p k : 0 <= o → 0 <= p → 0 <= k → p + k <= n → slice (slice f o n) p k = slice f (o + p) k.
Proof.
  intros. apply slice_eq; [lia..|]. intros i Hi. rewrite slice_lookup by lia.
  rewrite (proj2 (Z.ltb_lt _ _)) by lia. f_equal. lia.
Qed.

(** The layout of the changed section. *)
Lemma embedded_section f f1 f' o n a pad : 0 <= o → 0 <= n <= o + AUX_DATA_SIZE → o + AUX_DATA_SIZE + n <= zlen f →
  f1 = put f o (aux_bytes pad a) → f' = put f1 (o + AUX_DATA_SIZE) (slice f1 0 n) →
  (∀ p k, 0 <= p → 0 <= k → p + k <= AUX_DATA_SIZE → slice f' (o + p) k = slice (aux_bytes pad a) p k) ∧
  (∀ p k, 0 <= p → 0 <= k → p + k <= n → p + k <= o → slice f' (o + AUX_DATA_SIZE + p) k = slice f p k).
Proof.
  intros Ho Hn Hfit -> ->. set (f1 := put f _ _). pose proof (length_aux_bytes pad a) as Hl.
  assert (length f1 = length f) as H1 by (unfold f1; apply length_put; unfold AUX_DATA_SIZE in *; lia).
  assert (zlen (slice f1 0 n) = n) as Hs by (apply length_slice; unfold AUX_DATA_SIZE in *; lia).
  split; intros p k Hp Hk Hpk.
  - rewrite slice_put_out by (unfold AUX_DATA_SIZE in *; lia). unfold f1.
    rewrite slice_put_in by (unfold AUX_DATA_SIZE in *; lia). f_equal. lia.
  - intros Hpo. rewrite slice_put_in by (unfold AUX_DATA_SIZE in *; lia).
    replace (_ + p - _) with p by lia. rewrite slice_slice by lia. unfold f1.
    rewrite slice_put_out by (unfold AUX_DATA_SIZE in *; lia). done.
Qed.

(** C12: the program headers reach the main function.  When the tool has returned 0, the file
    has a section of the name [.auxdata]; once its bytes are loaded at [k_aux_start], [add_auxs], which builds
    the auxiliary vector, writes the size and the number of the program headers that the ELF
    header of the file gives, and, under [AT_PHDR], an address where the table of the
    program headers lies in memory, byte by byte that of the file.  This is for a file of less than 2^63 bytes, of the
    class of the machine (32 or 64 bits), whose table of program headers begins behind the ELF header (52 bytes, or 64)
    and ends in front of the section; and with room in the array of arguments for the six entries. *)
Theorem embedded_headers_reach_main `{Arch} `{Config} calloc elf pad f f' e
    (Hb : bytes f) (Hf : zlen f < 2 ^ 63) (E : embed_auxv calloc elf pad f = Ret (0, f', e))
    (Hclass : elf_class e = xlen) (Hehdr : (if xlen =? 32 then SIZEOF_EHDR32 else SIZEOF_EHDR64) <= e_phoff (hdr e)) :
  let h := hdr e in
  ∃ ei sec l, elf_load calloc elf f = Ret (0, ei) ∧ shs ei = Some l ∧ sec ∈ l ∧ named f ei sec AUX_SECTION ∧
    ∀ m L m0 env i k_aux_start, loaded f' (sh_offset sec) (sh_size sec) m k_aux_start →
    e_phoff h + e_phnum h * e_phentsize h <= sh_offset sec → i + 12 <= MAX_ARGV →
    let L' := read_aux m k_aux_start L in
    let at_phdr := k_aux_start + AUX_DATA_SIZE + e_phoff h in
    (add_auxs L' m0 (mk_args (argv_base L') env i)).1 =
      write_words m0 (argv_base L' + i * ptr_size)
        [AT_RANDOM; at_random L; AT_PAGESZ; PAGE_SIZE; AT_PHENT; e_phentsize h; AT_PHNUM; e_phnum h; AT_PHDR; at_phdr; 0; 0] ∧
    (∀ j, 0 <= j < e_phnum h * e_phentsize h → f !! Z.to_nat (e_phoff h + j) = Some (load8 m (at_phdr + j))).
Proof.
  destruct (embed_auxv_copies _ _ _ _ _ _ Hf E) as (ei & sec & l & El & -> & Hl & Hs & Hn & Hrest).
  cbn [hdr elf_fini set_buf set_phs set_shs elf_class] in *. cbv zeta in *.
  destruct (load_header _ _ _ _ Hb El) as ([Hpe Hpn] & Hpo & Hraw).
  exists ei, sec, l. repeat (split; [done|]). intros m L m0 env i k_aux Hm Hbefore Hi.
  assert (ph_size (hdr ei) = e_phnum (hdr ei) * e_phentsize (hdr ei)) as Hps
    by (unfold ph_size; apply (product_fits _ (e_phnum (hdr ei))); lia).
  set (o := sh_offset sec) in *. set (n := e_phoff (hdr ei) + e_phnum (hdr ei) * e_phentsize (hdr ei)) in *.
  replace (u64 (e_phoff (hdr ei) + ph_size (hdr ei))) with n in Hrest.
  2: { rewrite Hps. symmetry. apply Z.mod_small. unfold AUX_DATA_SIZE in *. unfold uwrap in *. nia. }
  destruct Hrest as (Hsz & Ho & Hn0 & Hfit & Ef).
  destruct (embedded_section f _ f' o n _ pad Ho Hn0 Hfit eq_refl Ef) as [Haux Hcopy].
  unfold AUX_DATA_SIZE in *. assert (0 <= e_phnum (hdr ei) * e_phentsize (hdr ei)) by nia.
  destruct (aux_bytes_fields pad (mk_aux_data 1 (e_phentsize (hdr ei)) (e_phnum (hdr ei)) (ph_size (hdr ei)))) as (A1 & A2 & A3 & _).
  cbn [valid phent phnum phdr_size] in *.
  assert (∀ p k, 0 <= p → p + Z.of_nat k <= n → p + Z.of_nat k <= o →
    load_le k m (k_aux + 32 + p) = le (slice f p (Z.of_nat k))) as Hhdr.
  { intros p k Hp Hk Hk'. rewrite <-Z.add_assoc. rewrite (loaded_field _ _ _ _ _ (32 + p) k Hm) by lia.
    rewrite Z.add_assoc, Hcopy by lia. done. }
  split.
  - rewrite add_auxs_eq by lia. cbn [fst]. f_equal. unfold auxv, read_aux, AUX_DATA_SIZE.
    cbn [aux_valid aux_phent aux_phnum ehdr_start Args.e_phoff at_random].
    rewrite <-(Z.add_0_r k_aux) at 1. rewrite !(loaded_field _ _ _ _ _ _ _ Hm) by lia.
    rewrite !Haux by lia. change (Z.of_nat 4) with 4. change (Z.of_nat 8) with 8. rewrite A1, A2, A3.
    rewrite !le_le_bytes by (simpl; lia). cbn [truth negb Z.eqb app]. do 10 f_equal.
    unfold SIZEOF_EHDR32, SIZEOF_EHDR64 in Hehdr.
    destruct Hraw as [[Hc ->]|[Hc ->]]; rewrite Hclass in Hc; rewrite Hc in *; cbn [Z.eqb Pos.eqb] in *; by rewrite Hhdr by lia.
  - intros j Hj. pose proof (Hcopy (e_phoff (hdr ei) + j) 1 ltac:(lia) ltac:(lia) ltac:(lia) ltac:(lia)) as Hc.
    specialize (Hm (32 + e_phoff (hdr ei) + j) ltac:(lia)).
    assert (slice f (e_phoff (hdr ei) + j) 1 !! 0%nat = Some (load8 m (k_aux + 32 + e_phoff (hdr ei) + j))) as Hx.
    { rewrite <-Hc, slice_lookup by lia. cbn [Z.of_nat Z.ltb Z.compare]. rewrite Z.add_0_r.
      replace (o + 32 + (_ + j)) with (o + (32 + e_phoff (hdr ei) + j)) by lia.
      rewrite Hm. do 2 f_equal. lia. }
    rewrite slice_lookup in Hx by lia. cbn in Hx. by rewrite Z.add_0_r in Hx.
Qed.

(** ** Examples *)

(** A file of the 64-bit class: the header, one program header, [.auxdata] at 120, the names
    at 272 and three section headers at 296. *)
Definition demo_shdr (name off size : Z) : list Z :=
  le_bytes 4 name ++ le_bytes 4 1 ++ le_bytes 8 0 ++ le_bytes 8 0 ++ le_bytes 8 off ++ le_bytes 8 size ++
  le_bytes 4 0 ++ le_bytes 4 0 ++ le_bytes 8 0 ++ le_bytes 8 0.
Definition demo_elf_at (phoff : Z) : file :=
  ELFMAG ++ [2] ++ repeat 0 11 ++
  le_bytes 2 ET_EXEC ++ le_bytes 2 EM_RISCV ++ le_bytes 4 1 ++ le_bytes 8 0x80000000 ++ le_bytes 8 phoff ++
  le_bytes 8 296 ++ le_bytes 4 0 ++ le_bytes 2 64 ++ le_bytes 2 56 ++ le_bytes 2 1 ++ le_bytes 2 64 ++ le_bytes 2 3 ++
  le_bytes 2 2 ++
  (le_bytes 4 1 ++ le_bytes 4 5 ++ le_bytes 8 0x1000 ++ le_bytes 8 0x80000000 ++ le_bytes 8 0x80000000 ++
   le_bytes 8 0x200 ++ le_bytes 8 0x200 ++ le_bytes 8 8) ++
  repeat 0 152 ++
  (0 :: AUX_SECTION ++ [0x2e; 0x73; 0x68; 0x73; 0x74; 0x72; 0x74; 0x61; 0x62; 0] ++ repeat 0 4) ++
  demo_shdr 0 0 0 ++ demo_shdr 1 120 152 ++ demo_shdr 10 272 20.
Definition demo_elf : file := demo_elf_at 64.
Definition stack_elf : elf_info := mk_elf 0 false 0 0 0 0 0 (mk_header 0 0 0 0 0 0 0 0 0 0 0 0 0) None None.
Definition embedded : exec (Z * file * elf_info) := embed_auxv (fun _ => true) stack_elf 0 demo_elf.
Definition demo_after : file := match embedded with Ret (_, f, _) => f | _ => [] end.
Definition demo_elf_end : elf_info := match embedded with Ret (_, _, e) => e | _ => stack_elf end.

Lemma demo_bytes : bytes demo_elf.
Proof. apply (bool_decide_unpack _). vm_compute. exact I. Qed.

Lemma embedded_eq : embed_auxv (fun _ => true) stack_elf 0 demo_elf = Ret (0, demo_after, demo_elf_end).
Proof. vm_compute. reflexivity. Qed.

(** Errors: a file that is cut off, one without the section, one without memory. *)
Example elf_errors :
  elf_get_class [0x7f; 0x45; 0x4c; 0x47; 2] = Ret (- EINVAL, None) ∧
  match embed_auxv (fun _ => true) stack_elf 0 (put demo_elf 272 (repeat 0 20)) with Ret (r, _, _) => r | _ => 0 end = - EINVAL ∧
  match embed_auxv (fun n => negb (n =? 3)) stack_elf 0 demo_elf with
  | Ret (r, f, e) => r = - EINVAL ∧ held (phs e) = 1 | _ => False end.
Proof. vm_compute. repeat split. Qed.

(** The sum that is compared with the size of the file wraps: a table that begins below
    2^64 by less than its size is accepted, and its entries are read outside the file. *)
Lemma elf_offset_wraps :
  (∃ e, elf_read_elf (demo_elf_at (2 ^ 64 - 40)) (set_class (set_buf stack_elf true (zlen demo_elf)) 64) = Ret (0, e) ∧
        elf_is_valid_header e = 0) ∧
  elf_load (fun _ => true) stack_elf (demo_elf_at (2 ^ 64 - 40)) = Undef.
Proof. split; [eexists; split; [vm_compute; reflexivity|]|]; vm_compute; reflexivity. Qed.

(** A file that is shorter than the bytes that are looked at is read past its end. *)
Lemma elf_too_short : elf_load (fun _ => true) stack_elf ELFMAG = Undef.
Proof. vm_compute. reflexivity. Qed.

Lemma elf_load_in_bounds_witness :
  ∃ r e, elf_load (fun _ => true) stack_elf demo_elf = Ret (r, e) ∧ (r = 0 → zlen (default [] (phs e)) = e_phnum (hdr e)).
Proof.
  destruct (elf_load_in_bounds (fun _ => true) stack_elf demo_elf demo_bytes) as (r & e & E & H).
  - vm_compute. congruence.
  - vm_compute. congruence.
  - vm_compute. split; reflexivity.
  - exists r, e. split; [exact E|]. intros Hr. destruct (H Hr) as (lp & ls & -> & _ & Hl & _). exact Hl.
Defined.

Lemma embed_auxv_frame_witness : length demo_after = length demo_elf ∧ phs demo_elf_end = None.
Proof.
  destruct (embed_auxv_frame (fun _ => true) stack_elf 0 demo_elf 0 demo_after demo_elf_end) as (Hl & _ & H).
  - vm_compute. reflexivity.
  - exact embedded_eq.
  - split; [exact Hl|]. by destruct (H eq_refl).
Defined.

(** A file of the 32-bit class, as a linker makes it: the table at 52, [.auxdata] at 84, the names at 200 and the sections at 220. *)
Definition demo_shdr32 (name off size : Z) : list Z :=
  le_bytes 4 name ++ le_bytes 4 1 ++ le_bytes 4 0 ++ le_bytes 4 0 ++ le_bytes 4 off ++ le_bytes 4 size ++
  le_bytes 4 0 ++ le_bytes 4 0 ++ le_bytes 4 0 ++ le_bytes 4 0.
Definition demo_elf32 : file :=
  ELFMAG ++ [1] ++ repeat 0 11 ++
  le_bytes 2 ET_EXEC ++ le_bytes 2 EM_RISCV ++ le_bytes 4 1 ++ le_bytes 4 0x80000000 ++ le_bytes 4 52 ++
  le_bytes 4 220 ++ le_bytes 4 0 ++ le_bytes 2 52 ++ le_bytes 2 32 ++ le_bytes 2 1 ++ le_bytes 2 40 ++ le_bytes 2 3 ++
  le_bytes 2 2 ++
  (le_bytes 4 1 ++ le_bytes 4 0x1000 ++ le_bytes 4 0x80000000 ++ le_bytes 4 0x80000000 ++
   le_bytes 4 0x200 ++ le_bytes 4 0x200 ++ le_bytes 4 5 ++ le_bytes 4 8) ++
  repeat 0 116 ++
  (0 :: AUX_SECTION ++ [0x2e; 0x73; 0x68; 0x73; 0x74; 0x72; 0x74; 0x61; 0x62; 0]) ++
  demo_shdr32 0 0 0 ++ demo_shdr32 1 84 116 ++ demo_shdr32 10 200 20.
Definition embedded32 : exec (Z * file * elf_info) := embed_auxv (fun _ => true) stack_elf 0 demo_elf32.
Definition demo_after32 : file := match embedded32 with Ret (_, f, _) => f | _ => [] end.
Definition demo_elf_end32 : elf_info := match embedded32 with Ret (_, _, e) => e | _ => stack_elf end.

Lemma demo_bytes32 : bytes demo_elf32.
Proof. apply (bool_decide_unpack _). vm_compute. exact I. Qed.
Lemma embedded_eq32 : embed_auxv (fun _ => true) stack_elf 0 demo_elf32 = Ret (0, demo_after32, demo_elf_end32).
Proof. vm_compute. reflexivity. Qed.

(** [n] bytes of [f] from [o] on are loaded at 0x2000. *)
Definition load_at (f : file) (o n : Z) : mem := list_to_map (zip (seqZ 0x2000 n) (slice f o n)).
Definition is_loaded (f : file) (o n : Z) : bool :=
  forallb (fun j => bool_decide (f !! Z.to_nat (o + j) = Some (load8 (load_at f o n) (0x2000 + j)))) (seqZ 0 n).
Lemma load_at_loaded f o n : is_loaded f o n = true → loaded f o n (load_at f o n) 0x2000.
Proof.
  unfold is_loaded. rewrite forallb_forall. intros H i Hi. apply (bool_decide_eq_true_1 _), H. apply list_elem_of_In, elem_of_seqZ. lia.
Qed.

(** Of the three sections of the examples only the second has the name. *)
Ltac second_section El Hl Hs Hn :=
  vm_compute in El; injection El as <-; injection Hl as <-; destruct Hn as (o & Ho & Hn);
  apply elem_of_cons in Hs as [->|Hs]; [vm_compute in Ho; injection Ho as <-; vm_compute in Hn; discriminate Hn|];
  apply elem_of_cons in Hs as [->|Hs]; [reflexivity|];
  apply list_elem_of_singleton in Hs as ->; vm_compute in Ho; injection Ho as <-; vm_compute in Hn; discriminate Hn.

(** The word of [AT_PHDR] is the last but two. *)
Definition phdr_word `{Arch} `{Config} (m : mem) : option Z :=
  (add_auxs (read_aux m 0x2000 args_layout) ∅ (mk_args (argv_base (read_aux m 0x2000 args_layout)) 0 2)).1 !!
    (argv_base args_layout + 11 * ptr_size).

Lemma embedded_headers_reach_main_witness :
  ((∀ j, 0 <= j < 56 → demo_elf !! Z.to_nat (64 + j) = Some (load8 (load_at demo_after 120 152) (0x2060 + j))) ∧
   @phdr_word rv64 qemu_virt (load_at demo_after 120 152) = Some 0x60) ∧
  ((∀ j, 0 <= j < 32 → demo_elf32 !! Z.to_nat (52 + j) = Some (load8 (load_at demo_after32 84 116) (0x2054 + j))) ∧
   @phdr_word rv32 ns31_arty (load_at demo_after32 84 116) = Some 0x54).
Proof.
  split.
  - destruct (@embedded_headers_reach_main rv64 qemu_virt (fun _ => true) stack_elf 0 demo_elf demo_after demo_elf_end)
      as (ei & sec & l & El & Hl & Hs & Hn & H); [exact demo_bytes|vm_compute; reflexivity|exact embedded_eq|vm_compute; reflexivity|vm_compute; congruence|].
    assert (sec = mk_sec 1 1 0 0 120 152 0 0 0 0) as -> by second_section El Hl Hs Hn.
    destruct (H (load_at demo_after 120 152) args_layout ∅ 0 2 0x2000) as [Ha Hj];
      [apply load_at_loaded; vm_compute; reflexivity|vm_compute; congruence|vm_compute; congruence|].
    split; [exact Hj|]. unfold phdr_word. rewrite Ha. vm_compute. reflexivity.
  - destruct (@embedded_headers_reach_main rv32 ns31_arty (fun _ => true) stack_elf 0 demo_elf32 demo_after32 demo_elf_end32)
      as (ei & sec & l & El & Hl & Hs & Hn & H); [exact demo_bytes32|vm_compute; reflexivity|exact embedded_eq32|vm_compute; reflexivity|vm_compute; congruence|].
    assert (sec = mk_sec 1 1 0 0 84 116 0 0 0 0) as -> by second_section El Hl Hs Hn.
    destruct (H (load_at demo_after32 84 116) args_layout ∅ 0 2 0x2000) as [Ha Hj];
      [apply load_at_loaded; vm_compute; reflexivity|vm_compute; congruence|vm_compute; congruence|].
    split; [exact Hj|]. unfold phdr_word. rewrite Ha. vm_compute. reflexivity.
Defined.

(** ** Files of the host *)

(** A call that succeeds gives back what it took and changes its own file only; a call that fails
    changes no file. *)
Lemma embed_file_files calloc open_fails mmap_fails fstat elf pad fname h r h' :
  embed_file calloc open_fails mmap_fails fstat elf pad fname h = Ret (r, h') →
  if r =? 0
  then (∃ f f' e, h_files h !! fname = Some f ∧ embed_auxv calloc elf pad f = Ret (0, f', e) ∧
        h' = mk_host (<[fname := f']> (h_files h)) (h_fds h) (h_maps h) (h_arrays h))
  else h_files h' = h_files h.
Proof.
  unfold embed_file. destruct (h_files h !! fname) as [f|] eqn:Ef; [|by intros [= <- <-]].
  destruct (open_fails fname); [by intros [= <- <-]|].
  destruct (truth (fstat fname)) eqn:Hr.
  { intros [= <- <-]. unfold truth in Hr. apply negb_true_iff in Hr. by rewrite Hr. }
  destruct (_ || _); [by intros [= <- <-]|].
  destruct (embed_auxv calloc elf pad f) as [[[r0 f'] e]| |] eqn:E; mstep; [|done..].
  unfold truth. destruct (Z.eqb_spec r0 0) as [->|Hn]; cbn [negb]; intros [= <- <-].
  - destruct (embed_auxv_ret _ _ _ _ _ _ E) as (ei & _ & _ & _ & -> & _). cbn.
    exists f, f', (elf_fini ei). repeat (split; [done|]). f_equal; lia.
  - rewrite (proj2 (Z.eqb_neq _ _) Hn). cbn [h_files]. rewrite (embed_auxv_error _ _ _ _ _ _ _ Hn E). by apply insert_id.
Qed.

(** After an error of [embed_auxv] the descriptor and the mapping stay open and the headers stay
    allocated, while [main] goes on with the next file. *)
Example tool_main_leaks :
  match tool_main (fun _ => true) (fun _ => false) (fun _ => false) (fun _ => 0) stack_elf 0 ["bad"; "good"]%string
    (mk_host {[ "bad"%string := put demo_elf 272 (repeat 0 20); "good"%string := demo_elf ]} 3 0 0) with
  | Ret (r, h) => r = - EINVAL ∧ (h_fds h, h_maps h, h_arrays h) = (4, 1, 2) ∧ h_files h !! "good"%string = Some demo_after
  | _ => False
  end.
Proof. vm_compute. repeat split. Qed.
